(* ===== verification/_CoqProject ===== *)
-Q . S2P
Prelude.v
Bytes.v
F64.v
FloatText.v
Models.v
Features.v
MemoryBudget.v
Token.v
GoJson.v
Serde.v
Codec.v
Validation.v
Wire.v
WorkLedger.v
Pcs.v
Clock.v
Table.v
Storage.v
CoreClient.v
Config.v
Banner.v
State.v
AcceptTask.v
Stream.v
Geo.v
Operator.v
Bid.v
Host.v
HostRun.v
Metrics.v
Cas.v
SampleJson.v
PcsOutbox.v
PcsHandlers.v
ResultJson.v
ResultOutbox.v
Ports.v
Worker.v
Env.v
Frame.v
Turn.v
Stages.v
Node.v
Startup.v
Messages.v
Intake.v
Program.v
System.v
Overlap.v
Outboxes.v
Main.v
TestSupport.v
TestP2p.v
TestStorage.v
TestPcs.v
TestDomain.v
TestApp.v
