(* ===== verification/Prelude.v ===== *)
(** * wqc-node: a verification library

    wqc-node is the daemon that lets a host compute tensor-network slices for the
    WQC orchestrator.  The orchestrator reaches it over signed libp2p streams;
    the node queues the work, runs it one task at a time on the local wqc-core
    process over HTTP, and delivers results and, when it is asked, leaf PCS
    bundles.  SQLite keeps what must survive a crash.  This library models the
    Rust sources under [src/src] and proves what makes them correct.

    ** How the program works, and where each part is

    - [main.rs] reads the environment ([config.rs]), asks wqc-core what it supports,
      finds the orchestrator over HTTP ([infra/orchestrator.rs]), puts the pending
      tasks of the database back in the queue, spawns the worker, the P2P host
      ([transport/p2p/host.rs]) and the background loops, and answers on an admin
      port ([transport/http/handlers.rs]).
    - An announcement arrives by gossip or on a stream
      ([transport/p2p/announce_handler.rs]); if the node supports what the task
      needs and the ledger finds it can be done in time, it mines a lottery ticket
      ([domain/bid.rs]), signs a bid, the operator's key included
      ([domain/operator.rs]), and submits it ([transport/p2p/bid_client.rs]).
    - A dispatch arrives on a stream ([transport/p2p/dispatch_handler.rs]), is
      verified ([domain/p2p.rs]), validated ([domain/validation.rs]), stored
      ([infra/storage.rs]), held in the work ledger ([domain/work.rs]) and queued
      ([application/accept_task.rs]).
    - The worker ([application/worker.rs]) takes tasks from the queue, calls
      wqc-core through its health gate ([infra/core_client.rs]), and gives the
      result to the result outbox ([application/result_outbox.rs]).
    - A delivered result leaves its proof in the PCS outbox
      ([application/pcs_outbox.rs]); a PCS request or an open call
      ([transport/p2p/pcs_*_handler.rs], [application/pcs_open_call.rs]) makes the
      node build the bundle and send it until it is acknowledged.
    - [application/task_prune.rs] deletes old terminal tasks; [infra/metrics.rs]
      counts.

    ** The files, in dependency order

    - [Prelude]: the [result] monad, machine integers, the hint database [wqc] and
      the lemmas on lists and maps that are shared.  [Bytes]: byte strings,
      big-endian integers, UTF-8.  [F64]: binary64 by [SpecFloat], the casts of
      Rust included.  [FloatText]: the decimal texts of floats as [Display] gives
      them (shortest text that reads back).
    - [Models]: [domain/models.rs] and [serde_json::Value].  [Serde]: what serde's
      derived (de)serialisers do, as codecs with laws and combinators for structs,
      options, vectors, maps and field attributes.  [Codec]: the codecs of the
      structs of [domain/models.rs]; [Messages]: those of the messages, the HTTP
      bodies and the stored jobs.
    - [Clock]: the wall clock as each part of the source reads it.
    - [Features] ([domain/features.rs]), [MemoryBudget] ([memory_budget.rs]),
      [Token] ([domain/token.rs]), [Validation] ([domain/validation.rs]).
    - [GoJson] and [Wire]: [domain/p2p.rs], the Go-compatible JSON and the signed
      byte layouts; [Pcs]: [domain/pcs.rs]; [ResultJson]: [domain/result.rs] and
      the wire body of [transport/p2p/result_delivery.rs].
    - [WorkLedger]: [domain/work.rs].  [CoreClient]: [infra/core_client.rs].
      [Config]: [config.rs] and [infra/orchestrator.rs].  [Cas]:
      [infra/cas_client.rs].  [Stream]: [transport/p2p/stream_io.rs] and the
      senders of results and bundles.
    - [Geo]: [domain/geo.rs] and [infra/geoip.rs].  [Operator]:
      [domain/operator.rs], with HKDF-Expand of RFC 5869 as its specification.
      [Bid]: [domain/bid.rs], [transport/p2p/bid_client.rs],
      [transport/p2p/announce_handler.rs].  [Host]: the decisions of the event loop
      of [transport/p2p/host.rs], a function from an event and the host's state to
      actions and a state; [HostRun]: [run] itself, the setup with its gossip
      configuration, protocols and incoming streams, and the loop over what wakes it.
      [Metrics]: [infra/metrics.rs].
    - [Table], [Storage]: [infra/storage.rs].  [Table] is a list of rows with ids,
      dates and a unique key; [Storage] has the statements, each of which fails
      when the next element of [faults] says so, and the abstract specification:
      three finite maps.
    - [State]: [application/state.rs], one record for everything the tasks of the
      node share, the process-wide set of builds in flight included.
    - [AcceptTask], [PcsOutbox], [PcsHandlers], [ResultOutbox], [Worker]: the
      operations of [application] and their stream handlers, as functions from the
      state to an outcome, a state and the list of effects.
    - [Env]: [NodeConfig::from_env] of [config.rs], the numbers [str::parse] reads,
      the settings of the loops and of the client.
    - [Frame]: what each handler leaves alone.  A property of the state that holds
      whatever happens outside the tasks' rows, the queue and the count is kept by
      every bid, open call, PCS request and PCS pass; the worker and the result
      outbox change the row of one task.  [System] is proved against these lemmas.
    - [Ports]: [application/ports.rs], the sink of results as a class with its laws,
      and [transport/p2p/result_sink.rs], the outbox as its instance; [Worker] is
      proved against the class.
    - [Turn]: the worker's turn in the steps between its waits, and that they make up
      [Worker.work_turn].  [Stages]: builds, PCS requests, retried results and
      dispatches cut at their waits, with what a waiting task holds as data, and that
      the parts in a row are the functions of [PcsOutbox], [ResultOutbox] and
      [AcceptTask].
    - [Node]: [application/task_prune.rs], [transport/http/handlers.rs] and the
      restart of [main.rs].  [Banner]: what it prints at startup.  [Startup]: the
      client of wqc-core and the admin port.  [Program]: the handlers applied to the
      codecs and to what the program takes from outside.  [Intake]: what a dispatch
      becomes on its way to a row.  [System]: the whole node as a transition system,
      with handlers that run inside one another.  [Overlap]: the node as the shared
      state and the list of the tasks that wait, side by side.  [Outboxes]: what leaves
      the two outboxes in a step of [Overlap], and why.
      [Main]: [main], from the environment to the spawned tasks.
    - [SampleJson]: a concrete JSON text, for the witnesses.
    - [TestSupport]: SHA-2, HMAC, Ed25519 public keys, base64 and a JSON printer and
      reader, written out.  [TestP2p], [TestStorage], [TestPcs], [TestDomain],
      [TestApp]: the crate's unit tests, each a boolean function of the same name
      that runs on the definitions of the other files with these as parameters, and
      evaluates to [true]; a definition that strays from the source fails there.

    ** How behaviour is modelled

    Fallible code returns [result E A]; the errors are the ones of the source, and
    their texts where the code searches them ([pcs_outbox.rs] classifies failures
    by [contains]).  Integers are [Z] with the wrap, saturation or cast written
    out; seconds and rates are binary64.  Instants and durations are nanoseconds.
    Code outside [src/src] is a parameter: ed25519, SHA-256, hex and base64,
    [Display] of other libraries' errors, the outcome of an HTTP exchange or of a
    stream, the clock, libp2p's constructors.  Where a theorem needs something of a
    parameter it is a hypothesis, and the witness instantiates it.

    JSON is split in two.  What the derives generate is modelled ([Serde], [Codec],
    [Messages]): a codec is a writer and a reader between a type and a document,
    with the field order, the defaults, the skipped fields, unknown and repeated
    keys, and structs read from arrays.  What [serde_json] does with the text of a
    document is a parameter whose documented behaviour is [Serde.json_text_spec]: a
    document of at most 127 levels is read back from its text, and what is read is
    such a document.  The laws of the codecs then give the round trips that the
    theorems about handlers need, so [System] and [Main] assume nothing of the
    derived code.  One thing is stricter than the source: a key that a struct
    ignores must still hold a value that [serde_json::Value] can.

    An [async] function gives way at its awaits.  Where that matters the changes
    of other tasks are an argument: [others] between the lookup and the insertion
    of [accept_compute_task], [be_during_build] and [be_during_send] in a build,
    [during] in the lookup of a PCS request.  [System.node_step d] is a step in
    which at most [d] tasks wait inside one another: those arguments are then any
    function whose effect other steps have, and every stream, pass, build, step of
    the worker, pruning, crash, restart and failing statement may come between any
    two.  The worker's turn is three steps, cut where it waits ([Turn]), and where
    it waits is a field of the state.  In [Overlap.step] that is so of every task: a
    state has a list of waiting tasks, each with what it holds in its locals (the
    entries a pass has still to do, as they were listed; the answer a build or a
    result got), any of them may go on next, and new ones may start at any time, so
    tasks overlap in any way; [Overlap.handlers_take_turns] says that the handlers as
    whole functions are sequences of such steps.  [Overlap.runs] also remembers what
    was sent, which replies were taken for an acknowledgement, and what was listed.
    Bids and open calls are one step each.  Statements between two waits are one step;
    the code runs them on several threads, and two handlers between waits are taken to
    come one after the other.
    What third-party code is asked to do (streams, HTTP, Prometheus, the swarm) is
    a list of effects.

    ** What the theorems show

    - Work is neither lost nor done twice: [System.reachable_tasks_are_accounted]
      (every task in the queue or at the worker is there once, has a pending row and
      is counted, and every pending row has its task there unless the worker lost
      both writes of a status since the last restart), [Turn.turn_in_steps],
      [AcceptTask.accept_outcome_spec],
      [AcceptTask.redelivery_is_idempotent], [Worker.finished_task_is_released],
      [Worker.processed_result_survives], [ResultOutbox.result_is_sent_or_kept],
      [ResultOutbox.retry_pass_drains_outbox], [Storage.prune_removes_only_settled],
      [Node.restart_requeues_or_blocks]; and with tasks that overlap in any way
      [Overlap.tasks_are_accounted].
    - The process starts sound and stays reachable: [Main.booted_node_is_sound],
      [Env.configuration_is_wellformed], [Env.documented_defaults],
      [Host.offline_host_has_redial_planned], [Host.redial_backs_off],
      [Host.resubscribes_once_per_reconnect], [Geo.location_is_cached_for_a_day],
      [Metrics.recording_never_panics], [Metrics.timeouts_agree].
    - A bid is justified and can be verified: [Bid.submitted_bid_is_justified],
      [Bid.mining_finds_first_ticket], [Bid.bid_payload_injective],
      [Operator.hkdf_expand_is_rfc5869], [Operator.operator_payload_injective].
    - Only the orchestrator directs the node: [AcceptTask.only_signed_work_is_taken],
      [PcsHandlers.build_follows_stored_request], [PcsHandlers.open_call_bid_is_safe],
      [Config.bootstrap_is_first_consistent], [Wire.announcement_accepted_iff]; and
      the signed bytes fix their content: [Wire.announcement_payloads_injective],
      [Wire.dispatch_payload_injective], [GoJson.circuit_signing_injective],
      [Pcs.open_call_payload_iff], [ResultJson.result_json_injective].
    - Expensive proofs are made once and kept: [Outboxes.rows_leave_for_cause] (however
      the tasks overlap, a result leaves its outbox only sent and a job only
      acknowledged or listed as out of date), [Overlap.builds_never_collide],
      [PcsOutbox.one_build_at_a_time], [PcsOutbox.failed_send_keeps_bundle],
      [PcsOutbox.retained_job_keeps_request]; and of a build and a pass that nothing
      disturbs, [PcsOutbox.job_leaves_only_acknowledged] and
      [PcsOutbox.retry_pass_removes_for_cause].
    - The database is its specification: [Storage.statements_refine_maps] (every
      statement as it is called, when it succeeds and what it does),
      [Storage.save_task_then_load].
    - The node promises what it can do: [WorkLedger.decide_work_spec],
      [WorkLedger.hold_ends_reservation], [WorkLedger.reachable_queue_is_number],
      [WorkLedger.compute_timeout_bounds], [Worker.no_compute_past_deadline],
      [MemoryBudget.dense_qubits_is_floor_log2], [Config.sysinfo_policy_sound],
      [Validation.validate_circuit_iff], [Validation.validate_circuit_first_error].
    - wqc-core is left alone when it is down: [CoreClient.gate_opens_at_threshold],
      [CoreClient.gate_counter_bounded], [CoreClient.gate_guards_calls].
    - What is written can be read, by this version and by others:
      [Intake.stored_dispatch_reads_back], [Codec.tree_forwarded_verbatim],
      [Messages.rows_of_other_versions_read].
    - The surroundings: [Startup.core_urls], [Startup.observing_is_read_only],
      [HostRun.run_serves_every_protocol].
    - Texts and numbers: [Token.planck_round_trip],
      [GoJson.go_json_float_keeps_digits], [GoJson.observables_order_irrelevant].

    Some theorems record behaviour that is probably not intended:
    [Worker.result_lost_after_status], [AcceptTask.refused_then_acknowledged],
    [Node.huge_retention_prunes_at_once], [PcsOutbox.lookup_error_drops_request],
    [PcsOutbox.stale_entry_is_rebuilt], [PcsOutbox.build_timeout_not_counted],
    [Outboxes.stale_listing_drops_request], [Outboxes.acknowledgement_takes_newer_job],
    [ResultJson.unescaped_id_is_ambiguous], [Wire.v2_signature_accepted_as_v1],
    [Wire.noise_model_not_signed], [Pcs.pcs_request_addressee_unbound],
    [Operator.operator_stake_not_bound], [Bid.unsent_bid_keeps_reservation],
    [Token.negative_fraction_accepted], and the second half of
    [Node.restart_requeues_or_blocks].

    ** Fuel

    [Validation.validate_gate_fuel] recurses over nested [IF] gates with the size of
    the parameters as fuel; [validate_circuit_first_error] says that it never runs
    out.  [MemoryBudget.dense_loop] has 64 turns, and the width is proved to be the
    logarithm.  [FloatText.shortest_from] tries 24 decimal positions from above the
    leading digit, and 17 digits always suffice for binary64 (evaluated at the
    extreme values, not proved in general); integers are printed with their bit
    length as fuel.
    [CoreClient.wait_until] consumes its list of polls, and
    [CoreClient.wait_until_up_terminates] says how many decide it; [Bid.mine_loop]
    consumes the clock's readings, and [Bid.mining_finds_first_ticket] says that
    one past the window decides it.  [Operator.expand_loop] has the output's length
    as fuel, and [Operator.hkdf_expand_is_rfc5869] says that is enough.

    ** What is not modelled

    Third-party code: the inside of libp2p, axum, reqwest, prometheus, SQLite's
    engine, and the styling of the banner; log lines, except where the code chooses
    between them.  How long a loop sleeps is not a state: its pass is a step that may
    come at any time.  [Storage::new] creates tables the model starts with.  The
    host's calls of [infra/metrics.rs] are not among its actions, and the metrics
    are not part of [AppState]. *)

From stdpp Require Export base tactics option list strings gmap sorting.
From Stdlib Require Export ZArith Lia.

#[global] Open Scope Z_scope.
#[export] Set Warnings "-clear-no-such-hyp,-register-all".

(** ** Results

    Rust's [Result<A, E>], with the error type first so that [result E] is the
    monad of the [?] operator. *)

Inductive result (E A : Type) : Type :=
| Ok (a : A)
| Err (e : E).
Arguments Ok {E A} _.
Arguments Err {E A} _.

#[export] Instance result_ret {E} : MRet (result E) := fun _ a => Ok a.
#[export] Instance result_bind {E} : MBind (result E) :=
  fun _ _ f r => match r with Ok a => f a | Err e => Err e end.
#[export] Instance result_fmap {E} : FMap (result E) :=
  fun _ _ f r => match r with Ok a => Ok (f a) | Err e => Err e end.

#[export] Instance result_eq_dec {E A} `{EqDecision E, EqDecision A} :
  EqDecision (result E A).
Proof. solve_decision. Defined.

(** [r.map_err(f)] *)
Definition map_err {E F A} (f : E -> F) (r : result E A) : result F A :=
  match r with Ok a => Ok a | Err e => Err (f e) end.

(** [o.ok_or_else(|| e)] *)
Definition ok_or {E A} (e : E) (o : option A) : result E A :=
  match o with Some a => Ok a | None => Err e end.

Definition is_ok {E A} (r : result E A) : bool :=
  match r with Ok _ => true | Err _ => false end.

(** ** Machine integers

    A [w]-bit integer is a [Z] in range; every operation that can wrap or
    saturate says so. *)

Definition U32_MAX : Z := 2 ^ 32 - 1.
Definition U64_MAX : Z := 2 ^ 64 - 1.
Definition I64_MAX : Z := 2 ^ 63 - 1.
Definition I64_MIN : Z := - 2 ^ 63.

Definition in_u8 (z : Z) : Prop := 0 <= z < 2 ^ 8.
Definition in_u32 (z : Z) : Prop := 0 <= z < 2 ^ 32.
Definition in_u64 (z : Z) : Prop := 0 <= z < 2 ^ 64.
Definition in_i64 (z : Z) : Prop := - 2 ^ 63 <= z < 2 ^ 63.

(** [x as u32], [x as u64], [x as i64] on integers: truncation. *)
Definition as_u32 (z : Z) : Z := z mod 2 ^ 32.
Definition as_u64 (z : Z) : Z := z mod 2 ^ 64.
Definition as_i64 (z : Z) : Z := (z + 2 ^ 63) mod 2 ^ 64 - 2 ^ 63.

(** Saturating operations. *)
Definition u64_sat_sub (a b : Z) : Z := Z.max 0 (a - b).
Definition u64_sat_mul (a b : Z) : Z := Z.min (a * b) U64_MAX.
Definition u32_sat_add (a b : Z) : Z := Z.min (a + b) U32_MAX.
Definition i64_clamp (z : Z) : Z := Z.max I64_MIN (Z.min I64_MAX z).

(** ** Automation *)

(** Case analysis on the matches and [if]s of a hypothesis or of the goal,
    closing the contradictory branches. *)
Ltac res_step :=
  match goal with
  | H : Ok _ = Ok _ |- _ => injection H as H
  | H : Err _ = Err _ |- _ => injection H as H
  | H : Ok _ = Err _ |- _ => discriminate H
  | H : Err _ = Ok _ |- _ => discriminate H
  | H : mbind _ ?m = _ |- _ =>
      unfold mbind in H; first [unfold result_bind in H | unfold option_bind in H]
  | H : context [match ?x with _ => _ end] |- _ => destruct x eqn:?
  end.

Ltac res_simpl := repeat (res_step; simplify_eq/=).

(** Split the boolean connectives of hypotheses into their propositions. *)
Ltac bool_to_prop :=
  repeat match goal with
  | H : (_ && _) = true |- _ => apply andb_prop in H as [? ?]
  | H : (_ || _) = false |- _ => apply orb_false_elim in H as [? ?]
  | H : negb _ = true |- _ => apply negb_true_iff in H
  | H : negb _ = false |- _ => apply negb_false_iff in H
  | H : (_ <? _) = true |- _ => apply Z.ltb_lt in H
  | H : (_ <? _) = false |- _ => apply Z.ltb_ge in H
  | H : (_ <=? _) = true |- _ => apply Z.leb_le in H
  | H : (_ <=? _) = false |- _ => apply Z.leb_gt in H
  | H : (_ =? _) = true |- _ => apply Z.eqb_eq in H
  | H : (_ =? _) = false |- _ => apply Z.eqb_neq in H
  | H : bool_decide _ = true |- _ => apply bool_decide_eq_true in H
  | H : bool_decide _ = false |- _ => apply bool_decide_eq_false in H
  end.

(** ** Generic lemmas *)

Section lists.
Context {A : Type}.
Implicit Types (l k : list A).

(** A concatenation is determined by its parts once the lengths of the left
    parts agree. *)
Lemma app_eq_split l1 l2 k1 k2 :
  length l1 = length l2 -> l1 ++ k1 = l2 ++ k2 -> l1 = l2 /\ k1 = k2.
Proof. intros Hlen Heq. by apply app_inj_1 in Heq. Qed.

Lemma app_eq_split_r l1 l2 k1 k2 :
  length k1 = length k2 -> l1 ++ k1 = l2 ++ k2 -> l1 = l2 /\ k1 = k2.
Proof. intros Hlen Heq. by apply app_inj_2 in Heq. Qed.

Lemma filter_filter_same (P : A -> Prop) `{!forall x, Decision (P x)} l :
  filter P (filter P l) = filter P l.
Proof.
  induction l as [|x l IH]; [done|].
  destruct (decide (P x)) as [HP|HP].
  - rewrite filter_cons_True by done.
    rewrite filter_cons_True by done. by rewrite IH.
  - by rewrite filter_cons_False by done.
Qed.

Lemma Forall_filter_sub (P Q : A -> Prop) `{!forall x, Decision (P x)} l :
  Forall Q l -> Forall Q (filter P l).
Proof.
  rewrite !Forall_forall. intros HQ x Hx.
  apply list_elem_of_filter in Hx as [_ Hx]. by apply HQ.
Qed.
End lists.

Lemma option_bind_Some {A B} (f : A -> option B) (o : option A) (b : B) :
  (o ≫= f) = Some b -> exists a, o = Some a /\ f a = Some b.
Proof. destruct o; simpl; [eauto | discriminate]. Qed.

Lemma result_bind_Ok {E A B} (f : A -> result E B) (r : result E A) (b : B) :
  (x ← r; f x) = Ok b -> exists x, r = Ok x /\ f x = Ok b.
Proof. destruct r as [x|e]; [by exists x|done]. Qed.

Lemma as_u32_id z : in_u32 z -> as_u32 z = z.
Proof. intros. by apply Z.mod_small. Qed.

Lemma as_u64_id z : in_u64 z -> as_u64 z = z.
Proof. intros. by apply Z.mod_small. Qed.

Lemma as_u32_range z : in_u32 (as_u32 z).
Proof. unfold in_u32, as_u32. apply Z.mod_pos_bound. lia. Qed.

Create HintDb wqc.
Create Rewrite HintDb wqc.
Lemma as_u64_range z : in_u64 (as_u64 z).
Proof. unfold in_u64, as_u64. apply Z.mod_pos_bound. lia. Qed.

Lemma as_i64_range z : in_i64 (as_i64 z).
Proof.
  unfold in_i64, as_i64. pose proof (Z.mod_pos_bound (z + 2 ^ 63) (2 ^ 64) ltac:(lia)). lia.
Qed.

Lemma as_i64_id z : in_i64 z -> as_i64 z = z.
Proof. unfold in_i64, as_i64. intros. rewrite Z.mod_small; lia. Qed.

(** Reinterpreting the sign bit loses nothing. *)
Lemma as_u64_i64_inj a b : in_i64 a -> in_i64 b -> as_u64 a = as_u64 b -> a = b.
Proof.
  unfold in_i64, as_u64. intros Ha Hb H.
  pose proof (Z.div_mod a (2 ^ 64) ltac:(lia)). pose proof (Z.div_mod b (2 ^ 64) ltac:(lia)).
  assert (a / 2 ^ 64 = b / 2 ^ 64 \/ a / 2 ^ 64 <> b / 2 ^ 64) as [?|?] by lia; nia.
Qed.
#[export] Hint Resolve as_u32_range as_u64_range as_i64_range : wqc.
#[export] Hint Rewrite @length_app : wqc.

(** ** Finite maps *)

Section maps.
Context `{Countable K} {A : Type}.
Implicit Types (m : gmap K A).

Lemma map_Forall_filter_sub (P : K -> A -> Prop) (Q : K * A -> Prop)
  `{!forall x, Decision (Q x)} m :
  map_Forall P m -> map_Forall P (filter Q m).
Proof. intros Hm k x [Hk _]%map_lookup_filter_Some. by apply Hm. Qed.
End maps.
