(* ===== verification/Bytes.v ===== *)
(** * Bytes, big-endian integers and UTF-8 text

    The signed payloads of the node are byte strings built from the bytes of
    Rust [String]s and the big-endian bytes of integers
    ([to_be_bytes]).  A Rust [String] is a [String.string], whose characters
    are its UTF-8 bytes; [chars] decodes it to scalar values where the code
    iterates over [char]s. *)

From Stdlib Require Import Strings.Byte.
From S2P Require Import Prelude.

Abbreviation byte := Byte.byte.
Abbreviation bytes := (list Byte.byte).

#[export] Instance byte_eq_dec : EqDecision byte := Byte.byte_eq_dec.

(** ** Bytes and integers *)

Definition byte_of_Z (z : Z) : byte :=
  match Byte.of_N (Z.to_N (z mod 256)) with Some b => b | None => Byte.x00 end.

Definition byte_to_Z (b : byte) : Z := Z.of_N (Byte.to_N b).

(** [z.to_be_bytes()] of a [w]-byte integer; a negative [z] gives the bytes of
    its two's complement. *)
Fixpoint be_bytes (w : nat) (z : Z) : bytes :=
  match w with
  | O => []
  | S w' => byte_of_Z (Z.shiftr z (8 * Z.of_nat w')) :: be_bytes w' z
  end.

Definition u32_be (z : Z) : bytes := be_bytes 4 z.
Definition u64_be (z : Z) : bytes := be_bytes 8 z.
Definition i64_be (z : Z) : bytes := be_bytes 8 z.

(** The value of big-endian bytes. *)
Definition be_value (l : bytes) : Z :=
  fold_left (fun acc b => acc * 256 + byte_to_Z b) l 0.

(** [s.as_bytes()] and [String::from_utf8] without its validity check. *)
Definition as_bytes (s : string) : bytes := String.list_byte_of_string s.
Definition of_bytes (l : bytes) : string := String.string_of_list_byte l.

(** ** UTF-8 *)

(** [out.push(c)]: the UTF-8 bytes of a scalar value. *)
Definition utf8_encode_char (c : Z) : bytes :=
  if c <? 128 then [byte_of_Z c]
  else if c <? 2048 then
    [byte_of_Z (192 + c / 64); byte_of_Z (128 + c mod 64)]
  else if c <? 65536 then
    [byte_of_Z (224 + c / 4096); byte_of_Z (128 + (c / 64) mod 64);
     byte_of_Z (128 + c mod 64)]
  else
    [byte_of_Z (240 + c / 262144); byte_of_Z (128 + (c / 4096) mod 64);
     byte_of_Z (128 + (c / 64) mod 64); byte_of_Z (128 + c mod 64)].

Definition utf8_encode (cs : list Z) : bytes := flat_map utf8_encode_char cs.

(** [s.chars()] over the bytes of a valid string: the lead byte gives the
    width.  A truncated tail, which no Rust [String] has, ends the iteration. *)
Fixpoint utf8_decode (l : bytes) : list Z :=
  match l with
  | [] => []
  | b0 :: l0 =>
    let z0 := byte_to_Z b0 in
    if z0 <? 128 then z0 :: utf8_decode l0
    else match l0 with
    | [] => []
    | b1 :: l1 =>
      let z1 := byte_to_Z b1 in
      if z0 <? 224 then (z0 - 192) * 64 + (z1 - 128) :: utf8_decode l1
      else match l1 with
      | [] => []
      | b2 :: l2 =>
        let z2 := byte_to_Z b2 in
        if z0 <? 240 then
          ((z0 - 224) * 4096 + (z1 - 128) * 64 + (z2 - 128)) :: utf8_decode l2
        else match l2 with
        | [] => []
        | b3 :: l3 =>
          let z3 := byte_to_Z b3 in
          ((z0 - 240) * 262144 + (z1 - 128) * 4096 + (z2 - 128) * 64 + (z3 - 128))
            :: utf8_decode l3
        end
      end
    end
  end.

Definition chars (s : string) : list Z := utf8_decode (as_bytes s).
Definition of_chars (cs : list Z) : string := of_bytes (utf8_encode cs).

Definition is_scalar (c : Z) : Prop := 0 <= c < 1114112.

(** The Unicode [White_Space] property, which [str::trim] uses. *)
Definition is_whitespace (c : Z) : bool :=
  ((9 <=? c) && (c <=? 13)) || (c =? 32) || (c =? 133) || (c =? 160) || (c =? 5760)
  || ((8192 <=? c) && (c <=? 8202)) || (c =? 8232) || (c =? 8233) || (c =? 8239)
  || (c =? 8287) || (c =? 12288).

Fixpoint drop_while {A} (f : A -> bool) (l : list A) : list A :=
  match l with
  | [] => []
  | x :: l' => if f x then drop_while f l' else l
  end.

(** [s.trim()] *)
Definition trim (s : string) : string :=
  of_chars (reverse (drop_while is_whitespace (reverse (drop_while is_whitespace (chars s))))).

(** ** Integers and bytes *)

Lemma byte_to_Z_range b : 0 <= byte_to_Z b < 256.
Proof.
  unfold byte_to_Z. split; [lia|].
  pose proof (Byte.to_N_bounded b). lia.
Qed.

Lemma byte_to_of_Z z : byte_to_Z (byte_of_Z z) = z mod 256.
Proof.
  unfold byte_to_Z, byte_of_Z.
  pose proof (Z.mod_pos_bound z 256 ltac:(lia)) as Hb.
  destruct (Byte.of_N (Z.to_N (z mod 256))) as [b|] eqn:E.
  - apply Byte.to_of_N in E. rewrite E. lia.
  - apply Byte.of_N_None_iff in E. lia.
Qed.

Lemma byte_of_to_Z b : byte_of_Z (byte_to_Z b) = b.
Proof.
  unfold byte_of_Z, byte_to_Z.
  rewrite Z.mod_small by apply byte_to_Z_range.
  rewrite N2Z.id, Byte.of_to_N. done.
Qed.

Lemma length_be_bytes w z : length (be_bytes w z) = w.
Proof. induction w; simpl; congruence. Qed.
#[export] Hint Rewrite length_be_bytes : wqc.

Lemma be_value_acc l a :
  fold_left (fun acc b => acc * 256 + byte_to_Z b) l a
  = a * 256 ^ Z.of_nat (length l) + be_value l.
Proof.
  unfold be_value. revert a. induction l as [|b l IH]; intros a; cbn [fold_left length].
  - simpl. lia.
  - rewrite IH, (IH (0 * 256 + byte_to_Z b)).
    rewrite Nat2Z.inj_succ, Z.pow_succ_r by lia. ring.
Qed.

Lemma be_value_cons b l :
  be_value (b :: l) = byte_to_Z b * 256 ^ Z.of_nat (length l) + be_value l.
Proof. unfold be_value at 1. cbn [fold_left]. by rewrite be_value_acc. Qed.

Lemma be_value_bytes w z : be_value (be_bytes w z) = z mod 256 ^ Z.of_nat w.
Proof.
  induction w as [|w IH].
  - simpl. by rewrite Z.mod_1_r.
  - simpl be_bytes. rewrite be_value_cons, length_be_bytes, IH, byte_to_of_Z.
    rewrite Z.shiftr_div_pow2 by lia.
    replace (2 ^ (8 * Z.of_nat w)) with (256 ^ Z.of_nat w)
      by (rewrite Z.pow_mul_r by lia; done).
    rewrite Nat2Z.inj_succ, Z.pow_succ_r, (Z.mul_comm 256) by lia.
    rewrite Z.rem_mul_r by lia. lia.
Qed.

(** Two integers of the same width, signed or not, have the same bytes only if
    they are equal. *)
Lemma be_bytes_inj w a b :
  a mod 256 ^ Z.of_nat w <> b mod 256 ^ Z.of_nat w \/ a = b ->
  be_bytes w a = be_bytes w b -> a = b.
Proof.
  intros Hab Heq. apply (f_equal be_value) in Heq.
  rewrite !be_value_bytes in Heq. by destruct Hab.
Qed.

Lemma u32_be_inj a b : in_u32 a -> in_u32 b -> u32_be a = u32_be b -> a = b.
Proof.
  unfold in_u32. intros Ha Hb Heq. apply (f_equal be_value) in Heq. unfold u32_be in Heq.
  rewrite !be_value_bytes, !Z.mod_small in Heq by (simpl; lia). done.
Qed.

Lemma u64_be_inj a b : in_u64 a -> in_u64 b -> u64_be a = u64_be b -> a = b.
Proof.
  unfold in_u64. intros Ha Hb Heq. apply (f_equal be_value) in Heq. unfold u64_be in Heq.
  rewrite !be_value_bytes, !Z.mod_small in Heq by (simpl; lia). done.
Qed.

Lemma i64_be_inj a b : in_i64 a -> in_i64 b -> i64_be a = i64_be b -> a = b.
Proof.
  unfold in_i64. intros Ha Hb Heq. apply (f_equal be_value) in Heq. unfold i64_be in Heq.
  rewrite !be_value_bytes in Heq.
  change (256 ^ Z.of_nat 8) with (2 ^ 64) in Heq.
  pose proof (Z.div_mod a (2 ^ 64) ltac:(lia)).
  pose proof (Z.div_mod b (2 ^ 64) ltac:(lia)). nia.
Qed.

Lemma length_u32_be z : length (u32_be z) = 4%nat.
Proof. apply length_be_bytes. Qed.
Lemma length_u64_be z : length (u64_be z) = 8%nat.
Proof. apply length_be_bytes. Qed.
Lemma length_i64_be z : length (i64_be z) = 8%nat.
Proof. apply length_be_bytes. Qed.
#[export] Hint Rewrite length_u32_be length_u64_be length_i64_be : wqc.

Lemma as_bytes_of_bytes l : as_bytes (of_bytes l) = l.
Proof. apply String.list_byte_of_string_of_list_byte. Qed.

Lemma of_bytes_as_bytes s : of_bytes (as_bytes s) = s.
Proof. apply String.string_of_list_byte_of_string. Qed.

Lemma as_bytes_inj s t : as_bytes s = as_bytes t -> s = t.
Proof.
  intros Heq. rewrite <- (of_bytes_as_bytes s), <- (of_bytes_as_bytes t). by f_equal.
Qed.

Lemma as_bytes_app s t : as_bytes (s +:+ t) = as_bytes s ++ as_bytes t.
Proof.
  unfold as_bytes, String.list_byte_of_string.
  induction s as [|a s IH]; [done|].
  change (String a s +:+ t) with (String a (s +:+ t)). cbn. f_equal. exact IH.
Qed.

(** ** UTF-8 round trip *)

Lemma byte_to_of_small z : 0 <= z < 256 -> byte_to_Z (byte_of_Z z) = z.
Proof. intros. rewrite byte_to_of_Z. by apply Z.mod_small. Qed.

(** Splitting a scalar value into groups of six bits and putting it together
    again. *)
Lemma six_bits c : 0 <= c -> 0 <= c mod 64 < 64 /\ c = (c / 64) * 64 + c mod 64.
Proof.
  intros. split; [apply Z.mod_pos_bound; lia|].
  pose proof (Z.div_mod c 64). lia.
Qed.

Lemma six_bits_2 c :
  0 <= c ->
  0 <= (c / 64) mod 64 < 64 /\
  c = (c / 4096) * 4096 + ((c / 64) mod 64) * 64 + c mod 64.
Proof.
  intros Hc. pose proof (six_bits c Hc).
  pose proof (six_bits (c / 64) ltac:(apply Z.div_pos; lia)).
  rewrite Z.div_div in * by lia. change (64 * 64) with 4096 in *. lia.
Qed.

Lemma six_bits_3 c :
  0 <= c ->
  0 <= (c / 4096) mod 64 < 64 /\
  c = (c / 262144) * 262144 + ((c / 4096) mod 64) * 4096
      + ((c / 64) mod 64) * 64 + c mod 64.
Proof.
  intros Hc. pose proof (six_bits_2 c Hc).
  pose proof (six_bits (c / 4096) ltac:(apply Z.div_pos; lia)).
  rewrite Z.div_div in * by lia. change (4096 * 64) with 262144 in *. lia.
Qed.

(** Decoding the encoding of one scalar value consumes exactly its bytes. *)
Lemma utf8_decode_char c l :
  is_scalar c -> utf8_decode (utf8_encode_char c ++ l) = c :: utf8_decode l.
Proof.
  intros [H0 H1]. unfold utf8_encode_char.
  pose proof (six_bits c H0). pose proof (six_bits_2 c H0). pose proof (six_bits_3 c H0).
  destruct (Z.ltb_spec c 128); [|destruct (Z.ltb_spec c 2048);
    [|destruct (Z.ltb_spec c 65536)]]; cbn [app utf8_decode];
    rewrite !byte_to_of_small by lia;
    repeat (match goal with |- context [?a <? ?b] =>
      first [ rewrite (proj2 (Z.ltb_lt a b)) by lia
            | rewrite (proj2 (Z.ltb_ge a b)) by lia ] end);
    f_equal; lia.
Qed.

Lemma utf8_decode_encode cs : Forall is_scalar cs -> utf8_decode (utf8_encode cs) = cs.
Proof.
  induction 1 as [|c cs Hc _ IH]; [done|].
  cbn [utf8_encode flat_map]. rewrite utf8_decode_char by done. by f_equal.
Qed.

Lemma utf8_encode_app cs ds : utf8_encode (cs ++ ds) = utf8_encode cs ++ utf8_encode ds.
Proof. apply flat_map_app. Qed.

Lemma chars_of_chars cs : Forall is_scalar cs -> chars (of_chars cs) = cs.
Proof.
  intros. unfold chars, of_chars. rewrite as_bytes_of_bytes. by apply utf8_decode_encode.
Qed.

Lemma of_chars_app cs ds : of_chars (cs ++ ds) = of_chars cs +:+ of_chars ds.
Proof.
  apply as_bytes_inj. unfold of_chars.
  by rewrite as_bytes_app, !as_bytes_of_bytes, utf8_encode_app.
Qed.

(** The strings a Rust [String] can hold. *)
Definition valid_utf8 (s : string) : Prop :=
  exists cs, Forall is_scalar cs /\ s = of_chars cs.

Lemma valid_utf8_scalars s : valid_utf8 s -> Forall is_scalar (chars s).
Proof. intros (cs & Hcs & ->). by rewrite chars_of_chars. Qed.

Lemma valid_utf8_inj s t : valid_utf8 s -> valid_utf8 t -> chars s = chars t -> s = t.
Proof.
  intros (cs & Hcs & ->) (ds & Hds & ->). rewrite !chars_of_chars by done. by intros ->.
Qed.

Lemma utf8_encode_inj cs ds :
  Forall is_scalar cs -> Forall is_scalar ds -> utf8_encode cs = utf8_encode ds -> cs = ds.
Proof.
  intros Hc Hd Heq. rewrite <- (utf8_decode_encode cs), <- (utf8_decode_encode ds) by done.
  by rewrite Heq.
Qed.

Definition valid_utf8_chars (s : string) : bool :=
  bool_decide (of_chars (chars s) = s)
    && forallb (fun c => (0 <=? c) && ((c <? 55296) || (57343 <? c)) && (c <? 1114112)) (chars s).

Lemma valid_utf8_chars_ok s : valid_utf8_chars s = true -> valid_utf8 s.
Proof.
  unfold valid_utf8_chars. intros [Hs Hc]%andb_prop.
  apply bool_decide_eq_true in Hs. exists (chars s). split; [|done].
  apply Forall_forall. intros c Hin. rewrite forallb_forall in Hc.
  specialize (Hc c (proj1 (list_elem_of_In _ _) Hin)). unfold is_scalar. lia.
Qed.

(** The bytes of an integer depend only on its low bits. *)
Lemma be_bytes_mod w n z :
  (w <= n)%nat -> be_bytes w (z mod 2 ^ (8 * Z.of_nat n)) = be_bytes w z.
Proof.
  intros Hwn. induction w as [|w IH]; [done|]. cbn [be_bytes]. rewrite IH by lia. f_equal.
  unfold byte_of_Z. change 256 with (2 ^ 8).
  match goal with |- context [of_N (Z.to_N ?x)] =>
    match goal with |- _ = match of_N (Z.to_N ?y) with _ => _ end =>
      assert (x = y) as ->; [|done] end end.
  apply Z.bits_inj'. intros i Hi. destruct (Z.lt_ge_cases i 8).
  - rewrite !Z.mod_pow2_bits_low, !Z.shiftr_spec, Z.mod_pow2_bits_low by lia. done.
  - by rewrite !Z.mod_pow2_bits_high by lia.
Qed.

Lemma u32_be_as_u32 z : u32_be (as_u32 z) = u32_be z.
Proof. apply (be_bytes_mod 4 4). lia. Qed.

Lemma be_bytes_shift w n z :
  be_bytes w (Z.shiftr z (8 * Z.of_nat n)) ++ be_bytes n z = be_bytes (w + n) z.
Proof.
  induction w as [|w IH]; [done|]. cbn [be_bytes Nat.add app]. rewrite IH. do 2 f_equal.
  rewrite Z.shiftr_shiftr by lia. f_equal. lia.
Qed.

(** A [u64] is its high and low halves. *)
Lemma u64_be_halves z : u64_be z = u32_be (Z.shiftr z 32) ++ u32_be (as_u32 z).
Proof. rewrite u32_be_as_u32. symmetry. apply (be_bytes_shift 4 4). Qed.

Lemma flat_map_u32_be_inj l k :
  Forall in_u32 l -> Forall in_u32 k -> length l = length k ->
  flat_map u32_be l = flat_map u32_be k -> l = k.
Proof.
  intros Hl. revert k. induction Hl as [|x l Hx _ IH]; intros [|y k] Hk Hlen; try done.
  cbn [flat_map]. intros Heq. apply Forall_cons in Hk as [Hy Hk].
  apply app_eq_split in Heq as [H1 H2]; [|by rewrite !length_u32_be].
  apply u32_be_inj in H1 as ->; [|done..]. f_equal. apply IH; try done. cbn in Hlen. lia.
Qed.

Lemma length_flat_map_u32_be l : length (flat_map u32_be l) = (4 * length l)%nat.
Proof.
  induction l as [|x l IH]; [done|]. cbn [flat_map length].
  rewrite length_app, length_u32_be, IH. lia.
Qed.
