(* ===== verification/F64.v ===== *)
(** * f64 arithmetic

    Rust's [f64] as the IEEE 754 binary64 arithmetic of the Standard Library's
    executable specification [SpecFloat] (53 bits of precision, largest exponent
    1024, round to nearest even).  Comparisons are the IEEE ones: every
    comparison with a NaN is false.  The lemmas at the end say when a value is
    a number that is not negative, which is what the estimates of the work
    ledger rely on. *)

From Stdlib Require Import Floats.SpecFloat.
From S2P Require Import Prelude.

Definition f64 : Type := spec_float.

Definition F64_PREC : Z := 53.
Definition F64_EMAX : Z := 1024.

Definition f64_zero : f64 := S754_zero false.
Definition f64_neg_zero : f64 := S754_zero true.
Definition f64_nan : f64 := S754_nan.
Definition f64_infinity : f64 := S754_infinity false.

(** [z as f64] for an integer [z]: the nearest representable number. *)
Definition f64_of_Z (z : Z) : f64 := binary_normalize F64_PREC F64_EMAX z 0 false.

Definition f64_add (x y : f64) : f64 := SFadd F64_PREC F64_EMAX x y.
Definition f64_sub (x y : f64) : f64 := SFsub F64_PREC F64_EMAX x y.
Definition f64_mul (x y : f64) : f64 := SFmul F64_PREC F64_EMAX x y.
Definition f64_div (x y : f64) : f64 := SFdiv F64_PREC F64_EMAX x y.
Definition f64_abs (x : f64) : f64 := SFabs x.

Definition f64_eqb (x y : f64) : bool := SFeqb x y.
Definition f64_ltb (x y : f64) : bool := SFltb x y.
Definition f64_leb (x y : f64) : bool := SFleb x y.
(** [x > y] and [x >= y] *)
Definition f64_gtb (x y : f64) : bool := SFltb y x.
Definition f64_geb (x y : f64) : bool := SFleb y x.

(** [x.is_finite()], [x.is_nan()], [x.is_sign_negative()] *)
Definition f64_is_finite (x : f64) : bool :=
  match x with S754_zero _ | S754_finite _ _ _ => true | _ => false end.
Definition f64_is_nan (x : f64) : bool :=
  match x with S754_nan => true | _ => false end.
Definition f64_is_sign_negative (x : f64) : bool :=
  match x with
  | S754_zero s | S754_infinity s | S754_finite s _ _ => s
  | S754_nan => false
  end.

(** [x.max(y)]: the other operand when one is a NaN. *)
Definition f64_max (x y : f64) : f64 :=
  if f64_is_nan x then y
  else if f64_is_nan y then x
  else if f64_ltb x y then y else x.

(** The integer part of a finite value, towards zero. *)
Definition f64_trunc (x : f64) : Z :=
  match x with
  | S754_finite s m e => cond_Zopp s (Z.shiftl (Zpos m) e)
  | _ => 0
  end.

(** [x as u64] and [x as i64]: towards zero, saturating, 0 for a NaN. *)
Definition f64_as_u64 (x : f64) : Z :=
  match x with
  | S754_infinity false => U64_MAX
  | S754_infinity true | S754_nan => 0
  | _ => Z.max 0 (Z.min U64_MAX (f64_trunc x))
  end.
Definition f64_as_i64 (x : f64) : Z :=
  match x with
  | S754_infinity false => I64_MAX
  | S754_infinity true => I64_MIN
  | S754_nan => 0
  | _ => i64_clamp (f64_trunc x)
  end.

(** The literal [m * 10^-k]: the quotient of two integers below [2^53] is the
    number nearest to it. *)
Definition f64_dec (m : Z) (k : Z) : f64 := f64_div (f64_of_Z m) (f64_of_Z (10 ^ k)).

Example f64_dec_tenth : f64_dec 1 1 = S754_finite false 7205759403792794 (-56).
Proof. reflexivity. Qed.
Example f64_sum_rounds :
  f64_eqb (f64_add (f64_dec 1 1) (f64_dec 2 1)) (f64_dec 3 1) = false.
Proof. reflexivity. Qed.
Example f64_as_u64_sat : f64_as_u64 (f64_of_Z (2 ^ 70)) = U64_MAX.
Proof. reflexivity. Qed.

(** ** Numbers that are not negative *)

Definition f64_nonneg (x : f64) : Prop :=
  match x with
  | S754_zero _ => True
  | S754_infinity s | S754_finite s _ _ => s = false
  | S754_nan => False
  end.

Definition f64_pos_finite (x : f64) : Prop :=
  match x with S754_finite s _ _ => s = false | _ => False end.

#[export] Instance f64_nonneg_dec x : Decision (f64_nonneg x).
Proof. destruct x; simpl; apply _. Defined.

Section shifts.
Variables prec emax : Z.

Lemma shr_1_nonneg r : 0 <= shr_m r -> 0 <= shr_m (shr_1 r).
Proof. destruct r as [[|[p|p|]|[p|p|]] ? ?]; simpl; lia. Qed.

Lemma iter_shr_nonneg (p : positive) (r : shr_record) : 0 <= shr_m r -> 0 <= shr_m (SpecFloat.iter_pos shr_1 p r).
Proof.
  revert r. induction p as [p IH|p IH|]; intros r Hr; simpl; auto using shr_1_nonneg.
Qed.

Lemma shr_fexp_nonneg m e l : 0 <= m -> 0 <= shr_m (shr_fexp prec emax m e l).1.
Proof.
  intros Hm. unfold shr_fexp, shr.
  assert (0 <= shr_m (shr_record_of_loc m l)) by (destruct l as [|[]]; done).
  destruct (_ - e); simpl; auto using iter_shr_nonneg.
Qed.

Lemma round_nearest_even_nonneg m l : 0 <= m -> 0 <= round_nearest_even m l.
Proof. intros. unfold round_nearest_even. repeat case_match; lia. Qed.

Lemma binary_round_aux_nonneg m e l :
  0 <= m -> f64_nonneg (binary_round_aux prec emax false m e l).
Proof.
  intros Hm. unfold binary_round_aux.
  pose proof (shr_fexp_nonneg m e l Hm) as H1.
  destruct (shr_fexp prec emax m e l) as [r1 e1]; simpl in H1.
  pose proof (shr_fexp_nonneg _ e1 loc_Exact
    (round_nearest_even_nonneg _ (loc_of_shr_record r1) H1)) as H2.
  destruct (shr_fexp _ _ _ e1 loc_Exact) as [r2 e2]; simpl in H2.
  destruct (shr_m r2); simpl; try done; try lia. by destruct (_ <=? _).
Qed.

Lemma binary_normalize_nonneg m e s :
  0 <= m -> f64_nonneg (binary_normalize prec emax m e s).
Proof.
  intros Hm. destruct m as [|p|p]; simpl; [done| |lia].
  unfold binary_round. destruct (shl_align _ _ _) as [mz ez].
  apply binary_round_aux_nonneg. lia.
Qed.
End shifts.

Lemma f64_of_Z_nonneg z : 0 <= z -> f64_nonneg (f64_of_Z z).
Proof. apply binary_normalize_nonneg. Qed.

Lemma f64_add_nonneg x y : f64_nonneg x -> f64_nonneg y -> f64_nonneg (f64_add x y).
Proof.
  destruct x as [[]|[]| |sx mx ex], y as [[]|[]| |sy my ey]; simpl; intros; subst;
    try done.
  apply binary_normalize_nonneg. simpl. lia.
Qed.

Lemma f64_mul_nonneg x y :
  f64_nonneg x -> f64_pos_finite y -> f64_nonneg (f64_mul x y).
Proof.
  destruct x as [[]|[]| |sx mx ex], y as [[]|[]| |sy my ey]; simpl; intros; subst;
    try done.
  apply binary_round_aux_nonneg. lia.
Qed.

Lemma f64_mul_nonneg_l x y :
  f64_pos_finite x -> f64_nonneg y -> f64_nonneg (f64_mul x y).
Proof.
  destruct x as [[]|[]| |sx mx ex], y as [[]|[]| |sy my ey]; simpl; intros; subst;
    try done.
  apply binary_round_aux_nonneg. lia.
Qed.

Lemma f64_div_nonneg x y :
  f64_nonneg x -> f64_pos_finite y -> f64_nonneg (f64_div x y).
Proof.
  destruct x as [[]|[]| |sx mx ex], y as [[]|[]| |sy my ey]; intros Hx Hy; cbn in Hx, Hy;
    subst; try done.
  unfold f64_div, SFdiv. destruct (SFdiv_core_binary _ _ _ _ _ _) as [[q e] l] eqn:E.
  apply binary_round_aux_nonneg. revert E. unfold SFdiv_core_binary.
  set (m' := match _ with Z0 => _ | Zpos _ => _ | Zneg _ => _ end).
  assert (0 <= m') by (subst m'; case_match; rewrite ?Z.shiftl_nonneg; lia).
  pose proof (Z_div_mod m' (Zpos my) ltac:(lia)) as Hdiv.
  destruct (Z.div_eucl m' (Zpos my)) as [q' r']. intros [= <- _ _]. nia.
Qed.

Lemma f64_nonneg_not_nan x : f64_nonneg x -> f64_is_nan x = false.
Proof. by destruct x. Qed.

(** A value that compares greater than zero is a positive number. *)
Lemma f64_gt_zero_nonneg x : f64_gtb x f64_zero = true -> f64_nonneg x.
Proof. by destruct x as [|[]| |[]]. Qed.

(** Between numbers, "not greater" is "less or equal". *)
Lemma f64_gtb_false_leb x y :
  f64_is_nan x = false -> f64_is_nan y = false -> f64_gtb x y = false -> f64_leb x y = true.
Proof.
  unfold f64_gtb, f64_leb, SFltb, SFleb. intros Hx Hy.
  destruct x as [[]|[]| |[] mx ex], y as [[]|[]| |[] my ey]; simpl; try done.
  - rewrite (Z.compare_antisym ex ey).
    destruct (ex ?= ey); simpl; try done.
    change (Pos.compare_cont Eq mx my) with (mx ?= my)%positive.
    change (Pos.compare_cont Eq my mx) with (my ?= mx)%positive.
    rewrite (Pos.compare_antisym mx my). by destruct (mx ?= my)%positive.
  - rewrite (Z.compare_antisym ex ey).
    destruct (ex ?= ey); simpl; try done.
    change (Pos.compare_cont Eq mx my) with (mx ?= my)%positive.
    change (Pos.compare_cont Eq my mx) with (my ?= mx)%positive.
    rewrite (Pos.compare_antisym mx my). by destruct (mx ?= my)%positive.
Qed.

(** ** Integers are finite floats *)

Section integers.
Variables prec emax : Z.

Lemma digits2_pos_lower p : 2 ^ (Zpos (digits2_pos p) - 1) <= Zpos p.
Proof.
  induction p as [p IH|p IH|]; cbn [digits2_pos]; [..|done];
    rewrite Pos2Z.inj_succ, <- Z.add_1_r, Z.add_simpl_r;
    replace (Zpos (digits2_pos p)) with (Z.succ (Zpos (digits2_pos p) - 1)) by lia;
    rewrite Z.pow_succ_r by lia; lia.
Qed.

Lemma Zdigits2_le m k : 0 <= k -> 0 <= m < 2 ^ k -> Zdigits2 m <= k.
Proof.
  intros Hk [Hm0 Hm]. destruct m as [|p|p]; cbn [Zdigits2]; [done| |lia].
  pose proof (digits2_pos_lower p) as Hp. destruct (Z.le_gt_cases (Zpos (digits2_pos p)) k); [done|].
  assert (2 ^ k <= 2 ^ (Zpos (digits2_pos p) - 1)) by (apply Z.pow_le_mono_r; lia). lia.
Qed.

Lemma shr_1_le r : 0 <= shr_m r -> shr_m (shr_1 r) <= shr_m r.
Proof. destruct r as [[|[p|p|]|[p|p|]] ? ?]; simpl; lia. Qed.

Lemma iter_shr_le (p : positive) (r : shr_record) :
  0 <= shr_m r -> shr_m (SpecFloat.iter_pos shr_1 p r) <= shr_m r.
Proof.
  revert r. induction p as [p IH|p IH|]; intros r Hr; simpl; [..|by apply shr_1_le].
  - pose proof (shr_1_nonneg r Hr). pose proof (shr_1_le r Hr).
    pose proof (iter_shr_nonneg p (shr_1 r) ltac:(done)).
    pose proof (IH (shr_1 r) ltac:(done)).
    pose proof (IH (SpecFloat.iter_pos shr_1 p (shr_1 r)) ltac:(done)). lia.
  - pose proof (iter_shr_nonneg p r Hr). pose proof (IH r Hr).
    pose proof (IH (SpecFloat.iter_pos shr_1 p r) ltac:(done)). lia.
Qed.

Lemma shr_fexp_le m e l :
  0 <= m ->
  shr_m (shr_fexp prec emax m e l).1 <= m
  /\ (shr_fexp prec emax m e l).2 <= Z.max e (fexp prec emax (Zdigits2 m + e)).
Proof.
  intros Hm. unfold shr_fexp, shr.
  assert (Hr : shr_m (shr_record_of_loc m l) = m) by (destruct l as [|[]]; done).
  destruct (fexp prec emax (Zdigits2 m + e) - e) as [|p|p] eqn:E; cbn [fst snd]; rewrite ?Hr;
    (split; [|lia]); try lia.
  rewrite <- Hr at 2. apply iter_shr_le. by rewrite Hr.
Qed.

Lemma round_nearest_even_le m l : round_nearest_even m l <= m + 1.
Proof. unfold round_nearest_even. repeat case_match; lia. Qed.

(** Rounding [m * 2^e] gives a number unless it is out of range. *)
Lemma binary_round_aux_small s m e l k :
  0 <= m < 2 ^ k -> 0 <= k -> 0 <= prec -> 3 - emax - prec <= 0 ->
  Z.max e 0 + 2 * (k + 1) <= emax - prec ->
  binary_round_aux prec emax s m e l = S754_zero s
  \/ exists m' e', binary_round_aux prec emax s m e l = S754_finite s m' e'
     /\ Zpos m' <= m + 1 /\ e' <= Z.max e 0 + 2 * (k + 1).
Proof.
  intros Hm Hk Hp Hmin Hr. unfold binary_round_aux.
  pose proof (shr_fexp_nonneg prec emax m e l ltac:(lia)) as H1.
  destruct (shr_fexp_le m e l ltac:(lia)) as [Hm1 He1].
  destruct (shr_fexp prec emax m e l) as [r1 e1]; cbn [fst snd] in H1, Hm1, He1.
  pose proof (round_nearest_even_nonneg _ (loc_of_shr_record r1) H1) as H2.
  pose proof (round_nearest_even_le (shr_m r1) (loc_of_shr_record r1)) as Hm2.
  set (m2 := round_nearest_even _ _) in *.
  pose proof (shr_fexp_nonneg prec emax m2 e1 loc_Exact H2) as H3.
  destruct (shr_fexp_le m2 e1 loc_Exact H2) as [Hm3 He3].
  destruct (shr_fexp prec emax m2 e1 loc_Exact) as [r3 e3]; cbn [fst snd] in H3, Hm3, He3.
  pose proof (Zdigits2_le m k Hk Hm) as Hd1.
  assert (Hd2 : Zdigits2 m2 <= k + 1).
  { apply Zdigits2_le; [lia|]. rewrite Z.pow_add_r by lia. lia. }
  unfold fexp, emin in *. destruct (shr_m r3) as [|m3|m3]; cbn; [by left| |lia]. right.
  exists m3, e3. destruct (Z.leb_spec e3 (emax - prec)); [|lia]. split_and!; [done|lia..].
Qed.
End integers.

Lemma pos_iter_xO p d : Zpos (Pos.iter xO p d) = Zpos p * 2 ^ Zpos d.
Proof.
  induction d as [|d IH] using Pos.peano_ind; [cbn; lia|].
  rewrite Pos.iter_succ, Pos2Z.inj_succ, Z.pow_succ_r by lia. lia.
Qed.

(** An integer is a number with few bits and a small exponent. *)
Lemma f64_of_Z_small z :
  - 2 ^ 64 < z < 2 ^ 64 ->
  exists s, f64_of_Z z = S754_zero s
  \/ exists m e, f64_of_Z z = S754_finite s m e /\ Zpos m <= 2 ^ 128 /\ e <= 258.
Proof.
  intros Hz. unfold f64_of_Z, binary_normalize, binary_round.
  assert (H : forall p, Zpos p < 2 ^ 64 -> let '(mz, ez) :=
    shl_align p 0 (fexp F64_PREC F64_EMAX (Zpos (digits2_pos p) + 0)) in
    Zpos mz < 2 ^ 116 /\ ez <= 11).
  { intros p Hp. unfold shl_align.
    pose proof (Zdigits2_le (Zpos p) 64 ltac:(lia) ltac:(lia)) as Hd. cbn [Zdigits2] in Hd.
    unfold fexp, emin, F64_PREC, F64_EMAX.
    destruct (Z.max (Z.pos (digits2_pos p) + 0 - 53) (3 - 1024 - 53) - 0) as [|d|d] eqn:E;
      [lia..|]. rewrite pos_iter_xO. split; [|lia].
    assert (2 ^ Zpos d <= 2 ^ 52) by (apply Z.pow_le_mono_r; lia).
    change (2 ^ 116) with (2 ^ 64 * 2 ^ 52). nia. }
  assert (H' : forall s p, Zpos p < 2 ^ 64 -> exists s', let r :=
    (let '(mz, ez) := shl_align p 0 (fexp F64_PREC F64_EMAX (Zpos (digits2_pos p) + 0)) in
     binary_round_aux F64_PREC F64_EMAX s (Zpos mz) ez loc_Exact) in
    r = S754_zero s' \/ exists m e, r = S754_finite s' m e /\ Zpos m <= 2 ^ 128 /\ e <= 258).
  { intros s p Hp. specialize (H p Hp). destruct (shl_align _ _ _) as [mz ez]. cbv zeta.
    exists s. destruct (binary_round_aux_small F64_PREC F64_EMAX s (Zpos mz) ez loc_Exact 116)
      as [->|(m & e & -> & ? & ?)]; unfold F64_PREC, F64_EMAX in *; try lia; [by left|].
    right. exists m, e. split_and!; [done|lia|lia]. }
  destruct z as [|p|p]; [by exists false; left|apply H'; lia..].
Qed.

Lemma f64_of_Z_finite z : - 2 ^ 64 < z < 2 ^ 64 -> f64_is_finite (f64_of_Z z) = true.
Proof. by intros (s & [->|(m & e & -> & _)])%f64_of_Z_small. Qed.

Lemma digits2_pos_upper p : Zpos p < 2 ^ Zpos (digits2_pos p).
Proof.
  induction p as [p IH|p IH|]; cbn [digits2_pos]; [..|done];
    rewrite Pos2Z.inj_succ, Z.pow_succ_r by lia; lia.
Qed.

(** The mantissa of a binary64 number has 53 bits. *)
Lemma canonical_mantissa_small s m e :
  valid_binary F64_PREC F64_EMAX (S754_finite s m e) = true -> Zpos m < 2 ^ 53.
Proof.
  cbn [valid_binary]. unfold bounded, canonical_mantissa, fexp, emin, F64_PREC, F64_EMAX.
  intros [H%Z.eqb_eq _]%andb_true_iff. pose proof (digits2_pos_upper m).
  assert (2 ^ Zpos (digits2_pos m) <= 2 ^ 53) by (apply Z.pow_le_mono_r; lia). lia.
Qed.

(** A number that compares at most one has a negative exponent. *)
Lemma leb_one_exponent m e : f64_leb (S754_finite false m e) (f64_of_Z 1) = true -> e <= -52.
Proof.
  change (f64_of_Z 1) with (S754_finite false 4503599627370496 (-52)).
  unfold f64_leb, SFleb, SFcompare. intros H.
  destruct (Z.compare_spec e (-52)); [lia|lia|discriminate H].
Qed.

(** A summand of a sum that is not above a finite limit is finite. *)
Lemma f64_below_finite x y limit :
  f64_nonneg x -> f64_nonneg y -> f64_gtb (f64_add x y) limit = false ->
  f64_is_finite limit = true -> f64_is_finite y = true.
Proof.
  intros Hx Hy Hle Hl. destruct y as [s|s| |s m e]; try reflexivity; [|destruct Hy].
  cbn in Hy. subst s.
  assert (Hsum : f64_add x (S754_infinity false) = S754_infinity false)
    by (destruct x as [s|s| |s m e]; [reflexivity|cbn in Hx; by subst|destruct Hx|reflexivity]).
  rewrite Hsum in Hle. destruct limit as [s|s| |s m e]; try discriminate Hl.
  - destruct s; discriminate Hle.
  - destruct s; discriminate Hle.
Qed.

#[export] Hint Resolve f64_of_Z_nonneg f64_add_nonneg f64_mul_nonneg f64_div_nonneg
  f64_nonneg_not_nan f64_gt_zero_nonneg : wqc.
