(* ===== verification/FloatText.v ===== *)
(** * Decimal text

    What [format!] writes for integers and floats: decimal digits of an
    integer, the shortest decimal that reads back as a given [f64]
    ([core::num::flt2dec], ties away from zero), and [i32::from_str].  A text is
    the list of its characters' code points. *)

From Stdlib Require Import Floats.SpecFloat.
From S2P Require Import Prelude Bytes F64.

Definition text : Type := list Z.

(** A string literal. *)
Definition lit (s : string) : text := chars s.

Definition CH_0 : Z := 48.
Definition CH_DOT : Z := 46.
Definition CH_MINUS : Z := 45.

Definition is_digit_char (c : Z) : bool := (48 <=? c) && (c <=? 57).

(** ** Integers *)

Fixpoint digits_fuel (fuel : nat) (n : Z) : text :=
  match fuel with
  | O => []
  | S fuel' => if n <? 10 then [CH_0 + n] else digits_fuel fuel' (n / 10) ++ [CH_0 + n mod 10]
  end.

(** [format!("{n}")] of an integer that is not negative. *)
Definition dec_text (n : Z) : text := digits_fuel (S (Z.to_nat (Z.log2 n))) n.

(** The value of a digit text. *)
Definition digits_value (t : text) : Z := fold_left (fun a c => a * 10 + (c - CH_0)) t 0.

(** [text.parse::<i32>()]: an optional sign and at least one digit. *)
Definition i32_parse (t : text) : option Z :=
  let '(neg, body) :=
    match t with
    | c :: rest => if c =? 45 then (true, rest) else if c =? 43 then (false, rest) else (false, t)
    | [] => (false, t)
    end in
  if bool_decide (body = []) then None
  else if forallb is_digit_char body then
    let v := if neg : bool then - digits_value body else digits_value body in
    if (- 2 ^ 31 <=? v) && (v <? 2 ^ 31) then Some v else None
  else None.

(** ** Floats *)

(** The digits of a positive number [d.ddd * 10^exp]. *)
Definition trim_zeros (t : text) : text :=
  reverse (drop_while (fun c => c =? CH_0) (reverse t)).

(** The digits of [d], which stands for [d * 10^-p], without trailing zeros, and
    the exponent of the first. *)
Definition decimal_of (d p : Z) : text * Z :=
  let t := dec_text d in (trim_zeros t, Z.of_nat (length t) - 1 - p).

(** [a <= b] for [a = an/ad], with positive denominators. *)
Definition q_le (a b : Z * Z) : bool := a.1 * b.2 <=? b.1 * a.2.
Definition q_lt (a b : Z * Z) : bool := a.1 * b.2 <? b.1 * a.2.

(** [m * 2^e] and [d * 10^-p] as fractions. *)
Definition q_bin (m e : Z) : Z * Z := if 0 <=? e then (m * 2 ^ e, 1) else (m, 2 ^ (- e)).
Definition q_dec (d p : Z) : Z * Z := if 0 <=? p then (d, 10 ^ p) else (d * 10 ^ (- p), 1).

(** The largest [d] with [d * 10^-p <= m * 2^e]. *)
Definition dec_floor (m e p : Z) : Z :=
  let '(n, d) := q_bin m e in
  if 0 <=? p then (n * 10 ^ p) / d else n / (d * 10 ^ (- p)).

(** Numbers between the neighbours' midpoints round to [m * 2^e]; the midpoints
    themselves do when [m] is even.  The lower neighbour of a power of two is
    half as far away. *)
Definition rounds_to (m e : Z) (q : Z * Z) : bool :=
  let low := if (m =? 2 ^ 52) && (-1074 <? e) then q_bin (4 * m - 1) (e - 2)
             else q_bin (2 * m - 1) (e - 1) in
  let high := q_bin (2 * m + 1) (e - 1) in
  if Z.even m then q_le low q && q_le q high else q_lt low q && q_lt q high.

(** The first [p], from [p0] on, at which a multiple of [10^-p] rounds to the
    number: of the two multiples around it the nearer one, the upper one on a
    tie. *)
Fixpoint shortest_from (fuel : nat) (m e p : Z) : option (text * Z) :=
  match fuel with
  | O => None
  | S fuel' =>
    let d := dec_floor m e p in
    let down := (0 <? d) && rounds_to m e (q_dec d p) in
    let up := rounds_to m e (q_dec (d + 1) p) in
    if up && (negb down || q_le (q_dec (2 * d + 1) p) (q_bin (2 * m) e)) then
      Some (decimal_of (d + 1) p)
    else if down then Some (decimal_of d p)
    else shortest_from fuel' m e (p + 1)
  end.

(** The search starts at or above the position of the first digit, which the
    binary exponent gives within two; seventeen significant digits are always
    enough, so at most twenty positions are tried. *)
Definition shortest_digits (m e : Z) : option (text * Z) :=
  shortest_from 24 m e (- ((Z.log2 m + e) * 30103 / 100000) - 2).

(** Positional notation of [d.ddd * 10^exp]. *)
Definition positional (digits : text) (exp : Z) : text :=
  if exp <? 0 then
    [CH_0; CH_DOT] ++ replicate (Z.to_nat (- exp - 1)) CH_0 ++ digits
  else
    let int_len := Z.to_nat (exp + 1) in
    if (length digits <=? int_len)%nat then digits ++ replicate (int_len - length digits) CH_0
    else take int_len digits ++ [CH_DOT] ++ drop int_len digits.

(** [format!("{x}")] *)
Definition display_f64 (x : f64) : text :=
  match x with
  | S754_nan => lit "NaN"
  | S754_infinity s => (if s then [CH_MINUS] else []) ++ lit "inf"
  | S754_zero s => (if s then [CH_MINUS] else []) ++ [CH_0]
  | S754_finite s m e =>
    (if s then [CH_MINUS] else []) ++
    match shortest_digits (Zpos m) e with
    | Some (digits, exp) => positional digits exp
    | None => []
    end
  end.

(** [format!("{x:.1}")] of a number that is an integer. *)
Definition display_f64_int_1 (x : f64) : text :=
  (if f64_is_sign_negative x then [CH_MINUS] else [])
    ++ dec_text (Z.abs (f64_trunc x)) ++ [CH_DOT; CH_0].

Example display_tenth : of_chars (display_f64 (f64_dec 1 1)) = "0.1".
Proof. vm_compute. reflexivity. Qed.
Example display_sum : of_chars (display_f64 (f64_add (f64_dec 1 1) (f64_dec 2 1)))
  = "0.30000000000000004".
Proof. vm_compute. reflexivity. Qed.
Example display_small : of_chars (display_f64 (f64_dec (-15) 8)) = "-0.00000015".
Proof. vm_compute. reflexivity. Qed.
Example display_tie_away :
  of_chars (display_f64 (f64_dec 153397913630725925 2)) = "1533979136307259.3".
Proof. vm_compute. reflexivity. Qed.
Example display_min : of_chars (display_f64_int_1 (f64_of_Z (-40))) = "-40.0".
Proof. vm_compute. reflexivity. Qed.
Example shortest_subnormal : shortest_digits 1 (-1074) = Some (lit "5", -324).
Proof. vm_compute. reflexivity. Qed.
Example shortest_max : shortest_digits (2 ^ 53 - 1) 971 = Some (lit "17976931348623157", 308).
Proof. vm_compute. reflexivity. Qed.
Example shortest_power : shortest_digits (2 ^ 52) (-1022 - 52) = Some (lit "22250738585072014", -308).
Proof. vm_compute. reflexivity. Qed.

(** ** Lemmas *)

Lemma digits_value_acc t a :
  fold_left (fun a c => a * 10 + (c - CH_0)) t a
  = a * 10 ^ Z.of_nat (length t) + digits_value t.
Proof.
  unfold digits_value. revert a. induction t as [|c t IH]; intros a; simpl; [lia|].
  rewrite IH, (IH (0 * 10 + (c - CH_0))). rewrite Nat2Z.inj_succ, Z.pow_succ_r by lia. lia.
Qed.

Lemma digits_value_app t u :
  digits_value (t ++ u) = digits_value t * 10 ^ Z.of_nat (length u) + digits_value u.
Proof. unfold digits_value at 1. rewrite fold_left_app. apply digits_value_acc. Qed.

Lemma digits_fuel_ok fuel n :
  0 <= n -> (Z.to_nat (Z.log2 n) < fuel)%nat ->
  digits_value (digits_fuel fuel n) = n /\ forallb is_digit_char (digits_fuel fuel n) = true
  /\ digits_fuel fuel n <> [].
Proof.
  revert n. induction fuel as [|fuel IH]; intros n Hn Hf; [lia|].
  cbn [digits_fuel]. destruct (Z.ltb_spec n 10) as [Hlt|Hge].
  - unfold digits_value, is_digit_char, CH_0. simpl.
    repeat split; [lia| |done]. rewrite andb_true_r. apply andb_true_intro. split; lia.
  - assert (Hlog : Z.log2 (n / 10) < Z.log2 n).
    { apply Z.log2_lt_pow2; [apply Z.div_str_pos; lia|].
      apply Z.div_lt_upper_bound; [lia|].
      pose proof (Z.log2_spec n ltac:(lia)) as [_ Hu].
      rewrite Z.pow_succ_r in Hu by apply Z.log2_nonneg. lia. }
    assert (Hpos : 0 <= n / 10) by (apply Z.div_pos; lia).
    pose proof (Z.log2_nonneg (n / 10)) as Hnn.
    assert (Hf' : (Z.to_nat (Z.log2 (n / 10)) < fuel)%nat) by lia.
    destruct (IH (n / 10) Hpos Hf') as (Hv & Hd & _).
    pose proof (Z.mod_pos_bound n 10 ltac:(lia)). repeat split.
    + rewrite digits_value_app, Hv. unfold digits_value, CH_0. simpl.
      pose proof (Z.div_mod n 10 ltac:(lia)). lia.
    + rewrite forallb_app, Hd. unfold is_digit_char, CH_0. simpl. rewrite andb_true_r.
      apply andb_true_intro. split; lia.
    + by destruct (digits_fuel fuel (n / 10)).
Qed.

Lemma dec_text_value n : 0 <= n -> digits_value (dec_text n) = n.
Proof. intros. apply digits_fuel_ok; lia. Qed.
Lemma dec_text_digits n : 0 <= n -> forallb is_digit_char (dec_text n) = true.
Proof. intros. apply digits_fuel_ok; lia. Qed.
Lemma dec_text_nonempty n : 0 <= n -> dec_text n <> [].
Proof. intros. apply digits_fuel_ok; lia. Qed.

Lemma digit_char_range c : is_digit_char c = true -> 48 <= c <= 57.
Proof. unfold is_digit_char. intros. bool_to_prop. lia. Qed.

(** [i32::from_str] reads digits, with or without a sign. *)
Lemma i32_parse_digits t n :
  t <> [] -> forallb is_digit_char t = true -> digits_value t = n -> 0 <= n < 2 ^ 31 ->
  i32_parse t = Some n /\ i32_parse (CH_MINUS :: t) = Some (- n)
  /\ i32_parse (43 :: t) = Some n.
Proof.
  intros Hne Hd Hv Hn. unfold i32_parse, CH_MINUS.
  destruct t as [|c t']; [done|].
  assert (Hc : 48 <= c <= 57)
    by (simpl in Hd; apply andb_prop in Hd as [Hc _]; by apply digit_char_range).
  rewrite (proj2 (Z.eqb_neq c 45)) by lia. rewrite (proj2 (Z.eqb_neq c 43)) by lia.
  cbn [Z.eqb Pos.eqb].
  rewrite !bool_decide_eq_false_2 by done. rewrite Hd, Hv. repeat split;
    match goal with |- context [(?a <=? ?b) && (?c <? ?d)] =>
      destruct (Z.leb_spec a b); [|lia]; destruct (Z.ltb_spec c d); [|lia]; done end.
Qed.

Lemma digits_value_zeros k t : digits_value (replicate k CH_0 ++ t) = digits_value t.
Proof.
  rewrite digits_value_app. assert (H : digits_value (replicate k CH_0) = 0); [|lia].
  induction k as [|k IH]; [done|].
  change (replicate (S k) CH_0) with ([CH_0] ++ replicate k CH_0).
  by rewrite digits_value_app, IH.
Qed.

Lemma zeros_are_digits k : forallb is_digit_char (replicate k CH_0) = true.
Proof. induction k; simpl; done. Qed.
