(* ===== verification/Models.v ===== *)
(** * Data model

    The structs of [src/domain/models.rs], field for field, and the JSON value
    ([serde_json::Value]) that gate parameters are made of.  Strings are Rust
    [String]s (UTF-8 bytes), integers are [Z], floats are [F64.f64], a
    [BTreeMap] is the list of its entries in key order. *)

From S2P Require Import Prelude F64.

#[local] Set Warnings "-register-all".

(** ** JSON values *)

(** A JSON number as [serde_json] keeps it: a [u64], a negative [i64] or a
    float. *)
Inductive number : Type :=
| PosInt (n : Z)
| NegInt (i : Z)
| Float (f : f64).

(** [serde_json::Value]; an object is its entries in key order (the default
    [Map] is a [BTreeMap]). *)
Inductive value : Type :=
| VNull
| VBool (b : bool)
| VNumber (n : number)
| VString (s : string)
| VArray (items : list value)
| VObject (map : list (string * value)).

(** [Number::as_i64], [Number::as_u64], [Number::as_f64] *)
Definition number_as_i64 (n : number) : option Z :=
  match n with
  | PosInt k => if k <=? I64_MAX then Some k else None
  | NegInt i => Some i
  | Float _ => None
  end.
Definition number_as_u64 (n : number) : option Z :=
  match n with PosInt k => Some k | _ => None end.
Definition number_as_f64 (n : number) : option f64 :=
  match n with
  | PosInt k => Some (f64_of_Z k)
  | NegInt i => Some (f64_of_Z i)
  | Float f => Some f
  end.

(** [Value::as_i64], [as_u64], [as_array], [as_object] *)
Definition as_i64_value (v : value) : option Z :=
  match v with VNumber n => number_as_i64 n | _ => None end.
Definition as_u64_value (v : value) : option Z :=
  match v with VNumber n => number_as_u64 n | _ => None end.
Definition as_array (v : value) : option (list value) :=
  match v with VArray items => Some items | _ => None end.
Definition as_object (v : value) : option (list (string * value)) :=
  match v with VObject m => Some m | _ => None end.

(** [map.get(key)] and [*map.get_mut(key) = f(..)] on the entries. *)
Fixpoint obj_get (key : string) (m : list (string * value)) : option value :=
  match m with
  | [] => None
  | (k, v) :: m' => if decide (k = key) then Some v else obj_get key m'
  end.
Fixpoint obj_update (key : string) (f : value -> value) (m : list (string * value))
  : list (string * value) :=
  match m with
  | [] => []
  | (k, v) :: m' => if decide (k = key) then (k, f v) :: m' else (k, v) :: obj_update key f m'
  end.

(** The number of constructors of a value: the measure of the recursions over
    gate parameters. *)
Fixpoint value_size (v : value) : nat :=
  match v with
  | VArray items => S (sum_list_with value_size items)
  | VObject m => S (sum_list_with (fun kv => value_size kv.2) m)
  | _ => 1
  end.

(** ** Circuits *)

Record Gate := mkGate { gate_type : string; params : value }.
Record SliceAssignment := mkSliceAssignment { edge_id : string; sa_value : Z }.
Record NoiseModel := mkNoiseModel {
  depolarizing_p : option f64;
  readout_error : option f64
}.
Record ComplexCoeff := mkComplexCoeff { coeff_real : f64; coeff_imag : f64 }.
Record PauliTerm := mkPauliTerm { label : string; coeff : ComplexCoeff }.
Record ObservableSpec := mkObservableSpec { obs_id : string; terms : list PauliTerm }.

Record TensorRefWire := mkTensorRefWire {
  ket0 : option Z; tr_gate : option Z; tr_node : option Z;
  bra0 : option Z; control : option Z; target : option Z
}.
Record ContractNodeWire := mkContractNodeWire {
  op : string; node_left : TensorRefWire; node_right : TensorRefWire
}.
Record ContractionTreeWire := mkContractionTreeWire {
  kind : option string; nodes : list ContractNodeWire; peak_bytes : Z
}.

(** The budget a node bid with ([domain/work.rs]); a [ComputeTask] carries it. *)
Record Budget := mkBudget { deadline_secs : Z; expected_secs : f64 }.

Record ComputeRequest := mkComputeRequest {
  task_id : string;
  parent_task_id : option string;
  circuit_id : string;
  node_id : option string;
  qubit_count : Z;
  original_qubit_count : Z;
  slice_id : string;
  slice_assignments : list SliceAssignment;
  circuit : list Gate;
  required_votes : option Z;
  mps_max_bond_dim : option Z;
  mps_site_order : option (list Z);
  mps_time_split : option Z;
  contraction_tree : option ContractionTreeWire;
  output_mode : string;
  classical_bit_count : option Z;
  shots : option Z;
  sample_seed : option Z;
  observables : list ObservableSpec;
  noise_model : option NoiseModel;
  security_level : string
}.

(** [request.node_id = n] and [request.circuit = c] *)
Definition with_node_id (n : option string) (r : ComputeRequest) : ComputeRequest :=
  mkComputeRequest r.(task_id) r.(parent_task_id) r.(circuit_id) n r.(qubit_count)
    r.(original_qubit_count) r.(slice_id) r.(slice_assignments) r.(circuit)
    r.(required_votes) r.(mps_max_bond_dim) r.(mps_site_order) r.(mps_time_split)
    r.(contraction_tree) r.(output_mode) r.(classical_bit_count) r.(shots) r.(sample_seed)
    r.(observables) r.(noise_model) r.(security_level).
Definition with_circuit (c : list Gate) (r : ComputeRequest) : ComputeRequest :=
  mkComputeRequest r.(task_id) r.(parent_task_id) r.(circuit_id) r.(node_id) r.(qubit_count)
    r.(original_qubit_count) r.(slice_id) r.(slice_assignments) c
    r.(required_votes) r.(mps_max_bond_dim) r.(mps_site_order) r.(mps_time_split)
    r.(contraction_tree) r.(output_mode) r.(classical_bit_count) r.(shots) r.(sample_seed)
    r.(observables) r.(noise_model) r.(security_level).

Record ComputeTask := mkComputeTask {
  request : ComputeRequest;
  orchestrator_pubkey : string;
  budget : option Budget;
  accepted_at_ms : Z
}.

(** ** Results and proofs *)

Record PublicInputs := mkPublicInputs {
  pi_circuit_id : string;
  pi_sub_task_id : string;
  pi_node_id : string;
  pi_slice_id : string;
  output_result_hash : string;
  measurement_spec_hash : string;
  pi_security_level : string
}.
Record Proof := mkProof { public_inputs : PublicInputs; stark_proof_b64 : string }.

Record WorkReport := mkWorkReport {
  trace_rows : Z; gate_count : Z; compute_wall_ms : Z; prove_wall_ms : Z;
  proof_bytes : Z; tn_backend : string; vram_peak_bytes : Z; proof_scope : string
}.
Record ComplexResult := mkComplexResult { cr_real : f64; cr_imag : f64 }.
Record SampleResult := mkSampleResult { counts : list (string * Z); sr_shots : Z }.
Record ExpectationResult := mkExpectationResult {
  values : list (string * ComplexResult)
}.

Record ComputeResponse := mkComputeResponse {
  resp_task_id : string;
  resp_status : string;
  resp_result_type : string;
  resp_complex_result : ComplexResult;
  resp_sample_result : option SampleResult;
  resp_expectation_result : option ExpectationResult;
  resp_proof : Proof;
  resp_work_report : option WorkReport
}.

Record TaskResultPayload := mkTaskResultPayload {
  pl_task_id : string;
  pl_status : string;
  pl_result_type : string;
  pl_complex_result : option ComplexResult;
  pl_sample_result : option SampleResult;
  pl_expectation_result : option ExpectationResult;
  pl_proof : option Proof;
  pl_error : option string;
  pl_execution_time_ms : option Z;
  pl_work_report : option WorkReport
}.

Record CoreSystemInfo := mkCoreSystemInfo {
  system_memory_used_kb : Z;
  system_memory_total_kb : Z;
  cpu_usage_percent : f64;  (* an f32, as the binary64 number it is: [Messages.f32_codec] *)
  tn_backend_requested : string;
  tn_backend_active : string;
  tn_backend_note : option string;
  info_mps_max_bond_dim : Z;
  info_pcs_memory_policy : string;
  vram_budget_bytes : option Z;
  tn_seconds_per_byte : option f64;
  tn_seconds_per_flop : option f64
}.

(** ** Lemmas *)

(** Induction over JSON values, with the hypothesis for every item of an array
    and every entry of an object. *)
Lemma value_rect_nested (P : value -> Prop) :
  P VNull -> (forall b, P (VBool b)) -> (forall n, P (VNumber n)) ->
  (forall s, P (VString s)) ->
  (forall items, Forall P items -> P (VArray items)) ->
  (forall m, Forall (fun kv => P kv.2) m -> P (VObject m)) ->
  forall v, P v.
Proof.
  intros Hn Hb Hnum Hs Ha Ho. fix IH 1. intros [|b|n|s|items|m].
  - exact Hn.
  - apply Hb.
  - apply Hnum.
  - apply Hs.
  - apply Ha. induction items as [|x items IHi]; constructor; [apply IH | exact IHi].
  - apply Ho. induction m as [|[k x] m IHm]; constructor; [apply IH | exact IHm].
Qed.

Lemma value_size_pos v : (0 < value_size v)%nat.
Proof. destruct v; simpl; lia. Qed.

Lemma obj_get_size key m v :
  obj_get key m = Some v -> (value_size v < value_size (VObject m))%nat.
Proof.
  simpl. induction m as [|[k w] m IH]; simpl; [done|].
  case_decide; intros; simplify_eq/=; [lia|]. specialize (IH ltac:(done)). lia.
Qed.

Lemma obj_get_In key m v : obj_get key m = Some v -> In (key, v) m.
Proof.
  induction m as [|[k w] m IH]; simpl; [done|].
  case_decide; intros; simplify_eq/=; auto.
Qed.

Lemma obj_get_update_eq key f m :
  obj_get key (obj_update key f m) = f <$> obj_get key m.
Proof.
  induction m as [|[k w] m IH]; simpl; [done|].
  case_decide; simpl; case_decide; done.
Qed.

Lemma obj_get_update_ne key key' f m :
  key <> key' -> obj_get key' (obj_update key f m) = obj_get key' m.
Proof.
  intros Hne. induction m as [|[k w] m IH]; simpl; [done|].
  case_decide; simpl; case_decide; simplify_eq; done.
Qed.

Lemma obj_update_id key f m v :
  obj_get key m = Some v -> f v = v -> obj_update key f m = m.
Proof.
  induction m as [|[k w] m IH]; simpl; [done|].
  case_decide; intros; simplify_eq/=; [congruence|]. f_equal; auto.
Qed.

Lemma obj_update_none key f m : obj_get key m = None -> obj_update key f m = m.
Proof.
  induction m as [|[k w] m IH]; simpl; [done|].
  case_decide; intros; simplify_eq/=. f_equal; auto.
Qed.

Lemma array_item_size items v :
  In v items -> (value_size v < value_size (VArray items))%nat.
Proof.
  simpl. induction items as [|w items IH]; simpl; [done|].
  intros [->|Hin]; [lia|]. specialize (IH Hin). lia.
Qed.
#[export] Hint Resolve value_size_pos obj_get_size array_item_size : wqc.

(** ** Decidable equality *)

#[export] Instance f64_eq_dec : EqDecision f64.
Proof. unfold f64. solve_decision. Defined.
#[export] Instance number_eq_dec : EqDecision number.
Proof. solve_decision. Defined.

Fixpoint value_eqb (v w : value) : bool :=
  match v, w with
  | VNull, VNull => true
  | VBool b, VBool c => Bool.eqb b c
  | VNumber m, VNumber n => bool_decide (m = n)
  | VString s, VString t => bool_decide (s = t)
  | VArray l, VArray k =>
    (fix go l k :=
       match l, k with
       | [], [] => true
       | x :: l', y :: k' => value_eqb x y && go l' k'
       | _, _ => false
       end) l k
  | VObject l, VObject k =>
    (fix go l k :=
       match l, k with
       | [], [] => true
       | (s, x) :: l', (t, y) :: k' => bool_decide (s = t) && value_eqb x y && go l' k'
       | _, _ => false
       end) l k
  | _, _ => false
  end.

Lemma value_eqb_eq v w : value_eqb v w = true <-> v = w.
Proof.
  revert w. induction v as [|b|n|s|l IH|m IH] using value_rect_nested; intros [|b'|n'|s'|k|k];
    cbn [value_eqb]; try (by split); rewrite ?bool_decide_eq_true, ?Bool.eqb_true_iff;
    try (split; congruence).
  - revert k. induction IH as [|x l Hx _ IHl]; intros [|y k]; try (by split).
    rewrite andb_true_iff, Hx, IHl. split; [intros [-> [= ->]]; done|by intros [= -> ->]].
  - revert k. induction IH as [|[s x] l Hx _ IHl]; intros [|[t y] k]; try (by split).
    cbn in Hx. rewrite !andb_true_iff, Hx, IHl, bool_decide_eq_true.
    split; [intros [[-> ->] [= ->]]; done|by intros [= -> -> ->]].
Qed.

#[export] Instance value_eq_dec : EqDecision value.
Proof.
  intros v w. destruct (value_eqb v w) eqn:E; [left|right].
  - by apply value_eqb_eq.
  - intros Hvw%value_eqb_eq. congruence.
Defined.

#[export] Instance gate_eq_dec : EqDecision Gate.
Proof. solve_decision. Defined.
#[export] Instance slice_assignment_eq_dec : EqDecision SliceAssignment.
Proof. solve_decision. Defined.
#[export] Instance noise_model_eq_dec : EqDecision NoiseModel.
Proof. solve_decision. Defined.
#[export] Instance complex_coeff_eq_dec : EqDecision ComplexCoeff.
Proof. solve_decision. Defined.
#[export] Instance pauli_term_eq_dec : EqDecision PauliTerm.
Proof. solve_decision. Defined.
#[export] Instance observable_eq_dec : EqDecision ObservableSpec.
Proof. solve_decision. Defined.
#[export] Instance tensor_ref_eq_dec : EqDecision TensorRefWire.
Proof. solve_decision. Defined.
#[export] Instance contract_node_eq_dec : EqDecision ContractNodeWire.
Proof. solve_decision. Defined.
#[export] Instance tree_eq_dec : EqDecision ContractionTreeWire.
Proof. solve_decision. Defined.
#[export] Instance budget_eq_dec : EqDecision Budget.
Proof. solve_decision. Defined.
#[export] Instance request_eq_dec : EqDecision ComputeRequest.
Proof. solve_decision. Defined.
#[export] Instance task_eq_dec : EqDecision ComputeTask.
Proof. solve_decision. Defined.
