(* ===== verification/Features.v ===== *)
(** * Feature masks ([src/domain/features.rs])

    The bid mask of a node, derived from the gate names that wqc-core lists, and
    the test that a mask covers what a task requires. *)

From S2P Require Import Prelude.

Definition FEATURE_STANDARD_GATES : Z := Z.shiftl 1 0.
Definition FEATURE_CUSTOM_UNITARY : Z := Z.shiftl 1 1.
Definition FEATURE_NETWORK_GATE_SPLIT : Z := Z.shiftl 1 3.
Definition FEATURE_WORK_BUDGET : Z := Z.shiftl 1 4.

Definition str_in (s : string) (l : list string) : bool := bool_decide (s ∈ l).

Definition apply_gate_feature (features : Z) (gate : string) : Z :=
  if str_in gate ["H"; "X"; "Y"; "Z"; "S"; "T"; "CNOT"; "CZ"; "CCNOT"] then
    Z.lor features FEATURE_STANDARD_GATES
  else if str_in gate ["RX"; "RY"; "RZ"] then
    Z.lor features FEATURE_CUSTOM_UNITARY
  else if str_in gate ["NETWORK_GATE_SPLIT"] then
    Z.lor features FEATURE_NETWORK_GATE_SPLIT
  else features.

Definition features_from_gates (gates : list string) : Z :=
  fold_left apply_gate_feature gates 0.

Definition node_features (gates : list string) (judges_work : bool) : Z :=
  let features := features_from_gates gates in
  if judges_work then Z.lor features FEATURE_WORK_BUDGET else features.

Definition supports_required_features (supported required : Z) : bool :=
  Z.land supported required =? required.

Example features_h_cnot : features_from_gates ["H"; "CNOT"] = FEATURE_STANDARD_GATES.
Proof. reflexivity. Qed.
Example features_h_rx : features_from_gates ["H"; "RX"] = 3.
Proof. reflexivity. Qed.

(** ** The mask bit by bit *)

(** The bit a gate name sets. *)
Definition gate_bit (gate : string) : option Z :=
  if str_in gate ["H"; "X"; "Y"; "Z"; "S"; "T"; "CNOT"; "CZ"; "CCNOT"] then Some 0
  else if str_in gate ["RX"; "RY"; "RZ"] then Some 1
  else if str_in gate ["NETWORK_GATE_SPLIT"] then Some 3
  else None.

Lemma testbit_pow2 k i : 0 <= k -> Z.testbit (Z.shiftl 1 k) i = bool_decide (i = k).
Proof.
  intros Hk. rewrite Z.shiftl_1_l. case_bool_decide; subst.
  - by apply Z.pow2_bits_true.
  - apply Z.pow2_bits_false. done.
Qed.

Lemma apply_gate_feature_bit features gate i :
  Z.testbit (apply_gate_feature features gate) i
  = Z.testbit features i || bool_decide (gate_bit gate = Some i).
Proof.
  unfold apply_gate_feature, gate_bit.
  repeat case_match; rewrite ?Z.lor_spec;
    unfold FEATURE_STANDARD_GATES, FEATURE_CUSTOM_UNITARY, FEATURE_NETWORK_GATE_SPLIT;
    rewrite ?testbit_pow2 by lia; f_equal;
    repeat case_bool_decide; simplify_eq; try done; by rewrite orb_false_r.
Qed.

Lemma fold_gate_feature_bit gates features i :
  Z.testbit (fold_left apply_gate_feature gates features) i
  = Z.testbit features i || existsb (fun g => bool_decide (gate_bit g = Some i)) gates.
Proof.
  revert features. induction gates as [|g gates IH]; intros features; simpl.
  - by rewrite orb_false_r.
  - by rewrite IH, apply_gate_feature_bit, orb_assoc.
Qed.

Lemma supports_spec supported required :
  supports_required_features supported required = true
  <-> forall i, Z.testbit required i = true -> Z.testbit supported i = true.
Proof.
  unfold supports_required_features. rewrite Z.eqb_eq. split.
  - intros Heq i Hi. rewrite <- Heq, Z.land_spec in Hi. by apply andb_prop in Hi as [? _].
  - intros H. apply Z.bits_inj'. intros i _. rewrite Z.land_spec.
    destruct (Z.testbit required i) eqn:E; [by rewrite H | by rewrite andb_false_r].
Qed.

(** A node's mask covers a task's requirements exactly when every required
    bit is either the bit of a gate that wqc-core lists, or the work-budget bit
    on a node that judges work. *)
Theorem node_supports_iff gates judges_work required :
  supports_required_features (node_features gates judges_work) required = true
  <-> forall i, Z.testbit required i = true ->
      (exists g, In g gates /\ gate_bit g = Some i) \/ (judges_work = true /\ i = 4).
Proof.
  rewrite supports_spec. apply forall_proper. intros i.
  assert (Hbit : Z.testbit (node_features gates judges_work) i = true <->
    (exists g, In g gates /\ gate_bit g = Some i) \/ (judges_work = true /\ i = 4)).
  { unfold node_features, features_from_gates.
    assert (Hf : Z.testbit (fold_left apply_gate_feature gates 0) i = true <->
      exists g, In g gates /\ gate_bit g = Some i).
    { rewrite fold_gate_feature_bit, Z.bits_0, orb_false_l, existsb_exists.
      by setoid_rewrite bool_decide_eq_true. }
    destruct judges_work.
    - rewrite Z.lor_spec, orb_true_iff, Hf. unfold FEATURE_WORK_BUDGET.
      rewrite testbit_pow2, bool_decide_eq_true by lia. tauto.
    - rewrite Hf. intuition discriminate. }
  by rewrite Hbit.
Qed.
