(* ===== verification/MemoryBudget.v ===== *)
(** * Memory envelope ([src/memory_budget.rs])

    How many qubits a memory budget holds, densely and as an MPS, and how the
    budget is capped by the host's RAM and by the adapter's VRAM. *)

From S2P Require Import Prelude F64.

Definition DENSE_AMPLITUDE_BYTES : Z := 16.
Definition MPS_BOND_DIM : Z := 128.
Definition MPS_SITE_FACTOR_BYTES : Z := 32.
Definition GIB_U64 : Z := 1024 * 1024 * 1024.
Definition GIB : f64 := f64_of_Z GIB_U64.

Definition HOST_MEMORY_RESERVE_THRESHOLD_GIB : Z := 16.
Definition HOST_MEMORY_RESERVE_SMALL_GIB : Z := 1.
Definition HOST_MEMORY_RESERVE_LARGE_GIB : Z := 2.
Definition VRAM_MEMORY_RESERVE_GIB : Z := 1.

Inductive MemoryCapSource := Ram | Vram.
#[export] Instance MemoryCapSource_eq_dec : EqDecision MemoryCapSource.
Proof. solve_decision. Defined.

Definition MemoryCapSource_as_str (s : MemoryCapSource) : string :=
  match s with Ram => "ram" | Vram => "vram" end.

Definition host_memory_reserve_gib (total_gib : Z) : Z :=
  if HOST_MEMORY_RESERVE_THRESHOLD_GIB <=? total_gib then HOST_MEMORY_RESERVE_LARGE_GIB
  else HOST_MEMORY_RESERVE_SMALL_GIB.

Definition max_wqc_memory_gib_from_total (total_gib : Z) : Z :=
  if total_gib =? 0 then 1
  else Z.max (u64_sat_sub total_gib (host_memory_reserve_gib total_gib)) 1.

Definition max_wqc_memory_bytes_from_total (total_bytes : Z) : Z :=
  let gib := total_bytes / GIB_U64 in
  u64_sat_mul (max_wqc_memory_gib_from_total gib) GIB_U64.

(** [usize] is 64 bits wide, so [usize::try_from] of a [u64] keeps it. *)
Definition max_qubits_from_mps_memory_budget (budget_bytes : Z) : Z :=
  let per_qubit := u64_sat_mul (u64_sat_mul MPS_BOND_DIM MPS_BOND_DIM) MPS_SITE_FACTOR_BYTES in
  if (per_qubit =? 0) || (budget_bytes <? per_qubit) then 0
  else Z.min (budget_bytes / per_qubit) U32_MAX.

(** The [while] loop; at most 63 turns, so [dense_fuel] never runs out. *)
Definition dense_fuel : nat := 64.
Fixpoint dense_loop (fuel : nat) (n budget_bytes : Z) : Z :=
  match fuel with
  | O => n
  | S fuel' =>
    if (n <? 63) && (u64_sat_mul DENSE_AMPLITUDE_BYTES (Z.shiftl 1 n) <=? budget_bytes)
    then dense_loop fuel' (n + 1) budget_bytes
    else n
  end.

Definition max_qubits_from_dense_memory_budget (budget_bytes : Z) : Z :=
  if budget_bytes <? DENSE_AMPLITUDE_BYTES then 0
  else u64_sat_sub (dense_loop dense_fuel 0 budget_bytes) 1.

Definition effective_memory_bytes (requested_gib : option f64) (total_physical_bytes : Z) : Z :=
  let cap := max_wqc_memory_bytes_from_total total_physical_bytes in
  match requested_gib with
  | None => cap
  | Some g => Z.min (f64_as_u64 (f64_mul (f64_max g f64_zero) GIB)) cap
  end.

Definition resolve_max_qubits_from_memory_gb
  (requested_gib : option f64) (total_physical_bytes : Z) : Z * Z * f64 :=
  let bytes := effective_memory_bytes requested_gib total_physical_bytes in
  let effective_gib := f64_div (f64_of_Z bytes) GIB in
  (max_qubits_from_dense_memory_budget bytes, max_qubits_from_mps_memory_budget bytes,
   effective_gib).

(** The byte budget and which cap won: the first half of
    [resolve_max_qubits_with_optional_vram]. *)
Definition vram_envelope (ram_budget_bytes : Z) (vram_budget_bytes : option Z)
  : Z * MemoryCapSource :=
  match vram_budget_bytes with
  | Some vram =>
    if 0 <? vram then
      let vram_usable :=
        Z.max (u64_sat_sub vram (u64_sat_mul VRAM_MEMORY_RESERVE_GIB GIB_U64))
          DENSE_AMPLITUDE_BYTES in
      if vram_usable <? ram_budget_bytes then (vram_usable, Vram)
      else (ram_budget_bytes, Ram)
    else (ram_budget_bytes, Ram)
  | None => (ram_budget_bytes, Ram)
  end.

Definition resolve_max_qubits_with_optional_vram
  (ram_budget_bytes : Z) (vram_budget_bytes : option Z) : Z * Z * f64 * MemoryCapSource :=
  let '(bytes, source) := vram_envelope ram_budget_bytes vram_budget_bytes in
  let effective_gib := f64_div (f64_of_Z bytes) GIB in
  (max_qubits_from_dense_memory_budget bytes, max_qubits_from_mps_memory_budget bytes,
   effective_gib, source).

Example one_gib_yields_26_qubits :
  max_qubits_from_dense_memory_budget GIB_U64 = 26
  /\ max_qubits_from_mps_memory_budget GIB_U64 = 2048.
Proof. split; reflexivity. Qed.
Example mps_width_saturates : max_qubits_from_mps_memory_budget U64_MAX = U32_MAX.
Proof. reflexivity. Qed.
Example caps_at_total_minus_one_gib :
  effective_memory_bytes (Some (f64_of_Z 9)) (10 * GIB_U64) = 9 * GIB_U64.
Proof. reflexivity. Qed.
Example caps_at_total_minus_two_gib :
  effective_memory_bytes (Some (f64_of_Z 16)) (16 * GIB_U64) = 14 * GIB_U64.
Proof. reflexivity. Qed.

(** ** Lemmas *)

(** The saturated product is at most a budget below [u64::MAX] exactly when the
    exact product is. *)
Lemma sat_mul_le b n :
  b < U64_MAX ->
  (u64_sat_mul DENSE_AMPLITUDE_BYTES (Z.shiftl 1 n) <=? b) = (16 * 2 ^ n <=? b).
Proof.
  intros Hb. unfold u64_sat_mul, DENSE_AMPLITUDE_BYTES.
  rewrite Z.shiftl_1_l.
  destruct (Z.leb_spec (16 * 2 ^ n) b).
  - apply Z.leb_le. lia.
  - apply Z.leb_gt. lia.
Qed.

(** While [16 * 2^n] fits, the loop goes on; it stops one past the exponent of
    the budget. *)
Lemma dense_loop_log2 b fuel n :
  16 <= b < U64_MAX -> 0 <= n <= Z.log2 (b / 16) + 1 ->
  Z.log2 (b / 16) + 1 - n < Z.of_nat fuel ->
  dense_loop fuel n b = Z.log2 (b / 16) + 1.
Proof.
  intros Hb. set (L := Z.log2 (b / 16)).
  assert (Hq : 0 < b / 16) by (apply Z.div_str_pos; lia).
  destruct (Z.log2_spec (b / 16) Hq) as [HL1 HL2]. fold L in HL1, HL2.
  assert (HLlt : L < 60).
  { apply Z.log2_lt_pow2; [done|]. apply Z.div_lt_upper_bound; [lia|].
    change U64_MAX with (2 ^ 64 - 1) in Hb. lia. }
  assert (HL1' : 16 * 2 ^ L <= b) by (pose proof (Z.mul_div_le b 16); lia).
  assert (HL2' : b < 16 * 2 ^ (L + 1)).
  { pose proof (Z.mul_succ_div_gt b 16 ltac:(lia)). rewrite <- Z.add_1_r in HL2. lia. }
  revert n. induction fuel as [|fuel IH]; intros n Hn Hf; [lia|]. cbn [dense_loop].
  rewrite sat_mul_le by lia.
  destruct (decide (n <= L)) as [Hle|Hgt].
  - assert (2 ^ n <= 2 ^ L) by (apply Z.pow_le_mono_r; lia).
    rewrite (proj2 (Z.ltb_lt n 63)), (proj2 (Z.leb_le _ _)) by lia. simpl. apply IH; lia.
  - assert (n = L + 1) as -> by lia.
    rewrite (proj2 (Z.leb_gt _ _)) by lia. by rewrite andb_false_r.
Qed.

Lemma dense_loop_ge fuel n b : n <= dense_loop fuel n b.
Proof.
  revert n. induction fuel as [|fuel IH]; intros n; simpl; [lia|].
  case_match; [|lia]. specialize (IH (n + 1)). lia.
Qed.

Lemma dense_loop_mono fuel n b1 b2 : b1 <= b2 -> dense_loop fuel n b1 <= dense_loop fuel n b2.
Proof.
  intros Hb. revert n. induction fuel as [|fuel IH]; intros n; simpl; [lia|].
  destruct (n <? 63); simpl; [|lia].
  destruct (Z.leb_spec (u64_sat_mul DENSE_AMPLITUDE_BYTES (Z.shiftl 1 n)) b1).
  - rewrite (proj2 (Z.leb_le _ b2)) by lia. apply IH.
  - case_match; [|lia]. pose proof (dense_loop_ge fuel (n + 1) b2). lia.
Qed.

Lemma dense_mono b1 b2 :
  b1 <= b2 ->
  max_qubits_from_dense_memory_budget b1 <= max_qubits_from_dense_memory_budget b2.
Proof.
  intros Hb. unfold max_qubits_from_dense_memory_budget, DENSE_AMPLITUDE_BYTES, u64_sat_sub.
  pose proof (dense_loop_mono dense_fuel 0 b1 b2 Hb).
  destruct (Z.ltb_spec b1 16), (Z.ltb_spec b2 16); lia.
Qed.

Lemma mps_mono b1 b2 :
  b1 <= b2 -> max_qubits_from_mps_memory_budget b1 <= max_qubits_from_mps_memory_budget b2.
Proof.
  intros Hb. unfold max_qubits_from_mps_memory_budget.
  change (u64_sat_mul _ MPS_SITE_FACTOR_BYTES) with 524288. simpl.
  destruct (Z.ltb_spec b1 524288), (Z.ltb_spec b2 524288); try lia.
  - pose proof (Z.div_pos b2 524288). change U32_MAX with 4294967295. lia.
  - pose proof (Z.div_le_mono b1 b2 524288). lia.
Qed.

Lemma reserve_le total_gib :
  0 < total_gib -> max_wqc_memory_gib_from_total total_gib <= Z.max 1 (total_gib - 1)
  /\ (16 <= total_gib -> max_wqc_memory_gib_from_total total_gib = total_gib - 2).
Proof.
  intros Ht. unfold max_wqc_memory_gib_from_total, host_memory_reserve_gib, u64_sat_sub,
    HOST_MEMORY_RESERVE_THRESHOLD_GIB, HOST_MEMORY_RESERVE_LARGE_GIB,
    HOST_MEMORY_RESERVE_SMALL_GIB.
  rewrite (proj2 (Z.eqb_neq total_gib 0)) by lia.
  destruct (Z.leb_spec 16 total_gib); lia.
Qed.

Lemma dense_log2 b :
  16 <= b < U64_MAX ->
  max_qubits_from_dense_memory_budget b = Z.log2 (b / 16) /\ 0 < b / 16 /\ Z.log2 (b / 16) < 60.
Proof.
  intros Hb.
  assert (Hq : 0 < b / 16) by (apply Z.div_str_pos; lia).
  assert (HL : Z.log2 (b / 16) < 60).
  { apply Z.log2_lt_pow2; [done|]. apply Z.div_lt_upper_bound; [lia|].
    change U64_MAX with (2 ^ 64 - 1) in Hb. lia. }
  pose proof (Z.log2_nonneg (b / 16)). split_and!; [|done..].
  unfold max_qubits_from_dense_memory_budget, DENSE_AMPLITUDE_BYTES, u64_sat_sub.
  rewrite (proj2 (Z.ltb_ge b 16)) by lia.
  rewrite dense_loop_log2 by (unfold dense_fuel; lia). lia.
Qed.

(** ** Theorems *)

(** C34. For every budget from 16 bytes up to but excluding [u64::MAX], the
    loop returns exactly [floor(log2(budget / 16))]: the largest [n] whose
    statevector of [2^n] 16-byte amplitudes fits the budget. *)
Theorem dense_qubits_is_floor_log2 b :
  16 <= b < U64_MAX ->
  max_qubits_from_dense_memory_budget b = Z.log2 (b / 16)
  /\ 16 * 2 ^ max_qubits_from_dense_memory_budget b <= b
     < 16 * 2 ^ (max_qubits_from_dense_memory_budget b + 1).
Proof.
  intros Hb. destruct (dense_log2 b Hb) as (Heq & Hq & HL). split; [done|]. rewrite Heq.
  pose proof (Z.log2_nonneg (b / 16)).
  destruct (Z.log2_spec (b / 16) Hq) as [H1 H2]. rewrite <- Z.add_1_r in H2.
  pose proof (Z.mul_div_le b 16). pose proof (Z.mul_succ_div_gt b 16). lia.
Qed.

Lemma dense_qubits_is_floor_log2_witness :
  max_qubits_from_dense_memory_budget (3 * GIB_U64) = 27.
Proof. exact (proj1 (dense_qubits_is_floor_log2 (3 * GIB_U64) ltac:(cbv; split; congruence))). Defined.

(** At [u64::MAX] the saturating product never exceeds the budget, so the loop
    runs to its cap of 63 and the width is 62, three qubits too many. *)
Lemma dense_qubits_at_max :
  max_qubits_from_dense_memory_budget U64_MAX = 62 /\ Z.log2 (U64_MAX / 16) = 59.
Proof. split; reflexivity. Qed.

(** Whatever the operator asks for (a NaN, a negative or an infinite
    amount included), the budget in bytes is never negative and stays under the
    host's RAM less one GiB, less two GiB on a host of 16 GiB or more; only a
    host with less than two GiB gets the one-GiB floor instead. *)
Theorem effective_memory_within_host req total :
  in_u64 total ->
  0 <= effective_memory_bytes req total <= Z.max GIB_U64 (total - GIB_U64)
  /\ (16 * GIB_U64 <= total -> effective_memory_bytes req total <= total - 2 * GIB_U64).
Proof.
  unfold in_u64. intros Ht.
  set (cap := max_wqc_memory_bytes_from_total total).
  assert (Hcap : 0 <= cap <= Z.max GIB_U64 (total - GIB_U64)
    /\ (16 * GIB_U64 <= total -> cap <= total - 2 * GIB_U64)).
  { unfold cap, max_wqc_memory_bytes_from_total, u64_sat_mul.
    pose proof (Z.mul_div_le total GIB_U64 ltac:(done)) as Hd.
    pose proof (Z.div_pos total GIB_U64 ltac:(lia) ltac:(done)) as Hp.
    assert (16 * GIB_U64 <= total -> 16 <= total / GIB_U64)
      by (intros; apply Z.div_le_lower_bound; [done|lia]).
    change GIB_U64 with 1073741824 in *. change U64_MAX with 18446744073709551615.
    destruct (decide (total / 1073741824 = 0)) as [->|Hne].
    - change (max_wqc_memory_gib_from_total 0) with 1. lia.
    - destruct (reserve_le (total / 1073741824) ltac:(lia)) as [H1 H2].
      assert (1 <= max_wqc_memory_gib_from_total (total / 1073741824))
        by (unfold max_wqc_memory_gib_from_total; case_match; lia).
      lia. }
  assert (Heff : 0 <= effective_memory_bytes req total <= cap).
  { unfold effective_memory_bytes. fold cap. destruct req as [g|]; [|lia].
    assert (0 <= f64_as_u64 (f64_mul (f64_max g f64_zero) GIB)); [|lia].
    unfold f64_as_u64. destruct (f64_mul _ _) as [|[]| |]; try lia. done. }
  lia.
Qed.

Lemma effective_memory_within_host_witness :
  effective_memory_bytes (Some f64_nan) (16 * GIB_U64) <= 14 * GIB_U64.
Proof.
  exact (proj2 (effective_memory_within_host (Some f64_nan) (16 * GIB_U64)
    ltac:(cbv; split; congruence)) ltac:(done)).
Defined.

(** Intersecting with the adapter's VRAM only ever lowers what the node
    advertises: the byte budget is the smaller of the RAM budget and the VRAM
    less one GiB (at least 16 bytes), the source says which one it is, and
    neither width exceeds the one of the RAM budget alone. *)
Theorem vram_only_lowers ram vram :
  let '(dense, mps, _, source) := resolve_max_qubits_with_optional_vram ram vram in
  let bytes := (vram_envelope ram vram).1 in
  bytes = match vram with
          | Some v => if 0 <? v then Z.min ram (Z.max (v - GIB_U64) 16) else ram
          | None => ram
          end
  /\ (source = Vram <-> bytes < ram)
  /\ dense <= max_qubits_from_dense_memory_budget ram
  /\ mps <= max_qubits_from_mps_memory_budget ram.
Proof.
  unfold resolve_max_qubits_with_optional_vram.
  destruct (vram_envelope ram vram) as [bytes source] eqn:E. simpl.
  assert (H : bytes = match vram with
          | Some v => if 0 <? v then Z.min ram (Z.max (v - GIB_U64) 16) else ram
          | None => ram end /\ (source = Vram <-> bytes < ram)).
  { revert E. unfold vram_envelope, u64_sat_sub, DENSE_AMPLITUDE_BYTES.
    change (u64_sat_mul VRAM_MEMORY_RESERVE_GIB GIB_U64) with GIB_U64.
    change GIB_U64 with 1073741824.
    destruct vram as [v|]; [destruct (0 <? v); [destruct (Z.ltb_spec
      (Z.max (Z.max 0 (v - 1073741824)) 16) ram)|]|]; intros [= <- <-];
      (split; [lia | split; [try discriminate; lia | intros; try done; lia]]). }
  destruct H as [-> Hs]. repeat split; try apply Hs.
  - apply dense_mono. destruct vram as [v|]; [destruct (0 <? v)|]; lia.
  - apply mps_mono. destruct vram as [v|]; [destruct (0 <? v)|]; lia.
Qed.
