(* ===== verification/Token.v ===== *)
(** * Token amounts ([src/domain/token.rs])

    Parsing a human WQC amount into Planck.  [BigInt::from_str] is third-party
    code and so a parameter, with its documented behaviour on decimal digits as
    hypotheses. *)

From S2P Require Import Prelude Bytes.

Definition PLANCK_PER_WQC : Z := 1000000000000000000.

Inductive TokenError :=
| EmptyAmount            (* empty WQC amount *)
| InvalidAmount          (* invalid WQC amount *)
| InvalidWholePart       (* invalid WQC whole part *)
| TooManyFractionDigits  (* exceeds the fractional digits *)
| InvalidFractionalPart. (* invalid WQC fractional part *)

(** [raw.split(c)] on an ASCII separator: always at least one part. *)
Fixpoint split_bytes (c : byte) (l : bytes) : list bytes :=
  match l with
  | [] => [[]]
  | b :: l' =>
    if decide (b = c) then [] :: split_bytes c l'
    else match split_bytes c l' with
         | p :: ps => (b :: p) :: ps
         | [] => [[b]]
         end
  end.

Definition DOT : byte := Byte.x2e.
Definition ZERO : byte := Byte.x30.

Definition is_ascii_digit_char (c : Z) : bool := (48 <=? c) && (c <=? 57).

Section token.
(** [BigInt::from_str]; a Rust [String] is its bytes. *)
Context (bigint_from_str : bytes -> option Z).

Definition parse_fixed_point_wqc (raw : bytes) (max_frac_digits : nat) (scale : Z)
  : result TokenError Z :=
  if decide (raw = []) then Err EmptyAmount
  else
    let parts := split_bytes DOT raw in
    if (2 <? Z.of_nat (length parts)) then Err InvalidAmount
    else
      let part0 := default [] (parts !! 0%nat) in
      let whole_str := if decide (part0 = []) then [ZERO] else part0 in
      match bigint_from_str whole_str with
      | None => Err InvalidWholePart
      | Some whole =>
        if whole <? 0 then Err InvalidWholePart
        else
          frac_str ← match parts !! 1%nat with
            | Some frac =>
              if bool_decide (max_frac_digits < length frac)%nat then
                Err TooManyFractionDigits
              else if negb (forallb is_ascii_digit_char (utf8_decode frac)) then
                Err InvalidAmount
              else Ok (frac ++ replicate (max_frac_digits - length frac) ZERO)
            | None => Ok (replicate max_frac_digits ZERO)
            end;
          match bigint_from_str frac_str with
          | None => Err InvalidFractionalPart
          | Some frac => Ok (whole * scale + frac)
          end
      end.

Definition parse_wqc_to_planck (raw : string) : result TokenError Z :=
  parse_fixed_point_wqc (as_bytes (trim raw)) 18 PLANCK_PER_WQC.
End token.

(** ** Decimal digits *)

Definition is_digit (b : byte) : bool := is_ascii_digit_char (byte_to_Z b).
Definition digit_value (b : byte) : Z := byte_to_Z b - 48.
Definition dec_value (l : bytes) : Z := fold_left (fun a b => a * 10 + digit_value b) l 0.

(** The [k] decimal digits of [n], most significant first. *)
Fixpoint dec_digits (k : nat) (n : Z) : bytes :=
  match k with
  | O => []
  | S k' => dec_digits k' (n / 10) ++ [byte_of_Z (48 + n mod 10)]
  end.

(** What [BigInt::from_str] documents for decimal digits: their value, and with
    a minus sign in front its opposite. *)
Definition bigint_from_str_spec (parse : bytes -> option Z) : Prop :=
  forall l, l <> [] -> forallb is_digit l = true ->
    parse l = Some (dec_value l) /\ parse (Byte.x2d :: l) = Some (- dec_value l).

Lemma dec_value_acc l a :
  fold_left (fun a b => a * 10 + digit_value b) l a
  = a * 10 ^ Z.of_nat (length l) + dec_value l.
Proof.
  unfold dec_value. revert a. induction l as [|b l IH]; intros a; cbn [fold_left length].
  - simpl. lia.
  - rewrite IH, (IH (0 * 10 + digit_value b)), Nat2Z.inj_succ, Z.pow_succ_r by lia. ring.
Qed.

Lemma dec_value_app l k :
  dec_value (l ++ k) = dec_value l * 10 ^ Z.of_nat (length k) + dec_value k.
Proof. unfold dec_value at 1. rewrite fold_left_app. apply dec_value_acc. Qed.

Lemma dec_value_zeros k : dec_value (replicate k ZERO) = 0.
Proof.
  induction k as [|k IH]; [done|].
  change (replicate (S k) ZERO) with ([ZERO] ++ replicate k ZERO).
  rewrite dec_value_app, IH. change (dec_value [ZERO]) with 0. lia.
Qed.

Lemma dec_value_nonneg l : forallb is_digit l = true -> 0 <= dec_value l.
Proof.
  induction l as [|b l IH] using rev_ind; [done|].
  rewrite forallb_app, dec_value_app. simpl. rewrite andb_true_r.
  intros H. bool_to_prop. specialize (IH ltac:(done)).
  unfold is_digit, is_ascii_digit_char in *. bool_to_prop.
  change (dec_value [b]) with (digit_value b). unfold digit_value. lia.
Qed.

Lemma length_dec_digits k n : length (dec_digits k n) = k.
Proof.
  revert n. induction k; intros n; simpl; [done|].
  rewrite length_app, IHk. simpl. lia.
Qed.

Lemma dec_digits_are_digits k n : forallb is_digit (dec_digits k n) = true.
Proof.
  revert n. induction k as [|k IH]; intros n; simpl; [done|].
  rewrite forallb_app, IH. simpl. rewrite andb_true_r.
  pose proof (Z.mod_pos_bound n 10 ltac:(lia)).
  unfold is_digit, is_ascii_digit_char. rewrite byte_to_of_small by lia.
  apply andb_true_intro. split; apply Z.leb_le; lia.
Qed.

Lemma dec_value_digits k n : 0 <= n -> dec_value (dec_digits k n) = n mod 10 ^ Z.of_nat k.
Proof.
  revert n. induction k as [|k IH]; intros n Hn; simpl.
  - by rewrite Z.mod_1_r.
  - rewrite dec_value_app, IH by (apply Z.div_pos; lia).
    pose proof (Z.mod_pos_bound n 10 ltac:(lia)).
    change (10 ^ Z.of_nat (length [byte_of_Z (48 + n mod 10)])) with 10.
    assert (dec_value [byte_of_Z (48 + n mod 10)] = n mod 10) as ->.
    { unfold dec_value. cbn [fold_left]. unfold digit_value.
      rewrite byte_to_of_small by lia. lia. }
    change (Z.pos (Pos.of_succ_nat k)) with (Z.of_nat (S k)).
    rewrite Nat2Z.inj_succ, Z.pow_succ_r, Z.rem_mul_r by lia. lia.
Qed.

Lemma is_digit_ascii b : is_digit b = true -> 48 <= byte_to_Z b <= 57.
Proof. unfold is_digit, is_ascii_digit_char. intros. bool_to_prop. lia. Qed.

Lemma digits_not_dot l : forallb is_digit l = true -> DOT ∉ l.
Proof.
  intros Hl Hin. apply list_elem_of_In in Hin.
  rewrite forallb_forall in Hl. specialize (Hl _ Hin). discriminate Hl.
Qed.

(** ** Splitting and trimming ASCII text *)

Lemma split_bytes_none c l : c ∉ l -> split_bytes c l = [l].
Proof.
  induction l as [|b l IH]; simpl; [done|]. intros Hc.
  rewrite decide_False by set_solver. by rewrite IH by set_solver.
Qed.

Lemma split_bytes_app c l k : c ∉ l -> split_bytes c (l ++ c :: k) = l :: split_bytes c k.
Proof.
  induction l as [|b l IH]; simpl; intros Hc.
  - by rewrite decide_True.
  - rewrite decide_False by set_solver. by rewrite IH by set_solver.
Qed.

Lemma utf8_decode_ascii l :
  Forall (fun b => byte_to_Z b < 128) l -> utf8_decode l = byte_to_Z <$> l.
Proof.
  induction 1 as [|b l Hb _ IH]; [done|]. cbn [utf8_decode].
  rewrite (proj2 (Z.ltb_lt _ _)) by lia. by rewrite IH.
Qed.

Lemma utf8_encode_ascii l :
  Forall (fun b => byte_to_Z b < 128) l -> utf8_encode (byte_to_Z <$> l) = l.
Proof.
  induction 1 as [|b l Hb _ IH]; [done|].
  cbn [fmap list_fmap utf8_encode flat_map]. unfold utf8_encode_char.
  rewrite (proj2 (Z.ltb_lt _ _)) by lia. rewrite byte_of_to_Z.
  cbn [app]. f_equal. exact IH.
Qed.

Lemma drop_while_false {A} (f : A -> bool) l :
  Forall (fun x => f x = false) l -> drop_while f l = l.
Proof. destruct 1 as [|x l Hx _]; simpl; [done|]. by rewrite Hx. Qed.

Definition ascii_graphic (b : byte) : Prop :=
  byte_to_Z b < 128 /\ is_whitespace (byte_to_Z b) = false.

(** [trim] leaves a text of ASCII characters without white space alone. *)
Lemma trim_graphic l : Forall ascii_graphic l -> as_bytes (trim (of_bytes l)) = l.
Proof.
  intros Hl. unfold trim, chars. rewrite as_bytes_of_bytes.
  assert (Ha : Forall (fun b => byte_to_Z b < 128) l)
    by (eapply Forall_impl; [exact Hl|]; by intros b [? ?]).
  rewrite utf8_decode_ascii by done.
  assert (Hw : Forall (fun c => is_whitespace c = false) (byte_to_Z <$> l)).
  { apply Forall_fmap. eapply Forall_impl; [exact Hl|]. by intros b [? ?]. }
  rewrite (drop_while_false _ (byte_to_Z <$> l)) by done.
  rewrite drop_while_false by (by apply Forall_reverse).
  rewrite reverse_involutive. unfold of_chars. rewrite as_bytes_of_bytes.
  by apply utf8_encode_ascii.
Qed.

Lemma digit_graphic b : is_digit b = true -> ascii_graphic b.
Proof.
  intros Hb. apply is_digit_ascii in Hb. split; [lia|]. unfold is_whitespace.
  repeat match goal with |- _ || _ = false => apply orb_false_intro end;
    first [apply Z.eqb_neq; lia | apply andb_false_intro2, Z.leb_gt; lia
          | apply andb_false_intro1, Z.leb_gt; lia].
Qed.

Lemma digits_graphic l : forallb is_digit l = true -> Forall ascii_graphic l.
Proof.
  intros Hl. apply Forall_forall. intros b Hb. apply digit_graphic.
  rewrite forallb_forall in Hl. apply Hl. by apply list_elem_of_In.
Qed.

Lemma frac_digits_ok l :
  forallb is_digit l = true -> forallb is_ascii_digit_char (utf8_decode l) = true.
Proof.
  intros Hl. rewrite utf8_decode_ascii.
  - apply forallb_forall. intros c Hc. apply in_map_iff in Hc as (b & <- & Hb).
    rewrite forallb_forall in Hl. exact (Hl b Hb).
  - eapply Forall_impl; [by apply digits_graphic|]. by intros b [? ?].
Qed.

Section correctness.
Context (parse : bytes -> option Z) (Hparse : bigint_from_str_spec parse).

(** The value of "w.f" for digit strings. *)
Lemma parse_digits whole frac :
  forallb is_digit whole = true -> forallb is_digit frac = true ->
  (length frac <= 18)%nat ->
  parse_wqc_to_planck parse (of_bytes (whole ++ DOT :: frac))
  = Ok (dec_value whole * 10 ^ 18 + dec_value frac * 10 ^ (18 - Z.of_nat (length frac))).
Proof.
  intros Hw Hf Hlen. unfold parse_wqc_to_planck. rewrite trim_graphic.
  2: { apply Forall_app. split; [by apply digits_graphic|].
       constructor; [split; reflexivity | by apply digits_graphic]. }
  unfold parse_fixed_point_wqc.
  rewrite decide_False by (by destruct whole).
  rewrite split_bytes_app, split_bytes_none by (by apply digits_not_dot). cbn [length].
  change (2 <? Z.of_nat 2) with false. cbn [lookup list_lookup default id].
  set (w := if decide (whole = []) then [ZERO] else whole).
  assert (Hwd : w <> [] /\ forallb is_digit w = true /\ dec_value w = dec_value whole).
  { unfold w. destruct (decide (whole = [])) as [->|]; [|done]. repeat split; done. }
  destruct Hwd as (Hne & Hwd & Hwv). destruct (Hparse w Hne Hwd) as [-> _].
  rewrite (proj2 (Z.ltb_ge (dec_value w) 0)) by (by apply dec_value_nonneg).
  rewrite bool_decide_eq_false_2 by lia. rewrite frac_digits_ok by done. cbn.
  destruct (Hparse (frac ++ replicate (18 - length frac) ZERO)) as [-> _].
  - intros [-> Hz]%app_eq_nil. discriminate Hz.
  - rewrite forallb_app, Hf. simpl. generalize (18 - length frac)%nat as k.
    intros k. by induction k.
  - rewrite dec_value_app, dec_value_zeros, length_replicate, Hwv.
    rewrite Nat2Z.inj_sub by done. change PLANCK_PER_WQC with (10 ^ 18).
    change (Z.of_nat 18) with 18. f_equal. lia.
Qed.
End correctness.

(** A Planck amount written with all its 18 fractional digits and [k] whole
    digits. *)
Definition print_planck (k : nat) (n : Z) : string :=
  of_bytes (dec_digits k (n / PLANCK_PER_WQC) ++ DOT :: dec_digits 18 (n mod PLANCK_PER_WQC)).

(** A [BigInt::from_str] for digits with an optional minus sign, to exercise
    the hypothesis. *)
Definition sample_bigint (l : bytes) : option Z :=
  match l with
  | Byte.x2d :: l' =>
      if bool_decide (l' <> []) && forallb is_digit l' then Some (- dec_value l') else None
  | l' => if bool_decide (l' <> []) && forallb is_digit l' then Some (dec_value l') else None
  end.

Lemma sample_bigint_spec : bigint_from_str_spec sample_bigint.
Proof.
  intros l Hne Hl. split.
  - assert (Hm : forall l', l <> Byte.x2d :: l') by (intros l' ->; discriminate Hl).
    unfold sample_bigint. destruct l as [|[] l']; try done;
      try (rewrite bool_decide_eq_true_2 by done; by rewrite Hl).
  - unfold sample_bigint. rewrite bool_decide_eq_true_2 by done. by rewrite Hl.
Qed.

(** C40. Parsing gives back every Planck amount from its decimal WQC notation:
    whole part, point and 18 fractional digits. *)
Theorem planck_round_trip parse k n :
  bigint_from_str_spec parse -> 0 <= n < PLANCK_PER_WQC * 10 ^ Z.of_nat k ->
  parse_wqc_to_planck parse (print_planck k n) = Ok n.
Proof.
  intros Hparse [Hn Hk]. unfold print_planck.
  rewrite parse_digits; [|done|apply dec_digits_are_digits..|].
  - rewrite length_dec_digits, !dec_value_digits.
    + unfold PLANCK_PER_WQC in *. change (10 ^ Z.of_nat 18) with 1000000000000000000.
      rewrite Z.mod_mod by lia. rewrite Z.mod_small.
      * pose proof (Z.div_mod n 1000000000000000000). f_equal.
        change (10 ^ (18 - Z.of_nat 18)) with 1.
        change (10 ^ 18) with 1000000000000000000. lia.
      * split; [apply Z.div_pos; lia|]. apply Z.div_lt_upper_bound; lia.
    + apply Z.mod_pos_bound. done.
    + apply Z.div_pos; [lia|done].
  - rewrite length_dec_digits. lia.
Qed.

Lemma planck_round_trip_witness :
  parse_wqc_to_planck sample_bigint (print_planck 3 50000000000000000) = Ok 50000000000000000.
Proof.
  apply (planck_round_trip sample_bigint 3 50000000000000000 sample_bigint_spec).
  cbv. split; [discriminate | reflexivity].
Defined.

(** A negative amount below one WQC is not rejected: "-0." followed by
    digits parses as the positive fraction, because the sign test looks at the
    whole part alone, and -0 is 0. *)
Theorem negative_fraction_accepted parse frac :
  bigint_from_str_spec parse -> forallb is_digit frac = true -> (length frac <= 18)%nat ->
  parse_wqc_to_planck parse (of_bytes (Byte.x2d :: ZERO :: DOT :: frac))
  = Ok (dec_value frac * 10 ^ (18 - Z.of_nat (length frac))).
Proof.
  intros Hparse Hf Hlen.
  pose proof (parse_digits parse Hparse [ZERO] frac eq_refl Hf Hlen) as Hpos.
  unfold parse_wqc_to_planck in *. rewrite trim_graphic in *.
  2,3: repeat (constructor; [split; reflexivity|]); by apply digits_graphic.
  change (dec_value [ZERO]) with 0 in Hpos. rewrite Z.mul_0_l, Z.add_0_l in Hpos.
  rewrite <- Hpos. unfold parse_fixed_point_wqc.
  rewrite !decide_False by done. cbn [app].
  change (Byte.x2d :: ZERO :: DOT :: frac) with ([Byte.x2d; ZERO] ++ DOT :: frac).
  change (ZERO :: DOT :: frac) with ([ZERO] ++ DOT :: frac).
  rewrite !split_bytes_app, split_bytes_none
    by (first [by apply digits_not_dot | by apply (bool_decide_unpack _)]).
  cbn [length lookup list_lookup default id].
  destruct (Hparse [ZERO] ltac:(done) eq_refl) as [-> ->]. reflexivity.
Qed.

Lemma negative_fraction_accepted_witness :
  parse_wqc_to_planck sample_bigint "-0.5" = Ok 500000000000000000.
Proof.
  exact (negative_fraction_accepted sample_bigint [Byte.x35] sample_bigint_spec
    eq_refl ltac:(simpl; lia)).
Defined.
