(* ===== verification/GoJson.v ===== *)
(** * The JSON texts that signatures cover ([src/domain/p2p.rs])

    A dispatch is signed over JSON as Go's [encoding/json] writes it, so the
    node writes the circuit and the observables the same way.  A Rust [String]
    under construction is the list of its characters ([FloatText.text]);
    [ryu::Buffer::format_finite] is third-party code and a parameter. *)

From S2P Require Import Prelude Bytes F64 FloatText Models.

#[local] Set Warnings "-register-all,-clear-no-such-hyp".

(** ** Strings *)

Definition CH_QUOTE : Z := 34.
Definition CH_BACKSLASH : Z := 92.

Definition hex_digit (n : Z) : Z := if n <? 10 then CH_0 + n else 87 + n.

(** [format!("\\u{:04x}", c)] for [c] below [2^16] *)
Definition unicode_escape (c : Z) : text :=
  [CH_BACKSLASH; 117; hex_digit (c / 4096); hex_digit ((c / 256) mod 16);
   hex_digit ((c / 16) mod 16); hex_digit (c mod 16)].

Definition escape_char (ch : Z) : text :=
  if ch =? 34 then [CH_BACKSLASH; 34]
  else if ch =? 92 then [CH_BACKSLASH; 92]
  else if ch =? 8 then [CH_BACKSLASH; 98]
  else if ch =? 12 then [CH_BACKSLASH; 102]
  else if ch =? 10 then [CH_BACKSLASH; 110]
  else if ch =? 13 then [CH_BACKSLASH; 114]
  else if ch =? 9 then [CH_BACKSLASH; 116]
  else if (ch =? 60) || (ch =? 62) || (ch =? 38) || (ch =? 8232) || (ch =? 8233) then
    unicode_escape ch
  else if ch <? 32 then unicode_escape ch
  else [ch].

Definition write_go_json_string (s : string) : text :=
  [CH_QUOTE] ++ flat_map escape_char (chars s) ++ [CH_QUOTE].

(** ** Numbers *)

(** [text.split_once(c)] *)
Fixpoint split_once (c : Z) (t : text) : option (text * text) :=
  match t with
  | [] => None
  | x :: t' =>
    if x =? c then Some ([], t')
    else match split_once c t' with Some (a, b) => Some (x :: a, b) | None => None end
  end.

(** [text.find(c)] *)
Fixpoint find_char (c : Z) (t : text) : option nat :=
  match t with
  | [] => None
  | x :: t' => if x =? c then Some O else S <$> find_char c t'
  end.

Definition is_zero_char (c : Z) : bool := c =? CH_0.

(** [text.strip_prefix('-')], with the sign that was there. *)
Definition strip_minus (t : text) : text * text :=
  match t with
  | c :: rest => if c =? CH_MINUS then ([CH_MINUS], rest) else ([], t)
  | [] => ([], t)
  end.

(** [text.split_once('e').unwrap_or((text, "0"))] *)
Definition split_exponent (t : text) : text * text :=
  match split_once 101 t with Some p => p | None => (t, [CH_0]) end.

(** Sign, significant digits and the exponent of the first digit. *)
Definition decimal_digits (t : text) : text * text * Z :=
  let '(sign, t) := strip_minus t in
  let '(mantissa, exp_part) := split_exponent t in
  let exp_part := default 0 (i32_parse exp_part) in
  let point := Z.of_nat (default (length mantissa) (find_char CH_DOT mantissa)) in
  let all := List.filter (fun c => negb (c =? CH_DOT)) mantissa in
  let leading := Z.of_nat (length all) - Z.of_nat (length (drop_while is_zero_char all)) in
  let digits := trim_zeros (drop_while is_zero_char all) in
  (sign, digits, point - 1 - leading + exp_part).

Definition plain_decimal (digits : text) (exp : Z) : text :=
  if exp <? 0 then
    [CH_0; CH_DOT] ++ replicate (Z.to_nat (- exp - 1)) CH_0 ++ digits
  else
    let int_len := Z.to_nat (exp + 1) in
    if (length digits <=? int_len)%nat then digits ++ replicate (int_len - length digits) CH_0
    else take int_len digits ++ [CH_DOT] ++ drop int_len digits.

(** [format!("{exp:02}")] *)
Definition pad2 (t : text) : text := replicate (2 - length t) CH_0 ++ t.

Definition scientific (digits : text) (exp : Z) : text :=
  let mantissa :=
    if decide (length digits = 1%nat) then digits
    else take 1 digits ++ [CH_DOT] ++ drop 1 digits in
  if exp <? 0 then mantissa ++ [101; CH_MINUS] ++ dec_text (- exp)
  else mantissa ++ [101; 43] ++ pad2 (dec_text exp).

Section go_json.
(** [ryu::Buffer::format_finite] *)
Context (format_finite : f64 -> text).

Definition go_json_float (f : f64) : text :=
  if f64_eqb f f64_zero then
    (if f64_is_sign_negative f then [CH_MINUS; CH_0] else [CH_0])
  else
    let '(sign, digits, exp) := decimal_digits (format_finite f) in
    let abs := f64_abs f in
    let body :=
      if f64_leb (f64_dec 1 6) abs && f64_ltb abs (f64_of_Z (10 ^ 21)) then
        plain_decimal digits exp
      else scientific digits exp in
    sign ++ body.

(** ** Values *)

Inductive GoJsonError := NotFloat64 (n : number).  (* circuit number {n} is not a float64 *)

(** The items of a list between commas. *)
Definition write_items {A} (write : A -> result GoJsonError text) :=
  fix go (first : bool) (items : list A) : result GoJsonError text :=
    match items with
    | [] => Ok []
    | item :: rest =>
      match write item with
      | Err e => Err e
      | Ok t =>
        match go false rest with
        | Err e => Err e
        | Ok ts => Ok ((if first then [] else [44]) ++ t ++ ts)
        end
      end
    end.

Fixpoint write_go_json_value (v : value) : result GoJsonError text :=
  match v with
  | VNull => Ok (lit "null")
  | VBool b => Ok (if b then lit "true" else lit "false")
  | VNumber n =>
    match number_as_f64 n with
    | Some f => Ok (go_json_float f)
    | None => Err (NotFloat64 n)
    end
  | VString s => Ok (write_go_json_string s)
  | VArray items =>
    match write_items write_go_json_value true items with
    | Ok t => Ok ([91] ++ t ++ [93])
    | Err e => Err e
    end
  | VObject m =>
    match write_items (fun kv =>
        match write_go_json_value kv.2 with
        | Ok t => Ok (write_go_json_string kv.1 ++ [58] ++ t)
        | Err e => Err e
        end) true m with
    | Ok t => Ok ([123] ++ t ++ [125])
    | Err e => Err e
    end
  end.

Definition write_gate (gate : Gate) : result GoJsonError text :=
  match write_go_json_value gate.(params) with
  | Ok t => Ok ([123; 34; 116; 121; 112; 101; 34; 58] (* "type": *)
      ++ write_go_json_string gate.(gate_type)
      ++ [44; 34; 112; 97; 114; 97; 109; 115; 34; 58] (* ,"params": *)
      ++ t ++ [125])
  | Err e => Err e
  end.

(** The circuit JSON, before [into_bytes]. *)
Definition circuit_signing_text (circuit : list Gate) : result GoJsonError text :=
  match write_items write_gate true circuit with
  | Ok t => Ok ([91] ++ t ++ [93])
  | Err e => Err e
  end.

Definition circuit_signing_json (circuit : list Gate) : result GoJsonError bytes :=
  utf8_encode <$> circuit_signing_text circuit.
End go_json.

(** ** Reading the texts back

    A reader of the same grammar, the reference against which the writers are
    correct: what is written reads back, so nothing is lost and every text ends
    where its reader stops. *)

Definition hex_value (h : Z) : Z := if h <? 58 then h - 48 else h - 87.

Definition unescape (e : Z) : Z :=
  if e =? 98 then 8 else if e =? 102 then 12 else if e =? 110 then 10
  else if e =? 114 then 13 else if e =? 116 then 9 else e.

(** The characters up to the closing quote, and the rest of the text. *)
Fixpoint read_chars (t : text) : option (text * text) :=
  match t with
  | [] => None
  | c :: t1 =>
    if c =? CH_QUOTE then Some ([], t1)
    else if c =? CH_BACKSLASH then
      match t1 with
      | [] => None
      | e :: t2 =>
        if e =? 117 then
          match t2 with
          | h1 :: h2 :: h3 :: h4 :: t3 =>
            match read_chars t3 with
            | Some (s, rest) =>
              Some (hex_value h1 * 4096 + hex_value h2 * 256 + hex_value h3 * 16
                    + hex_value h4 :: s, rest)
            | None => None
            end
          | _ => None
          end
        else match read_chars t2 with
          | Some (s, rest) => Some (unescape e :: s, rest)
          | None => None
          end
      end
    else match read_chars t1 with
      | Some (s, rest) => Some (c :: s, rest)
      | None => None
      end
  end.

Inductive token :=
| TNull
| TBool (b : bool)
| TNum (t : text)
| TStr (s : text)
| TArr (items : list token)
| TObj (items : list (text * token)).

Definition is_num_char (c : Z) : bool :=
  is_digit_char c || (c =? 45) || (c =? 43) || (c =? 46) || (c =? 101).

Fixpoint span (f : Z -> bool) (t : text) : text * text :=
  match t with
  | [] => ([], [])
  | c :: t' => if f c then let '(a, b) := span f t' in (c :: a, b) else ([], t)
  end.

(** Items separated by commas, up to the closing character [close]. *)
Definition read_items {A} (read : text -> option (A * text)) (close : Z) :=
  fix go (fuel : nat) (t : text) : option (list A * text) :=
    match fuel with
    | O => None
    | S fuel' =>
      match read t with
      | Some (x, c :: t') =>
        if c =? close then Some ([x], t')
        else if c =? 44 then
          match go fuel' t' with Some (xs, rest) => Some (x :: xs, rest) | None => None end
        else None
      | _ => None
      end
    end.

Definition read_list {A} (read : text -> option (A * text)) (close : Z) (fuel : nat) (t : text)
  : option (list A * text) :=
  match t with
  | c :: t' => if c =? close then Some ([], t') else read_items read close fuel t
  | [] => None
  end.

Definition read_string (t : text) : option (text * text) :=
  match t with
  | c :: t' => if c =? CH_QUOTE then read_chars t' else None
  | [] => None
  end.

Definition read_entry (read : text -> option (token * text)) (t : text)
  : option ((text * token) * text) :=
  match read_string t with
  | Some (key, c :: t') =>
    if c =? 58 then
      match read t' with Some (x, rest) => Some ((key, x), rest) | None => None end
    else None
  | _ => None
  end.

Fixpoint read_value (fuel : nat) (t : text) : option (token * text) :=
  match fuel, t with
  | O, _ | _, [] => None
  | S fuel', c :: t' =>
    if c =? 110 then Some (TNull, drop 4 t)
    else if c =? 116 then Some (TBool true, drop 4 t)
    else if c =? 102 then Some (TBool false, drop 5 t)
    else if c =? CH_QUOTE then
      match read_chars t' with Some (s, rest) => Some (TStr s, rest) | None => None end
    else if c =? 91 then
      match read_list (read_value fuel') 93 fuel' t' with
      | Some (xs, rest) => Some (TArr xs, rest)
      | None => None
      end
    else if c =? 123 then
      match read_list (read_entry (read_value fuel')) 125 fuel' t' with
      | Some (xs, rest) => Some (TObj xs, rest)
      | None => None
      end
    else let '(n, rest) := span is_num_char t in Some (TNum n, rest)
  end.

(** What a signature over the JSON of a value determines: the value up to the
    text of its numbers. *)
Fixpoint canon (format_finite : f64 -> text) (v : value) : token :=
  match v with
  | VNull => TNull
  | VBool b => TBool b
  | VNumber n => TNum (match number_as_f64 n with
                       | Some f => go_json_float format_finite f | None => [] end)
  | VString s => TStr (chars s)
  | VArray items => TArr (map (canon format_finite) items)
  | VObject m => TObj (map (fun kv => (chars kv.1, canon format_finite kv.2)) m)
  end.

(** ** Strings: lemmas *)

Lemma hex_value_digit n : 0 <= n < 16 -> hex_value (hex_digit n) = n.
Proof.
  intros Hn. unfold hex_value, hex_digit, CH_0. destruct (Z.ltb_spec n 10).
  - destruct (Z.ltb_spec (48 + n) 58); lia.
  - destruct (Z.ltb_spec (87 + n) 58); lia.
Qed.

Lemma hex_digits c :
  0 <= c < 65536 ->
  (c / 4096) * 4096 + ((c / 256) mod 16) * 256 + ((c / 16) mod 16) * 16 + c mod 16 = c.
Proof.
  intros Hc. pose proof (Z.div_mod c 16 ltac:(lia)).
  pose proof (Z.div_mod (c / 16) 16 ltac:(lia)).
  pose proof (Z.div_mod (c / 16 / 16) 16 ltac:(lia)).
  rewrite !Z.div_div in * by lia. change (16 * 16) with 256 in *.
  change (256 * 16) with 4096 in *. lia.
Qed.

Lemma read_unicode_escape c r :
  0 <= c < 65536 ->
  read_chars (unicode_escape c ++ r)
  = match read_chars r with Some (s, rest) => Some (c :: s, rest) | None => None end.
Proof.
  intros Hc. cbn -[hex_digit hex_value Z.div Z.modulo]. destruct (read_chars r) as [[s rest]|]; [|done].
  rewrite !hex_value_digit, hex_digits; try done; try (apply Z.mod_pos_bound; lia).
  split; [apply Z.div_pos | apply Z.div_lt_upper_bound]; lia.
Qed.

(** Case analysis on a chain of character tests. *)
Ltac char_cases :=
  repeat match goal with
  | |- context [if ?a =? ?b then _ else _] => destruct (Z.eqb_spec a b); [subst|]
  | |- context [(?a =? ?b) || _] => destruct (Z.eqb_spec a b); [subst|]; cbn [orb]
  | |- context [if ?a <? ?b then _ else _] => destruct (Z.ltb_spec a b)
  end.

Lemma read_escape_char c r :
  0 <= c ->
  read_chars (escape_char c ++ r)
  = match read_chars r with Some (s, rest) => Some (c :: s, rest) | None => None end.
Proof.
  intros Hc. unfold escape_char. char_cases;
    try (rewrite read_unicode_escape by lia; done); try done.
  cbn [app read_chars]. unfold CH_QUOTE, CH_BACKSLASH.
  rewrite (proj2 (Z.eqb_neq c 34)), (proj2 (Z.eqb_neq c 92)) by done. done.
Qed.

Lemma read_escaped cs r :
  Forall (fun c => 0 <= c) cs ->
  read_chars (flat_map escape_char cs ++ CH_QUOTE :: r) = Some (cs, r).
Proof.
  induction 1 as [|c cs Hc _ IH]; [done|].
  cbn [flat_map]. rewrite <- app_assoc, read_escape_char, IH by done. done.
Qed.

(** ** Numbers: lemmas *)

Definition digits_only (t : text) : Prop := Forall (fun c => is_digit_char c = true) t.

Lemma digits_only_not c t : digits_only t -> is_digit_char c = false -> c ∉ t.
Proof.
  intros Ht Hc Hin. unfold digits_only in Ht. rewrite Forall_forall in Ht.
  specialize (Ht c Hin). congruence.
Qed.

Lemma split_once_app c a b : c ∉ a -> split_once c (a ++ c :: b) = Some (a, b).
Proof.
  induction a as [|x a IH]; cbn; intros Hc; [by rewrite Z.eqb_refl|].
  apply not_elem_of_cons in Hc as [Hx Hc].
  rewrite (proj2 (Z.eqb_neq x c)) by congruence. by rewrite IH.
Qed.

Lemma split_once_none c a : c ∉ a -> split_once c a = None.
Proof.
  induction a as [|x a IH]; cbn; intros Hc; [done|].
  apply not_elem_of_cons in Hc as [Hx Hc].
  rewrite (proj2 (Z.eqb_neq x c)) by congruence. by rewrite IH.
Qed.

Lemma find_char_app c a b : c ∉ a -> find_char c (a ++ c :: b) = Some (length a).
Proof.
  induction a as [|x a IH]; cbn; intros Hc; [by rewrite Z.eqb_refl|].
  apply not_elem_of_cons in Hc as [Hx Hc].
  rewrite (proj2 (Z.eqb_neq x c)) by congruence. by rewrite IH.
Qed.

Lemma find_char_none c a : c ∉ a -> find_char c a = None.
Proof.
  induction a as [|x a IH]; cbn; intros Hc; [done|].
  apply not_elem_of_cons in Hc as [Hx Hc].
  rewrite (proj2 (Z.eqb_neq x c)) by congruence. by rewrite IH.
Qed.

Lemma filter_dots t : CH_DOT ∉ t -> List.filter (fun c => negb (c =? CH_DOT)) t = t.
Proof.
  induction t as [|x t IH]; cbn; intros Hc; [done|].
  apply not_elem_of_cons in Hc as [Hx Hc].
  rewrite (proj2 (Z.eqb_neq x CH_DOT)) by congruence. cbn. by rewrite IH.
Qed.

(** A decimal number: digits, an optional point with digits, an optional
    exponent. *)
Record decimal_text := mkDecimal {
  dt_sign : bool; dt_int : text; dt_point : bool; dt_frac : text; dt_exp : option (text * Z)
}.

Definition decimal_layout (d : decimal_text) : text :=
  (if d.(dt_sign) then [CH_MINUS] else []) ++ d.(dt_int)
  ++ (if d.(dt_point) then CH_DOT :: d.(dt_frac) else [])
  ++ match d.(dt_exp) with Some (e, _) => 101 :: e | None => [] end.

Record decimal_wf (d : decimal_text) : Prop := {
  wf_int : digits_only d.(dt_int);
  wf_int_some : d.(dt_int) <> [];
  wf_frac : digits_only d.(dt_frac);
  wf_point : d.(dt_point) = false -> d.(dt_frac) = [];
  wf_exp : match d.(dt_exp) with Some (e, x) => i32_parse e = Some x | None => True end
}.

Lemma decimal_digits_layout d :
  decimal_wf d ->
  let all := d.(dt_int) ++ d.(dt_frac) in
  decimal_digits (decimal_layout d)
  = (if d.(dt_sign) then [CH_MINUS] else [], trim_zeros (drop_while is_zero_char all),
     Z.of_nat (length d.(dt_int)) - 1
     - (Z.of_nat (length all) - Z.of_nat (length (drop_while is_zero_char all)))
     + match d.(dt_exp) with Some (_, x) => x | None => 0 end).
Proof.
  intros [Hi Hne Hf Hp Hx]. cbn zeta. destruct d as [s i p f x]; cbn in *.
  assert (Hi_e : 101 ∉ i) by (by eapply digits_only_not).
  assert (Hi_d : CH_DOT ∉ i) by (by eapply digits_only_not).
  assert (Hf_e : 101 ∉ f) by (by eapply digits_only_not).
  assert (Hf_d : CH_DOT ∉ f) by (by eapply digits_only_not).
  set (m := i ++ (if p then CH_DOT :: f else [])).
  assert (Hm_e : 101 ∉ m).
  { subst m. destruct p; rewrite not_elem_of_app; split; try done; [|set_solver].
    rewrite not_elem_of_cons. done. }
  assert (Hall : List.filter (fun c => negb (c =? CH_DOT)) m = i ++ f).
  { subst m. rewrite List.filter_app, filter_dots by done. f_equal. destruct p.
    - cbn [List.filter]. by rewrite Z.eqb_refl, filter_dots.
    - by rewrite Hp. }
  assert (Hpoint : default (length m) (find_char CH_DOT m) = length i).
  { subst m. destruct p; [by rewrite find_char_app|]. by rewrite app_nil_r, find_char_none. }
  unfold decimal_digits, decimal_layout. cbn [dt_sign dt_int dt_point dt_frac dt_exp].
  rewrite !(app_assoc i). change (i ++ (if p then CH_DOT :: f else [])) with m.
  set (t := m ++ match x with Some (e, _) => 101 :: e | None => [] end).
  assert (Hstrip : strip_minus ((if s then [CH_MINUS] else []) ++ t)
    = ((if s then [CH_MINUS] else []), t)).
  { destruct s; [done|]. subst t m. cbn [app]. destruct i as [|c i]; [done|]. cbn.
    apply Forall_cons_1 in Hi as [Hc _]. apply digit_char_range in Hc.
    rewrite (proj2 (Z.eqb_neq c CH_MINUS)) by (unfold CH_MINUS; lia). done. }
  rewrite Hstrip.
  assert (Hsplit : exists e, split_exponent t = (m, e)
     /\ default 0 (i32_parse e) = match x with Some (_, x) => x | None => 0 end).
  { subst t. unfold split_exponent. destruct x as [[e x]|].
    - exists e. by rewrite split_once_app, Hx.
    - exists [CH_0]. by rewrite app_nil_r, split_once_none. }
  destruct Hsplit as (e & -> & ->). by rewrite Hall, Hpoint.
Qed.

(** Significant digits: no leading and no trailing zero. *)
Record normal_digits (t : text) : Prop := {
  nd_digits : digits_only t;
  nd_some : t <> [];
  nd_leading : drop_while is_zero_char t = t;
  nd_trailing : trim_zeros t = t
}.

Lemma digits_only_forallb t : digits_only t <-> forallb is_digit_char t = true.
Proof.
  unfold digits_only. rewrite forallb_forall, Forall_forall.
  split; intros H x Hx; apply H; by apply list_elem_of_In.
Qed.

Lemma drop_zeros k t : drop_while is_zero_char (replicate k CH_0 ++ t) = drop_while is_zero_char t.
Proof. induction k; simpl; done. Qed.

Lemma drop_while_app_head (f : Z -> bool) t u :
  t <> [] -> drop_while f t = t -> drop_while f (t ++ u) = t ++ u.
Proof.
  destruct t as [|c t]; [done|]. intros _. cbn. destruct (f c); [|done]. intros Heq.
  exfalso. assert (Hlen : (length (drop_while f t) <= length t)%nat).
  { clear. induction t as [|x t IH]; cbn; [lia|]. destruct (f x); cbn; lia. }
  rewrite Heq in Hlen. cbn in Hlen. lia.
Qed.

Lemma replicate_reverse k : reverse (replicate k CH_0) = replicate k CH_0.
Proof.
  induction k as [|k IH]; [done|]. cbn [replicate]. rewrite reverse_cons, IH.
  change [CH_0] with (replicate 1 CH_0). rewrite <- replicate_add.
  by rewrite Nat.add_comm.
Qed.

Lemma trim_zeros_app t k : trim_zeros (t ++ replicate k CH_0) = trim_zeros t.
Proof.
  unfold trim_zeros. rewrite reverse_app, replicate_reverse. f_equal.
  apply (drop_zeros k (reverse t)).
Qed.

Lemma digits_only_replicate k : digits_only (replicate k CH_0).
Proof. by apply Forall_replicate. Qed.

Lemma normal_split t n :
  normal_digits t -> digits_only (take n t) /\ digits_only (drop n t).
Proof. intros [Hd _ _ _]. by split; [apply Forall_take | apply Forall_drop]. Qed.

(** The layouts Go uses read back as the same digits and exponent. *)
Definition sign_text (neg : bool) : text := if neg then [CH_MINUS] else [].

Lemma decimal_digits_of d t all digits exp :
  decimal_layout d = t -> decimal_wf d -> d.(dt_int) ++ d.(dt_frac) = all ->
  trim_zeros (drop_while is_zero_char all) = digits ->
  exp = Z.of_nat (length d.(dt_int)) - 1
     - (Z.of_nat (length all) - Z.of_nat (length (drop_while is_zero_char all)))
     + match d.(dt_exp) with Some (_, x) => x | None => 0 end ->
  decimal_digits t = (sign_text d.(dt_sign), digits, exp).
Proof. intros <- Hwf <- <- ->. by rewrite decimal_digits_layout. Qed.

Lemma plain_decimal_digits neg digits exp :
  normal_digits digits ->
  decimal_digits (sign_text neg ++ plain_decimal digits exp) = (sign_text neg, digits, exp).
Proof.
  intros Hn. pose proof Hn as [Hd Hne Hl Ht]. assert (digits_only []) by constructor.
  unfold plain_decimal.
  destruct (Z.ltb_spec exp 0); [|case_match eqn:Hlen].
  - set (z := replicate (Z.to_nat (- exp - 1)) CH_0).
    apply (decimal_digits_of (mkDecimal neg [CH_0] true (z ++ digits) None) _
      (replicate (Z.to_nat (- exp)) CH_0 ++ digits)).
    + unfold decimal_layout. cbn. by rewrite app_nil_r.
    + split; cbn; try done; [by repeat constructor|].
      apply Forall_app; split; [apply digits_only_replicate|done].
    + cbn. subst z. by replace (Z.to_nat (- exp)) with (S (Z.to_nat (- exp - 1))) by lia.
    + by rewrite drop_zeros, Hl.
    + rewrite drop_zeros, Hl, length_app, length_replicate. cbn. lia.
  - apply Nat.leb_le in Hlen. set (k := (Z.to_nat (exp + 1) - length digits)%nat).
    apply (decimal_digits_of (mkDecimal neg (digits ++ replicate k CH_0) false [] None) _
      (digits ++ replicate k CH_0)).
    + unfold decimal_layout. cbn. by rewrite app_nil_r.
    + split; cbn; try done.
      * apply Forall_app; split; [done|apply digits_only_replicate].
      * by destruct digits.
    + cbn. by rewrite app_nil_r.
    + by rewrite drop_while_app_head, trim_zeros_app.
    + rewrite drop_while_app_head by done. cbn. rewrite length_app, length_replicate. lia.
  - apply Nat.leb_gt in Hlen. destruct (normal_split digits (Z.to_nat (exp + 1)) Hn).
    apply (decimal_digits_of (mkDecimal neg (take (Z.to_nat (exp + 1)) digits) true
      (drop (Z.to_nat (exp + 1)) digits) None) _ digits); try done.
    + unfold decimal_layout. cbn. by rewrite app_nil_r.
    + split; cbn; try done. intros Htake. apply (f_equal length) in Htake.
      rewrite length_take in Htake. cbn in Htake. lia.
    + cbn. by rewrite take_drop.
    + by rewrite Hl.
    + rewrite Hl. cbn. rewrite length_take. lia.
Qed.

Lemma scientific_digits neg digits exp :
  normal_digits digits -> - 2 ^ 31 < exp < 2 ^ 31 ->
  decimal_digits (sign_text neg ++ scientific digits exp) = (sign_text neg, digits, exp).
Proof.
  intros Hn Hexp. pose proof Hn as [Hd Hne Hl Ht]. assert (digits_only []) by constructor.
  assert (Hx : exists e, i32_parse e = Some exp /\ scientific digits exp =
    (if decide (length digits = 1%nat) then digits
     else take 1 digits ++ [CH_DOT] ++ drop 1 digits) ++ 101 :: e).
  { unfold scientific, pad2. destruct (Z.ltb_spec exp 0).
    - exists (CH_MINUS :: dec_text (- exp)). split; [|done].
      replace (Some exp) with (Some (- - exp)) by (f_equal; lia).
      apply i32_parse_digits; [apply dec_text_nonempty | apply dec_text_digits
        | apply dec_text_value |]; lia.
    - exists (43 :: replicate (2 - length (dec_text exp)) CH_0 ++ dec_text exp). split; [|done].
      apply i32_parse_digits; [|..| lia].
      + pose proof (dec_text_nonempty exp ltac:(lia)). by destruct (replicate _ _).
      + rewrite forallb_app, zeros_are_digits. apply dec_text_digits. lia.
      + rewrite digits_value_zeros. apply dec_text_value. lia. }
  destruct Hx as (e & He & ->). destruct (normal_split digits 1 Hn). case_decide as Hlen.
  - apply (decimal_digits_of (mkDecimal neg digits false [] (Some (e, exp))) _ digits).
    + done.
    + by split.
    + apply app_nil_r.
    + by rewrite Hl.
    + rewrite Hl. cbn. lia.
  - apply (decimal_digits_of (mkDecimal neg (take 1 digits) true (drop 1 digits)
      (Some (e, exp))) _ digits).
    + unfold decimal_layout. cbn [dt_sign dt_int dt_point dt_frac dt_exp].
      by rewrite <- app_assoc.
    + split; cbn; try done. by destruct digits.
    + apply take_drop.
    + by rewrite Hl.
    + rewrite Hl. destruct digits; [done|]. cbn. rewrite take_0. cbn. lia.
Qed.

Lemma drop_while_idemp (f : Z -> bool) t : drop_while f (drop_while f t) = drop_while f t.
Proof. induction t as [|x t IH]; cbn; [done|]. destruct (f x) eqn:E; [done|]. cbn. by rewrite E. Qed.

Lemma drop_while_last (f : Z -> bool) t c :
  f c = false -> drop_while f (t ++ [c]) = drop_while f t ++ [c].
Proof.
  intros Hc. induction t as [|x t IH]; cbn; [by rewrite Hc|].
  destruct (f x); [done|]. done.
Qed.

Lemma drop_while_Forall (f : Z -> bool) (P : Z -> Prop) t : Forall P t -> Forall P (drop_while f t).
Proof. induction 1 as [|x t Hx Ht IH]; cbn; [done|]. destruct (f x); [done|]. by constructor. Qed.

Lemma drop_while_head (f : Z -> bool) t :
  Exists (fun c => f c = false) t -> exists c u, drop_while f t = c :: u /\ f c = false.
Proof.
  induction 1 as [x t Hx|x t _ IH]; cbn; [rewrite Hx; eauto|].
  destruct (f x) eqn:E; [done|eauto].
Qed.

Lemma length_drop_while (f : Z -> bool) t : (length (drop_while f t) <= length t)%nat.
Proof. induction t as [|x t IH]; cbn; [lia|]. destruct (f x); cbn; lia. Qed.

Lemma significant_digits t :
  digits_only t -> Exists (fun c => is_zero_char c = false) t ->
  normal_digits (trim_zeros (drop_while is_zero_char t)).
Proof.
  intros Hd Hnz. destruct (drop_while_head _ _ Hnz) as (c & u & Heq & Hc). rewrite Heq.
  assert (Htrim : trim_zeros (c :: u) = c :: reverse (drop_while is_zero_char (reverse u))).
  { unfold trim_zeros. rewrite reverse_cons.
    change (fun c0 => c0 =? CH_0) with is_zero_char.
    by rewrite drop_while_last, reverse_app. }
  split.
  - unfold digits_only, trim_zeros. apply Forall_reverse, drop_while_Forall, Forall_reverse.
    rewrite <- Heq. by apply drop_while_Forall.
  - by rewrite Htrim.
  - rewrite Htrim. cbn. by rewrite Hc.
  - unfold trim_zeros. by rewrite reverse_involutive, drop_while_idemp.
Qed.

(** What [format_finite] documents of the text of a finite number that is not
    zero: a decimal number with a digit that is not zero; the bounds are far
    beyond the 24 characters it needs. *)
Definition finite_text (t : text) : Prop :=
  exists d, decimal_wf d /\ decimal_layout d = t
    /\ Exists (fun c => is_zero_char c = false) (d.(dt_int) ++ d.(dt_frac))
    /\ (length (d.(dt_int) ++ d.(dt_frac)) <= 1000)%nat
    /\ match d.(dt_exp) with Some (_, x) => Z.abs x <= 1000 | None => True end.

Lemma finite_text_digits t :
  finite_text t ->
  exists neg digits exp, decimal_digits t = (sign_text neg, digits, exp)
    /\ normal_digits digits /\ - 2 ^ 31 < exp < 2 ^ 31.
Proof.
  intros (d & Hwf & <- & Hnz & Hlen & Hx). rewrite decimal_digits_layout by done.
  eexists _, _, _. split; [done|]. split.
  - apply significant_digits; [|done]. destruct Hwf. by apply Forall_app.
  - pose proof (length_drop_while is_zero_char (dt_int d ++ dt_frac d)).
    rewrite length_app in *. destruct (dt_exp d) as [[? ?]|]; lia.
Qed.

Lemma go_json_float_digits format f :
  finite_text (format f) -> f64_eqb f f64_zero = false ->
  decimal_digits (go_json_float format f) = decimal_digits (format f).
Proof.
  intros (neg & digits & exp & Heq & Hn & Hexp)%finite_text_digits Hz.
  unfold go_json_float. rewrite Hz, Heq. case_match.
  - by apply plain_decimal_digits.
  - by apply scientific_digits.
Qed.

Definition num_text (t : text) : Prop := t <> [] /\ Forall (fun c => is_num_char c = true) t.

Lemma digits_num t : digits_only t -> Forall (fun c => is_num_char c = true) t.
Proof. intros H. eapply Forall_impl; [exact H|]. unfold is_num_char. cbn. by intros c ->. Qed.

Lemma num_text_cons c t :
  is_num_char c = true -> Forall (fun c => is_num_char c = true) t -> num_text (c :: t).
Proof. split; [done|by constructor]. Qed.

Lemma zeros_num k : Forall (fun c => is_num_char c = true) (replicate k CH_0).
Proof. apply digits_num, digits_only_replicate. Qed.

Lemma dec_text_num n : 0 <= n -> Forall (fun c => is_num_char c = true) (dec_text n).
Proof. intros. apply digits_num, digits_only_forallb, dec_text_digits. done. Qed.

Ltac num_chars :=
  repeat first [done | apply Forall_app; split | apply Forall_cons; split | apply zeros_num
    | match goal with H : forall _, Forall _ _ |- _ => apply H end | apply Forall_nil].

Lemma go_json_float_num format f :
  (f64_eqb f f64_zero = false -> finite_text (format f)) -> num_text (go_json_float format f).
Proof.
  intros Hfmt. unfold go_json_float. destruct (f64_eqb f f64_zero) eqn:Hz.
  { case_match; split; try done; repeat constructor. }
  destruct (finite_text_digits _ (Hfmt eq_refl)) as (neg & digits & exp & -> & Hn & Hexp).
  assert (Hsign : Forall (fun c => is_num_char c = true) (sign_text neg))
    by (destruct neg; repeat constructor).
  pose proof Hn as [Hd Hne _ _]. apply digits_num in Hd.
  assert (Htake : forall n, Forall (fun c => is_num_char c = true) (take n digits))
    by (intros; by apply Forall_take).
  assert (Hdrop : forall n, Forall (fun c => is_num_char c = true) (drop n digits))
    by (intros; by apply Forall_drop).
  assert (Hbody : forall u, u <> [] -> Forall (fun c => is_num_char c = true) u ->
    num_text (sign_text neg ++ u)).
  { intros u Hu ?. split; [by destruct neg|by apply Forall_app]. }
  destruct (_ && _); apply Hbody.
  - unfold plain_decimal. destruct (exp <? 0); [done|].
    destruct (_ <=? _)%nat; [by destruct digits|]. by destruct (take _ digits).
  - unfold plain_decimal. destruct (exp <? 0); [|destruct (_ <=? _)%nat]; num_chars.
  - unfold scientific. destruct (decide _), (exp <? 0); by destruct digits.
  - unfold scientific, pad2. destruct (decide _), (Z.ltb_spec exp 0); num_chars;
      by apply dec_text_num; lia.
Qed.

(** ** Values: lemmas *)

Section read_back.
Context (format : f64 -> text).

(** The values a request can hold: UTF-8 strings, and numbers that
    [format_finite] writes as documented. *)
Fixpoint valid_value (v : value) : Prop :=
  match v with
  | VNumber n => forall f, number_as_f64 n = Some f -> f64_eqb f f64_zero = false ->
                 finite_text (format f)
  | VString s => valid_utf8 s
  | VArray items => foldr (fun x P => valid_value x /\ P) True items
  | VObject m => foldr (fun kv P => (valid_utf8 kv.1 /\ valid_value kv.2) /\ P) True m
  | _ => True
  end.

Lemma foldr_and_Forall {A} (P : A -> Prop) (l : list A) :
  foldr (fun x Q => P x /\ Q) True l <-> Forall P l.
Proof. induction l as [|x l IH]; cbn; [by split|]. by rewrite Forall_cons, IH. Qed.

Definition stops (rest : text) : Prop :=
  match rest with c :: _ => is_num_char c = false | [] => True end.

Lemma span_num t rest : num_text t -> stops rest -> span is_num_char (t ++ rest) = (t, rest).
Proof.
  intros [_ Ht] Hs. induction Ht as [|c t Hc _ IH]; cbn.
  - destruct rest as [|c rest]; cbn in *; [done|]. by rewrite Hs.
  - by rewrite Hc, IH.
Qed.

Lemma read_string_ok s rest :
  valid_utf8 s -> read_string (write_go_json_string s ++ rest) = Some (chars s, rest).
Proof.
  intros Hs. unfold write_go_json_string. cbn. rewrite <- app_assoc. apply read_escaped.
  eapply Forall_impl; [by apply valid_utf8_scalars|]. intros c Hc. apply Hc.
Qed.

(** Written items read back when each item does. *)
Definition reads {A B} (write : A -> result GoJsonError text) (read : text -> option (B * text))
  (close : Z) (c : A -> B) (x : A) : Prop :=
  forall t rest, write x = Ok t -> stops rest ->
    read (t ++ rest) = Some (c x, rest) /\ exists c0 t', t = c0 :: t' /\ c0 <> close.

Lemma write_items_cons {A} (write : A -> result GoJsonError text) first x items t :
  write_items write first (x :: items) = Ok t ->
  exists tx ts, write x = Ok tx /\ write_items write false items = Ok ts
    /\ t = (if first then [] else [44]) ++ tx ++ ts.
Proof.
  cbn. destruct (write x) as [tx|]; [|done].
  change ((fix go (first0 : bool) (items0 : list A) {struct items0} := _) false items)
    with (write_items write false items).
  destruct (write_items write false items) as [ts|]; [|done]. intros [= <-]. eauto.
Qed.

Lemma write_items_false {A} (write : A -> result GoJsonError text) items ts :
  write_items write false items = Ok ts ->
  items = [] /\ ts = []
  \/ items <> [] /\ exists ts', ts = 44 :: ts' /\ write_items write true items = Ok ts'.
Proof.
  destruct items as [|x items]; [intros [= <-]; by left|]. intros Hw. right.
  revert Hw. cbn. destruct (write x) as [tx|]; [|done].
  destruct (write_items write false items) as [ts'|]; [|done]. intros. simplify_eq. eauto 6.
Qed.

Lemma read_items_ok {A B} write read close (c : A -> B) items fuel t rest :
  Forall (reads write read close c) items -> items <> [] -> (length items <= fuel)%nat ->
  is_num_char close = false -> close <> 44 ->
  write_items write true items = Ok t ->
  read_items read close fuel (t ++ close :: rest) = Some (map c items, rest).
Proof.
  intros Hall Hne Hlen Hclose Hcomma. revert fuel t Hlen Hne.
  induction Hall as [|x items Hx Hall IH]; intros fuel t Hlen Hne Hw; [done|].
  destruct fuel as [|fuel]; [cbn in Hlen; lia|].
  apply write_items_cons in Hw as (tx & ts & Htx & Hts & ->). cbn [app].
  rewrite <- app_assoc. cbn [read_items].
  apply write_items_false in Hts as [[-> ->]|(Hitems & ts' & -> & Hts)].
  - cbn [app]. destruct (Hx tx (close :: rest) Htx Hclose) as [-> _]. by rewrite Z.eqb_refl.
  - cbn [app]. destruct (Hx tx (44 :: ts' ++ close :: rest) Htx eq_refl) as [-> _].
    rewrite (proj2 (Z.eqb_neq 44 close)) by congruence. cbn [Z.eqb Pos.eqb].
    change ((fix go (fuel0 : nat) (t0 : text) {struct fuel0} := _) fuel (ts' ++ close :: rest))
      with (read_items read close fuel (ts' ++ close :: rest)).
    rewrite (IH fuel ts'); [done| cbn in Hlen; lia | done | done].
Qed.

Lemma read_list_ok {A B} write read close (c : A -> B) items fuel t rest :
  Forall (reads write read close c) items -> (length items <= fuel)%nat ->
  is_num_char close = false -> close <> 44 ->
  write_items write true items = Ok t ->
  read_list read close fuel (t ++ close :: rest) = Some (map c items, rest).
Proof.
  intros Hall Hlen Hclose Hcomma Hw. destruct items as [|x items].
  - injection Hw as <-. cbn. by rewrite Z.eqb_refl.
  - pose proof Hw as Hw'. apply write_items_cons in Hw' as (tx & ts & Htx & _ & ->).
    pose proof Hall as Hall'. apply Forall_cons in Hall' as [Hx _].
    destruct (Hx tx [] Htx I) as [_ (c0 & t' & -> & Hc0)].
    pose proof (read_items_ok _ _ _ _ (x :: items) fuel _ rest Hall ltac:(done) Hlen Hclose
      Hcomma Hw) as Hread.
    unfold read_list. cbn [app] in *. by rewrite (proj2 (Z.eqb_neq c0 close)).
Qed.

Lemma write_string_total_head s : exists u, write_go_json_string s = CH_QUOTE :: u.
Proof. eexists. reflexivity. Qed.

Lemma sum_length {A} (f : A -> nat) l :
  (forall x, (0 < f x)%nat) -> (length l <= sum_list_with f l)%nat.
Proof. intros Hf. induction l as [|x l IH]; cbn; [lia|]. specialize (Hf x). lia. Qed.

Lemma sum_list_with_in {A} (f : A -> nat) l x : x ∈ l -> (f x <= sum_list_with f l)%nat.
Proof. induction 1; cbn; lia. Qed.

Definition value_reads (v : value) : Prop :=
  forall fuel close, (value_size v <= fuel)%nat -> valid_value v -> (close = 93 \/ close = 125) ->
  reads (write_go_json_value format) (read_value fuel) close (canon format) v.

(** A number text starts with none of the characters that open other values. *)
Lemma read_number fuel t rest :
  num_text t -> stops rest -> read_value (S fuel) (t ++ rest) = Some (TNum t, rest).
Proof.
  intros Ht Hs. pose proof (span_num t rest Ht Hs) as Hspan. destruct Ht as [Hne Hall].
  destruct t as [|c t]; [done|]. apply Forall_cons in Hall as [Hc _].
  cbn [app read_value].
  repeat match goal with |- context [if c =? ?k then _ else _] =>
    destruct (Z.eqb_spec c k); [subst; discriminate Hc|] end.
  change (c :: t ++ rest) with ((c :: t) ++ rest). by rewrite Hspan.
Qed.

Lemma value_reads_all v : value_reads v.
Proof.
  induction v as [|b|n|s|items IH|m IH] using value_rect_nested;
    intros [|fuel] close Hf Hv Hclose t rest Hw Hs; try (cbn in Hf; lia).
  - injection Hw as <-. change (lit "null") with [110; 117; 108; 108].
    split; [done|]. eexists _, _. split; [done|]. lia.
  - injection Hw as <-. change (lit "true") with [116; 114; 117; 101].
    change (lit "false") with [102; 97; 108; 115; 101].
    destruct b; (split; [done|]; eexists _, _; split; [done|]; lia).
  - cbn in Hw. cbn [canon valid_value] in *. destruct (number_as_f64 n) as [f|]; [|done].
    injection Hw as <-. pose proof (go_json_float_num format f (Hv f eq_refl)) as Hnum.
    split; [by apply read_number|]. destruct Hnum as [Hne Hall].
    destruct (go_json_float format f) as [|c u]; [done|]. eexists _, _. split; [done|].
    apply Forall_cons in Hall as [Hc _]. destruct Hclose as [-> | ->]; by intros ->.
  - injection Hw as <-. cbn [valid_value] in Hv. split; [|eexists _, _; split; [done|];
      unfold CH_QUOTE; lia].
    pose proof (read_string_ok s rest Hv) as Hr. cbn in Hr |- *. by rewrite Hr.
  - cbn [write_go_json_value] in Hw.
    destruct (write_items (write_go_json_value format) true items) as [ti|] eqn:Hi; [|done].
    injection Hw as <-. split; [|eexists _, _; split; [done|]; lia].
    cbn [app]. rewrite <- app_assoc. cbn [read_value app Z.eqb Pos.eqb CH_QUOTE canon].
    cbn [valid_value value_size] in *. apply foldr_and_Forall in Hv.
    rewrite (read_list_ok (write_go_json_value format) _ 93 (canon format) items fuel ti rest);
      try done.
    + rewrite Forall_forall in *. intros x Hx. apply IH; auto.
      pose proof (sum_list_with_in value_size items x Hx). lia.
    + pose proof (sum_length value_size items value_size_pos). lia.
  - cbn [write_go_json_value] in Hw.
    match type of Hw with context [write_items ?w true m] => set (wr := w) in * end.
    destruct (write_items wr true m) as [ti|] eqn:Hi; [|done].
    injection Hw as <-. split; [|eexists _, _; split; [done|]; lia].
    cbn [app]. rewrite <- app_assoc. cbn [read_value app Z.eqb Pos.eqb CH_QUOTE canon].
    cbn [valid_value value_size] in *. apply foldr_and_Forall in Hv.
    rewrite (read_list_ok wr _ 125 (fun kv => (chars kv.1, canon format kv.2)) m fuel ti rest);
      try done.
    + rewrite Forall_forall in *. intros [k x] Hx t' rest' Hw' Hs'.
      unfold wr in Hw'. cbn [fst snd] in Hw'.
      destruct (write_go_json_value format x) as [tx|] eqn:Htx; [|done].
      assert (t' = write_go_json_string k ++ [58] ++ tx) as -> by congruence.
      destruct (Hv _ Hx) as [Hk Hvx]. cbn in Hk, Hvx.
      split; [|eexists _, _; split; [done|]; unfold CH_QUOTE; lia].
      unfold read_entry. rewrite <- app_assoc, read_string_ok by done. cbn.
      pose proof (sum_list_with_in (fun kv => value_size kv.2) m _ Hx) as Hsz. cbn in Hsz.
      destruct (IH _ Hx fuel 125 ltac:(cbn; lia) Hvx ltac:(by right) tx rest' Htx Hs') as [Hr _].
      cbn in Hr. by rewrite Hr.
    + pose proof (sum_length (fun kv => value_size kv.2) m (fun kv => value_size_pos kv.2)). lia.
Qed.
End read_back.

(** Every number is a [f64], so the error branch is never taken. *)
Lemma write_items_total {A} (write : A -> result GoJsonError text) first items :
  Forall (fun x => exists t, write x = Ok t) items -> exists t, write_items write first items = Ok t.
Proof.
  intros Hall. revert first.
  induction Hall as [|x items [tx Hx] _ IH]; intros first; cbn; [eauto|].
  rewrite Hx. destruct (IH false) as [ts ->]. eauto.
Qed.

Lemma write_value_total format v : exists t, write_go_json_value format v = Ok t.
Proof.
  induction v as [|b|n|s|items IH|m IH] using value_rect_nested; cbn [write_go_json_value]; eauto.
  - destruct n; cbn; eauto.
  - destruct (write_items_total (write_go_json_value format) true items IH) as [t ->]. eauto.
  - match goal with |- context [write_items ?w true m] =>
      destruct (write_items_total w true m) as [t ->]; eauto end.
    eapply Forall_impl; [exact IH|]. intros [k x] [t Ht]. cbn in *. rewrite Ht. eauto.
Qed.

Lemma circuit_text_total format c : exists t, circuit_signing_text format c = Ok t.
Proof.
  unfold circuit_signing_text.
  destruct (write_items_total (write_gate format) true c) as [t ->]; [|eauto].
  apply Forall_forall. intros g _. unfold write_gate.
  destruct (write_value_total format (params g)) as [t ->]. eauto.
Qed.

(** ** The circuit *)

Section circuit.
Context (format : f64 -> text).

Definition canon_gate (g : Gate) : text * token := (chars g.(gate_type), canon format g.(params)).
Definition valid_wire_gate (g : Gate) : Prop :=
  valid_utf8 g.(gate_type) /\ valid_value format g.(params).

(** Past the ["type"] key, the name, the ["params"] key, the value and the
    closing brace. *)
Definition read_gate (fuel : nat) (t : text) : option ((text * token) * text) :=
  match read_string (drop 8 t) with
  | Some (ty, t1) =>
    match read_value fuel (drop 10 t1) with
    | Some (p, t2) => Some ((ty, p), drop 1 t2)
    | None => None
    end
  | None => None
  end.

Lemma read_gate_ok fuel g :
  valid_wire_gate g -> (value_size g.(params) <= fuel)%nat ->
  reads (write_gate format) (read_gate fuel) 93 canon_gate g.
Proof.
  intros [Hty Hp] Hf t rest Hw Hs. unfold write_gate in Hw.
  destruct (write_go_json_value format (params g)) as [tp|] eqn:Htp; [|done].
  match type of Hw with Ok ?u = _ => assert (t = u) as -> by congruence end.
  split; [|eexists _, _; split; [done|]; lia]. unfold read_gate, canon_gate.
  cbn [app]. rewrite <- !app_assoc.
  change (drop 8 _) with (write_go_json_string (gate_type g)
    ++ [44; 34; 112; 97; 114; 97; 109; 115; 34; 58] ++ (tp ++ [125]) ++ rest).
  rewrite read_string_ok by done. cbn [drop app]. rewrite <- app_assoc, drop_0. cbn [app].
  destruct (value_reads_all format (params g) fuel 125 Hf Hp ltac:(by right) tp (125 :: rest)
    Htp eq_refl) as [-> _]. done.
Qed.

Lemma circuit_text_reads c t fuel :
  Forall valid_wire_gate c -> Forall (fun g => (value_size g.(params) <= fuel)%nat) c ->
  (length c <= fuel)%nat ->
  circuit_signing_text format c = Ok t ->
  read_list (read_gate fuel) 93 fuel (drop 1 t) = Some (map canon_gate c, []).
Proof.
  intros Hv Hf Hlen. unfold circuit_signing_text.
  destruct (write_items _ true c) as [ti|] eqn:Hi; [|done]. intros [= <-]. cbn [drop app].
  apply (read_list_ok (write_gate format) (read_gate fuel) 93 canon_gate); try done.
  rewrite Forall_forall in *. intros g Hg. apply read_gate_ok; auto.
Qed.

(** *** The text consists of Unicode scalar values *)

Definition scalars (t : text) : Prop := Forall is_scalar t.

Lemma num_text_scalars t : num_text t -> scalars t.
Proof.
  intros [_ H]. eapply Forall_impl; [exact H|]. unfold is_num_char, is_digit_char, is_scalar.
  intros c Hc. repeat match goal with H : context [?a =? ?b] |- _ =>
    destruct (Z.eqb_spec a b); [lia|] end. cbn in Hc. rewrite !orb_false_r in Hc.
  bool_to_prop. lia.
Qed.

Lemma hex_digit_scalar n : 0 <= n < 16 -> is_scalar (hex_digit n).
Proof. intros. unfold is_scalar, hex_digit, CH_0. destruct (_ <? _); lia. Qed.

Lemma unicode_escape_scalars c : 0 <= c < 65536 -> scalars (unicode_escape c).
Proof.
  intros Hc. unfold unicode_escape. repeat apply Forall_cons_2; try apply Forall_nil_2;
    try (unfold is_scalar, CH_BACKSLASH; lia); apply hex_digit_scalar;
    try (apply Z.mod_pos_bound; lia).
  split; [apply Z.div_pos | apply Z.div_lt_upper_bound]; lia.
Qed.

Lemma escape_char_scalars c : is_scalar c -> scalars (escape_char c).
Proof.
  intros Hc. unfold is_scalar in Hc. unfold escape_char.
  char_cases; try (apply unicode_escape_scalars; lia);
    repeat (apply Forall_cons; split); try apply Forall_nil_2;
    unfold is_scalar, CH_BACKSLASH; lia.
Qed.

Lemma string_scalars s : valid_utf8 s -> scalars (write_go_json_string s).
Proof.
  intros Hs%valid_utf8_scalars. unfold write_go_json_string, scalars, CH_QUOTE, is_scalar.
  repeat (apply Forall_app; split); try (apply Forall_cons; split; [lia|done]).
  induction Hs as [|c cs Hc _ IH]; [done|]. cbn [flat_map].
  apply Forall_app; split; [by apply escape_char_scalars|done].
Qed.

Lemma write_items_scalars {A} (write : A -> result GoJsonError text) first items t :
  (forall x u, x ∈ items -> write x = Ok u -> scalars u) ->
  write_items write first items = Ok t -> scalars t.
Proof.
  intros Hw. revert first t. induction items as [|x items IH]; intros first t.
  - intros [= <-]. constructor.
  - intros (tx & ts & Hx & Hts & ->)%write_items_cons.
    repeat (apply Forall_app; split).
    + destruct first; repeat constructor; lia.
    + apply (Hw x); [by left|done].
    + eapply IH; [|done]. intros y u Hy. apply Hw. by right.
Qed.

Ltac scalar_text :=
  repeat first [done | apply string_scalars | apply Forall_app; split
    | apply Forall_cons; split | unfold is_scalar; lia].

Lemma value_scalars v t :
  valid_value format v -> write_go_json_value format v = Ok t -> scalars t.
Proof.
  revert t. induction v as [|b|n|s|items IH|m IH] using value_rect_nested;
    intros t Hv Hw; cbn [write_go_json_value valid_value] in *.
  - injection Hw as <-. change (lit "null") with [110; 117; 108; 108]. scalar_text.
  - injection Hw as <-. change (lit "true") with [116; 114; 117; 101].
    change (lit "false") with [102; 97; 108; 115; 101]. destruct b; scalar_text.
  - destruct (number_as_f64 n) as [f|]; [|done]. injection Hw as <-.
    apply num_text_scalars, go_json_float_num. by apply Hv.
  - injection Hw as <-. by apply string_scalars.
  - destruct (write_items _ true items) as [ti|] eqn:Hi; [|done]. injection Hw as <-.
    apply foldr_and_Forall in Hv. rewrite Forall_forall in *.
    apply (write_items_scalars _ _ _ ti) in Hi; [scalar_text|]. eauto.
  - destruct (write_items _ true m) as [ti|] eqn:Hi; [|done]. injection Hw as <-.
    apply foldr_and_Forall in Hv. rewrite Forall_forall in *.
    apply (write_items_scalars _ _ _ ti) in Hi; [scalar_text|].
    intros [k x] u Hin Hu. cbn [fst snd] in Hu. destruct (write_go_json_value format x) eqn:Hx; [|done].
    assert (u = write_go_json_string k ++ [58] ++ a) as -> by congruence.
    destruct (Hv _ Hin). scalar_text. by eapply (IH _ Hin).
Qed.

Lemma circuit_scalars c t :
  Forall valid_wire_gate c -> circuit_signing_text format c = Ok t -> scalars t.
Proof.
  intros Hv. unfold circuit_signing_text.
  destruct (write_items _ true c) as [ti|] eqn:Hi; [|done]. intros [= <-].
  rewrite Forall_forall in Hv.
  apply (write_items_scalars _ _ _ ti) in Hi; [scalar_text|].
  intros g u Hg. unfold write_gate.
  destruct (write_go_json_value format (params g)) as [tp|] eqn:Htp; [|done].
  destruct (Hv g Hg). intros Hu.
  match type of Hu with Ok ?w = _ => assert (u = w) as -> by congruence end.
  scalar_text. by eapply value_scalars.
Qed.

Lemma circuit_json_inj c d b :
  Forall valid_wire_gate c -> Forall valid_wire_gate d ->
  circuit_signing_json format c = Ok b -> circuit_signing_json format d = Ok b ->
  map canon_gate c = map canon_gate d.
Proof.
  intros Hc Hd. unfold circuit_signing_json.
  destruct (circuit_text_total format c) as [t Ht], (circuit_text_total format d) as [u Hu].
  rewrite Ht, Hu. intros [= <-] [= Heq].
  apply utf8_encode_inj in Heq as ->;
    [|by apply (circuit_scalars d)|by apply (circuit_scalars c)].
  set (fuel := (length c + length d
    + sum_list_with (fun g => value_size g.(params)) (c ++ d))%nat).
  assert (Hf : forall g, g ∈ c ++ d -> (value_size g.(params) <= fuel)%nat).
  { intros g Hg. pose proof (sum_list_with_in (fun g => value_size g.(params)) _ g Hg).
    subst fuel. cbn in *. lia. }
  pose proof (circuit_text_reads c t fuel Hc) as H1.
  pose proof (circuit_text_reads d t fuel Hd) as H2.
  rewrite H1 in H2; [| | subst fuel; lia | done].
  2: { apply Forall_forall. intros g Hg. apply Hf. apply elem_of_app. by left. }
  assert (Some (map canon_gate c, @nil Z) = Some (map canon_gate d, [])) as Heq; [|congruence].
  apply H2; [|subst fuel; lia|done].
  apply Forall_forall. intros g Hg. apply Hf. apply elem_of_app. by right.
Qed.
End circuit.

(** ** Observables *)

(** [sort_by(|a, b| a.key.cmp(&b.key))]: a stable sort by a string key, bytewise
    order. *)
Section sort_by.
Context {A : Type} (key : A -> string).

Fixpoint insert_by (x : A) (l : list A) : list A :=
  match l with
  | [] => [x]
  | y :: l' => if String.leb (key x) (key y) then x :: l else y :: insert_by x l'
  end.
Definition sort_by (l : list A) : list A := foldr insert_by [] l.
End sort_by.

(** [parts.join(",")] *)
Fixpoint join (sep : text) (parts : list text) : text :=
  match parts with
  | [] => []
  | [p] => p
  | p :: rest => p ++ sep ++ join sep rest
  end.

Definition format_go_float (val : f64) : text :=
  if f64_eqb val (f64_of_Z (f64_as_i64 val)) then display_f64_int_1 val else display_f64 val.

Definition format_complex_coeff_json (coeff : ComplexCoeff) : text :=
  [123; 34; 105; 109; 97; 103; 34; 58] (* imag *) ++ format_go_float coeff.(coeff_imag)
  ++ [44; 34; 114; 101; 97; 108; 34; 58] (* real *) ++ format_go_float coeff.(coeff_real) ++ [125].

Definition format_term_json (t : PauliTerm) : text :=
  [123; 34; 99; 111; 101; 102; 102; 34; 58] (* coeff *) ++ format_complex_coeff_json t.(coeff)
  ++ [44; 34; 108; 97; 98; 101; 108; 34; 58; 34] (* label *) ++ chars t.(label) ++ [34; 125].

Definition format_observable_json (obs : ObservableSpec) : text :=
  [123; 34; 105; 100; 34; 58; 34] (* id *) ++ chars obs.(obs_id)
  ++ [34; 44; 34; 116; 101; 114; 109; 115; 34; 58; 91] (* terms *)
  ++ join [44] (map format_term_json (sort_by label obs.(terms))) ++ [93; 125].

Definition OBSERVABLES_PREFIX : text :=
  [123; 34; 111; 98; 115; 101; 114; 118; 97; 98; 108; 101; 115; 34; 58].

Definition format_observable_spec_json (observables : list ObservableSpec) : text :=
  OBSERVABLES_PREFIX ++ [91]
  ++ join [44] (map format_observable_json (sort_by obs_id observables)) ++ [93; 125].

(** [s.strip_prefix(p)] and [s.strip_suffix(c)] *)
Fixpoint strip_prefix (p t : text) : option text :=
  match p, t with
  | [], _ => Some t
  | c :: p', x :: t' => if x =? c then strip_prefix p' t' else None
  | _, [] => None
  end.
Definition strip_suffix (c : Z) (t : text) : option text :=
  match reverse t with
  | x :: r => if x =? c then Some (reverse r) else None
  | [] => None
  end.

Definition format_observables_wire_json (observables : list ObservableSpec) : text :=
  match observables with
  | [] => [91; 93]
  | _ =>
    let inner := format_observable_spec_json observables in
    match strip_prefix OBSERVABLES_PREFIX inner with
    | Some s => default inner (strip_suffix 125 s)
    | None => inner
    end
  end.

Example literals :
  of_chars OBSERVABLES_PREFIX = of_bytes (Byte.x7b :: Byte.x22 :: as_bytes "observables"
    ++ [Byte.x22; Byte.x3a]) /\
  chars "imag" = [105; 109; 97; 103] /\ chars "real" = [114; 101; 97; 108] /\
  chars "coeff" = [99; 111; 101; 102; 102] /\ chars "label" = [108; 97; 98; 101; 108] /\
  chars "terms" = [116; 101; 114; 109; 115] /\ chars "type" = [116; 121; 112; 101] /\
  chars "params" = [112; 97; 114; 97; 109; 115].
Proof. by vm_compute. Qed.

(** *** Lemmas *)

Lemma strip_prefix_app p t : strip_prefix p (p ++ t) = Some t.
Proof. induction p as [|c p IH]; cbn; [by destruct t|]. by rewrite Z.eqb_refl. Qed.

Lemma strip_suffix_app c t : strip_suffix c (t ++ [c]) = Some t.
Proof.
  unfold strip_suffix. rewrite reverse_app, reverse_singleton. cbn [app].
  by rewrite Z.eqb_refl, reverse_involutive.
Qed.

Lemma wire_json_list observables :
  format_observables_wire_json observables
  = [91] ++ join [44] (map format_observable_json (sort_by obs_id observables)) ++ [93].
Proof.
  destruct observables as [|o l]; [done|]. unfold format_observables_wire_json.
  set (observables := o :: l). unfold format_observable_spec_json. rewrite strip_prefix_app.
  change [93; 125] with ([93] ++ [125]). rewrite !(app_assoc _ _ [125]), strip_suffix_app.
  done.
Qed.

Lemma string_compare_trans s t u :
  String.compare s t <> Gt -> String.compare t u <> Gt -> String.compare s u <> Gt.
Proof.
  revert t u. induction s as [|a s IH]; intros [|b t] [|c u]; cbn; try done.
  unfold Ascii.compare.
  destruct (N.compare_spec (Ascii.N_of_ascii a) (Ascii.N_of_ascii b)),
    (N.compare_spec (Ascii.N_of_ascii b) (Ascii.N_of_ascii c)); try done; intros H1 H2;
    destruct (N.compare_spec (Ascii.N_of_ascii a) (Ascii.N_of_ascii c)); try done; try lia.
  by apply (IH t).
Qed.

Lemma leb_compare s t : String.leb s t = true <-> String.compare s t <> Gt.
Proof. unfold String.leb. destruct (String.compare s t); naive_solver. Qed.

Section sort_by_lemmas.
Context {A : Type} (key : A -> string).

Definition key_le (x y : A) : Prop := String.leb (key x) (key y) = true.

#[export] Instance key_le_trans : Transitive key_le.
Proof. intros x y z. unfold key_le. rewrite !leb_compare. apply string_compare_trans. Qed.

Lemma key_le_total x y : key_le x y \/ key_le y x.
Proof. apply String.leb_total. Qed.

Lemma key_le_antisym x y : key_le x y -> key_le y x -> key x = key y.
Proof. apply String.leb_antisym. Qed.

Lemma insert_by_perm x l : insert_by key x l ≡ₚ x :: l.
Proof.
  induction l as [|y l IH]; cbn; [done|]. destruct (String.leb _ _); [done|].
  rewrite IH. constructor.
Qed.

Lemma sort_by_perm l : sort_by key l ≡ₚ l.
Proof. induction l as [|x l IH]; cbn; [done|]. by rewrite insert_by_perm, IH. Qed.

Lemma insert_by_sorted x l :
  StronglySorted key_le l -> StronglySorted key_le (insert_by key x l).
Proof.
  induction 1 as [|y l Hl IH Hy]; cbn; [repeat constructor|].
  destruct (String.leb (key x) (key y)) eqn:E.
  - repeat constructor; try done. eapply Forall_impl; [exact Hy|]. intros z Hz.
    by transitivity y.
  - constructor; [done|]. rewrite insert_by_perm. constructor; [|done].
    destruct (key_le_total x y) as [H|H]; [|done]. unfold key_le in H. congruence.
Qed.

Lemma sort_by_sorted l : StronglySorted key_le (sort_by key l).
Proof. induction l as [|x l IH]; cbn; [constructor|]. by apply insert_by_sorted. Qed.

(** With distinct keys, the sorted list is determined by the elements. *)
Lemma sort_by_unique l k : NoDup (map key l) -> l ≡ₚ k -> sort_by key l = sort_by key k.
Proof.
  intros Hnd Hperm. apply (StronglySorted_unique_strong key_le); try apply sort_by_sorted.
  - intros x y. rewrite !sort_by_perm, <- Hperm. intros Hx Hy H1 H2.
    pose proof (key_le_antisym _ _ H1 H2) as Hk.
    clear -Hnd Hx Hy Hk. induction l as [|z l IH]; [by apply not_elem_of_nil in Hx|].
    cbn in Hnd. apply NoDup_cons in Hnd as [Hz Hnd].
    apply elem_of_cons in Hx as [->|Hx]; apply elem_of_cons in Hy as [->|Hy];
      [done|..|by apply IH].
    + destruct Hz. rewrite Hk. by apply list_elem_of_fmap_2.
    + destruct Hz. rewrite <- Hk. by apply list_elem_of_fmap_2.
  - by rewrite !sort_by_perm.
Qed.
End sort_by_lemmas.

(** ** Theorems *)

Definition same_observable (o o' : ObservableSpec) : Prop :=
  o.(obs_id) = o'.(obs_id) /\ o.(terms) ≡ₚ o'.(terms) /\ NoDup (map label o.(terms)).

Lemma same_observable_json o o' :
  same_observable o o' -> format_observable_json o = format_observable_json o'.
Proof.
  intros (Hid & Hterms & Hnd). unfold format_observable_json.
  by rewrite Hid, (sort_by_unique label _ _ Hnd Hterms).
Qed.

Lemma insert_same o o' k k' :
  same_observable o o' -> Forall2 same_observable k k' ->
  Forall2 same_observable (insert_by obs_id o k) (insert_by obs_id o' k').
Proof.
  intros Ho. induction 1 as [|x x' k k' Hx Hk IH]; cbn; [constructor; [done|constructor]|].
  destruct Ho as (Hid & Ho), Hx as (Hidx & Hx). rewrite Hid, Hidx.
  destruct (String.leb _ _); constructor; try done; constructor; done || by split.
Qed.

Lemma sort_same k k' :
  Forall2 same_observable k k' ->
  Forall2 same_observable (sort_by obs_id k) (sort_by obs_id k').
Proof. induction 1; cbn; [done|]. by apply insert_same. Qed.

(** An executable [format_finite]: the shortest digits with their exponent; it
    is [finite_text] on every float by construction. *)
Definition good_digits (d : text) (x : Z) : bool :=
  forallb is_digit_char d && existsb (fun c => negb (is_zero_char c)) d
    && (length d <=? 100)%nat && (Z.abs x <=? 1000).

Definition sample_decimal (s : bool) (d : text) (x : Z) : decimal_text :=
  mkDecimal s (take 1 d) (bool_decide (drop 1 d <> [])) (drop 1 d)
    (Some (if x <? 0 then CH_MINUS :: dec_text (- x) else dec_text x, x)).

Definition sample_format (f : f64) : text :=
  match f with
  | SpecFloat.S754_finite s m e =>
    match shortest_digits (Zpos m) e with
    | Some (d, x) =>
      decimal_layout (if good_digits d x then sample_decimal s d x else sample_decimal s [49] 0)
    | None => decimal_layout (sample_decimal s [49] 0)
    end
  | _ => decimal_layout (sample_decimal false [49] 0)
  end.

Lemma sample_decimal_ok s d x : good_digits d x = true -> finite_text (decimal_layout (sample_decimal s d x)).
Proof.
  unfold good_digits.
  intros [[[H H3]%andb_prop H2%Nat.leb_le]%andb_prop H1%Z.leb_le]%andb_prop.
  apply digits_only_forallb in H. exists (sample_decimal s d x).
  assert (Hx : i32_parse (if x <? 0 then CH_MINUS :: dec_text (- x) else dec_text x) = Some x).
  { destruct (Z.ltb_spec x 0).
    - replace (Some x) with (Some (- - x)) by (f_equal; lia).
      apply i32_parse_digits; [apply dec_text_nonempty | apply dec_text_digits
        | apply dec_text_value |]; lia.
    - apply i32_parse_digits; [apply dec_text_nonempty | apply dec_text_digits
        | apply dec_text_value |]; lia. }
  cbn [sample_decimal dt_int dt_frac dt_exp]. rewrite take_drop. split_and!; try done.
  - split; cbn; [by apply Forall_take| | by apply Forall_drop | | done].
    + by destruct d.
    + intros Hb%bool_decide_eq_false. by apply dec_stable.
  - apply existsb_exists in H3 as (c & Hin & Hc). apply Exists_exists. exists c.
    split; [by apply list_elem_of_In|]. by apply negb_true_iff.
  - lia.
Qed.

Lemma sample_format_ok f : finite_text (sample_format f).
Proof.
  unfold sample_format. destruct f as [| | |s m e]; try by apply sample_decimal_ok.
  destruct (shortest_digits _ _) as [[d x]|]; [|by apply sample_decimal_ok].
  destruct (good_digits d x) eqn:E; by apply sample_decimal_ok.
Qed.

Example sample_circuit_text :
  of_chars (default [] (match circuit_signing_text sample_format
    [mkGate "RY" (VArray [VNumber (PosInt 1); VNumber (Float (f64_dec 314 2));
       VNumber (Float (f64_dec 1 7)); VNumber (Float (f64_mul (f64_of_Z 1000) (f64_of_Z (10^18))))])]
    with Ok t => Some t | Err _ => None end))
  = of_bytes (map (fun b => if Byte.eqb b Byte.x27 then Byte.x22 else b)
      (as_bytes "[{'type':'RY','params':[1,3.14,1e-7,1e+21]}]")).
Proof. vm_compute. reflexivity. Qed.

(** C21. The circuit bytes that a dispatch signature covers determine the
    circuit: two circuits with the same signing JSON have the same gates in the
    same order, with the same types and the same parameters, down to the text of
    every number. *)
Theorem circuit_signing_injective format c d b :
  Forall (valid_wire_gate format) c -> Forall (valid_wire_gate format) d ->
  circuit_signing_json format c = Ok b -> circuit_signing_json format d = Ok b ->
  map (canon_gate format) c = map (canon_gate format) d.
Proof. apply circuit_json_inj. Qed.

Definition json_circuit : list Gate :=
  [mkGate "H" (VArray [VNumber (PosInt 0)]);
   mkGate "<b>" (VObject [("k", VBool true); ("n", VNull)])].

Lemma json_circuit_valid : Forall (valid_wire_gate sample_format) json_circuit.
Proof.
  repeat constructor; cbn; try (by apply valid_utf8_chars_ok; vm_compute).
  intros. apply sample_format_ok.
Qed.

Lemma circuit_signing_injective_witness :
  map (canon_gate sample_format) json_circuit = map (canon_gate sample_format) json_circuit.
Proof.
  destruct (circuit_signing_json sample_format json_circuit) as [b|] eqn:E; [|discriminate E].
  exact (circuit_signing_injective sample_format json_circuit json_circuit b
    json_circuit_valid json_circuit_valid E E).
Defined.

(** Changing a number to Go's layout never changes the number: the sign, the
    significant digits and the decimal exponent of the text are those of the
    shortest text it was made from, in plain and in scientific notation. *)
Theorem go_json_float_keeps_digits format f :
  finite_text (format f) -> f64_eqb f f64_zero = false ->
  decimal_digits (go_json_float format f) = decimal_digits (format f).
Proof. apply go_json_float_digits. Qed.

Lemma go_json_float_keeps_digits_witness :
  decimal_digits (go_json_float sample_format (f64_dec (-15) 8)) = ([45], [49; 53], -7).
Proof.
  rewrite (go_json_float_keeps_digits sample_format (f64_dec (-15) 8)
    (sample_format_ok _) eq_refl). vm_compute. reflexivity.
Defined.

(** The signed observables JSON does not depend on the order in which a
    client lists the observables or the terms of one. *)
Theorem observables_order_irrelevant l k l' :
  NoDup (map obs_id l) -> l ≡ₚ k -> Forall2 same_observable k l' ->
  format_observables_wire_json l = format_observables_wire_json l'.
Proof.
  intros Hnd Hperm Hsame. rewrite !wire_json_list, (sort_by_unique obs_id l k Hnd Hperm).
  do 3 f_equal. apply sort_same in Hsame.
  induction Hsame as [|o o' m m' Ho _ IH]; cbn [map]; [done|].
  by rewrite IH, (same_observable_json o o').
Qed.

Definition sample_terms : list PauliTerm :=
  [mkPauliTerm "Z0" (mkComplexCoeff (f64_of_Z 1) f64_zero);
   mkPauliTerm "X1" (mkComplexCoeff (f64_dec 5 1) f64_zero)].

Lemma observables_order_irrelevant_witness :
  format_observables_wire_json [mkObservableSpec "b" sample_terms; mkObservableSpec "a" []]
  = format_observables_wire_json
      [mkObservableSpec "a" []; mkObservableSpec "b" (reverse sample_terms)].
Proof.
  apply (observables_order_irrelevant _
    [mkObservableSpec "a" []; mkObservableSpec "b" sample_terms]).
  - apply NoDup_ListNoDup. by vm_compute; repeat constructor; simpl; intros ?; intuition discriminate.
  - apply perm_swap.
  - repeat constructor; cbn; try apply NoDup_nil_2; try set_solver.
Defined.
