(* ===== verification/Serde.v ===== *)
(** * JSON of derived types

    What [#[derive(Serialize, Deserialize)]] and [serde_json] do with the types of
    this program, as pairs of functions between a type and the JSON document.  A
    document is a [value] whose objects keep their entries in the order of the
    text, repeated keys included; [serde_json::Value] is the [normal] form, whose
    objects are [BTreeMap]s.

    A codec has a writer, a reader, what an absent field means, and the values of
    the Rust type whose document nests at most [depth] levels.  Its laws: documents
    are well formed, they read back, and what is read from a well-formed document
    is a value of the type.  A struct is the list of its fields with their
    attributes, and its laws follow from those of the fields. *)

From S2P Require Import Prelude Bytes F64 Models GoJson.

#[local] Set Warnings "-register-all".

(** ** Documents *)

Definition number_ok (n : number) : bool :=
  match n with
  | PosInt k => (0 <=? k) && (k <=? U64_MAX)
  | NegInt i => (I64_MIN <=? i) && (i <? 0)
  | Float f => f64_is_finite f
  end.

(** What a JSON text can denote: numbers of [serde_json]'s ranges, strings that are
    UTF-8, at most [depth] arrays and objects inside one another. *)
Fixpoint json_ok (depth : nat) (v : value) {struct v} : bool :=
  match v with
  | VNull | VBool _ => true
  | VNumber n => number_ok n
  | VString s => valid_utf8_chars s
  | VArray items =>
    match depth with O => false | S depth => forallb (json_ok depth) items end
  | VObject m =>
    match depth with
    | O => false
    | S depth => forallb (fun kv => valid_utf8_chars kv.1 && json_ok depth kv.2) m
    end
  end.

(** [BTreeMap::insert]: keys in bytewise order, a repeated key keeps the last
    value. *)
Fixpoint btree_insert {A} (k : string) (x : A) (m : list (string * A)) : list (string * A) :=
  match m with
  | [] => [(k, x)]
  | (k', x') :: m' =>
    match String.compare k k' with
    | Lt => (k, x) :: m
    | Eq => (k, x) :: m'
    | Gt => (k', x') :: btree_insert k x m'
    end
  end.
Definition btree_of {A} (entries : list (string * A)) : list (string * A) :=
  foldl (fun m kv => btree_insert kv.1 kv.2 m) [] entries.

Fixpoint keys_sorted {A} (m : list (string * A)) : bool :=
  match m with
  | [] => true
  | kv :: m' =>
    match m' with
    | [] => true
    | kv' :: _ => bool_decide (String.compare kv.1 kv'.1 = Lt) && keys_sorted m'
    end
  end.

(** Reading a [serde_json::Value]. *)
Fixpoint normal (v : value) : value :=
  match v with
  | VArray items => VArray (map normal items)
  | VObject m => VObject (btree_of (map (fun kv => (kv.1, normal kv.2)) m))
  | _ => v
  end.
Fixpoint is_normal (v : value) : bool :=
  match v with
  | VArray items => forallb is_normal items
  | VObject m => keys_sorted m && forallb (fun kv => is_normal kv.2) m
  | _ => true
  end.

(** ** Codecs *)

Record codec (A : Type) := mkCodec {
  enc : A -> value;
  dec : value -> option A;
  missing : option A;        (* the value of an absent field without a default *)
  ok : nat -> A -> bool;     (* a value of the type, whose document nests this deep *)
  floor : nat                (* what the defaults inside need at least *)
}.
Arguments mkCodec {A}.
Arguments enc {A}.
Arguments dec {A}.
Arguments missing {A}.
Arguments ok {A}.
Arguments floor {A}.

Class Laws {A} (c : codec A) : Prop := {
  law_enc d a : c.(ok) d a = true -> json_ok d (c.(enc) a) = true;
  law_round d a : c.(ok) d a = true -> c.(dec) (c.(enc) a) = Some a;
  law_dec d v a :
    (c.(floor) <= d)%nat -> json_ok d v = true -> c.(dec) v = Some a -> c.(ok) d a = true;
  law_missing d a : (c.(floor) <= d)%nat -> c.(missing) = Some a -> c.(ok) d a = true
}.
(** Never written as [null]. *)
Class NonNull {A} (c : codec A) : Prop := no_null : c.(dec) VNull = None.

(** [u8], [u32], [u64] and [usize] *)
Definition uint_codec (max : Z) : codec Z :=
  mkCodec (fun n => VNumber (PosInt n))
    (fun v => match as_u64_value v with
              | Some n => if n <=? max then Some n else None | None => None end)
    None (fun _ n => (0 <=? n) && (n <=? Z.min max U64_MAX)) 0.
Definition U8_MAX : Z := 2 ^ 8 - 1.
Abbreviation u8_codec := (uint_codec U8_MAX).
Abbreviation u32_codec := (uint_codec U32_MAX).
Abbreviation u64_codec := (uint_codec U64_MAX).
Abbreviation usize_codec := u64_codec.

Definition i64_codec : codec Z :=
  mkCodec (fun n => VNumber (if n <? 0 then NegInt n else PosInt n)) as_i64_value
    None (fun _ n => (I64_MIN <=? n) && (n <=? I64_MAX)) 0.

(** A float that is not finite is written as [null]; an integer is read as the
    nearest float. *)
Definition f64_codec : codec f64 :=
  mkCodec (fun f => if f64_is_finite f then VNumber (Float f) else VNull)
    (fun v => match v with VNumber n => number_as_f64 n | _ => None end)
    None (fun _ f => f64_is_finite f) 0.

Definition bool_codec : codec bool :=
  mkCodec VBool (fun v => match v with VBool b => Some b | _ => None end) None (fun _ _ => true) 0.

Definition string_codec : codec string :=
  mkCodec VString (fun v => match v with VString s => Some s | _ => None end) None
    (fun _ s => valid_utf8_chars s) 0.

Definition value_codec : codec value :=
  mkCodec id (fun v => Some (normal v)) None (fun d v => json_ok d v && is_normal v) 0.

Section combinators.
Context {A : Type} (c : codec A).

(** [Option]: [null] and an absent field are [None]. *)
Definition option_codec : codec (option A) :=
  mkCodec (fun o => match o with Some a => c.(enc) a | None => VNull end)
    (fun v => match v with VNull => Some None | _ => Some <$> c.(dec) v end)
    (Some None) (fun d o => match o with Some a => c.(ok) d a | None => true end) c.(floor).

(** [Vec] *)
Definition vec_codec : codec (list A) :=
  mkCodec (fun l => VArray (map c.(enc) l))
    (fun v => match v with VArray items => mapM c.(dec) items | _ => None end)
    None (fun d l => match d with O => false | S d => forallb (c.(ok) d) l end) (S c.(floor)).

(** [BTreeMap<String, _>] *)
Definition dec_entry (kv : string * value) : option (string * A) :=
  match c.(dec) kv.2 with Some a => Some (kv.1, a) | None => None end.
Definition map_codec : codec (list (string * A)) :=
  mkCodec (fun m => VObject (map (fun kv => (kv.1, c.(enc) kv.2)) m))
    (fun v => match v with VObject m => btree_of <$> mapM dec_entry m | _ => None end)
    None
    (fun d m => match d with
                | O => false
                | S d => keys_sorted m
                    && forallb (fun kv => valid_utf8_chars kv.1 && c.(ok) d kv.2) m
                end) (S c.(floor)).
End combinators.

(** ** Structs *)

(** A field with its attributes: [default], and [skip_serializing_if]. *)
Record field (A : Type) := mkField {
  f_name : string;
  f_codec : codec A;
  f_default : option A;
  f_skip : A -> bool
}.
Arguments mkField {A}.
Arguments f_name {A}.
Arguments f_codec {A}.
Arguments f_default {A}.
Arguments f_skip {A}.

Definition plain {A} (name : string) (c : codec A) : field A :=
  mkField name c None (fun _ => false).
Definition defaulted {A} (name : string) (c : codec A) (d : A) : field A :=
  mkField name c (Some d) (fun _ => false).
Definition skipped {A} (name : string) (c : codec A) (d : A) (skip : A -> bool) : field A :=
  mkField name c (Some d) skip.

Definition is_none {A} (o : option A) : bool := match o with None => true | Some _ => false end.
Definition is_empty (s : string) : bool := bool_decide (s = EmptyString).
Definition is_nil {A} (l : list A) : bool := match l with [] => true | _ => false end.

Inductive fields : Type -> Type :=
| FNil : fields unit
| FCons {A B : Type} (f : field A) (rest : fields B) : fields (A * B).
Declare Scope fields_scope.
Delimit Scope fields_scope with fields.
Infix "#:" := FCons (at level 60, right associativity) : fields_scope.
Bind Scope fields_scope with fields.

Notation "<< x , .. , y >>" := (pair x .. (pair y tt) ..).

(** What a missing key means: the default, or what the type makes of it. *)
Definition absent {A} (f : field A) : option A :=
  match f.(f_default) with Some a => Some a | None => f.(f_codec).(missing) end.

Fixpoint field_names {T} (fs : fields T) : list string :=
  match fs with FNil => [] | FCons f rest => f.(f_name) :: field_names rest end.

Fixpoint enc_fields {T} (fs : fields T) : T -> list (string * value) :=
  match fs with
  | FNil => fun _ => []
  | FCons f rest => fun t =>
    (if f.(f_skip) t.1 then [] else [(f.(f_name), f.(f_codec).(enc) t.1)]) ++ enc_fields rest t.2
  end.

(** The derived [visit_map]: keys that are not fields are ignored. *)
Fixpoint dec_entries {T} (fs : fields T) (m : list (string * value)) : option T :=
  match fs with
  | FNil => Some tt
  | FCons f rest =>
    match (match obj_get f.(f_name) m with
           | Some v => f.(f_codec).(dec) v
           | None => absent f
           end) with
    | Some x => match dec_entries rest m with Some t => Some (x, t) | None => None end
    | None => None
    end
  end.

(** The derived [visit_seq]: fields by position; the last ones may be missing when
    they have a default, and nothing may follow. *)
Fixpoint dec_seq {T} (fs : fields T) (items : list value) : option T :=
  match fs with
  | FNil => match items with [] => Some tt | _ => None end
  | FCons f rest =>
    match (match items with [] => f.(f_default) | v :: _ => f.(f_codec).(dec) v end) with
    | Some x => match dec_seq rest (tail items) with Some t => Some (x, t) | None => None end
    | None => None
    end
  end.

(** A field given twice is an error. *)
Definition no_repeats (names : list string) (m : list (string * value)) : bool :=
  bool_decide (NoDup (List.filter (fun k => bool_decide (k ∈ names)) (map fst m))).

Definition dec_struct {T} (fs : fields T) (v : value) : option T :=
  match v with
  | VObject m => if no_repeats (field_names fs) m then dec_entries fs m else None
  | VArray items => dec_seq fs items
  | _ => None
  end.

Fixpoint fields_ok {T} (fs : fields T) (d : nat) : T -> bool :=
  match fs with
  | FNil => fun _ => true
  | FCons f rest => fun t => f.(f_codec).(ok) d t.1 && fields_ok rest d t.2
  end.
Fixpoint fields_floor {T} (fs : fields T) : nat :=
  match fs with FNil => O | FCons f rest => Nat.max f.(f_codec).(floor) (fields_floor rest) end.

(** A struct is the tuple of its fields. *)
Definition struct_codec {T S} (fs : fields T) (to_tuple : S -> T) (of_tuple : T -> S) : codec S :=
  mkCodec (fun s => VObject (enc_fields fs (to_tuple s)))
    (fun v => of_tuple <$> dec_struct fs v) None
    (fun d s => match d with O => false | Datatypes.S d => fields_ok fs d (to_tuple s) end)
    (Datatypes.S (fields_floor fs)).

(** ** Sorted entries *)

Lemma string_compare_refl s : String.compare s s = Eq.
Proof.
  induction s as [|a s IH]; [done|]. cbn. unfold Ascii.compare. by rewrite N.compare_refl.
Qed.

#[export] Instance string_lt_trans : Transitive (fun s t => String.compare s t = Lt).
Proof.
  intros s t u Hst Htu.
  assert (String.compare s u <> Gt) as H by (apply (string_compare_trans s t); congruence).
  destruct (String.compare s u) eqn:E; [|done..].
  apply String.compare_eq_iff in E as ->. rewrite String.compare_antisym, Hst in Htu. done.
Qed.

Definition entry_lt {A} (x y : string * A) : Prop := String.compare x.1 y.1 = Lt.
#[export] Instance entry_lt_trans {A} : Transitive (@entry_lt A).
Proof. intros x y z. apply string_lt_trans. Qed.

Lemma keys_sorted_spec {A} (m : list (string * A)) :
  keys_sorted m = true <-> StronglySorted entry_lt m.
Proof.

  split.
  - intros H. apply Sorted_StronglySorted; [apply _|]. induction m as [|x [|y m] IH].
    + constructor.
    + repeat constructor.
    + cbn [keys_sorted] in H. apply andb_true_iff in H as [H1%bool_decide_eq_true H2].
      constructor; [by apply IH|by constructor].
  - intros H%StronglySorted_Sorted. induction H as [|x m _ IH Hhd]; [done|].
    destruct Hhd as [|y m Hy]; [done|]. cbn [keys_sorted]. apply andb_true_iff. split; [|exact IH].
    by apply bool_decide_eq_true.
Qed.

Lemma btree_insert_Forall {A} (P : string * A -> Prop) k x m :
  P (k, x) -> Forall P m -> Forall P (btree_insert k x m).
Proof.
  intros Hx. induction 1 as [|[k' x'] m Hy Hm IH]; cbn; [by repeat constructor|].
  destruct (String.compare k k'); by repeat constructor.
Qed.

Lemma btree_insert_sorted {A} k (x : A) m :
  StronglySorted entry_lt m -> StronglySorted entry_lt (btree_insert k x m).
Proof.
  induction 1 as [|[k' x'] m Hm IH Hy]; cbn; [by repeat constructor|].
  destruct (String.compare k k') eqn:E.
  - apply String.compare_eq_iff in E as ->. by constructor.
  - constructor; [by constructor|]. constructor; [exact E|].
    eapply Forall_impl; [exact Hy|]. intros z. by apply (entry_lt_trans (k, x) (k', x')).
  - constructor; [done|]. apply btree_insert_Forall; [|done]. unfold entry_lt. cbn.
    by rewrite String.compare_antisym, E.
Qed.

Lemma btree_insert_last {A} k (x : A) m :
  Forall (fun kv => String.compare kv.1 k = Lt) m -> btree_insert k x m = m ++ [(k, x)].
Proof.
  induction 1 as [|[k' x'] m Hy _ IH]; cbn; [done|].
  cbn in Hy. by rewrite String.compare_antisym, Hy, IH.
Qed.

Lemma btree_of_sorted {A} (l : list (string * A)) : StronglySorted entry_lt (btree_of l).
Proof.
  unfold btree_of. generalize (SSorted_nil (@entry_lt A)). generalize (@nil (string * A)).
  induction l as [|[k x] l IH]; intros acc Hacc; cbn; [done|]. by apply IH, btree_insert_sorted.
Qed.

Lemma btree_of_Forall {A} (P : string * A -> Prop) l : Forall P l -> Forall P (btree_of l).
Proof.
  unfold btree_of. generalize (Forall_nil_2 P). generalize (@nil (string * A)).
  intros acc Hacc H. revert acc Hacc.
  induction H as [|[k x] l Hx _ IH]; intros acc Hacc; cbn; [done|].
  by apply IH, btree_insert_Forall.
Qed.

Lemma btree_of_id {A} (l : list (string * A)) : StronglySorted entry_lt l -> btree_of l = l.
Proof.
  unfold btree_of. change l with ([] ++ l) at 1 3. generalize (@nil (string * A)).
  induction l as [|[k x] l IH]; intros acc H; cbn [foldl]; [by rewrite app_nil_r|].
  apply StronglySorted_app in H as Hs. destruct Hs as (Hlt & _ & _).
  rewrite btree_insert_last.
  - rewrite IH; by rewrite <- app_assoc.
  - apply Forall_forall. intros y Hy. apply (Hlt y (k, x)); [done|by left].
Qed.

(** ** Normal values *)

Lemma forallb_Forall {A} (f : A -> bool) l : forallb f l = true <-> Forall (fun x => f x = true) l.
Proof. rewrite forallb_forall, Forall_forall. by setoid_rewrite list_elem_of_In. Qed.

Lemma normal_is_normal v : is_normal (normal v) = true.
Proof.
  induction v as [|b|n|s|l IH|m IH] using value_rect_nested; try done; cbn.
  - apply forallb_Forall, Forall_fmap. exact IH.
  - apply andb_true_iff. split; [apply keys_sorted_spec, btree_of_sorted|].
    by apply forallb_Forall, btree_of_Forall, Forall_fmap.
Qed.

Lemma normal_id v : is_normal v = true -> normal v = v.
Proof.
  induction v as [|b|n|s|l IH|m IH] using value_rect_nested; try done; cbn.
  - intros H%forallb_Forall. f_equal. induction IH as [|x l Hx _ IHl]; [done|].
    apply Forall_cons in H as [H1 H2]. cbn. by rewrite Hx, IHl.
  - intros [Hs%keys_sorted_spec H%forallb_Forall]%andb_true_iff.
    assert (Hid : map (fun kv => (kv.1, normal kv.2)) m = m).
    { clear Hs. induction IH as [|[k x] m Hx _ IHm]; [done|]. apply Forall_cons in H as [H1 H2].
      cbn in *. by rewrite Hx, IHm. }
    by rewrite Hid, btree_of_id.
Qed.

Lemma normal_ok d v : json_ok d v = true -> json_ok d (normal v) = true.
Proof.
  revert d. induction v as [|b|n|s|l IH|m IH] using value_rect_nested; try done;
    intros [|d]; try done; cbn; rewrite !forallb_Forall.
  - rewrite Forall_fmap. intros H. induction IH as [|x l Hx _ IHl]; [by apply Forall_nil|].
    apply Forall_cons in H as [H1 H2]. constructor; [by apply Hx|by apply IHl].
  - intros H. apply btree_of_Forall, Forall_fmap.
    induction IH as [|[k x] l Hx _ IHl]; [by apply Forall_nil|].
    apply Forall_cons in H as [[H0 H1]%andb_true_iff H2].
    constructor; [|by apply IHl]. cbn in *. by rewrite H0, Hx.
Qed.

Lemma btree_insert_size {A} (size : A -> nat) k x m :
  (sum_list_with (fun kv => size kv.2) (btree_insert k x m)
   <= size x + sum_list_with (fun kv => size kv.2) m)%nat.
Proof.
  induction m as [|[k' x'] m IH]; cbn; [lia|]. destruct (String.compare k k'); cbn; lia.
Qed.

Lemma btree_of_size {A} (size : A -> nat) (l : list (string * A)) :
  (sum_list_with (fun kv => size kv.2) (btree_of l) <= sum_list_with (fun kv => size kv.2) l)%nat.
Proof.
  unfold btree_of. rewrite <- (Nat.add_0_l (sum_list_with _ l)).
  change O with (sum_list_with (fun kv : string * A => size kv.2) []).
  generalize (@nil (string * A)). induction l as [|[k x] l IH]; intros acc; cbn; [lia|].
  specialize (IH (btree_insert k x acc)). pose proof (btree_insert_size size k x acc). lia.
Qed.

(** Repeated keys only drop values. *)
Lemma normal_size v : (value_size (normal v) <= value_size v)%nat.
Proof.
  induction v as [|b|n|s|l IH|m IH] using value_rect_nested; cbn; try lia; apply le_n_S.
  - induction IH as [|x l Hx _ IHl]; cbn; lia.
  - etransitivity; [apply (btree_of_size value_size)|].
    induction IH as [|[k x] m Hx _ IHm]; cbn in *; lia.
Qed.

Lemma normal_entry m key v :
  is_normal (VObject m) = true -> obj_get key m = Some v -> is_normal v = true.
Proof.
  cbn. intros [_ H]%andb_true_iff Hv%obj_get_In. rewrite forallb_forall in H. by apply (H _ Hv).
Qed.

Lemma obj_update_keys key f m : map fst (obj_update key f m) = map fst m.
Proof. induction m as [|[k v] m IH]; cbn; [done|]. case_decide; cbn; by rewrite ?IH. Qed.

Lemma keys_sorted_ext {A B} (m : list (string * A)) (m' : list (string * B)) :
  map fst m = map fst m' -> keys_sorted m = keys_sorted m'.
Proof.
  revert m'. induction m as [|[k x] m IH]; intros [|[k' x'] m'] Hk; try done; injection Hk as -> H.
  specialize (IH m' H). destruct m as [|[k y] m], m' as [|[k2 y'] m']; try done.
  injection H as -> _. cbn [keys_sorted fst] in *. by rewrite IH.
Qed.

Lemma update_is_normal key f m :
  is_normal (VObject m) = true ->
  (forall v, obj_get key m = Some v -> is_normal v = true -> is_normal (f v) = true) ->
  is_normal (VObject (obj_update key f m)) = true.
Proof.
  cbn. intros [Hs Hv]%andb_true_iff Hf.
  rewrite (keys_sorted_ext _ m (obj_update_keys key f m)), Hs. cbn. clear Hs.
  induction m as [|[k v] m IH]; cbn in *; [done|]. apply andb_true_iff in Hv as [H1 H2].
  case_decide; cbn; apply andb_true_iff; split; auto.
Qed.

Lemma sorted_keys_nodup {A} (m : list (string * A)) :
  StronglySorted entry_lt m -> NoDup (map fst m).
Proof.
  induction 1 as [|[k x] m _ IH Hy]; cbn; [apply NoDup_nil_2|]. apply NoDup_cons.
  split; [|done]. intros ([k' y] & Hk & Hin)%list_elem_of_fmap. cbn in Hk. subst k'.
  rewrite Forall_forall in Hy. specialize (Hy _ Hin). unfold entry_lt in Hy. cbn in Hy.
  by rewrite string_compare_refl in Hy.
Qed.

Lemma nodup_no_repeats names m : NoDup (map fst m) -> no_repeats names m = true.
Proof.
  intros H. apply bool_decide_eq_true, NoDup_ListNoDup, List.NoDup_filter. by apply NoDup_ListNoDup.
Qed.

Lemma normal_no_repeats names m : is_normal (VObject m) = true -> no_repeats names m = true.
Proof. intros [H%keys_sorted_spec _]%andb_true_iff. by apply nodup_no_repeats, sorted_keys_nodup. Qed.

(** ** Laws of the base types *)

Lemma uint_laws max : 0 <= max -> Laws (uint_codec max).
Proof.
  intros Hmax. split; cbn; [..|done].
  - intros d n [Hn Hm]%andb_true_iff. apply andb_true_iff. lia.
  - intros d n [Hn Hm]%andb_true_iff. rewrite (proj2 (Z.leb_le n max)) by lia. done.
  - intros d [| |[k|i|f]| | |] a _; cbn; try done.
    intros [Hk Hu]%andb_true_iff. destruct (Z.leb_spec k max); intros [= <-].
    apply andb_true_iff. lia.
Qed.
#[export] Instance u8_laws : Laws u8_codec.
Proof. by apply uint_laws. Qed.
#[export] Instance u32_laws : Laws u32_codec.
Proof. by apply uint_laws. Qed.
#[export] Instance u64_laws : Laws u64_codec.
Proof. by apply uint_laws. Qed.
#[export] Instance i64_laws : Laws i64_codec.
Proof.
  split; cbn; [..|done].
  - intros d n [Hn Hm]%andb_true_iff. unfold U64_MAX, I64_MAX in *.
    destruct (Z.ltb_spec n 0); cbn; apply andb_true_iff; unfold U64_MAX in *; lia.
  - intros d n [Hn Hm]%andb_true_iff. destruct (Z.ltb_spec n 0); cbn; [done|].
    by rewrite Hm.
  - intros d [| |[k|i|f]| | |] a _; cbn; try done; intros [Hk Hu]%andb_true_iff.
    + destruct (Z.leb_spec k I64_MAX); intros [= <-]. unfold I64_MIN in *.
      apply andb_true_iff. lia.
    + intros [= <-]. unfold I64_MAX in *. apply andb_true_iff. lia.
Qed.
#[export] Instance f64_laws : Laws f64_codec.
Proof.
  split; cbn; [..|done].
  - intros d f Hf. by rewrite Hf.
  - intros d f Hf. by rewrite Hf.
  - intros d [| |[k|i|f]| | |] a _; cbn; try done; intros Hn [= <-]; [..|done];
      apply andb_true_iff in Hn as [Hk Hu]; apply f64_of_Z_finite;
      unfold U64_MAX, I64_MIN in *; lia.
Qed.
#[export] Instance bool_laws : Laws bool_codec.
Proof. split; cbn; try done. Qed.
#[export] Instance string_laws : Laws string_codec.
Proof. split; cbn; try done. by intros d [| | | | |] a _ Hv [= <-]. Qed.
#[export] Instance value_laws : Laws value_codec.
Proof.
  split; cbn; [..|done].
  - by intros d v [Hv _]%andb_true_iff.
  - intros d v [_ Hn]%andb_true_iff. by rewrite normal_id.
  - intros d v a _ Hv [= <-]. by rewrite normal_ok, normal_is_normal.
Qed.

#[export] Instance uint_non_null max : NonNull (uint_codec max).
Proof. done. Qed.
#[export] Instance f64_non_null : NonNull f64_codec.
Proof. done. Qed.
#[export] Instance string_non_null : NonNull string_codec.
Proof. done. Qed.
#[export] Instance vec_non_null {A} (c : codec A) : NonNull (vec_codec c).
Proof. done. Qed.
#[export] Instance map_non_null {A} (c : codec A) : NonNull (map_codec c).
Proof. done. Qed.

Section combinator_laws.
Context {A : Type} (c : codec A) {Hc : Laws c}.

#[export] Instance option_laws : NonNull c -> Laws (option_codec c).
Proof.
  intros Hnull. split; cbn.
  - intros d [a|] Ha; [by apply law_enc|done].
  - intros d [a|] Ha; [|done]. rewrite (law_round d a Ha).
    destruct (c.(enc) a) eqn:E; try done.
    pose proof (law_round d a Ha) as H. rewrite E in H. unfold NonNull in Hnull. congruence.
  - intros d v o Hd Hv Ho. destruct o as [a|]; [|done].
    assert (c.(dec) v = Some a) by (destruct v; try done; by apply fmap_Some in Ho as (? & ? & [= ->])).
    by eapply law_dec.
  - by intros d a _ [= <-].
Qed.

#[export] Instance vec_laws : Laws (vec_codec c).
Proof.
  split; cbn; [..|done].
  - intros [|d] l; [done|]. rewrite !forallb_Forall, Forall_map. intros H.
    eapply Forall_impl; [exact H|]. intros a. apply law_enc.
  - intros [|d] l; [done|]. rewrite forallb_Forall. intros H.
    apply mapM_Some_2. induction H as [|a l Ha _ IH]; cbn; constructor; [by eapply law_round|done].
  - intros [|d] v l Hd; [lia|]. destruct v as [| | | |items|]; try done. cbn.
    rewrite !forallb_Forall. intros Hv Hl%mapM_Some_1.
    induction Hl as [|v a items l Ha _ IH]; [by apply Forall_nil|].
    apply Forall_cons in Hv as [H1 H2]. constructor; [|by apply IH].
    eapply law_dec; [|exact H1|exact Ha]. lia.
Qed.

Lemma mapM_dec_entry m l : mapM (dec_entry c) m = Some l <->
  Forall2 (fun kv ka => kv.1 = ka.1 /\ c.(dec) kv.2 = Some ka.2) m l.
Proof.
  rewrite mapM_Some. split; intros H; eapply Forall2_impl; try exact H;
    intros [k v] [k' a]; unfold dec_entry; cbn.
  - destruct (c.(dec) v); naive_solver.
  - by intros [-> ->].
Qed.

#[export] Instance map_laws : Laws (map_codec c).
Proof.
  split; cbn; [..|done].
  - intros [|d] m; [done|]. intros [_ H]%andb_true_iff. revert H.
    rewrite !forallb_Forall, Forall_map. intros H. eapply Forall_impl; [exact H|].
    intros [k a] [Hk Ha]%andb_true_iff. cbn in *. rewrite Hk. by apply law_enc.
  - intros [|d] m; [done|]. intros [Hs%keys_sorted_spec H]%andb_true_iff.
    rewrite forallb_Forall in H. rewrite (proj2 (mapM_dec_entry _ m)).
    + cbn. by rewrite btree_of_id.
    + clear Hs. induction H as [|[k a] m [Hk Ha]%andb_true_iff _ IH]; cbn; constructor; [|done].
      split; [done|]. by eapply law_round.
  - intros [|d] v m Hd; [lia|]. destruct v as [| | | | |entries]; try done. cbn.
    rewrite forallb_Forall. intros Hv (l & Hl%mapM_dec_entry & ->)%fmap_Some.
    apply andb_true_iff. split; [apply keys_sorted_spec, btree_of_sorted|].
    apply forallb_Forall, btree_of_Forall.
    induction Hl as [|[k v] [k' a] entries l [Hk Ha] _ IH]; [by apply Forall_nil|].
    apply Forall_cons in Hv as [[H0 H1]%andb_true_iff H2]. constructor; [|by apply IH].
    cbn in *. subst k'. rewrite H0. eapply law_dec; [|exact H1|exact Ha]. lia.
Qed.
End combinator_laws.

(** ** Laws of structs *)

Class FieldLaws {A} (f : field A) : Prop := {
  fl_codec : Laws f.(f_codec);
  fl_default d a :
    (f.(f_codec).(floor) <= d)%nat -> f.(f_default) = Some a -> f.(f_codec).(ok) d a = true;
  fl_skip a : f.(f_skip) a = true -> absent f = Some a
}.
Class FieldsLaws {T} (fs : fields T) : Prop := fs_laws :
  (fix go {T} (fs : fields T) : Prop :=
     match fs with FNil => True | FCons f rest => FieldLaws f /\ go rest end) T fs.

Class DefaultOk {A} (c : codec A) (d : A) : Prop :=
  default_ok depth : (c.(floor) <= depth)%nat -> c.(ok) depth d = true.

#[export] Instance plain_laws {A} name (c : codec A) : Laws c -> FieldLaws (plain name c).
Proof. by split. Qed.
#[export] Instance defaulted_laws {A} name (c : codec A) d :
  Laws c -> DefaultOk c d -> FieldLaws (defaulted name c d).
Proof. split; cbn; [done| |done]. intros depth a Hd [= <-]. by apply default_ok. Qed.
Lemma skipped_laws {A} name (c : codec A) d skip :
  Laws c -> DefaultOk c d -> (forall a, skip a = true -> a = d) ->
  FieldLaws (skipped name c d skip).
Proof.
  split; cbn; [done| |].
  - intros depth a Hd [= <-]. by apply default_ok.
  - intros a Ha. by rewrite (H1 a).
Qed.

#[export] Instance none_ok {A} (c : codec A) : DefaultOk (option_codec c) None.
Proof. done. Qed.
#[export] Instance nil_ok {A} (c : codec A) : DefaultOk (vec_codec c) [].
Proof. by intros [|d]; cbn; [lia|]. Qed.
#[export] Instance empty_ok : DefaultOk string_codec EmptyString.
Proof. done. Qed.
#[export] Instance false_ok : DefaultOk bool_codec false.
Proof. done. Qed.
#[export] Instance zero_u32_ok : DefaultOk u32_codec 0.
Proof. done. Qed.
#[export] Instance zero_u64_ok : DefaultOk u64_codec 0.
Proof. done. Qed.
#[export] Instance zero_i64_ok : DefaultOk i64_codec 0.
Proof. done. Qed.

#[export] Instance skip_none_laws {A} name (c : codec A) :
  Laws c -> NonNull c -> FieldLaws (skipped name (option_codec c) None is_none).
Proof. intros. apply skipped_laws; [apply _..|]. by intros []. Qed.
#[export] Instance skip_empty_laws name :
  FieldLaws (skipped name string_codec EmptyString is_empty).
Proof. apply skipped_laws; [apply _..|]. by intros a Ha%bool_decide_eq_true. Qed.
#[export] Instance skip_nil_laws {A} name (c : codec A) :
  Laws c -> FieldLaws (skipped name (vec_codec c) [] is_nil).
Proof. intros. apply skipped_laws; [apply _..|]. by intros []. Qed.
#[export] Instance skip_false_laws name : FieldLaws (skipped name bool_codec false negb).
Proof. apply skipped_laws; [apply _..|]. by intros []. Qed.

#[export] Instance FNil_laws : FieldsLaws FNil.
Proof. done. Qed.
#[export] Instance FCons_laws {A B} (f : field A) (rest : fields B) :
  FieldLaws f -> FieldsLaws rest -> FieldsLaws (FCons f rest).
Proof. by split. Qed.

Lemma enc_fields_names {T} (fs : fields T) t kv :
  In kv (enc_fields fs t) -> In kv.1 (field_names fs).
Proof.
  induction fs as [|A B f rest IH]; cbn; [done|]. rewrite in_app_iff.
  intros [H|H]; [left|right; by eapply IH]. destruct (f_skip f t.1); [done|]. by destruct H as [<-|[]].
Qed.

Lemma obj_get_app key m m' :
  obj_get key (m ++ m') = match obj_get key m with Some v => Some v | None => obj_get key m' end.
Proof. induction m as [|[k v] m IH]; cbn; [done|]. by case_decide. Qed.

Lemma obj_get_None key m : ~ In key (map fst m) -> obj_get key m = None.
Proof.
  induction m as [|[k v] m IH]; cbn; [done|]. intros H. case_decide; [naive_solver|]. apply IH. naive_solver.
Qed.

(** What the fields read from a document only depends on the entries of their
    names. *)
Lemma dec_entries_ext {T} (fs : fields T) m m' :
  (forall key, In key (field_names fs) -> obj_get key m = obj_get key m') ->
  dec_entries fs m = dec_entries fs m'.
Proof.
  induction fs as [|A B f rest IH]; cbn; [done|]. intros H.
  rewrite (H f.(f_name)) by by left. rewrite IH; [done|]. intros key Hk. apply H. by right.
Qed.

Lemma enc_fields_nodup {T} (fs : fields T) t :
  NoDup (field_names fs) -> NoDup (map fst (enc_fields fs t)).
Proof.
  induction fs as [|A B f rest IH]; cbn; [intros; apply NoDup_nil_2|].
  intros [Hf Hr]%NoDup_cons. rewrite map_app. destruct (f_skip f t.1); cbn; [by apply IH|].
  apply NoDup_cons. split; [|by apply IH]. intros Hin. apply Hf.
  apply list_elem_of_In, in_map_iff in Hin as (kv & <- & Hkv). apply list_elem_of_In.
  by eapply enc_fields_names.
Qed.

Lemma dec_enc_fields {T} (fs : fields T) d t :
  FieldsLaws fs -> NoDup (field_names fs) -> fields_ok fs d t = true ->
  dec_entries fs (enc_fields fs t) = Some t.
Proof.
  induction fs as [|A B f rest IH]; cbn; [by destruct t|].
  intros [Hf Hrest] [Hnew Hnd]%NoDup_cons [Hok Hoks]%andb_true_iff. destruct t as [x t]. cbn in *.
  assert (Hno : obj_get f.(f_name) (enc_fields rest t) = None).
  { apply obj_get_None. intros (kv & Hk & Hin)%in_map_iff. apply Hnew, list_elem_of_In.
    rewrite <- Hk. by eapply enc_fields_names. }
  rewrite (dec_entries_ext rest _ (enc_fields rest t)).
  - rewrite (IH t) by done. destruct (f_skip f x) eqn:E; cbn.
    + by rewrite Hno, (fl_skip _ E).
    + rewrite decide_True by done. destruct Hf as [Hc _ _]. by rewrite (law_round d x Hok).
  - intros key Hkey. destruct (f_skip f x); cbn; [done|]. rewrite decide_False; [done|].
    intros <-. by apply Hnew, list_elem_of_In.
Qed.

Lemma enc_fields_ok {T} (fs : fields T) d t :
  FieldsLaws fs -> forallb valid_utf8_chars (field_names fs) = true -> fields_ok fs d t = true ->
  forallb (fun kv => valid_utf8_chars kv.1 && json_ok d kv.2) (enc_fields fs t) = true.
Proof.
  induction fs as [|A B f rest IH]; cbn; [done|].
  intros [Hf Hrest] [Hn Hns]%andb_true_iff [Hok Hoks]%andb_true_iff. rewrite forallb_app.
  apply andb_true_iff. split; [|by apply IH]. destruct (f_skip f t.1); [done|]. cbn.
  destruct Hf as [Hc _ _]. by rewrite Hn, (law_enc d t.1 Hok).
Qed.

Lemma obj_get_ok d key m v :
  forallb (fun kv => valid_utf8_chars kv.1 && json_ok d kv.2) m = true ->
  obj_get key m = Some v -> json_ok d v = true.
Proof.
  intros H Hv%obj_get_In. rewrite forallb_forall in H. specialize (H _ Hv).
  by apply andb_true_iff in H as [_ H].
Qed.

Lemma dec_entries_ok {T} (fs : fields T) d m t :
  FieldsLaws fs -> (fields_floor fs <= d)%nat ->
  forallb (fun kv => valid_utf8_chars kv.1 && json_ok d kv.2) m = true ->
  dec_entries fs m = Some t -> fields_ok fs d t = true.
Proof.
  intros Hlaws Hd Hm. revert t. induction fs as [|A B f rest IH]; cbn; [by intros t [= <-]|].
  intros t. destruct Hlaws as [Hf Hrest]. cbn in Hd.
  destruct (match obj_get _ _ with Some _ => _ | None => _ end) as [x|] eqn:Ex; [|done].
  destruct (dec_entries rest m) as [t'|] eqn:Et; [|done]. intros [= <-]. cbn.
  apply andb_true_iff. split; [|apply IH; [done|lia|done]]. destruct Hf as [Hc Hdef _].
  destruct (obj_get _ _) as [v|] eqn:Ev.
  - eapply law_dec; [lia|by eapply obj_get_ok|exact Ex].
  - unfold absent in Ex. destruct (f_default f) as [y|] eqn:Ey.
    + simplify_eq. apply Hdef; [lia|done].
    + apply law_missing; [lia|done].
Qed.

Lemma dec_seq_ok {T} (fs : fields T) d items t :
  FieldsLaws fs -> (fields_floor fs <= d)%nat -> forallb (json_ok d) items = true ->
  dec_seq fs items = Some t -> fields_ok fs d t = true.
Proof.
  intros Hlaws Hd. revert items t. induction fs as [|A B f rest IH]; cbn; [done|].
  intros items t Hm. destruct Hlaws as [Hf Hrest]. cbn in Hd.
  destruct (match items with [] => _ | _ => _ end) as [x|] eqn:Ex; [|done].
  destruct (dec_seq rest (tail items)) as [t'|] eqn:Et; [|done]. intros [= <-]. cbn.
  assert (Htl : forallb (json_ok d) (tail items) = true)
    by (destruct items; [done|]; by apply andb_true_iff in Hm as [_ Hm]).
  apply andb_true_iff. split; [|by eapply IH; [|lia|exact Htl|]].
  destruct Hf as [Hc Hdef _]. destruct items as [|v items].
  - apply Hdef; [lia|done].
  - apply andb_true_iff in Hm as [Hv _]. eapply law_dec; [lia|exact Hv|exact Ex].
Qed.

Lemma struct_laws {T S} (fs : fields T) (to_tuple : S -> T) (of_tuple : T -> S) :
  FieldsLaws fs ->
  bool_decide (NoDup (field_names fs)) && forallb valid_utf8_chars (field_names fs) = true ->
  (forall s, of_tuple (to_tuple s) = s) -> (forall t, to_tuple (of_tuple t) = t) ->
  Laws (struct_codec fs to_tuple of_tuple).
Proof.
  intros Hfs [Hnd%bool_decide_eq_true Hnames]%andb_true_iff Hof Hto. split; cbn; [..|done].
  - intros [|d] s Hs; [done|]. by apply enc_fields_ok.
  - intros [|d] s Hs; [done|].
    assert (Hr : no_repeats (field_names fs) (enc_fields fs (to_tuple s)) = true)
      by by apply nodup_no_repeats, enc_fields_nodup.
    rewrite Hr, (dec_enc_fields fs d) by done. cbn. by rewrite Hof.
  - intros [|d] v s Hd Hv; [lia|]. intros (t & Ht & ->)%fmap_Some. rewrite Hto.
    destruct v as [| | | |items|m]; try done; cbn in Ht, Hv.
    + eapply dec_seq_ok; [done|lia|exact Hv|exact Ht].
    + destruct (no_repeats _ _); [|done]. eapply dec_entries_ok; [done|lia|exact Hv|exact Ht].
Qed.
#[export] Instance struct_non_null {T S} (fs : fields T) (to_tuple : S -> T) of_tuple :
  NonNull (struct_codec fs to_tuple of_tuple).
Proof. done. Qed.

(** The laws of a struct from those of its field types. *)
Ltac struct_laws :=
  apply struct_laws; [apply _|vm_compute; reflexivity|by intros []|];
  intros t; repeat match goal with t : _ * _ |- _ => destruct t end;
  repeat match goal with t : unit |- _ => destruct t end; reflexivity.

(** ** Documents written back as they were *)

(** [v] is written back as it is, if it is read at all. *)
Definition verbatim {A} (c : codec A) (v : value) : Prop :=
  forall a, c.(dec) v = Some a -> c.(enc) a = v.

(** The entries are fields in their order; what is absent is not written, and what
    is there is. *)
Fixpoint wire_entries {T} (fs : fields T) (m : list (string * value)) : Prop :=
  match fs with
  | FNil => m = []
  | FCons f rest =>
    (exists v m', m = (f.(f_name), v) :: m' /\ verbatim f.(f_codec) v
       /\ (forall a, f.(f_codec).(dec) v = Some a -> f.(f_skip) a = false) /\ wire_entries rest m')
    \/ ((forall a, absent f = Some a -> f.(f_skip) a = true) /\ wire_entries rest m)
  end.

Lemma wire_entries_keys {T} (fs : fields T) m :
  wire_entries fs m -> Forall (fun kv => In kv.1 (field_names fs)) m.
Proof.
  revert m. induction fs as [|A B f rest IH]; intros m; cbn; [intros ->; by apply Forall_nil|].
  intros [(v & m' & -> & _ & _ & H)|[_ H]]; apply IH in H; [constructor; [by left|]|];
    (eapply Forall_impl; [exact H|]); intros kv ?; by right.
Qed.

Lemma dec_entries_verbatim {T} (fs : fields T) m t :
  NoDup (field_names fs) -> wire_entries fs m -> dec_entries fs m = Some t -> enc_fields fs t = m.
Proof.
  revert m t. induction fs as [|A B f rest IH]; intros m t; cbn; [by intros _ -> _|].
  intros [Hnew Hnd]%NoDup_cons Hw.
  destruct (match obj_get _ _ with Some _ => _ | None => _ end) as [x|] eqn:Ex; [|done].
  destruct (dec_entries rest m) as [t'|] eqn:Et; [|done]. intros [= <-]. cbn.
  destruct Hw as [(v & m' & -> & Hv & Hskip & Hw)|[Habs Hw]].
  - cbn in Ex. rewrite decide_True in Ex by done. rewrite (Hskip _ Ex). cbn. rewrite (Hv _ Ex).
    f_equal. apply IH; [done..|]. rewrite <- Et. apply dec_entries_ext. intros key Hkey. cbn.
    rewrite decide_False; [done|]. intros <-. by apply Hnew, list_elem_of_In.
  - assert (Hno : obj_get f.(f_name) m = None).
    { apply obj_get_None. intros (kv & Hk & Hin)%in_map_iff. apply Hnew, list_elem_of_In.
      apply wire_entries_keys in Hw. rewrite Forall_forall in Hw. rewrite <- Hk.
      apply Hw. by apply list_elem_of_In. }
    rewrite Hno in Ex. rewrite (Habs _ Ex). cbn. by apply IH.
Qed.

Lemma struct_verbatim {T S} (fs : fields T) (to_tuple : S -> T) (of_tuple : T -> S) m :
  bool_decide (NoDup (field_names fs)) = true -> (forall t, to_tuple (of_tuple t) = t) ->
  wire_entries fs m -> verbatim (struct_codec fs to_tuple of_tuple) (VObject m).
Proof.
  intros Hnd%bool_decide_eq_true Hto Hw s. cbn. destruct (no_repeats _ _); [|done].
  intros (t & Ht & ->)%fmap_Some. rewrite Hto. f_equal. by apply (dec_entries_verbatim fs).
Qed.

Lemma uint_verbatim max v : verbatim (uint_codec max) v.
Proof.
  intros a. cbn. destruct v as [| |[k|i|f]| | |]; cbn; try done.
  destruct (k <=? max); by intros [= ->].
Qed.
Lemma string_verbatim v : verbatim string_codec v.
Proof. intros a. destruct v; cbn; try done. by intros [= ->]. Qed.
Lemma vec_verbatim {A} (c : codec A) items :
  Forall (verbatim c) items -> verbatim (vec_codec c) (VArray items).
Proof.
  intros H l. cbn. intros Hl%mapM_Some_1. f_equal.
  induction Hl as [|v a items l Ha _ IH]; [done|]. apply Forall_cons in H as [Hv H].
  cbn. by rewrite (Hv _ Ha), IH.
Qed.
Lemma option_verbatim {A} (c : codec A) v :
  v <> VNull -> verbatim c v -> verbatim (option_codec c) v.
Proof.
  intros Hnull Hv o. cbn. destruct v; try done;
    intros (a & Ha & ->)%fmap_Some; by rewrite <- (Hv _ Ha).
Qed.
#[export] Hint Resolve uint_verbatim string_verbatim option_verbatim : wqc.

(** ** Fields that are not there *)

(** The entries of other keys. *)
Definition without (names : list string) (m : list (string * value)) : list (string * value) :=
  List.filter (fun kv => negb (bool_decide (kv.1 ∈ names))) m.

Lemma obj_get_without names key m :
  obj_get key (without names m) = if bool_decide (key ∈ names) then None else obj_get key m.
Proof.
  unfold without in *. induction m as [|[k v] m IH]; cbn; [by case_bool_decide|].
  destruct (bool_decide (k ∈ names)) eqn:E; cbn.
  - rewrite IH. destruct (bool_decide (key ∈ names)) eqn:E'; [done|].
    destruct (decide (k = key)) as [->|]; [congruence|done].
  - destruct (decide (k = key)) as [->|]; [by rewrite E|done].
Qed.

Lemma no_repeats_without names known m :
  no_repeats known m = true -> no_repeats known (without names m) = true.
Proof.
  unfold no_repeats. rewrite !bool_decide_eq_true. intros H.
  assert (Hsub : forall l : list (string * value), sublist
    (List.filter (fun k => bool_decide (k ∈ known)) (map fst (without names l)))
    (List.filter (fun k => bool_decide (k ∈ known)) (map fst l))).
  { induction l as [|[k v] l IH]; cbn; [constructor|]. unfold without in IH.
    destruct (bool_decide (k ∈ names)), (bool_decide (k ∈ known)) eqn:E; cbn; rewrite ?E;
      by try constructor. }
  eapply sublist_NoDup; [exact H|apply Hsub].
Qed.

(** The fields of the given names with what they are when they are missing. *)
Fixpoint reset {T} (names : list string) (fs : fields T) : T -> T :=
  match fs with
  | FNil => fun t => t
  | FCons f rest => fun t =>
    (if bool_decide (f.(f_name) ∈ names) then default t.1 (absent f) else t.1, reset names rest t.2)
  end.
Fixpoint may_miss {T} (names : list string) (fs : fields T) : bool :=
  match fs with
  | FNil => true
  | FCons f rest =>
    (negb (bool_decide (f.(f_name) ∈ names)) || negb (is_none (absent f))) && may_miss names rest
  end.

Lemma dec_entries_without {T} (fs : fields T) names m t :
  may_miss names fs = true -> dec_entries fs m = Some t ->
  dec_entries fs (without names m) = Some (reset names fs t).
Proof.
  induction fs as [|A T f rest IH]; cbn; [by intros _ [= <-]|].
  intros [Hf Hrest]%andb_true_iff. rewrite obj_get_without.
  destruct (match obj_get _ m with Some v => _ | None => _ end) as [x|] eqn:Hx; [|done].
  destruct (dec_entries rest m) as [u|] eqn:Hu; [|done]. intros [= <-]. cbn.
  rewrite (IH u) by done. destruct (bool_decide (f_name f ∈ names)); [|by rewrite Hx].
  by destruct (absent f).
Qed.

Lemma dec_struct_without {T} (fs : fields T) names m t :
  may_miss names fs = true -> dec_struct fs (VObject m) = Some t ->
  dec_struct fs (VObject (without names m)) = Some (reset names fs t).
Proof.
  intros Hn. cbn [dec_struct]. destruct (no_repeats _ m) eqn:Hr; [|done].
  rewrite (no_repeats_without _ _ _ Hr). by apply dec_entries_without.
Qed.

(** Keys that are not fields change nothing. *)
Lemma dec_struct_unknown {T} (fs : fields T) m extra :
  Forall (fun kv => kv.1 ∉ field_names fs) extra ->
  dec_struct fs (VObject (m ++ extra)) = dec_struct fs (VObject m).
Proof.
  intros H. cbn.
  assert (Hr : no_repeats (field_names fs) (m ++ extra) = no_repeats (field_names fs) m).
  { unfold no_repeats. rewrite map_app, List.filter_app.
    replace (List.filter _ (map fst extra)) with (@nil string); [by rewrite app_nil_r|].
    induction H as [|[k v] extra Hk _ IH]; [done|]. cbn in *. by rewrite bool_decide_eq_false_2. }
  rewrite Hr. destruct (no_repeats (field_names fs) m); [|reflexivity]. apply dec_entries_ext. intros key Hkey.
  rewrite obj_get_app. destruct (obj_get key m) as [v|]; [done|]. apply obj_get_None.
  intros ([k v] & Hk & Hin)%in_map_iff. cbn in Hk. subst k.
  rewrite Forall_forall in H. apply (H (key, v)); by apply list_elem_of_In.
Qed.

(** ** Texts *)

(** [serde_json] reads at most 127 arrays and objects inside one another. *)
Definition JSON_DEPTH : nat := 127.

(** The texts of documents are [serde_json]'s.  It documents that what it writes it
    reads ([float_roundtrip] included), and what it reads are the documents of
    [json_ok]. *)
Record json_text_spec (print : value -> bytes) (parse : bytes -> option value) : Prop := {
  parse_print v : json_ok JSON_DEPTH v = true -> parse (print v) = Some v;
  parse_ok b v : parse b = Some v -> json_ok JSON_DEPTH v = true
}.

Section texts.
Context (print : value -> bytes) (parse : bytes -> option value).

(** [serde_json::to_vec] and [to_string], which do not fail on these types, and
    [serde_json::from_slice] and [from_str]. *)
Definition to_vec {A} (c : codec A) (a : A) : option bytes := Some (print (c.(enc) a)).
Definition to_string {A} (c : codec A) (a : A) : option string := of_bytes <$> to_vec c a.
Definition from_slice {A} (c : codec A) (b : bytes) : option A := parse b ≫= c.(dec).
Definition from_str {A} (c : codec A) (s : string) : option A := from_slice c (as_bytes s).

Hypothesis Htext : json_text_spec print parse.

Lemma from_to_vec {A} (c : codec A) `{!Laws c} a b :
  c.(ok) JSON_DEPTH a = true -> to_vec c a = Some b -> from_slice c b = Some a.
Proof.
  intros Ha [= <-]. unfold from_slice. rewrite (parse_print _ _ Htext) by by apply law_enc.
  by eapply law_round.
Qed.

Lemma from_to_string {A} (c : codec A) `{!Laws c} a s :
  c.(ok) JSON_DEPTH a = true -> to_string c a = Some s -> from_str c s = Some a.
Proof.
  intros Ha [= <-]. unfold from_str. rewrite as_bytes_of_bytes. by eapply from_to_vec.
Qed.

Lemma from_slice_ok {A} (c : codec A) `{!Laws c} b a :
  (c.(floor) <= JSON_DEPTH)%nat -> from_slice c b = Some a -> c.(ok) JSON_DEPTH a = true.
Proof.
  intros Hd (v & Hv & Ha)%bind_Some. apply (parse_ok _ _ Htext) in Hv. by eapply law_dec.
Qed.
End texts.
