(* ===== verification/Codec.v ===== *)
(** * The JSON of the data model

    The derived [Serialize] and [Deserialize] of the structs of
    [src/domain/models.rs] and of the messages of [p2p.rs], [pcs.rs] and [work.rs],
    field for field with their attributes.  A type of which the source derives one
    direction only is a codec of which only that direction is used. *)

From S2P Require Import Prelude Bytes F64 Models Serde.

#[local] Set Warnings "-register-all".
#[local] Open Scope fields_scope.

(** ** Circuits *)

Definition gate_codec : codec Gate :=
  struct_codec (plain "type" string_codec #: plain "params" value_codec #: FNil)
    (fun g => << g.(gate_type), g.(params) >>)
    (fun '<< t, p >> => mkGate t p).
#[export] Instance gate_laws : Laws gate_codec.
Proof. struct_laws. Qed.

Definition slice_assignment_codec : codec SliceAssignment :=
  struct_codec (plain "edge_id" string_codec #: plain "value" u8_codec #: FNil)
    (fun a => << a.(edge_id), a.(sa_value) >>)
    (fun '<< e, v >> => mkSliceAssignment e v).
#[export] Instance slice_assignment_laws : Laws slice_assignment_codec.
Proof. struct_laws. Qed.

Definition noise_model_codec : codec NoiseModel :=
  struct_codec (defaulted "depolarizing_p" (option_codec f64_codec) None
      #: defaulted "readout_error" (option_codec f64_codec) None #: FNil)
    (fun n => << n.(depolarizing_p), n.(readout_error) >>)
    (fun '<< d, r >> => mkNoiseModel d r).
#[export] Instance noise_model_laws : Laws noise_model_codec.
Proof. struct_laws. Qed.

(** ** Observables *)

Definition complex_coeff_codec : codec ComplexCoeff :=
  struct_codec (plain "real" f64_codec #: plain "imag" f64_codec #: FNil)
    (fun c => << c.(coeff_real), c.(coeff_imag) >>)
    (fun '<< r, i >> => mkComplexCoeff r i).
#[export] Instance complex_coeff_laws : Laws complex_coeff_codec.
Proof. struct_laws. Qed.

Definition pauli_term_codec : codec PauliTerm :=
  struct_codec (plain "label" string_codec #: plain "coeff" complex_coeff_codec #: FNil)
    (fun t => << t.(label), t.(coeff) >>)
    (fun '<< l, c >> => mkPauliTerm l c).
#[export] Instance pauli_term_laws : Laws pauli_term_codec.
Proof. struct_laws. Qed.

Definition observable_spec_codec : codec ObservableSpec :=
  struct_codec (plain "id" string_codec #: plain "terms" (vec_codec pauli_term_codec) #: FNil)
    (fun o => << o.(obs_id), o.(terms) >>)
    (fun '<< i, t >> => mkObservableSpec i t).
#[export] Instance observable_spec_laws : Laws observable_spec_codec.
Proof. struct_laws. Qed.

(** ** Contraction trees *)

Abbreviation skip_none name c := (skipped name (option_codec c) None is_none).

Definition tensor_ref_codec : codec TensorRefWire :=
  struct_codec (skip_none "ket0" u32_codec #: skip_none "gate" u32_codec
      #: skip_none "node" u32_codec #: skip_none "bra0" u32_codec
      #: skip_none "control" u32_codec #: skip_none "target" u32_codec #: FNil)
    (fun t => << t.(ket0), t.(tr_gate), t.(tr_node), t.(bra0), t.(control), t.(target) >>)
    (fun '<< k, g, n, b, c, t >> => mkTensorRefWire k g n b c t).
#[export] Instance tensor_ref_laws : Laws tensor_ref_codec.
Proof. struct_laws. Qed.

Definition contract_node_codec : codec ContractNodeWire :=
  struct_codec (plain "op" string_codec #: plain "left" tensor_ref_codec
      #: plain "right" tensor_ref_codec #: FNil)
    (fun n => << n.(op), n.(node_left), n.(node_right) >>)
    (fun '<< o, l, r >> => mkContractNodeWire o l r).
#[export] Instance contract_node_laws : Laws contract_node_codec.
Proof. struct_laws. Qed.

Definition contraction_tree_codec : codec ContractionTreeWire :=
  struct_codec (skip_none "kind" string_codec #: plain "nodes" (vec_codec contract_node_codec)
      #: plain "peak_bytes" u64_codec #: FNil)
    (fun t => << t.(kind), t.(nodes), t.(peak_bytes) >>)
    (fun '<< k, n, p >> => mkContractionTreeWire k n p).
#[export] Instance contraction_tree_laws : Laws contraction_tree_codec.
Proof. struct_laws. Qed.

(** ** Tasks *)

Definition compute_request_codec : codec ComputeRequest :=
  struct_codec (plain "task_id" string_codec
      #: plain "parent_task_id" (option_codec string_codec)
      #: plain "circuit_id" string_codec
      #: plain "node_id" (option_codec string_codec)
      #: plain "qubit_count" usize_codec
      #: plain "original_qubit_count" usize_codec
      #: plain "slice_id" string_codec
      #: plain "slice_assignments" (vec_codec slice_assignment_codec)
      #: plain "circuit" (vec_codec gate_codec)
      #: plain "required_votes" (option_codec u32_codec)
      #: defaulted "mps_max_bond_dim" (option_codec usize_codec) None
      #: defaulted "mps_site_order" (option_codec (vec_codec usize_codec)) None
      #: skip_none "mps_time_split" usize_codec
      #: skip_none "contraction_tree" contraction_tree_codec
      #: defaulted "output_mode" string_codec ""
      #: defaulted "classical_bit_count" (option_codec u32_codec) None
      #: defaulted "shots" (option_codec u64_codec) None
      #: defaulted "sample_seed" (option_codec u64_codec) None
      #: defaulted "observables" (vec_codec observable_spec_codec) []
      #: defaulted "noise_model" (option_codec noise_model_codec) None
      #: defaulted "security_level" string_codec "" #: FNil)
    (fun r => << r.(task_id), r.(parent_task_id), r.(circuit_id), r.(node_id), r.(qubit_count),
      r.(original_qubit_count), r.(slice_id), r.(slice_assignments), r.(circuit),
      r.(required_votes), r.(mps_max_bond_dim), r.(mps_site_order), r.(mps_time_split),
      r.(contraction_tree), r.(output_mode), r.(classical_bit_count), r.(shots),
      r.(sample_seed), r.(observables), r.(noise_model), r.(security_level) >>)
    (fun '<< a, b, c, d, e, f, g, h, i, j, k, l, m, n, o, p, q, r, s, t, u >> =>
      mkComputeRequest a b c d e f g h i j k l m n o p q r s t u).
#[export] Instance compute_request_laws : Laws compute_request_codec.
Proof. struct_laws. Qed.

Definition budget_codec : codec Budget :=
  struct_codec (plain "deadline_secs" u32_codec #: plain "expected_secs" f64_codec #: FNil)
    (fun b => << b.(deadline_secs), b.(expected_secs) >>)
    (fun '<< d, e >> => mkBudget d e).
#[export] Instance budget_laws : Laws budget_codec.
Proof. struct_laws. Qed.

Definition compute_task_codec : codec ComputeTask :=
  struct_codec (plain "request" compute_request_codec
      #: plain "orchestrator_pubkey" string_codec
      #: skip_none "budget" budget_codec
      #: defaulted "accepted_at_ms" u64_codec 0 #: FNil)
    (fun t => << t.(request), t.(orchestrator_pubkey), t.(budget), t.(accepted_at_ms) >>)
    (fun '<< r, o, b, a >> => mkComputeTask r o b a).
#[export] Instance compute_task_laws : Laws compute_task_codec.
Proof. struct_laws. Qed.

(** ** Results and proofs *)

Abbreviation skip_empty name := (skipped name string_codec "" is_empty).

Definition public_inputs_codec : codec PublicInputs :=
  struct_codec (plain "circuit_id" string_codec #: plain "sub_task_id" string_codec
      #: plain "node_id" string_codec #: plain "slice_id" string_codec
      #: plain "output_result_hash" string_codec #: skip_empty "measurement_spec_hash"
      #: skip_empty "security_level" #: FNil)
    (fun p => << p.(pi_circuit_id), p.(pi_sub_task_id), p.(pi_node_id), p.(pi_slice_id),
      p.(output_result_hash), p.(measurement_spec_hash), p.(pi_security_level) >>)
    (fun '<< a, b, c, d, e, f, g >> => mkPublicInputs a b c d e f g).
#[export] Instance public_inputs_laws : Laws public_inputs_codec.
Proof. struct_laws. Qed.

Definition proof_codec : codec Proof :=
  struct_codec (plain "public_inputs" public_inputs_codec
      #: plain "stark_proof_b64" string_codec #: FNil)
    (fun p => << p.(public_inputs), p.(stark_proof_b64) >>)
    (fun '<< i, s >> => mkProof i s).
#[export] Instance proof_laws : Laws proof_codec.
Proof. struct_laws. Qed.

Definition work_report_codec : codec WorkReport :=
  struct_codec (plain "trace_rows" u64_codec #: plain "gate_count" u32_codec
      #: plain "compute_wall_ms" u64_codec #: plain "prove_wall_ms" u64_codec
      #: plain "proof_bytes" u64_codec #: defaulted "tn_backend" string_codec ""
      #: defaulted "vram_peak_bytes" u64_codec 0 #: skip_empty "proof_scope" #: FNil)
    (fun w => << w.(trace_rows), w.(gate_count), w.(compute_wall_ms), w.(prove_wall_ms),
      w.(proof_bytes), w.(tn_backend), w.(vram_peak_bytes), w.(proof_scope) >>)
    (fun '<< a, b, c, d, e, f, g, h >> => mkWorkReport a b c d e f g h).
#[export] Instance work_report_laws : Laws work_report_codec.
Proof. struct_laws. Qed.

Definition complex_result_codec : codec ComplexResult :=
  struct_codec (plain "real" f64_codec #: plain "imag" f64_codec #: FNil)
    (fun c => << c.(cr_real), c.(cr_imag) >>)
    (fun '<< r, i >> => mkComplexResult r i).
#[export] Instance complex_result_laws : Laws complex_result_codec.
Proof. struct_laws. Qed.

Definition sample_result_codec : codec SampleResult :=
  struct_codec (plain "counts" (map_codec u64_codec) #: plain "shots" u64_codec #: FNil)
    (fun s => << s.(counts), s.(sr_shots) >>)
    (fun '<< c, s >> => mkSampleResult c s).
#[export] Instance sample_result_laws : Laws sample_result_codec.
Proof. struct_laws. Qed.

Definition expectation_result_codec : codec ExpectationResult :=
  struct_codec (plain "values" (map_codec complex_result_codec) #: FNil)
    (fun e => << e.(values) >>)
    (fun '<< v >> => mkExpectationResult v).
#[export] Instance expectation_result_laws : Laws expectation_result_codec.
Proof. struct_laws. Qed.

Definition compute_response_codec : codec ComputeResponse :=
  struct_codec (plain "task_id" string_codec #: plain "status" string_codec
      #: defaulted "result_type" string_codec ""
      #: plain "complex_result" complex_result_codec
      #: defaulted "sample_result" (option_codec sample_result_codec) None
      #: defaulted "expectation_result" (option_codec expectation_result_codec) None
      #: plain "proof" proof_codec
      #: defaulted "work_report" (option_codec work_report_codec) None #: FNil)
    (fun r => << r.(resp_task_id), r.(resp_status), r.(resp_result_type),
      r.(resp_complex_result), r.(resp_sample_result), r.(resp_expectation_result),
      r.(resp_proof), r.(resp_work_report) >>)
    (fun '<< a, b, c, d, e, f, g, h >> => mkComputeResponse a b c d e f g h).
#[export] Instance compute_response_laws : Laws compute_response_codec.
Proof. struct_laws. Qed.

(** ** The tree as the orchestrator writes it *)

(** Keys in the declared order, and none of them [null]. *)
Fixpoint in_order (names : list string) (m : list (string * value)) : bool :=
  match m, names with
  | [], _ => true
  | _, [] => false
  | (k, v) :: m', name :: names' =>
    if decide (k = name) then negb (bool_decide (v = VNull)) && in_order names' m'
    else in_order names' m
  end.

Definition ref_wire (v : value) : bool :=
  match v with
  | VObject m => in_order ["ket0"; "gate"; "node"; "bra0"; "control"; "target"] m
  | _ => false
  end.
Definition node_wire (v : value) : bool :=
  match v with
  | VObject [(_, _) as op; (_, l) as left; (_, r) as right] =>
    in_order ["op"; "left"; "right"] [op; left; right] && ref_wire l && ref_wire r
  | _ => false
  end.
Definition tree_wire (v : value) : bool :=
  match v with
  | VObject m =>
    in_order ["kind"; "nodes"; "peak_bytes"] m
    && match obj_get "nodes" m with Some (VArray nodes) => forallb node_wire nodes | _ => false end
  | _ => false
  end.

(** Optional fields that are skipped when they are [None]. *)
Lemma skip_none_wire {A T} name (c : codec A) (rest : fields T) names m :
  (forall v, verbatim c v) -> in_order (name :: names) m = true ->
  (forall m', in_order names m' = true -> wire_entries rest m') ->
  wire_entries (FCons (skip_none name c) rest) m.
Proof.
  intros Hc Hm Hrest. cbn [wire_entries skipped f_name f_codec f_skip].
  assert (Habs : forall a, absent (skip_none name c) = Some a -> is_none a = true)
    by by intros a [= <-].
  destruct m as [|[k v] m]; [right; split; [done|apply Hrest; by destruct names]|]. cbn in Hm.
  destruct (decide (k = name)) as [->|].
  - apply andb_true_iff in Hm as [Hv%negb_true_iff%bool_decide_eq_false Hm]. left.
    exists v, m. split_and!; [done|by apply option_verbatim| |by apply Hrest].
    intros [a|] Ha; [done|]. cbn in Ha. destruct v; [done|..]; by apply fmap_Some in Ha as (? & ? & ?).
  - right. split; [done|by apply Hrest].
Qed.

Lemma ref_verbatim v : ref_wire v = true -> verbatim tensor_ref_codec v.
Proof.
  destruct v as [| | | | |m]; try done. cbn [ref_wire]. intros Hm.
  apply struct_verbatim; [reflexivity| |].
  { intros t. repeat match goal with t : _ * _ |- _ => destruct t end. by destruct u. }
  revert Hm. repeat (intros Hm; eapply skip_none_wire; [apply uint_verbatim|exact Hm|clear m Hm; intros m]).
  by destruct m as [|[k v] m].
Qed.

Lemma plain_wire {A T} name (c : codec A) (rest : fields T) v m :
  verbatim c v -> wire_entries rest m -> wire_entries (FCons (plain name c) rest) ((name, v) :: m).
Proof. intros Hv Hm. left. exists v, m. by split_and!. Qed.

Lemma node_verbatim v : node_wire v = true -> verbatim contract_node_codec v.
Proof.
  destruct v as [| | | | |m]; try done. cbn [node_wire].
  destruct m as [|[k1 o] [|[k2 l] [|[k3 r] [|? ?]]]]; try done.
  intros [[Hm Hl]%andb_true_iff Hr]%andb_true_iff. cbn [in_order] in Hm.
  destruct (decide (k1 = "op")) as [->|]; [|by repeat case_decide].
  apply andb_true_iff in Hm as [_ Hm].
  destruct (decide (k2 = "left")) as [->|]; [|by repeat case_decide].
  apply andb_true_iff in Hm as [_ Hm].
  destruct (decide (k3 = "right")) as [->|]; [|done].
  apply struct_verbatim; [reflexivity| |].
  { intros t. repeat match goal with t : _ * _ |- _ => destruct t end. by destruct u. }
  apply plain_wire; [apply string_verbatim|]. apply plain_wire; [by apply ref_verbatim|].
  by apply plain_wire; [apply ref_verbatim|].
Qed.

(** [m] read as the last two fields of a tree. *)
Lemma tree_tail_wire m nodes :
  in_order ["nodes"; "peak_bytes"] m = true -> obj_get "nodes" m = Some (VArray nodes) ->
  is_Some (obj_get "peak_bytes" m) -> forallb node_wire nodes = true ->
  wire_entries (plain "nodes" (vec_codec contract_node_codec)
    #: plain "peak_bytes" u64_codec #: FNil) m.
Proof.
  intros Hm Hget Hpeak Hn%forallb_Forall. destruct m as [|[k v] m]; [done|]. cbn in Hm, Hget, Hpeak.
  destruct (decide (k = "nodes")) as [->|].
  - injection Hget as ->. apply andb_true_iff in Hm as [_ Hm]. apply plain_wire.
    + apply vec_verbatim. eapply Forall_impl; [exact Hn|]. exact node_verbatim.
    + destruct m as [|[k w] m]; [by destruct Hpeak|]. cbn in Hm, Hpeak.
      destruct (decide (k = "peak_bytes")) as [->|]; [|done].
      apply andb_true_iff in Hm as [_ Hm]. destruct m as [|[]]; [|done].
      by apply plain_wire; [apply uint_verbatim|].
  - destruct (decide (k = "peak_bytes")) as [->|]; [|by destruct m as [|[]]].
    apply andb_true_iff in Hm as [_ Hm]. by destruct m as [|[]].
Qed.

(** C20. The tree is forwarded word for word: a contraction tree in the orchestrator's
    layout (the keys in the declared order, none of them [null]) that the node can
    read is written back as the same document, so the JSON the node verifies the
    dispatch signature over is the one the orchestrator signed. *)
Theorem tree_forwarded_verbatim v t :
  tree_wire v = true -> contraction_tree_codec.(dec) v = Some t ->
  contraction_tree_codec.(enc) t = v.
Proof.
  destruct v as [| | | | |m]; try done. cbn [tree_wire]. intros [Hm Hn]%andb_true_iff Ht.
  destruct (obj_get "nodes" m) as [[| | | |nodes|]|] eqn:Hget; try done.
  assert (Hpeak : is_Some (obj_get "peak_bytes" m)).
  { cbn in Ht. destruct (no_repeats _ _); [|done]. rewrite Hget in Ht.
    destruct (obj_get "peak_bytes" m); [by eexists|]. by repeat case_match. }
  revert t Ht. apply struct_verbatim; [reflexivity| |].
  { intros t. repeat match goal with t : _ * _ |- _ => destruct t end. by destruct u. }
  revert Hget Hpeak. destruct m as [|[k w] m]; [done|]. cbn [in_order] in Hm.
  destruct (decide (k = "kind")) as [->|].
  - apply andb_true_iff in Hm as [Hw%negb_true_iff%bool_decide_eq_false Hm]. intros Hget Hpeak.
    left. exists w, m. split_and!; [done|by apply option_verbatim; auto with wqc| |].
    + intros [a|] Ha; [done|]. cbn in Ha. destruct w; [done|..]; by apply fmap_Some in Ha as (? & ? & ?).
    + by eapply tree_tail_wire.
  - intros Hget Hpeak. right. split; [by intros a [= <-]|]. by eapply tree_tail_wire.
Qed.

Definition sample_network_tree : value :=
  VObject [("kind", VString "network");
    ("nodes", VArray [VObject [("op", VString "contract");
       ("left", VObject [("ket0", VNumber (PosInt 0))]);
       ("right", VObject [("bra0", VNumber (PosInt 1))])]]);
    ("peak_bytes", VNumber (PosInt 64))].

Lemma tree_forwarded_verbatim_witness :
  contraction_tree_codec.(enc) <$> contraction_tree_codec.(dec) sample_network_tree
  = Some sample_network_tree.
Proof.
  destruct (contraction_tree_codec.(dec) sample_network_tree) as [t|] eqn:Ht; [|discriminate Ht].
  cbn [fmap option_fmap option_map]. f_equal.
  exact (tree_forwarded_verbatim sample_network_tree t eq_refl Ht).
Defined.
