(* ===== verification/Validation.v ===== *)
(** * Circuit validation ([src/domain/validation.rs])

    The check that a dispatched circuit only uses gates wqc-core supports and
    qubits below its declared width, and the normalisation of gate parameters
    that follows it.  A nested gate is read from its value by the derived
    deserialiser of [Gate] ([Codec.gate_codec]). *)

From S2P Require Import Prelude Bytes F64 Models Serde Codec.

#[local] Set Warnings "-clear-no-such-hyp".

Inductive ValidationError :=
| GateNotSupported (gate : string) (idx : Z)   (* Gate '{}' at index {} not supported *)
| IfNotObject (idx : Z)                        (* requires object params *)
| IfMissingGate (idx : Z)                      (* missing nested gate *)
| IfInvalidGate (idx : Z)                      (* has invalid nested gate *)
| RotationMissingQubit (idx : Z)               (* is missing a qubit *)
| NegativeIndex (q : Z) (at_gate : option Z)   (* negative qubit index {q} [at gate {idx}] *)
| IndexOutOfRange (q idx : Z)                  (* Qubit index {q} out of range at gate {idx} *)
| NonIntegerIndex (idx : Z)                    (* gate {idx} has a non-integer qubit index *)
| FuelExhausted.                               (* not an error of the program *)

(** [normalize_gate_value]: a one-element array becomes its element; in an
    object only the parameters of its nested gate are normalised. *)
Fixpoint normalize_gate_value (params : value) : value :=
  match params with
  | VArray [x] => x
  | VObject obj =>
    VObject (obj_update "gate" (fun nested =>
      match nested with
      | VObject nested_obj => VObject (obj_update "params" normalize_gate_value nested_obj)
      | _ => nested
      end) obj)
  | _ => params
  end.

Definition normalize_gate (gate : Gate) : Gate :=
  mkGate gate.(gate_type) (normalize_gate_value gate.(params)).

Definition normalize_gate_params (circuit : list Gate) : list Gate :=
  map normalize_gate circuit.

(** [Ok None] is a number that is not an index. *)
Definition qubit_index (v : value) : result Z (option Z) :=
  match as_i64_value v with
  | Some q => if q <? 0 then Err q else Ok (Some q)
  | None =>
    match as_u64_value v with
    | Some q => Ok (Some q)
    | None => Ok None
    end
  end.

Definition ensure_in_range (q qubit_count idx : Z) : result ValidationError unit :=
  if qubit_count <=? q then Err (IndexOutOfRange q idx) else Ok tt.

Definition require_qubit (v : value) (qubit_count idx : Z) : result ValidationError unit :=
  match qubit_index v with
  | Ok (Some q) => ensure_in_range q qubit_count idx
  | Ok None => Err (NonIntegerIndex idx)
  | Err q => Err (NegativeIndex q (Some idx))
  end.

Definition rotation_operand (params : value) : option value :=
  match as_array params with
  | Some arr => head arr
  | None => Some params
  end.

Definition validate_rotation_qubit (gate : Gate) (idx qubit_count : Z)
  : result ValidationError unit :=
  match rotation_operand gate.(params) with
  | None => Err (RotationMissingQubit idx)
  | Some qubit => require_qubit qubit qubit_count idx
  end.

Fixpoint check_qubit_values (v : value) (idx qubit_count : Z) : result ValidationError unit :=
  match v with
  | VArray items =>
    (fix go (l : list value) : result ValidationError unit :=
       match l with
       | [] => Ok tt
       | item :: l' =>
         match check_qubit_values item idx qubit_count with
         | Ok _ => go l'
         | Err e => Err e
         end
       end) items
  | VNumber _ =>
    match qubit_index v with
    | Ok (Some q) => ensure_in_range q qubit_count idx
    | Ok None => Err (NonIntegerIndex idx)
    | Err q => Err (NegativeIndex q None)
    end
  | VObject m =>
    match obj_get "qubit" m with
    | Some q => require_qubit q qubit_count idx
    | None => Ok tt
    end
  | _ => Ok tt
  end.

Definition is_rotation (ty : string) : bool := bool_decide (ty ∈ ["RX"; "RY"; "RZ"]).

Definition validate_qubit_params (gate : Gate) (idx qubit_count : Z)
  : result ValidationError unit :=
  if is_rotation gate.(gate_type) then validate_rotation_qubit gate idx qubit_count
  else check_qubit_values gate.(params) idx qubit_count.

(** [serde_json::from_value::<Gate>] *)
Definition gate_from_value (v : value) : option Gate := gate_codec.(dec) v.

(** The recursion descends into the parameters of nested gates; the size of
    the outer parameters is enough fuel ([validate_gate_not_out_of_fuel]). *)
Fixpoint validate_gate_fuel (fuel : nat) (gate : Gate) (idx qubit_count : Z)
  (supported_gates : list string) : result ValidationError unit :=
  match fuel with
  | O => Err FuelExhausted
  | S fuel' =>
    if negb (bool_decide (gate.(gate_type) ∈ supported_gates)) then
      Err (GateNotSupported gate.(gate_type) idx)
    else if decide (gate.(gate_type) = "IF") then
      match as_object gate.(params) with
      | None => Err (IfNotObject idx)
      | Some obj =>
        match obj_get "gate" obj with
        | None => Err (IfMissingGate idx)
        | Some nested =>
          match gate_from_value nested with
          | None => Err (IfInvalidGate idx)
          | Some nested_gate =>
            validate_gate_fuel fuel' nested_gate idx qubit_count supported_gates
          end
        end
      end
    else validate_qubit_params gate idx qubit_count
  end.

Definition validate_gate (gate : Gate) (idx qubit_count : Z) (supported_gates : list string)
  : result ValidationError unit :=
  validate_gate_fuel (value_size gate.(params)) gate idx qubit_count supported_gates.

(** The [for] loop over the enumerated gates, from index [idx]. *)
Fixpoint validate_from (idx : Z) (circuit : list Gate) (qubit_count : Z)
  (supported_gates : list string) : result ValidationError unit :=
  match circuit with
  | [] => Ok tt
  | gate :: rest =>
    match validate_gate gate idx qubit_count supported_gates with
    | Ok _ => validate_from (idx + 1) rest qubit_count supported_gates
    | Err e => Err e
    end
  end.

Definition validate_circuit_logic (circuit : list Gate) (qubit_count : Z)
  (supported_gates : list string) : result ValidationError unit :=
  validate_from 0 circuit qubit_count supported_gates.

(** ** Specification *)

(** The operands of a gate's parameters that stand for qubits: every number of
    the (possibly nested) arrays, and the ["qubit"] entry of an object. *)
Fixpoint qubit_operands (v : value) : list value :=
  match v with
  | VArray items => flat_map qubit_operands items
  | VNumber _ => [v]
  | VObject m => match obj_get "qubit" m with Some q => [q] | None => [] end
  | _ => []
  end.

(** A JSON integer that names one of [qubit_count] qubits. *)
Definition names_qubit (qubit_count : Z) (v : value) : Prop :=
  exists q, qubit_index v = Ok (Some q) /\ q < qubit_count.

Section spec.
Context (qubit_count : Z) (supported_gates : list string).

Inductive valid_gate : Gate -> Prop :=
| valid_if gate obj nested nested_gate :
    gate.(gate_type) = "IF" -> "IF" ∈ supported_gates ->
    gate.(params) = VObject obj -> obj_get "gate" obj = Some nested ->
    gate_from_value nested = Some nested_gate -> valid_gate nested_gate ->
    valid_gate gate
| valid_rotation gate operand :
    is_rotation gate.(gate_type) = true -> gate.(gate_type) ∈ supported_gates ->
    rotation_operand gate.(params) = Some operand -> names_qubit qubit_count operand ->
    valid_gate gate
| valid_plain gate :
    gate.(gate_type) <> "IF" -> is_rotation gate.(gate_type) = false ->
    gate.(gate_type) ∈ supported_gates ->
    Forall (names_qubit qubit_count) (qubit_operands gate.(params)) ->
    valid_gate gate.
End spec.

(** Parameters are a [serde_json::Value]. *)
Definition value_params (g : Gate) : Prop := is_normal g.(params) = true.

(** ** Lemmas *)

Lemma ensure_in_range_ok q n idx : ensure_in_range q n idx = Ok tt <-> q < n.
Proof. unfold ensure_in_range. destruct (Z.leb_spec n q); split; intros; done || lia. Qed.

Lemma require_qubit_ok v n idx : require_qubit v n idx = Ok tt <-> names_qubit n v.
Proof.
  unfold require_qubit, names_qubit. destruct (qubit_index v) as [[q|]|q] eqn:E.
  - rewrite ensure_in_range_ok. split; [eauto|]. by intros (q' & [= ->] & ?).
  - split; [done|]. by intros (q' & ? & ?).
  - split; [done|]. by intros (q' & ? & ?).
Qed.

Lemma check_number_ok k n idx :
  check_qubit_values (VNumber k) idx n = Ok tt <-> names_qubit n (VNumber k).
Proof.
  rewrite <- (require_qubit_ok _ _ idx). cbn [check_qubit_values]. unfold require_qubit.
  by destruct (qubit_index (VNumber k)) as [[?|]|?].
Qed.

Lemma check_qubit_values_ok v n idx :
  check_qubit_values v idx n = Ok tt <-> Forall (names_qubit n) (qubit_operands v).
Proof.
  induction v as [|b|k|s|items IH|m _] using value_rect_nested.
  - by split.
  - by split.
  - rewrite check_number_ok. cbn [qubit_operands]. by rewrite Forall_singleton.
  - by split.
  - cbn [check_qubit_values qubit_operands].
    induction IH as [|x items Hx _ IHi]; cbn [flat_map]; [by split|].
    rewrite Forall_app, <- IHi, <- Hx.
    destruct (check_qubit_values x idx n) as [[]|e]; naive_solver.
  - cbn [check_qubit_values qubit_operands]. destruct (obj_get "qubit" m) as [q|].
    + by rewrite Forall_singleton, require_qubit_ok.
    + by split.
Qed.

Lemma validate_rotation_ok g n idx :
  validate_rotation_qubit g idx n = Ok tt
  <-> exists v, rotation_operand g.(params) = Some v /\ names_qubit n v.
Proof.
  unfold validate_rotation_qubit. destruct (rotation_operand (params g)) as [v|].
  - rewrite require_qubit_ok. naive_solver.
  - naive_solver.
Qed.

Lemma is_rotation_not_if ty : is_rotation ty = true -> ty <> "IF".
Proof. by intros H ->. Qed.

(** ** Theorems *)

(** The parameters of a nested gate are a part of its value, and they are read as
    they stand when that is a [serde_json::Value]. *)
Lemma gate_from_value_shape v g :
  gate_from_value v = Some g ->
  exists p, g.(params) = normal p /\ (value_size p < value_size v)%nat.
Proof.
  unfold gate_from_value. cbn [dec gate_codec struct_codec]. intros (t & Ht & ->)%fmap_Some.
  destruct v as [| | | |items|m]; try done; cbn in Ht.
  - destruct items as [|[| | |ty| |] [|p [|q items]]]; try done. injection Ht as <-.
    exists p. cbn. split; [done|lia].
  - destruct (no_repeats _ _); [|done]. destruct (obj_get "type" m) as [[| | |ty| |]|]; try done.
    destruct (obj_get "params" m) as [p|] eqn:Hp; [|done]. injection Ht as <-.
    exists p. split; [done|]. by apply obj_get_size in Hp.
Qed.

Lemma gate_from_part v g :
  gate_from_value v = Some g -> (value_size g.(params) < value_size v)%nat.
Proof.
  intros (p & -> & Hp)%gate_from_value_shape. pose proof (normal_size p). lia.
Qed.

Lemma gate_from_object m :
  is_normal (VObject m) = true ->
  gate_from_value (VObject m)
  = match obj_get "type" m, obj_get "params" m with
    | Some (VString t), Some p => Some (mkGate t p)
    | _, _ => None
    end.
Proof.
  intros Hn. unfold gate_from_value. cbn [dec gate_codec struct_codec dec_struct].
  rewrite normal_no_repeats by done. cbn.
  destruct (obj_get "type" m) as [[| | |ty| |]|]; try done.
  destruct (obj_get "params" m) as [p|] eqn:Hp; [|done].
  cbn. by rewrite (normal_id p) by by eapply normal_entry.
Qed.

Lemma validate_gate_fuel_ok fuel g idx n sup :
  (value_size g.(params) <= fuel)%nat ->
  validate_gate_fuel fuel g idx n sup = Ok tt
  <-> valid_gate n sup g.
Proof.
  revert g. induction fuel as [|fuel IH]; intros g Hf.
  { pose proof (value_size_pos (params g)). lia. }
  cbn [validate_gate_fuel].
  case_bool_decide as Hsup; cbn [negb];
    [|split; [done|]; destruct 1; congruence].
  destruct (decide (gate_type g = "IF")) as [Hif|Hif].
  - rewrite Hif in Hsup. destruct (as_object (params g)) as [obj|] eqn:Hobj.
    2: { split; [done|]. inversion 1; subst; try congruence.
         - by rewrite H2 in Hobj.
         - by apply is_rotation_not_if in H0. }
    assert (Hpar : params g = VObject obj) by (by destruct (params g); simplify_eq/=).
    destruct (obj_get "gate" obj) as [nested|] eqn:Hg.
    2: { split; [done|]. inversion 1; subst; try congruence. by apply is_rotation_not_if in H0. }
    destruct (gate_from_value nested) as [g'|] eqn:Hn.
    2: { split; [done|]. inversion 1; subst; try congruence. by apply is_rotation_not_if in H0. }
    rewrite IH.
    + split; [by econstructor|]. inversion 1; subst; try congruence.
      by apply is_rotation_not_if in H0.
    + apply gate_from_part in Hn. apply obj_get_size in Hg. rewrite Hpar in Hf. lia.
  - unfold validate_qubit_params. destruct (is_rotation (gate_type g)) eqn:Hrot.
    + rewrite validate_rotation_ok. split; [intros (v & ? & ?); by econstructor 2|].
      inversion 1; subst; try congruence. eauto.
    + rewrite check_qubit_values_ok. split; [by constructor|].
      inversion 1; subst; congruence.
Qed.

Lemma validate_gate_ok g idx n sup :
  validate_gate g idx n sup = Ok tt <-> valid_gate n sup g.
Proof. by apply validate_gate_fuel_ok. Qed.

Lemma check_qubit_values_fuel v idx n : check_qubit_values v idx n <> Err FuelExhausted.
Proof.
  induction v as [|b|k|s|items IH|m _] using value_rect_nested; try done.
  - cbn [check_qubit_values]. unfold ensure_in_range. by repeat case_match.
  - cbn [check_qubit_values]. induction IH as [|x items Hx _ IHi]; [done|].
    destruct (check_qubit_values x idx n); [exact IHi | congruence].
  - cbn [check_qubit_values]. unfold require_qubit, ensure_in_range. by repeat case_match.
Qed.

(** The fuel never runs out: the recursion over nested gates terminates. *)
Lemma validate_gate_not_out_of_fuel g idx n sup :
  validate_gate g idx n sup <> Err FuelExhausted.
Proof.
  unfold validate_gate. generalize (le_n (value_size (params g))).
  generalize (value_size (params g)) at 2 3 as fuel. intros fuel. revert g.
  induction fuel as [|fuel IH]; intros g Hf.
  { pose proof (value_size_pos (params g)). lia. }
  cbn [validate_gate_fuel]. case_match; [done|]. destruct (decide (gate_type g = "IF")).
  - destruct (as_object (params g)) as [obj|] eqn:Hobj; [|done].
    destruct (obj_get "gate" obj) as [nested|] eqn:Hg; [|done].
    destruct (gate_from_value nested) as [g'|] eqn:Hn; [|done].
    apply IH. apply gate_from_part in Hn. apply obj_get_size in Hg.
    destruct (params g); simplify_eq/=. lia.
  - unfold validate_qubit_params, validate_rotation_qubit, require_qubit, ensure_in_range.
    repeat case_match; try done. apply check_qubit_values_fuel.
Qed.

Lemma validate_from_ok idx c n sup :
  validate_from idx c n sup = Ok tt
  <-> Forall (valid_gate n sup) c.
Proof.
  revert idx. induction c as [|g c IH]; intros idx; cbn [validate_from]; [by split|].
  rewrite Forall_cons, <- (IH (idx + 1)), <- (validate_gate_ok g idx n sup).
  destruct (validate_gate _ _ _ _) as [[]|e]; naive_solver.
Qed.

Lemma validate_from_err idx c n sup e :
  validate_from idx c n sup = Err e ->
  exists i g, c !! i = Some g /\ Forall (valid_gate n sup) (take i c)
    /\ validate_gate g (idx + Z.of_nat i) n sup = Err e.
Proof.
  revert idx. induction c as [|g c IH]; intros idx; cbn [validate_from]; [done|].
  destruct (validate_gate g idx n sup) as [[]|e'] eqn:E.
  - intros (i & g' & Hi & Hv & He)%IH. exists (S i), g'. repeat split; [done| |].
    + constructor; [by apply (validate_gate_ok g idx)|done].
    + by replace (idx + Z.of_nat (S i)) with (idx + 1 + Z.of_nat i) by lia.
  - intros [= ->]. exists O, g. repeat split; [constructor|]. by rewrite Z.add_0_r.
Qed.

(** The operand of a rotation and the qubits of a plain gate are the same
    before and after a one-element array is replaced by its element. *)
Lemma qubit_operands_normalize v :
  (forall obj, v <> VObject obj) -> qubit_operands (normalize_gate_value v) = qubit_operands v.
Proof.
  intros Hobj. destruct v as [| | | |[|x [|y items]]|obj]; try done.
  - cbn. by rewrite app_nil_r.
  - by destruct (Hobj obj).
Qed.

Lemma rotation_operand_normalize n v w :
  rotation_operand v = Some w -> names_qubit n w ->
  rotation_operand (normalize_gate_value v) = Some w.
Proof.
  intros Hw (q & Hq & _). destruct v as [| | | |[|x [|y items]]|obj]; try done.
  - simpl in Hw. injection Hw as ->. by destruct w.
  - cbn in Hw |- *. by simplify_eq.
Qed.

(** *** Normalisation gives a value again *)

(** A property of values that one-element arrays hand to their element and that an
    update of an entry keeps is kept by normalisation. *)
Lemma normalize_kept (P : value -> Prop) :
  (forall x, P (VArray [x]) -> P x) ->
  (forall m key v, P (VObject m) -> obj_get key m = Some v -> P v) ->
  (forall m key f, P (VObject m) ->
     (forall v, obj_get key m = Some v -> P v -> P (f v)) -> P (VObject (obj_update key f m))) ->
  forall v, P v -> P (normalize_gate_value v).
Proof.
  intros Harr Hget Hupd.
  assert (H : forall size v, (value_size v <= size)%nat -> P v -> P (normalize_gate_value v)).
  { induction size as [|size IH]; intros v Hs HP; [pose proof (value_size_pos v); lia|].
    destruct v as [| | | |[|x [|y items]]|obj]; try done; [by apply Harr|].
    apply Hupd; [done|]. intros v Hv Pv. destruct v as [| | | | |o]; try done.
    apply Hupd; [done|]. intros p Hp Pp. apply IH; [|done].
    apply obj_get_size in Hv, Hp. lia. }
  intros v. by apply (H (value_size v)).
Qed.

Lemma normalize_is_normal v : is_normal v = true -> is_normal (normalize_gate_value v) = true.
Proof.
  revert v. apply (normalize_kept (fun v => is_normal v = true)).
  - cbn. by intros x [Hx _]%andb_true_iff.
  - intros m key v. apply normal_entry.
  - intros m key f Hm Hf. by apply update_is_normal.
Qed.

(** The nested gate of a normalised object is the normalised nested gate, when
    it is given as an object. *)
Lemma from_value_normalized m g :
  is_normal (VObject m) = true -> gate_from_value (VObject m) = Some g ->
  gate_from_value (VObject (obj_update "params" normalize_gate_value m))
  = Some (normalize_gate g).
Proof.
  intros Hn. rewrite !gate_from_object, (obj_get_update_eq "params"),
    (obj_get_update_ne "params" "type");
    [|done|apply update_is_normal; [done|]; intros; by apply normalize_is_normal|done].
  destruct (obj_get "type" m) as [[]|]; try done.
  destruct (obj_get "params" m); try done. by intros [= <-].
Qed.

Lemma normalize_valid g n sup :
  valid_gate n sup g -> value_params g -> valid_gate n sup (normalize_gate g).
Proof.
  induction 1 as [g obj nested g' Hif Hsup Hpar Hget Hn Hg' IH|g w Hrot Hsup Hop Hw
                 |g Hif Hrot Hsup Hall]; unfold value_params; intros Hp.
  - set (f := fun nested => match nested with
      | VObject o => VObject (obj_update "params" normalize_gate_value o) | _ => nested end).
    assert (Hnorm : exists g'', gate_from_value (f nested) = Some g''
      /\ valid_gate n sup g'').
    { destruct nested as [| | | | |m]; try (by exists g'). exists (normalize_gate g').
      rewrite Hpar in Hp. apply (normal_entry _ "gate" (VObject m)) in Hp; [|done].
      split; [by apply from_value_normalized|]. apply IH. unfold value_params.
      apply gate_from_value_shape in Hn as (p & -> & _). apply normal_is_normal. }
    destruct Hnorm as (g'' & ? & ?).
    eapply (valid_if _ _ (normalize_gate g) (obj_update "gate" f obj) (f nested));
      [done|done| |by rewrite obj_get_update_eq, Hget|done|done].
    simpl. by rewrite Hpar.
  - eapply (valid_rotation _ _ (normalize_gate g) w); try done.
    by eapply rotation_operand_normalize.
  - apply valid_plain; try done. simpl. destruct (params g) as [| | | | |obj] eqn:Hpar;
      try (rewrite qubit_operands_normalize; [done|by intros]).
    revert Hall. cbn [normalize_gate_value qubit_operands].
    by rewrite obj_get_update_ne.
Qed.

Definition sample_circuit : list Gate :=
  [mkGate "RY" (VArray [VNumber (PosInt 1); VNumber (Float (f64_dec 3 1))]);
   mkGate "IF" (VObject [("cbit", VNumber (PosInt 0));
     ("gate", VObject [("params", VArray [VNumber (PosInt 1)]); ("type", VString "X")])])].

Definition sample_gates : list string := ["RY"; "IF"; "X"].

Example sample_circuit_ok :
  validate_circuit_logic sample_circuit 2 sample_gates = Ok tt.
Proof. reflexivity. Qed.
Example sample_circuit_range :
  validate_circuit_logic sample_circuit 1 sample_gates
  = Err (IndexOutOfRange 1 0).
Proof. reflexivity. Qed.
Example negative_index :
  validate_circuit_logic [mkGate "H" (VNumber (NegInt (-1)))] 2 ["H"]
  = Err (NegativeIndex (-1) None).
Proof. reflexivity. Qed.

(** C16. Validation accepts a circuit exactly when every gate, nested [IF] gates
    included, is supported and every operand that stands for a qubit (the first
    parameter of a rotation, every number of the parameters of another gate, the
    ["qubit"] entry of an object) is an integer below the circuit's width. *)
Theorem validate_circuit_iff c n sup :
  validate_circuit_logic c n sup = Ok tt <-> Forall (valid_gate n sup) c.
Proof. apply validate_from_ok. Qed.

Example sample_circuit_valid : Forall (valid_gate 2 sample_gates) sample_circuit.
Proof. by apply (validate_from_ok 0). Qed.

(** C38. A rejection names the first gate that is not valid: every gate before it
    is valid, and the error is the one of that gate at its own index.  The
    recursion over nested gates always ends. *)
Theorem validate_circuit_first_error c n sup e :
  validate_circuit_logic c n sup = Err e ->
  e <> FuelExhausted /\
  exists i g, c !! i = Some g /\ Forall (valid_gate n sup) (take i c)
    /\ ~ valid_gate n sup g
    /\ validate_gate g (Z.of_nat i) n sup = Err e.
Proof.
  intros (i & g & Hi & Hpre & He)%validate_from_err.
  rewrite Z.add_0_l in He. split.
  - intros ->. by apply validate_gate_not_out_of_fuel in He.
  - exists i, g. repeat split; [done|done| |done].
    rewrite <- (validate_gate_ok g (Z.of_nat i)), He. done.
Qed.

Lemma validate_circuit_first_error_witness :
  exists i g, sample_circuit !! i = Some g
    /\ validate_gate g (Z.of_nat i) 2 ["RY"; "X"]
       = Err (GateNotSupported "IF" 1).
Proof.
  destruct (validate_circuit_first_error sample_circuit 2 ["RY"; "X"] _ eq_refl) as (_ & i & g & Hi & _ & _ & He).
  exists i, g. by split.
Defined.

(** Normalisation, which the node applies after validation and before it
    stores and forwards a circuit, keeps a valid circuit valid. *)
Theorem normalize_keeps_valid c n sup :
  Forall value_params c -> validate_circuit_logic c n sup = Ok tt ->
  validate_circuit_logic (normalize_gate_params c) n sup = Ok tt.
Proof.
  intros Hp Hc%validate_from_ok. apply validate_from_ok. unfold normalize_gate_params.
  apply Forall_fmap. apply Forall_forall. intros g Hg. rewrite Forall_forall in Hp, Hc.
  apply normalize_valid; auto.
Qed.

Lemma normalize_keeps_valid_witness :
  validate_circuit_logic (normalize_gate_params sample_circuit) 2 sample_gates = Ok tt.
Proof.
  apply (normalize_keeps_valid sample_circuit 2 sample_gates); [|reflexivity].
  repeat constructor.
Defined.
