(* ===== verification/Wire.v ===== *)
(** * Signed announcements and dispatches ([src/domain/p2p.rs])

    The byte layouts the orchestrator signs, and the checks a node makes before
    it acts on an announcement or a dispatch.  Base64, Ed25519 and [serde_json]
    are third-party code and parameters. *)

From stdpp Require Import pretty.
From S2P Require Import Prelude Bytes F64 FloatText Models Features GoJson.

#[local] Set Warnings "-clear-no-such-hyp".

(** ** Data *)

Record Work := mkWork { traffic_bytes : Z; flops : Z }.

Record TaskAnnouncement := mkTaskAnnouncement {
  an_task_id : string;
  global_qubit_count : Z;
  required_features : Z;
  bid_difficulty : Z;
  an_required_votes : Z;
  nonce : Z;
  an_deadline_secs : option Z;
  work : option Work
}.

Record TaskAnnouncementMessage := mkTaskAnnouncementMessage {
  announcement : TaskAnnouncement;
  an_signature : string;
  signature_v2 : option string
}.

Record SubTask := mkSubTask {
  st_task_id : string;
  st_parent_task_id : string;
  st_circuit_id : string;
  st_qubit_count : Z;
  st_original_qubit_count : Z;
  st_slice_id : string;
  st_slice_assignments : list SliceAssignment;
  st_circuit : list Gate;
  st_required_votes : Z;
  st_mps_max_bond_dim : Z;
  st_mps_site_order : list Z;
  st_mps_time_split : Z;
  st_contraction_tree : option ContractionTreeWire;
  st_output_mode : string;
  st_classical_bit_count : Z;
  st_shots : Z;
  st_sample_seed : Z;
  st_observables : list ObservableSpec;
  st_noise_model : option NoiseModel;
  st_security_level : string
}.

Record TaskDispatchMessage := mkTaskDispatchMessage {
  sub_task : SubTask;
  dispatch_signature : string
}.

Inductive WireError :=
| InvalidAnnouncementJson                     (* invalid announcement JSON *)
| WorkBudgetWithoutWork                       (* asks for the work budget without work *)
| WorkWithoutDeadline                         (* announcement work has no deadline *)
| WorkNotSigned                               (* announcement work is not signed *)
| InvalidSignatureBase64 (label : string)     (* invalid {label} signature base64 *)
| InvalidSignatureBytes (label : string)      (* invalid {label} signature bytes *)
| InvalidKeyBase64                            (* invalid orchestrator public key base64 *)
| KeyLength                                   (* orchestrator public key must be 32 bytes *)
| InvalidKey                                  (* invalid orchestrator public key *)
| VerificationFailed (label : string)         (* {label} signature verification failed *)
| CircuitNumber (e : GoJsonError)
| TreeMarshal.                                (* marshal contraction tree *)

(** ** Payloads *)

Definition serialize_announcement_payload (a : TaskAnnouncement) : bytes :=
  as_bytes a.(an_task_id) ++ u32_be a.(global_qubit_count) ++ u32_be a.(required_features)
  ++ u32_be a.(bid_difficulty) ++ u32_be a.(an_required_votes) ++ u64_be a.(nonce).

Definition serialize_announcement_payload_v2 (a : TaskAnnouncement) : option bytes :=
  w ← a.(work);
  deadline ← a.(an_deadline_secs);
  Some (serialize_announcement_payload a ++ u32_be deadline ++ u64_be w.(traffic_bytes)
        ++ u64_be w.(flops)).

Definition serialize_assignment (a : SliceAssignment) : bytes :=
  as_bytes a.(edge_id) ++ [byte_of_Z a.(sa_value)].

(** [(b.len() as u32).to_be_bytes()] followed by [b] *)
Definition len_prefixed (b : bytes) : bytes := u32_be (as_u32 (Z.of_nat (length b))) ++ b.

Section wire.
Context (format_finite : f64 -> text).
(** [serde_json::to_vec] of a contraction tree *)
Context (tree_json : ContractionTreeWire -> option bytes).

Definition serialize_dispatch_payload (t : SubTask) : result WireError bytes :=
  match circuit_signing_json format_finite t.(st_circuit) with
  | Err e => Err (CircuitNumber e)
  | Ok circuit_json =>
    let payload :=
      as_bytes t.(st_task_id) ++ as_bytes t.(st_parent_task_id) ++ as_bytes t.(st_circuit_id)
      ++ as_bytes t.(st_slice_id) ++ u32_be t.(st_qubit_count)
      ++ u32_be t.(st_original_qubit_count) ++ u32_be t.(st_required_votes)
      ++ u32_be (as_u32 (Z.of_nat (length t.(st_slice_assignments))))
      ++ flat_map serialize_assignment t.(st_slice_assignments)
      ++ len_prefixed circuit_json ++ u32_be t.(st_mps_max_bond_dim)
      ++ len_prefixed (as_bytes t.(st_output_mode))
      ++ u64_be t.(st_shots) ++ u32_be t.(st_classical_bit_count) ++ u64_be t.(st_sample_seed)
      ++ len_prefixed (utf8_encode (format_observables_wire_json t.(st_observables)))
      ++ u32_be (as_u32 (Z.of_nat (length t.(st_mps_site_order))))
      ++ flat_map u32_be t.(st_mps_site_order)
      ++ len_prefixed (as_bytes t.(st_security_level))
      ++ (if t.(st_mps_time_split) =? 0 then [] else u32_be t.(st_mps_time_split)) in
    match t.(st_contraction_tree) with
    | Some tree =>
      match tree_json tree with
      | Some json => Ok (payload ++ len_prefixed json)
      | None => Err TreeMarshal
      end
    | None => Ok payload
    end
  end.

(** ** Signatures *)

Context {signature verifying_key : Type}.
Context (b64_decode : string -> option bytes).
Context (signature_from_slice : bytes -> option signature).
Context (key_from_bytes : bytes -> option verifying_key).
Context (verify : verifying_key -> bytes -> signature -> bool).

Definition verify_orchestrator_signature (payload : bytes) (signature_b64 public_key_b64 label : string)
  : result WireError unit :=
  signature_bytes ← ok_or (InvalidSignatureBase64 label) (b64_decode (trim signature_b64));
  sig ← ok_or (InvalidSignatureBytes label) (signature_from_slice signature_bytes);
  public_key_bytes ← ok_or InvalidKeyBase64 (b64_decode (trim public_key_b64));
  if decide (length public_key_bytes = 32%nat) then
    key ← ok_or InvalidKey (key_from_bytes public_key_bytes);
    if verify key payload sig then Ok tt else Err (VerificationFailed label)
  else Err KeyLength.

Definition verify_announcement_message (m : TaskAnnouncementMessage) (public_key_b64 : string)
  : result WireError unit :=
  let a := m.(announcement) in
  if negb (Z.land a.(required_features) FEATURE_WORK_BUDGET =? 0)
     && (bool_decide (a.(work) = None) || bool_decide (a.(an_deadline_secs) = None)) then
    Err WorkBudgetWithoutWork
  else
    match a.(work) with
    | Some _ =>
      signed_payload ← ok_or WorkWithoutDeadline (serialize_announcement_payload_v2 a);
      sig ← ok_or WorkNotSigned m.(signature_v2);
      verify_orchestrator_signature signed_payload sig public_key_b64 "announcement v2"
    | None =>
      verify_orchestrator_signature (serialize_announcement_payload a) m.(an_signature)
        public_key_b64 "announcement"
    end.

(** [serde_json::from_slice] of an announcement *)
Context (message_from_json : bytes -> option TaskAnnouncementMessage).

Definition parse_signed_announcement (payload : bytes) (public_key_b64 : string)
  : result WireError TaskAnnouncement :=
  message ← ok_or InvalidAnnouncementJson (message_from_json payload);
  verify_announcement_message message public_key_b64 ≫= fun _ => Ok message.(announcement).

Definition verify_dispatch_signature (t : SubTask) (signature_b64 public_key_b64 : string)
  : result WireError unit :=
  payload ← serialize_dispatch_payload t;
  verify_orchestrator_signature payload signature_b64 public_key_b64 "dispatch".
End wire.

(** ** The request a dispatch becomes *)

Definition positive (n : Z) : option Z := if 0 <? n then Some n else None.

Definition into_compute_request (t : SubTask) (peer_id : string) : ComputeRequest :=
  mkComputeRequest t.(st_task_id) (Some t.(st_parent_task_id)) t.(st_circuit_id)
    (Some peer_id) t.(st_qubit_count) t.(st_original_qubit_count) t.(st_slice_id)
    t.(st_slice_assignments) t.(st_circuit) (Some t.(st_required_votes))
    (positive t.(st_mps_max_bond_dim))
    (match t.(st_mps_site_order) with [] => None | order => Some order end)
    (positive t.(st_mps_time_split)) t.(st_contraction_tree) t.(st_output_mode)
    (positive t.(st_classical_bit_count)) (positive t.(st_shots)) (positive t.(st_sample_seed))
    t.(st_observables) t.(st_noise_model) t.(st_security_level).

(** ** Lemmas *)

Lemma length_len_prefixed b : length (len_prefixed b) = (4 + length b)%nat.
Proof. unfold len_prefixed. by rewrite length_app, length_u32_be. Qed.

Definition short (b : bytes) : Prop := Z.of_nat (length b) < 2 ^ 32.

(** A length-prefixed field ends where its length says. *)
Lemma len_prefixed_split a b x y :
  short a -> short b -> len_prefixed a ++ x = len_prefixed b ++ y -> a = b /\ x = y.
Proof.
  unfold short, len_prefixed. intros Ha Hb Heq. rewrite <- !app_assoc in Heq.
  apply app_eq_split in Heq as [H1 H2]; [|by rewrite !length_u32_be].
  apply u32_be_inj in H1; [|apply as_u32_range..].
  rewrite !as_u32_id in H1 by (unfold in_u32; lia).
  apply app_eq_split in H2; [done|lia].
Qed.

Record announcement_wf (a : TaskAnnouncement) : Prop := {
  wf_qubits : in_u32 a.(global_qubit_count);
  wf_features : in_u32 a.(required_features);
  wf_difficulty : in_u32 a.(bid_difficulty);
  wf_votes : in_u32 a.(an_required_votes);
  wf_nonce : in_u64 a.(nonce);
  wf_deadline : match a.(an_deadline_secs) with Some d => in_u32 d | None => True end;
  wf_work : match a.(work) with
            | Some w => in_u64 w.(traffic_bytes) /\ in_u64 w.(flops) | None => True end
}.

Ltac split_fields H :=
  repeat match type of H with
  | u32_be _ ++ _ = u32_be _ ++ _ =>
      let H1 := fresh "Hf" in
      apply app_eq_split in H as [H1 H]; [apply u32_be_inj in H1; [|done..]|
        by rewrite !length_u32_be]
  | u64_be _ ++ _ = u64_be _ ++ _ =>
      let H1 := fresh "Hf" in
      apply app_eq_split in H as [H1 H]; [apply u64_be_inj in H1; [|done..]|
        by rewrite !length_u64_be]
  | u32_be _ = u32_be _ => apply u32_be_inj in H; [|done..]
  | u64_be _ = u64_be _ => apply u64_be_inj in H; [|done..]
  end.

Lemma announcement_payload_inj a b :
  announcement_wf a -> announcement_wf b ->
  serialize_announcement_payload a = serialize_announcement_payload b ->
  a.(an_task_id) = b.(an_task_id) /\ a.(global_qubit_count) = b.(global_qubit_count)
  /\ a.(required_features) = b.(required_features) /\ a.(bid_difficulty) = b.(bid_difficulty)
  /\ a.(an_required_votes) = b.(an_required_votes) /\ a.(nonce) = b.(nonce).
Proof.
  intros [] [] Heq. unfold serialize_announcement_payload in Heq.
  apply app_eq_split_r in Heq as [Hid Heq]; [|by autorewrite with wqc].
  apply as_bytes_inj in Hid. split_fields Heq. by split_and!.
Qed.

Lemma payload_v2_some a p :
  serialize_announcement_payload_v2 a = Some p ->
  exists w d, a.(work) = Some w /\ a.(an_deadline_secs) = Some d /\
    p = serialize_announcement_payload a ++ u32_be d ++ u64_be w.(traffic_bytes)
        ++ u64_be w.(flops).
Proof.
  unfold serialize_announcement_payload_v2.
  intros (w & Hw & (d & Hd & [= <-])%option_bind_Some)%option_bind_Some. eauto.
Qed.

Lemma announcement_v2_inj a b p :
  announcement_wf a -> announcement_wf b ->
  serialize_announcement_payload_v2 a = Some p -> serialize_announcement_payload_v2 b = Some p ->
  a = b.
Proof.
  intros Ha Hb (w & d & Hw & Hd & ->)%payload_v2_some (w' & d' & Hw' & Hd' & Heq)%payload_v2_some.
  apply app_eq_split_r in Heq as [Hp Heq]; [|by autorewrite with wqc].
  destruct (announcement_payload_inj a b Ha Hb Hp) as (? & ? & ? & ? & ? & ?).
  destruct Ha as [_ _ _ _ _ Hda Hwa], Hb as [_ _ _ _ _ Hdb Hwb].
  rewrite Hd, Hw, Hd', Hw' in *. destruct Hwa, Hwb. split_fields Heq.
  destruct a, b, w, w'. simpl in *. congruence.
Qed.

(** *** Dispatch payloads *)

Section dispatch.
Context (format_finite : f64 -> text) (tree_json : ContractionTreeWire -> option bytes).

(** Every integer at its width, every length below [2^32], that of the serialised tree
    below [2^30], a circuit a request can hold. *)
Record sub_task_wf (t : SubTask) : Prop := {
  st_wf_qubits : in_u32 t.(st_qubit_count);
  st_wf_original : in_u32 t.(st_original_qubit_count);
  st_wf_votes : in_u32 t.(st_required_votes);
  st_wf_bond : in_u32 t.(st_mps_max_bond_dim);
  st_wf_split : in_u32 t.(st_mps_time_split);
  st_wf_bits : in_u32 t.(st_classical_bit_count);
  st_wf_shots : in_u64 t.(st_shots);
  st_wf_seed : in_u64 t.(st_sample_seed);
  st_wf_order : Forall in_u32 t.(st_mps_site_order)
    /\ Z.of_nat (length t.(st_mps_site_order)) < 2 ^ 32;
  st_wf_values : Forall (fun a => in_u8 a.(sa_value)) t.(st_slice_assignments);
  st_wf_circuit : Forall (valid_wire_gate format_finite) t.(st_circuit);
  st_wf_circuit_len : forall b, circuit_signing_json format_finite t.(st_circuit) = Ok b -> short b;
  st_wf_mode : short (as_bytes t.(st_output_mode));
  st_wf_security : short (as_bytes t.(st_security_level));
  st_wf_observables : short (utf8_encode (format_observables_wire_json t.(st_observables)));
  st_wf_tree : forall b, t.(st_contraction_tree) ≫= tree_json = Some b ->
    Z.of_nat (length b) < 2 ^ 30
}.

(** The identifiers are not length-prefixed; two dispatches are comparable field
    by field when the identifiers have the same lengths. *)
Definition same_id_lengths (t u : SubTask) : Prop :=
  length (as_bytes t.(st_task_id)) = length (as_bytes u.(st_task_id))
  /\ length (as_bytes t.(st_parent_task_id)) = length (as_bytes u.(st_parent_task_id))
  /\ length (as_bytes t.(st_circuit_id)) = length (as_bytes u.(st_circuit_id))
  /\ length (as_bytes t.(st_slice_id)) = length (as_bytes u.(st_slice_id))
  /\ Forall2 (fun a b => length (as_bytes a.(edge_id)) = length (as_bytes b.(edge_id)))
       t.(st_slice_assignments) u.(st_slice_assignments).

(** What the signature fixes, besides the circuit and the observables, which it
    fixes as JSON. *)
Record same_signed_fields (t u : SubTask) : Prop := {
  same_task_id : t.(st_task_id) = u.(st_task_id);
  same_parent : t.(st_parent_task_id) = u.(st_parent_task_id);
  same_circuit_id : t.(st_circuit_id) = u.(st_circuit_id);
  same_slice_id : t.(st_slice_id) = u.(st_slice_id);
  same_qubits : t.(st_qubit_count) = u.(st_qubit_count);
  same_original : t.(st_original_qubit_count) = u.(st_original_qubit_count);
  same_votes : t.(st_required_votes) = u.(st_required_votes);
  same_assignments : t.(st_slice_assignments) = u.(st_slice_assignments);
  same_circuit : map (canon_gate format_finite) t.(st_circuit)
                 = map (canon_gate format_finite) u.(st_circuit);
  same_bond : t.(st_mps_max_bond_dim) = u.(st_mps_max_bond_dim);
  same_mode : t.(st_output_mode) = u.(st_output_mode);
  same_shots : t.(st_shots) = u.(st_shots);
  same_bits : t.(st_classical_bit_count) = u.(st_classical_bit_count);
  same_seed : t.(st_sample_seed) = u.(st_sample_seed);
  same_observables :
    utf8_encode (format_observables_wire_json t.(st_observables))
    = utf8_encode (format_observables_wire_json u.(st_observables));
  same_order : t.(st_mps_site_order) = u.(st_mps_site_order);
  same_security : t.(st_security_level) = u.(st_security_level);
  same_split : t.(st_mps_time_split) = u.(st_mps_time_split);
  same_tree : t.(st_contraction_tree) ≫= tree_json = u.(st_contraction_tree) ≫= tree_json
}.

(** A tree is a struct, and [serde_json] writes a struct as an object. *)
Definition tree_json_object : Prop :=
  forall tree b, tree_json tree = Some b -> exists r, b = Byte.x7b :: r.

(** The optional tail: the time split when it is set, then the tree. *)
Definition split_tail (z : Z) : bytes := if z =? 0 then [] else u32_be z.
Definition tree_tail (o : option bytes) : bytes :=
  match o with Some b => len_prefixed b | None => [] end.

Definition tree_ok (o : option bytes) : Prop :=
  match o with
  | Some b => (exists r, b = Byte.x7b :: r) /\ Z.of_nat (length b) < 2 ^ 30
  | None => True
  end.

Lemma len_prefixed_head b :
  Z.of_nat (length b) < 2 ^ 30 -> exists c l, len_prefixed b = c :: l /\ byte_to_Z c < 64.
Proof.
  intros Hb. unfold len_prefixed, u32_be. cbn [be_bytes app]. eexists _, _. split; [done|].
  rewrite byte_to_of_Z, as_u32_id by (unfold in_u32; lia).
  rewrite Z.shiftr_div_pow2 by lia. change (8 * Z.of_nat 3) with 24.
  rewrite Z.mod_small; [apply Z.div_lt_upper_bound; lia|].
  split; [apply Z.div_pos; lia | apply Z.div_lt_upper_bound; lia].
Qed.

Lemma split_tail_inj z z' o o' :
  in_u32 z -> in_u32 z' -> tree_ok o -> tree_ok o' ->
  split_tail z ++ tree_tail o = split_tail z' ++ tree_tail o' -> z = z' /\ o = o'.
Proof.
  assert (Hmix : forall z b o, Z.of_nat (length b) < 2 ^ 30 -> (exists r, b = Byte.x7b :: r) ->
    tree_ok o -> u32_be z ++ tree_tail o = len_prefixed b -> False).
  { intros z0 b o0 Hb [r ->] Ho Heq. unfold len_prefixed in Heq.
    apply app_eq_split in Heq as [_ Heq]; [|by rewrite !length_u32_be].
    destruct o0 as [b'|]; [|done]. destruct Ho as [_ Hb'].
    destruct (len_prefixed_head b' Hb') as (c & l & Hc & Hlt). cbn [tree_tail] in Heq.
    rewrite Hc in Heq. injection Heq as -> _. vm_compute in Hlt. done. }
  assert (Htree : forall o o', tree_ok o -> tree_ok o' -> tree_tail o = tree_tail o' -> o = o').
  { intros [b|] [b'|] Ho Ho' Heq; try done; cbn [tree_tail] in Heq.
    - rewrite <- (app_nil_r (len_prefixed b)), <- (app_nil_r (len_prefixed b')) in Heq.
      destruct Ho, Ho'. apply len_prefixed_split in Heq as [-> _]; unfold short; done || lia. }
  intros Hz Hz' Ho Ho'. unfold split_tail.
  destruct (Z.eqb_spec z 0) as [->|Hnz], (Z.eqb_spec z' 0) as [->|Hnz']; cbn [app]; intros Heq.
  - split; [done|]. by apply Htree.
  - destruct o as [b|]; [|apply (f_equal length) in Heq; rewrite length_app, length_u32_be in Heq;
      cbn in Heq; lia]. destruct Ho as [Hb Hlt]. destruct (Hmix z' b o' Hlt Hb Ho'). done.
  - destruct o' as [b|]; [|apply (f_equal length) in Heq; rewrite length_app, length_u32_be in Heq;
      cbn in Heq; lia]. destruct Ho' as [Hb Hlt]. destruct (Hmix z b o Hlt Hb Ho). done.
  - apply app_eq_split in Heq as [H1 H2]; [|by rewrite !length_u32_be].
    apply u32_be_inj in H1 as ->; [|done..]. split; [done|]. by apply Htree.
Qed.

Definition header_bytes (t : SubTask) : bytes :=
  u32_be t.(st_qubit_count) ++ u32_be t.(st_original_qubit_count)
  ++ u32_be t.(st_required_votes) ++ u32_be (as_u32 (Z.of_nat (length t.(st_slice_assignments)))).

Definition middle_bytes (t : SubTask) : bytes :=
  u64_be t.(st_shots) ++ u32_be t.(st_classical_bit_count) ++ u64_be t.(st_sample_seed).

Lemma dispatch_payload_form t p :
  serialize_dispatch_payload format_finite tree_json t = Ok p ->
  exists cj, circuit_signing_json format_finite t.(st_circuit) = Ok cj /\
  p = as_bytes t.(st_task_id) ++ as_bytes t.(st_parent_task_id) ++ as_bytes t.(st_circuit_id)
      ++ as_bytes t.(st_slice_id) ++ header_bytes t
      ++ flat_map serialize_assignment t.(st_slice_assignments)
      ++ len_prefixed cj ++ u32_be t.(st_mps_max_bond_dim)
      ++ len_prefixed (as_bytes t.(st_output_mode)) ++ middle_bytes t
      ++ len_prefixed (utf8_encode (format_observables_wire_json t.(st_observables)))
      ++ u32_be (as_u32 (Z.of_nat (length t.(st_mps_site_order))))
      ++ flat_map u32_be t.(st_mps_site_order)
      ++ len_prefixed (as_bytes t.(st_security_level))
      ++ split_tail t.(st_mps_time_split) ++ tree_tail (t.(st_contraction_tree) ≫= tree_json).
Proof.
  unfold serialize_dispatch_payload, header_bytes, middle_bytes, split_tail.
  destruct (circuit_signing_json _ _) as [cj|]; [|done]. intros Hp. exists cj. split; [done|].
  destruct (st_contraction_tree t) as [tree|]; cbn [mbind option_bind].
  - destruct (tree_json tree) as [json|]; [|done].
    match type of Hp with Ok ?x = _ => assert (p = x) as -> by congruence end.
    rewrite <- !app_assoc. done.
  - match type of Hp with Ok ?x = _ => assert (p = x) as -> by congruence end.
    rewrite <- !app_assoc. cbn [tree_tail]. by rewrite !app_nil_r.
Qed.

Lemma header_bytes_inj t u :
  sub_task_wf t -> sub_task_wf u -> header_bytes t = header_bytes u ->
  t.(st_qubit_count) = u.(st_qubit_count)
  /\ t.(st_original_qubit_count) = u.(st_original_qubit_count)
  /\ t.(st_required_votes) = u.(st_required_votes).
Proof.
  intros [] [] Heq. unfold header_bytes in Heq.
  repeat (apply app_eq_split in Heq as [?Hf Heq]; [|by rewrite !length_u32_be]).
  by split_and!; apply u32_be_inj.
Qed.

Lemma middle_bytes_inj t u :
  sub_task_wf t -> sub_task_wf u -> middle_bytes t = middle_bytes u ->
  t.(st_shots) = u.(st_shots) /\ t.(st_classical_bit_count) = u.(st_classical_bit_count)
  /\ t.(st_sample_seed) = u.(st_sample_seed).
Proof.
  intros [] [] Heq. unfold middle_bytes in Heq. split_fields Heq. by split_and!.
Qed.

Lemma assignments_inj l k :
  Forall2 (fun a b => length (as_bytes a.(edge_id)) = length (as_bytes b.(edge_id))) l k ->
  Forall (fun a => in_u8 a.(sa_value)) l -> Forall (fun a => in_u8 a.(sa_value)) k ->
  length (flat_map serialize_assignment l) = length (flat_map serialize_assignment k)
  /\ (flat_map serialize_assignment l = flat_map serialize_assignment k -> l = k).
Proof.
  induction 1 as [|a b l k Hab Hlk IH]; [done|].
  intros [Ha Hl]%Forall_cons [Hb Hk]%Forall_cons. destruct (IH Hl Hk) as [Hlen Hinj].
  assert (Hsz : length (serialize_assignment a) = length (serialize_assignment b))
    by (unfold serialize_assignment; rewrite !length_app, Hab; done).
  cbn [flat_map]. rewrite !length_app. split; [lia|]. intros Heq.
  apply app_eq_split in Heq as [H1 H2]; [|done]. unfold serialize_assignment in H1.
  apply app_eq_split_r in H1 as [Hid Hv]; [|done]. apply as_bytes_inj in Hid.
  injection Hv as Hv. apply (f_equal byte_to_Z) in Hv. unfold in_u8 in Ha, Hb.
  rewrite !byte_to_of_small in Hv by lia. rewrite (Hinj H2). f_equal. destruct a, b.
  simpl in *. congruence.
Qed.

Lemma length_header t : length (header_bytes t) = 16%nat.
Proof. unfold header_bytes. by autorewrite with wqc. Qed.
Lemma length_middle t : length (middle_bytes t) = 20%nat.
Proof. unfold middle_bytes. by autorewrite with wqc. Qed.

Lemma dispatch_payload_inj t u p :
  tree_json_object -> sub_task_wf t -> sub_task_wf u -> same_id_lengths t u ->
  serialize_dispatch_payload format_finite tree_json t = Ok p ->
  serialize_dispatch_payload format_finite tree_json u = Ok p ->
  same_signed_fields t u.
Proof.
  intros Htree Ht Hu (L1 & L2 & L3 & L4 & L5).
  intros (cj & Hcj & Hp)%dispatch_payload_form (cj' & Hcj' & Heq)%dispatch_payload_form.
  rewrite Hp in Heq. clear Hp p. pose proof Ht as []. pose proof Hu as [].
  destruct (assignments_inj _ _ L5) as [Hlen Hassign]; [done..|].
  apply app_eq_split in Heq as [E1 Heq]; [|done]. apply app_eq_split in Heq as [E2 Heq]; [|done].
  apply app_eq_split in Heq as [E3 Heq]; [|done]. apply app_eq_split in Heq as [E4 Heq]; [|done].
  apply app_eq_split in Heq as [E5 Heq]; [|by rewrite !length_header].
  apply app_eq_split in Heq as [E6 Heq]; [|done].
  apply len_prefixed_split in Heq as [E7 Heq]; [|by auto..].
  apply app_eq_split in Heq as [E8 Heq]; [|by rewrite !length_u32_be].
  apply len_prefixed_split in Heq as [E9 Heq]; [|done..].
  apply app_eq_split in Heq as [E10 Heq]; [|by rewrite !length_middle].
  apply len_prefixed_split in Heq as [E11 Heq]; [|done..].
  apply app_eq_split in Heq as [E12 Heq]; [|by rewrite !length_u32_be].
  assert (Hol : length (st_mps_site_order t) = length (st_mps_site_order u)).
  { apply u32_be_inj in E12; [|apply as_u32_range..].
    rewrite !as_u32_id in E12 by (unfold in_u32; lia). lia. }
  apply app_eq_split in Heq as [E13 Heq]; [|rewrite !length_flat_map_u32_be; lia].
  apply len_prefixed_split in Heq as [E14 Heq]; [|done..].
  assert (Hok : forall x, sub_task_wf x -> tree_ok (x.(st_contraction_tree) ≫= tree_json)).
  { intros x Hx. pose proof (st_wf_tree x Hx) as Hb. destruct (st_contraction_tree x) as [tree|]; cbn in *; [|done].
    destruct (tree_json tree) eqn:E; [|done]. split; [by eapply Htree|by apply Hb]. }
  apply split_tail_inj in Heq as [E15 E16]; [|by auto..].
  apply header_bytes_inj in E5 as (? & ? & ?); [|done..].
  apply middle_bytes_inj in E10 as (? & ? & ?); [|done..].
  apply u32_be_inj in E8; [|done..].
  apply flat_map_u32_be_inj in E13; [|naive_solver..].
  split; eauto using as_bytes_inj. rewrite <- E7 in Hcj'. by eapply circuit_json_inj.
Qed.
End dispatch.

(** *** Verification *)

Section verification.
Context {signature verifying_key : Type}.
Context (b64_decode : string -> option bytes) (signature_from_slice : bytes -> option signature).
Context (key_from_bytes : bytes -> option verifying_key).
Context (verify : verifying_key -> bytes -> signature -> bool).

Abbreviation check := (verify_orchestrator_signature b64_decode signature_from_slice
  key_from_bytes verify).
Abbreviation check_message := (verify_announcement_message b64_decode signature_from_slice
  key_from_bytes verify).

(** The signature and the key decode, the key has 32 bytes, and the signature
    over the payload verifies. *)
Definition signed (payload : bytes) (signature_b64 public_key_b64 : string) : Prop :=
  exists sb sig kb key,
    b64_decode (trim signature_b64) = Some sb /\ signature_from_slice sb = Some sig
    /\ b64_decode (trim public_key_b64) = Some kb /\ length kb = 32%nat
    /\ key_from_bytes kb = Some key /\ verify key payload sig = true.

Lemma verify_signed payload s k lbl : check payload s k lbl = Ok tt <-> signed payload s k.
Proof.
  unfold verify_orchestrator_signature, signed. split.
  - intros H. res_simpl. unfold ok_or in *. repeat case_match; simplify_eq/=. eauto 10.
  - intros (sb & sig & kb & key & -> & Hs & -> & Hl & Hk & Hv). cbn. rewrite Hs. cbn.
    rewrite decide_True by done. by rewrite Hk; cbn; rewrite Hv.
Qed.

(** What an accepted announcement promises. *)
Definition announcement_signed (m : TaskAnnouncementMessage) (k : string) : Prop :=
  let a := m.(announcement) in
  (Z.land a.(required_features) FEATURE_WORK_BUDGET <> 0 ->
    is_Some a.(work) /\ is_Some a.(an_deadline_secs)) /\
  match a.(work) with
  | Some _ => exists p s, serialize_announcement_payload_v2 a = Some p
                /\ m.(signature_v2) = Some s /\ signed p s k
  | None => signed (serialize_announcement_payload a) m.(an_signature) k
  end.

Lemma check_message_ok m k : check_message m k = Ok tt <-> announcement_signed m k.
Proof.
  unfold verify_announcement_message, announcement_signed.
  destruct m as [a s1 s2]. cbn [announcement signature_v2 an_signature].
  destruct (Z.eqb_spec (Z.land (required_features a) FEATURE_WORK_BUDGET) 0) as [Hz|Hnz];
    cbn [negb andb].
  - destruct (work a) as [w|] eqn:Hw; [|rewrite verify_signed; naive_solver].
    destruct (serialize_announcement_payload_v2 a) as [p|]; cbn; [|naive_solver].
    destruct s2 as [s|]; cbn; [|naive_solver]. rewrite verify_signed. naive_solver.
  - destruct (work a) as [w|] eqn:Hw; cbn [orb].
    2: { rewrite bool_decide_eq_true_2 by done. cbn. split; [done|].
         intros [[[] _] _]; done. }
    rewrite bool_decide_eq_false_2 by done. cbn [orb].
    destruct (an_deadline_secs a) as [d|] eqn:Hd; cbn.
    2: { split; [done|]. intros [[_ []] _]; done. }
    destruct (serialize_announcement_payload_v2 a) as [p|]; cbn; [|naive_solver].
    destruct s2 as [s|]; cbn; [|naive_solver]. rewrite verify_signed. naive_solver.
Qed.
End verification.

(** ** Theorems *)

(** A toy signature scheme (a checksum letter) to exercise the hypotheses. *)
Definition toy_tag (payload : bytes) : bytes :=
  [byte_of_Z (65 + fold_left (fun a b => a + byte_to_Z b) payload 0 mod 26)].
Definition toy_decode (s : string) : option bytes := Some (as_bytes s).
Definition toy_verify (key payload sig : bytes) : bool := bool_decide (sig = toy_tag payload).
Definition toy_key : string := "kkkkkkkkkkkkkkkkkkkkkkkkkkkkkkkk".

Definition sample_announcement : TaskAnnouncement :=
  mkTaskAnnouncement "task-1" 12 16 1 3 77 (Some 34) (Some (mkWork 1000 2000)).
Definition sample_message : TaskAnnouncementMessage :=
  mkTaskAnnouncementMessage sample_announcement ""
    (of_bytes ∘ toy_tag <$> serialize_announcement_payload_v2 sample_announcement).

(** The byte layouts an announcement is signed over are injective: equal v1
    payloads come from announcements with the same v1 fields, and equal v2
    payloads from the same announcement, deadline and planner counts included. *)
Theorem announcement_payloads_injective a b :
  announcement_wf a -> announcement_wf b ->
  (serialize_announcement_payload a = serialize_announcement_payload b ->
   a.(an_task_id) = b.(an_task_id) /\ a.(global_qubit_count) = b.(global_qubit_count)
   /\ a.(required_features) = b.(required_features) /\ a.(bid_difficulty) = b.(bid_difficulty)
   /\ a.(an_required_votes) = b.(an_required_votes) /\ a.(nonce) = b.(nonce)) /\
  (forall p, serialize_announcement_payload_v2 a = Some p ->
   serialize_announcement_payload_v2 b = Some p -> a = b).
Proof.
  intros Ha Hb. split; [by apply announcement_payload_inj|].
  intros p. by apply announcement_v2_inj.
Qed.

Lemma sample_announcement_wf : announcement_wf sample_announcement.
Proof. by split; vm_compute. Qed.

Lemma announcement_payloads_injective_witness : sample_announcement = sample_announcement.
Proof.
  destruct (serialize_announcement_payload_v2 sample_announcement) as [p|] eqn:E;
    [|discriminate E].
  exact (proj2 (announcement_payloads_injective _ _ sample_announcement_wf
    sample_announcement_wf) p E E).
Defined.

(** C29. An announcement is accepted exactly when it is signed as its content
    demands: one that carries planner counts by a v2 signature that covers them
    and the deadline, any other by a v1 signature, and one that sets feature bit
    4 carries both counts and deadline, so a relay cannot strip them. *)
Theorem announcement_accepted_iff {sig vk} (decode : string -> option bytes)
  (from_slice : bytes -> option sig) (key_of : bytes -> option vk) verify m k :
  verify_announcement_message decode from_slice key_of verify m k = Ok tt
  <-> announcement_signed decode from_slice key_of verify m k.
Proof. apply check_message_ok. Qed.

(** The v1 announcement whose payload is the v2 payload of [a]: the first twenty
    bytes past the identifier join the identifier. *)
Definition replayed_id (a : TaskAnnouncement) : string :=
  of_bytes (as_bytes a.(an_task_id) ++ u32_be a.(global_qubit_count)
    ++ u32_be a.(required_features) ++ u32_be a.(bid_difficulty)
    ++ u32_be a.(an_required_votes) ++ u32_be (Z.shiftr a.(nonce) 32)).
Definition replayed (a : TaskAnnouncement) (w : Work) (d : Z) : TaskAnnouncement :=
  mkTaskAnnouncement (replayed_id a) (as_u32 a.(nonce)) d (Z.shiftr w.(traffic_bytes) 32)
    (as_u32 w.(traffic_bytes)) w.(flops) None None.

Lemma replayed_payload a w d :
  a.(work) = Some w -> a.(an_deadline_secs) = Some d ->
  serialize_announcement_payload_v2 a = Some (serialize_announcement_payload (replayed a w d)).
Proof.
  intros Hw Hd. unfold serialize_announcement_payload_v2. rewrite Hw, Hd.
  cbn [mbind option_bind]. f_equal.
  unfold serialize_announcement_payload, replayed, replayed_id.
  cbn [an_task_id global_qubit_count required_features bid_difficulty an_required_votes nonce].
  rewrite as_bytes_of_bytes, (u64_be_halves (nonce a)), (u64_be_halves (traffic_bytes w)).
  by rewrite <- !app_assoc.
Qed.

(** The two layouts are not domain separated: the v2 signature of an
    accepted announcement is also accepted as the v1 signature of another
    announcement, whose identifier is longer and whose features are the deadline,
    when that deadline does not have bit 4 set. *)
Theorem v2_signature_accepted_as_v1 {sig vk} (decode : string -> option bytes)
  (from_slice : bytes -> option sig) (key_of : bytes -> option vk) verify m k w d s :
  verify_announcement_message decode from_slice key_of verify m k = Ok tt ->
  m.(announcement).(work) = Some w -> m.(announcement).(an_deadline_secs) = Some d ->
  Z.land d FEATURE_WORK_BUDGET = 0 -> m.(signature_v2) = Some s ->
  verify_announcement_message decode from_slice key_of verify
    (mkTaskAnnouncementMessage (replayed m.(announcement) w d) s None) k = Ok tt
  /\ (length (as_bytes (an_task_id (replayed m.(announcement) w d)))
      = length (as_bytes m.(announcement).(an_task_id)) + 20)%nat.
Proof.
  intros [_ H]%check_message_ok Hw Hd Hbit Hs. rewrite Hw in H.
  destruct H as (p & s' & Hp & Hs' & Hsig). split.
  - apply check_message_ok. unfold announcement_signed. cbn. split; [done|].
    rewrite (replayed_payload _ w d Hw Hd) in Hp. by simplify_eq.
  - unfold replayed, replayed_id. cbn [an_task_id]. rewrite as_bytes_of_bytes.
    autorewrite with wqc. lia.
Qed.

Lemma v2_signature_accepted_as_v1_witness :
  verify_announcement_message toy_decode Some Some toy_verify
    (mkTaskAnnouncementMessage (replayed sample_announcement (mkWork 1000 2000) 34) "E" None)
    toy_key = Ok tt
  /\ valid_utf8_chars (replayed_id sample_announcement) = true.
Proof.
  split; [|vm_compute; reflexivity].
  apply (v2_signature_accepted_as_v1 toy_decode Some Some toy_verify sample_message toy_key
    (mkWork 1000 2000) 34 "E"); vm_compute; reflexivity.
Defined.

(** C22. A dispatch signature fixes every field it serialises: two sub-tasks with
    the same payload, and identifiers of the same lengths, agree on the
    identifiers, the widths, the slice assignments, the circuit, the sampling
    parameters, the site order, the time split and the serialised contraction
    tree.  For this the texts of the two circuits, modes, levels and observables must
    be shorter than 4 GiB, as their lengths are sent in 32 bits, and those of the two
    trees shorter than 1 GiB: the optional time split and the optional tree follow one
    another without a tag, and a split can only be told from the length of a tree
    because trees are that short and start with a brace. *)
Theorem dispatch_payload_injective format tree_json t u p :
  tree_json_object tree_json -> sub_task_wf format tree_json t -> sub_task_wf format tree_json u ->
  same_id_lengths t u ->
  serialize_dispatch_payload format tree_json t = Ok p ->
  serialize_dispatch_payload format tree_json u = Ok p ->
  same_signed_fields format tree_json t u.
Proof. apply dispatch_payload_inj. Qed.

Definition sample_tree : ContractionTreeWire := mkContractionTreeWire None [] 64.
(** The JSON of a tree without nodes. *)
Definition quoted (s : string) : bytes := Byte.x22 :: as_bytes s ++ [Byte.x22].
Definition sample_tree_json (t : ContractionTreeWire) : option bytes :=
  match t.(kind), t.(nodes) with
  | None, [] => Some (Byte.x7b :: quoted "nodes" ++ as_bytes ":[]," ++ quoted "peak_bytes"
                        ++ as_bytes (":" +:+ pretty t.(peak_bytes) +:+ "}"))
  | _, _ => None
  end.
Definition planned (tree : ContractionTreeWire) : SubTask :=
  mkSubTask "task" "parent" "circuit" 2 2 "0" [mkSliceAssignment "e1" 1] json_circuit 3 64
    [1; 0] 5 (Some tree) "sample" 2 1024 7 [mkObservableSpec "z" sample_terms] None "std".
Definition sample_sub_task : SubTask := planned sample_tree.

Lemma planned_wf peak :
  peak = 64 \/ peak = 65 -> sub_task_wf sample_format sample_tree_json (planned (mkContractionTreeWire None [] peak)).
Proof.
  intros Hpeak. split; [done|done|done|done|done|done|done|done|..].
  - split; [by repeat (apply Forall_cons; split; [vm_compute; by split|])|]. done.
  - apply Forall_cons; split; [by vm_compute|constructor].
  - apply json_circuit_valid.
  - intros b Hb. vm_compute in Hb. injection Hb as <-. vm_compute. done.
  - vm_compute. done.
  - vm_compute. done.
  - vm_compute. done.
  - intros b Hb. destruct Hpeak as [->| ->]; vm_compute in Hb; injection Hb as <-; done.
Qed.

Lemma sample_tree_json_object : tree_json_object sample_tree_json.
Proof. intros [[k|] [|n l] peak] b; cbn; try done. intros [= <-]. by eexists. Qed.

(** [sub_task.noise_model = n] *)
Definition with_noise_model (n : option NoiseModel) (t : SubTask) : SubTask :=
  mkSubTask t.(st_task_id) t.(st_parent_task_id) t.(st_circuit_id) t.(st_qubit_count)
    t.(st_original_qubit_count) t.(st_slice_id) t.(st_slice_assignments) t.(st_circuit)
    t.(st_required_votes) t.(st_mps_max_bond_dim) t.(st_mps_site_order) t.(st_mps_time_split)
    t.(st_contraction_tree) t.(st_output_mode) t.(st_classical_bit_count) t.(st_shots)
    t.(st_sample_seed) t.(st_observables) n t.(st_security_level).

(** The payload does not see the noise model, so the theorem compares a sub-task with
    another; and a different tree makes a different payload. *)
Definition noisy_sub_task : SubTask :=
  with_noise_model (Some (mkNoiseModel (Some (f64_dec 5 1)) None)) sample_sub_task.
Lemma dispatch_payload_injective_witness :
  same_signed_fields sample_format sample_tree_json sample_sub_task noisy_sub_task
  /\ forall p, serialize_dispatch_payload sample_format sample_tree_json sample_sub_task = Ok p ->
     serialize_dispatch_payload sample_format sample_tree_json
       (planned (mkContractionTreeWire None [] 65)) <> Ok p.
Proof.
  assert (Hwf : forall peak, peak = 64 \/ peak = 65 -> sub_task_wf sample_format sample_tree_json
    (planned (mkContractionTreeWire None [] peak))) by (exact planned_wf).
  pose proof (Hwf 64 (or_introl eq_refl)) as H64. fold sample_tree in H64.
  pose proof (Hwf 65 (or_intror eq_refl)) as H65.
  assert (Hn : sub_task_wf sample_format sample_tree_json noisy_sub_task) by (destruct H64; by split).
  split.
  - destruct (serialize_dispatch_payload sample_format sample_tree_json sample_sub_task)
      as [p|e] eqn:E; [|vm_compute in E; discriminate E].
    apply (dispatch_payload_injective sample_format sample_tree_json sample_sub_task noisy_sub_task p
      sample_tree_json_object H64 Hn); try done. repeat split. repeat constructor.
  - intros p H1 H2.
    assert (H : same_signed_fields sample_format sample_tree_json sample_sub_task
      (planned (mkContractionTreeWire None [] 65))).
    { apply (dispatch_payload_injective sample_format sample_tree_json _ _ p
        sample_tree_json_object H64 H65); try done. repeat split. repeat constructor. }
    apply same_tree in H. vm_compute in H. discriminate H.
Defined.

(** The noise model is the one field of a dispatch that the signature does
    not cover: whatever noise model is put in place of the signed one, the
    signature still verifies, and the request the node computes carries it. *)
Theorem noise_model_not_signed {sig vk} format tree_json (decode : string -> option bytes)
  (from_slice : bytes -> option sig) (key_of : bytes -> option vk) verify t s k n peer :
  verify_dispatch_signature format tree_json decode from_slice key_of verify
    (with_noise_model n t) s k
  = verify_dispatch_signature format tree_json decode from_slice key_of verify t s k
  /\ noise_model (into_compute_request (with_noise_model n t) peer) = n.
Proof. by destruct t. Qed.
