(* ===== verification/WorkLedger.v ===== *)
(** * The work ledger ([src/domain/work.rs])

    Whether the node can finish an announced sub-task in time, given what it
    holds and has bid on.  The three hash maps are finite maps; the order in
    which [values()] walks a map is unspecified, so it is a parameter, a
    rearrangement of the entries.  An [Instant] or a [Duration] is a number of
    nanoseconds; [duration_since] saturates at zero. *)

From S2P Require Import Prelude F64 Models Wire.

(** ** Definitions *)

Definition SEC : Z := 1000000000.
Definition from_secs (s : Z) : Z := s * SEC.

Definition ANNOUNCED_TTL : Z := from_secs (6 * 60 * 60).
Definition RESERVATION_TTL : Z := from_secs 15.

Definition SECONDS_PER_BYTE : f64 * f64 := (f64_dec 1 13, f64_dec 1 6).
Definition SECONDS_PER_FLOP : f64 * f64 := (f64_dec 1 14, f64_dec 1 6).

Record TnRates := mkTnRates { seconds_per_byte : f64; seconds_per_flop : f64 }.

Definition within (x : f64) (bounds : f64 * f64) : bool :=
  f64_is_finite x && f64_geb x bounds.1 && f64_leb x bounds.2.

Definition from_sysinfo (per_byte per_flop : option f64) : option TnRates :=
  match per_byte, per_flop with
  | Some b, Some f =>
    if within b SECONDS_PER_BYTE && within f SECONDS_PER_FLOP then Some (mkTnRates b f) else None
  | _, _ => None
  end.

Definition seconds (rates : TnRates) (w : Work) : f64 :=
  f64_add (f64_mul (f64_of_Z w.(traffic_bytes)) rates.(seconds_per_byte))
          (f64_mul (f64_of_Z w.(flops)) rates.(seconds_per_flop)).

(** [now.duration_since(at)] *)
Definition duration_since (now at_ : Z) : Z := Z.max 0 (now - at_).

(** [Duration::as_secs_f64] *)
Definition as_secs_f64 (d : Z) : f64 :=
  f64_add (f64_of_Z (d / SEC)) (f64_div (f64_of_Z (d mod SEC)) (f64_of_Z SEC)).

(** [None] when the deadline has passed. *)
Definition compute_timeout (own_secs : Z) (budget : option Budget) (waited : Z) : option Z :=
  let own := from_secs own_secs in
  match budget with
  | None => Some own
  | Some b =>
    let deadline := from_secs b.(deadline_secs) in
    if deadline <? waited then None (* checked_sub *)
    else
      let left := deadline - waited in
      if left =? 0 then None else Some (Z.min own left)
  end.

Record BudgetPolicy := mkBudgetPolicy {
  rates : TnRates;
  overhead_secs : f64;
  margin : f64;
  own_timeout_secs : Z;
  unknown_secs : f64
}.

Record Held := mkHeld { held_expected_secs : option f64; started : option Z }.

Record WorkLedger := mkWorkLedger {
  announced : gmap string (Budget * Z);
  reserved : gmap string (f64 * Z);
  held : gmap string Held
}.

Definition empty_ledger : WorkLedger := mkWorkLedger ∅ ∅ ∅.

(** What one held sub-task still costs. *)
Definition held_secs (now : Z) (unknown : f64) (h : Held) : f64 :=
  match h.(held_expected_secs), h.(started) with
  | None, _ => unknown
  | Some expected, None => expected
  | Some expected, Some at_ =>
    let left := f64_sub expected (as_secs_f64 (duration_since now at_)) in
    if f64_gtb left f64_zero then left else expected
  end.

(** [Iterator::sum] of floats starts at [-0.0]. *)
Definition f64_sum (l : list f64) : f64 := foldl f64_add f64_neg_zero l.

(** A lapsed reservation is one whose time is up. *)
Definition live (now : Z) (r : f64 * Z) : Prop := now < r.2.
#[export] Instance live_dec now r : Decision (live now r).
Proof. unfold live. apply _. Defined.

Section ledger.
(** The walk over the values of a map. *)
Context (values : forall A : Type, gmap string A -> list A).
Arguments values {A} _.

Definition queued_secs (l : WorkLedger) (now : Z) (unknown : f64) : f64 :=
  let held := f64_sum (map (held_secs now unknown) (values l.(held))) in
  let reserved := f64_sum (map fst (filter (live now) (values l.(reserved)))) in
  f64_add held reserved.

(** [self.reserved.retain(|_, (_, until)| now < *until)] *)
Definition drop_lapsed (now : Z) (l : WorkLedger) : WorkLedger :=
  mkWorkLedger l.(announced) (filter (fun kv => live now kv.2) l.(reserved)) l.(held).

Definition drop_announced (now : Z) (m : gmap string (Budget * Z)) : gmap string (Budget * Z) :=
  filter (fun kv => duration_since now kv.2.2 < ANNOUNCED_TTL) m.

Definition decide_work (l : WorkLedger) (task_id : string) (w : Work) (deadline_secs : Z)
  (policy : BudgetPolicy) (now : Z) : WorkLedger * result f64 Budget :=
  let l := drop_lapsed now l in
  let own := f64_add (seconds policy.(rates) w) policy.(overhead_secs) in
  let total := f64_add (queued_secs l now policy.(unknown_secs)) own in
  let limit := f64_mul policy.(margin) (f64_of_Z (Z.min policy.(own_timeout_secs) deadline_secs)) in
  if f64_gtb total limit then (l, Err total)
  else
    let budget := mkBudget deadline_secs own in
    (mkWorkLedger
       (<[task_id := (budget, now)]> (drop_announced now l.(announced)))
       (<[task_id := (own, now + RESERVATION_TTL)]> l.(reserved))
       l.(held),
     Ok budget).

Definition budget_of (l : WorkLedger) (parent_task_id : string) : option Budget :=
  fst <$> l.(announced) !! parent_task_id.

Definition hold (l : WorkLedger) (sub_task_id : string) (parent_task_id : option string)
  (budget : option Budget) : WorkLedger :=
  let reserved :=
    match parent_task_id with
    | Some parent => delete parent l.(reserved)
    | None => l.(reserved)
    end in
  mkWorkLedger l.(announced) reserved
    (<[sub_task_id := mkHeld (expected_secs <$> budget) None]> l.(held)).

Definition start (l : WorkLedger) (sub_task_id : string) (now : Z) : WorkLedger :=
  mkWorkLedger l.(announced) l.(reserved)
    (alter (fun h => mkHeld h.(held_expected_secs) (Some now)) sub_task_id l.(held)).

Definition release (l : WorkLedger) (sub_task_id : string) : WorkLedger :=
  mkWorkLedger l.(announced) l.(reserved) (delete sub_task_id l.(held)).
End ledger.

(** The values in key order, one walk there is. *)
Definition map_values (A : Type) (m : gmap string A) : list A := snd <$> map_to_list m.

Definition sample_policy : BudgetPolicy :=
  mkBudgetPolicy (mkTnRates (f64_dec 1 9) (f64_dec 1 9)) (f64_of_Z 5) (f64_dec 5 1) 300
    (f64_of_Z 30).
Definition gb_work (gb : Z) : Work := mkWork (gb * 1000000000) 0.

(** The unit tests' scenarios. *)
Example bids_within_half_the_limit :
  is_ok (decide_work map_values empty_ledger "a" (gb_work 100) 330 sample_policy 0).2 = true
  /\ is_ok (decide_work map_values
      (decide_work map_values empty_ledger "a" (gb_work 100) 330 sample_policy 0).1
      "b" (gb_work 100) 330 sample_policy 0).2 = false.
Proof. by vm_compute. Qed.
Example unknown_held_work :
  f64_eqb (queued_secs map_values
    (hold (hold empty_ledger "x" None None) "y" (Some "p") None) 0 (f64_of_Z 30)) (f64_of_Z 60)
  = true.
Proof. by vm_compute. Qed.

(** ** Invariant

    Every estimate in the ledger is a number that is not negative, so their sum
    is one too and the comparison with the limit means what it says. *)

Record policy_wf (p : BudgetPolicy) : Prop := {
  pol_byte : f64_pos_finite p.(rates).(seconds_per_byte);
  pol_flop : f64_pos_finite p.(rates).(seconds_per_flop);
  pol_overhead : f64_nonneg p.(overhead_secs);
  pol_margin : f64_pos_finite p.(margin);
  pol_own : 0 <= p.(own_timeout_secs);
  pol_unknown : f64_nonneg p.(unknown_secs)
}.

Definition budget_nonneg (b : option Budget) : Prop :=
  match b with Some b => f64_nonneg b.(expected_secs) | None => True end.

Definition work_wf (w : Work) : Prop := 0 <= w.(traffic_bytes) /\ 0 <= w.(flops).

(** [decide]'s limit *)
Definition limit_of (p : BudgetPolicy) (deadline_secs : Z) : f64 :=
  f64_mul p.(margin) (f64_of_Z (Z.min p.(own_timeout_secs) deadline_secs)).

Record ledger_wf (l : WorkLedger) : Prop := {
  lw_announced : map_Forall (fun _ a => f64_nonneg a.1.(expected_secs)) l.(announced);
  lw_reserved : map_Forall (fun _ r => f64_nonneg r.1) l.(reserved);
  lw_held : map_Forall (fun _ h => match h.(held_expected_secs) with
                                   | Some x => f64_nonneg x | None => True end) l.(held)
}.

(** ** Lemmas *)

Lemma f64_sum_nonneg l : Forall f64_nonneg l -> f64_nonneg (f64_sum l).
Proof.
  unfold f64_sum. assert (H : f64_nonneg f64_neg_zero) by done. revert H.
  generalize f64_neg_zero as a. intros a Ha Hl. revert a Ha.
  induction Hl as [|x l Hx _ IH]; intros a Ha; cbn; [done|]. apply IH.
  by apply f64_add_nonneg.
Qed.

Lemma held_secs_nonneg now unknown h :
  f64_nonneg unknown -> match h.(held_expected_secs) with Some x => f64_nonneg x | None => True end ->
  f64_nonneg (held_secs now unknown h).
Proof.
  intros Hu Hh. unfold held_secs. destruct (held_expected_secs h) as [x|]; [|done].
  destruct (started h) as [t|]; [|done]. case_match eqn:E; [|done]. by apply f64_gt_zero_nonneg.
Qed.

Lemma within_pos x lo hi :
  f64_pos_finite lo -> within x (lo, hi) = true -> f64_pos_finite x.
Proof.
  unfold within. cbn. intros Hlo [[Hfin Hge]%andb_prop _]%andb_prop.
  destruct lo as [| | |sl ml el]; cbn in Hlo; subst; try done.
  by destruct x as [[]|[]| |[] m e].
Qed.

Lemma from_sysinfo_wf b f r :
  from_sysinfo b f = Some r -> f64_pos_finite r.(seconds_per_byte) /\ f64_pos_finite r.(seconds_per_flop).
Proof.
  unfold from_sysinfo. destruct b as [b|], f as [f|]; try done.
  destruct (within b _) eqn:Hb, (within f _) eqn:Hf; try done. intros [= <-].
  split; [eapply (within_pos _ _ _ _ Hb)|eapply (within_pos _ _ _ _ Hf)].
  Unshelve. all: vm_compute; done.
Qed.

Lemma seconds_nonneg r w :
  f64_pos_finite r.(seconds_per_byte) -> f64_pos_finite r.(seconds_per_flop) -> work_wf w ->
  f64_nonneg (seconds r w).
Proof.
  intros Hb Hf [? ?]. apply f64_add_nonneg; apply f64_mul_nonneg; try done;
    by apply f64_of_Z_nonneg.
Qed.

Section lemmas.
Context (values : forall A : Type, gmap string A -> list A).
Hypothesis values_perm : forall A (m : gmap string A), values A m ≡ₚ snd <$> map_to_list m.

Lemma values_Forall {A} (P : A -> Prop) (m : gmap string A) :
  map_Forall (fun _ x => P x) m -> Forall P (values A m).
Proof.
  intros Hm. rewrite (values_perm A m). apply Forall_fmap, Forall_forall.
  intros [k x] Hin. apply elem_of_map_to_list in Hin. by apply (Hm k).
Qed.

Lemma queued_secs_nonneg l now unknown :
  ledger_wf l -> f64_nonneg unknown -> f64_nonneg (queued_secs values l now unknown).
Proof.
  intros [_ Hr Hh] Hu. apply f64_add_nonneg; apply f64_sum_nonneg.
  - apply Forall_fmap. apply (values_Forall (fun h => match held_expected_secs h with
      Some x => f64_nonneg x | None => True end)) in Hh.
    eapply Forall_impl; [exact Hh|]. intros h ?. by apply held_secs_nonneg.
  - apply Forall_fmap. apply Forall_filter_sub.
    by apply (values_Forall (fun r => f64_nonneg r.1)).
Qed.

Lemma drop_lapsed_wf now l : ledger_wf l -> ledger_wf (drop_lapsed now l).
Proof.
  intros [Ha Hr Hh]. split; try done. cbn. by apply map_Forall_filter_sub.
Qed.

Lemma own_nonneg p w :
  policy_wf p -> work_wf w -> f64_nonneg (f64_add (seconds p.(rates) w) p.(overhead_secs)).
Proof. intros [] ?. apply f64_add_nonneg; [|done]. by apply seconds_nonneg. Qed.

Lemma decide_work_wf l id w d p now :
  ledger_wf l -> policy_wf p -> work_wf w -> ledger_wf (decide_work values l id w d p now).1.
Proof.
  intros Hl Hp Hw. pose proof (drop_lapsed_wf now l Hl) as [Ha Hr Hh].
  pose proof (own_nonneg p w Hp Hw) as Hown. unfold decide_work.
  case_match; [by apply drop_lapsed_wf|]. cbn in *. split; cbn; try done.
  - apply map_Forall_insert_2; [done|]. by apply map_Forall_filter_sub.
  - by apply map_Forall_insert_2.
Qed.

Lemma hold_wf l id parent b :
  ledger_wf l -> budget_nonneg b ->
  ledger_wf (hold l id parent b).
Proof.
  intros [Ha Hr Hh] Hb. split; cbn; [done| |].
  - destruct parent; [by apply map_Forall_delete|done].
  - apply map_Forall_insert_2; [|done]. by destruct b.
Qed.

Lemma start_wf l id now : ledger_wf l -> ledger_wf (start l id now).
Proof.
  intros [Ha Hr Hh]. split; cbn; try done. intros k h. rewrite lookup_alter_Some.
  intros [(-> & h' & Hk & ->)|[_ Hk]]; [|by apply (Hh k)]. by apply (Hh k) in Hk.
Qed.

Lemma release_wf l id : ledger_wf l -> ledger_wf (release l id).
Proof. intros [Ha Hr Hh]. split; cbn; try done. by apply map_Forall_delete. Qed.

Lemma budget_of_wf l id b : ledger_wf l -> budget_of l id = Some b -> f64_nonneg b.(expected_secs).
Proof.
  intros [Ha _ _] Hb. unfold budget_of in Hb. apply fmap_Some in Hb as ([b' t] & Hb & ->).
  by apply (Ha id) in Hb.
Qed.

(** *** Budgets are finite

    The node stores the budget with the task as JSON, which has no infinity: an
    estimate that overflowed would be written as [null] and not be read again.  It
    never is announced, because it is above the limit. *)

(** A budget as JSON can hold it. *)
Definition budget_fine (b : Budget) : Prop :=
  in_u32 b.(deadline_secs) /\ f64_nonneg b.(expected_secs)
  /\ f64_is_finite b.(expected_secs) = true.

(** What a margin is: a binary64 number, at most one. *)
Definition margin_ok (m : f64) : Prop :=
  SpecFloat.valid_binary F64_PREC F64_EMAX m = true /\ f64_leb m (f64_of_Z 1) = true.

Record ledger_ok (l : WorkLedger) : Prop := {
  lo_wf : ledger_wf l;
  lo_announced : map_Forall (fun _ a => budget_fine a.1) l.(announced)
}.

Lemma limit_finite p d :
  f64_pos_finite p.(margin) -> margin_ok p.(margin) -> 0 <= p.(own_timeout_secs) -> in_u32 d ->
  f64_is_finite (limit_of p d) = true.
Proof.
  unfold limit_of, margin_ok, in_u32. intros Hpos [Hv Hle] Hown Hd.
  assert (Hz : - 2 ^ 64 < Z.min p.(own_timeout_secs) d < 2 ^ 64) by lia.
  destruct (margin p) as [| | |s m e]; cbn in Hpos; try done. subst s.
  pose proof (canonical_mantissa_small _ _ _ Hv). pose proof (leb_one_exponent _ _ Hle).
  destruct (f64_of_Z_small _ Hz) as (s & [->|(k & x & -> & Hk & Hx)]); [done|].
  unfold f64_mul, SpecFloat.SFmul.
  destruct (binary_round_aux_small F64_PREC F64_EMAX (xorb false s) (Zpos (m * k)) (e + x)
    SpecFloat.loc_Exact 182) as [->|(m' & e' & -> & _)]; unfold F64_PREC, F64_EMAX in *; try done; try lia.
  split; [lia|]. rewrite Pos2Z.inj_mul. change (2 ^ 182) with (2 ^ 53 * 2 ^ 129). nia.
Qed.

Lemma decide_work_ok l id w d p now :
  ledger_ok l -> policy_wf p -> margin_ok p.(margin) -> work_wf w -> in_u32 d ->
  ledger_ok (decide_work values l id w d p now).1.
Proof.
  intros [Hwf Hann] Hp Hm Hw Hd. split; [by apply decide_work_wf|].
  pose proof (own_nonneg p w Hp Hw) as Hown. unfold decide_work. fold (limit_of p d).
  set (own := f64_add _ p.(overhead_secs)) in *.
  assert (Hq : f64_nonneg (queued_secs values (drop_lapsed now l) now p.(unknown_secs)))
    by (apply queued_secs_nonneg; [by apply drop_lapsed_wf|apply Hp]).
  destruct (f64_gtb _ _) eqn:E; [done|]. cbn [fst announced].
  apply map_Forall_insert_2; [|by apply map_Forall_filter_sub]. cbn.
  split_and!; [done|done|].
  apply (f64_below_finite _ _ _ Hq Hown E). apply limit_finite; try done; apply Hp.
Qed.

Lemma hold_ok l id parent b :
  ledger_ok l -> budget_nonneg b ->
  ledger_ok (hold l id parent b).
Proof. intros [Hwf Hann] Hb. split; [by apply hold_wf|done]. Qed.
Lemma start_ok l id now : ledger_ok l -> ledger_ok (start l id now).
Proof. intros [Hwf Hann]. split; [by apply start_wf|done]. Qed.
Lemma release_ok l id : ledger_ok l -> ledger_ok (release l id).
Proof. intros [Hwf Hann]. split; [by apply release_wf|done]. Qed.
Lemma empty_ledger_ok : ledger_ok empty_ledger.
Proof. split; [split; apply map_Forall_empty|apply map_Forall_empty]. Qed.

Lemma budget_of_fine l id b : ledger_ok l -> budget_of l id = Some b -> budget_fine b.
Proof.
  intros [_ Ha] Hb. unfold budget_of in Hb. apply fmap_Some in Hb as ([b' t] & Hb & ->).
  by apply (Ha id) in Hb.
Qed.
End lemmas.

(** ** The ledger as a state machine *)

Section steps.
Context (values : forall A : Type, gmap string A -> list A).

(** One call on the ledger: bids with announced work, accepted dispatches with
    the budget of their bid (or one restored from the database), the start and
    the end of a computation. *)
Inductive ledger_step (p : BudgetPolicy) : WorkLedger -> WorkLedger -> Prop :=
| step_decide l id w d now :
    work_wf w -> ledger_step p l (decide_work values l id w d p now).1
| step_hold l sub parent b :
    budget_nonneg b ->
    ledger_step p l (hold l sub parent b)
| step_start l id now : ledger_step p l (start l id now)
| step_release l id : ledger_step p l (release l id).

Hypothesis values_perm : forall A (m : gmap string A), values A m ≡ₚ snd <$> map_to_list m.

Lemma ledger_step_wf p l l' : policy_wf p -> ledger_wf l -> ledger_step p l l' -> ledger_wf l'.
Proof.
  intros Hp Hl Hstep. destruct Hstep.
  - by apply decide_work_wf.
  - by apply hold_wf.
  - by apply start_wf.
  - by apply release_wf.
Qed.

Lemma empty_ledger_wf : ledger_wf empty_ledger.
Proof. split; apply map_Forall_empty. Qed.

Lemma reachable_wf p l : policy_wf p -> rtc (ledger_step p) empty_ledger l -> ledger_wf l.
Proof.
  intros Hp Hrtc. assert (H : forall l0, rtc (ledger_step p) l0 l -> ledger_wf l0 -> ledger_wf l).
  { induction 1; eauto using ledger_step_wf. }
  by eapply H, empty_ledger_wf.
Qed.
End steps.

(** ** Theorems *)

(** C35. Whatever bids, dispatches, starts and releases happen, the expected
    queue is a number that is not negative (never a NaN), for every order in
    which the maps are walked. *)
Theorem reachable_queue_is_number values p l now :
  (forall A (m : gmap string A), values A m ≡ₚ snd <$> map_to_list m) -> policy_wf p ->
  rtc (ledger_step values p) empty_ledger l ->
  f64_nonneg (queued_secs values l now p.(unknown_secs)).
Proof.
  intros Hv Hp Hl. apply queued_secs_nonneg; [done| |by destruct Hp].
  by eapply reachable_wf.
Qed.

Lemma sample_policy_wf : policy_wf sample_policy.
Proof. by split; vm_compute. Qed.

Lemma map_values_perm A (m : gmap string A) : map_values A m ≡ₚ snd <$> map_to_list m.
Proof. done. Qed.

Lemma reachable_queue_is_number_witness :
  f64_nonneg (queued_secs map_values (hold empty_ledger "sub" (Some "a") None) 0
    (unknown_secs sample_policy)).
Proof.
  apply (reachable_queue_is_number map_values sample_policy _ 0 map_values_perm
    sample_policy_wf).
  apply rtc_once. by apply step_hold.
Defined.

(** C17. A bid is a promise within the limit: [decide] accepts exactly when the
    queue (without lapsed reservations) plus this work is at most the margin of
    the shorter of the two timeouts, then the budget it returns and a reservation
    of the same estimate are recorded and the other entries stay; otherwise it
    returns a total above the limit and only lapsed reservations are gone. *)
Theorem decide_work_spec values l id w d p now :
  (forall A (m : gmap string A), values A m ≡ₚ snd <$> map_to_list m) ->
  ledger_wf l -> policy_wf p -> work_wf w -> 0 <= d ->
  let own := f64_add (seconds p.(rates) w) p.(overhead_secs) in
  let total := f64_add (queued_secs values (drop_lapsed now l) now p.(unknown_secs)) own in
  match decide_work values l id w d p now with
  | (l', Ok b) =>
    f64_leb total (limit_of p d) = true /\ b = mkBudget d own /\ budget_of l' id = Some b
    /\ l'.(reserved) = <[id := (own, now + RESERVATION_TTL)]> (drop_lapsed now l).(reserved)
    /\ l'.(held) = l.(held)
    /\ (forall k, k <> id -> l'.(announced) !! k = drop_announced now l.(announced) !! k)
  | (l', Err t) => t = total /\ f64_gtb t (limit_of p d) = true /\ l' = drop_lapsed now l
  end.
Proof.
  intros Hv Hl Hp Hw Hd own total. unfold decide_work. fold own. fold total.
  fold (limit_of p d). destruct (f64_gtb total (limit_of p d)) eqn:E; [done|].
  split_and!; try done.
  - apply f64_gtb_false_leb; [..|done]; apply f64_nonneg_not_nan.
    + apply f64_add_nonneg; [|by apply own_nonneg].
      apply queued_secs_nonneg; [done|by apply drop_lapsed_wf|by destruct Hp].
    + unfold limit_of. destruct Hp. apply f64_mul_nonneg_l; [done|].
      apply f64_of_Z_nonneg. lia.
  - unfold budget_of. cbn. by rewrite lookup_insert_eq.
  - intros k Hk. cbn. by rewrite lookup_insert_ne.
Qed.

Lemma decide_work_spec_witness :
  f64_leb (f64_add (queued_secs map_values (drop_lapsed 0 empty_ledger) 0 (f64_of_Z 30))
    (f64_add (seconds (rates sample_policy) (gb_work 100)) (f64_of_Z 5)))
    (limit_of sample_policy 330) = true.
Proof.
  pose proof (decide_work_spec map_values empty_ledger "a" (gb_work 100) 330 sample_policy 0
    map_values_perm empty_ledger_wf sample_policy_wf ltac:(done) ltac:(done)) as H.
  cbv zeta in H.
  destruct (decide_work map_values empty_ledger "a" (gb_work 100) 330 sample_policy 0)
    as [l' [b|t]] eqn:E; [exact (proj1 H)|].
  apply (f_equal (fun x => is_ok x.2)) in E. vm_compute in E. discriminate E.
Defined.

(** A dispatch moves the estimate of its bid, it does not count it twice:
    once the sub-task of an accepted bid is held, its reservation is gone and the
    held sub-task carries the bid's estimate until it is released. *)
Theorem hold_ends_reservation values l id w d p now b sub :
  (decide_work values l id w d p now).2 = Ok b ->
  let l1 := (decide_work values l id w d p now).1 in
  let l2 := hold l1 sub (Some id) (budget_of l1 id) in
  l1.(reserved) !! id = Some (b.(expected_secs), now + RESERVATION_TTL)
  /\ l2.(reserved) !! id = None
  /\ l2.(held) !! sub = Some (mkHeld (Some b.(expected_secs)) None)
  /\ (release l2 sub).(held) !! sub = None /\ (release l2 sub).(reserved) !! id = None.
Proof.
  unfold decide_work. case_match; [done|]. intros [= <-]. cbn.
  unfold budget_of. cbn. rewrite !lookup_insert_eq, !lookup_delete_eq. cbn. done.
Qed.

Lemma hold_ends_reservation_witness :
  let l1 := (decide_work map_values empty_ledger "a" (gb_work 100) 330 sample_policy 0).1 in
  reserved (hold l1 "a-1" (Some "a") (budget_of l1 "a")) !! "a" = None.
Proof.
  destruct (decide_work map_values empty_ledger "a" (gb_work 100) 330 sample_policy 0).2
    as [b|t] eqn:E.
  - exact (proj1 (proj2 (hold_ends_reservation map_values empty_ledger "a" (gb_work 100) 330
      sample_policy 0 b "a-1" E))).
  - apply (f_equal is_ok) in E. vm_compute in E. discriminate E.
Defined.

(** The wait for a computation is bounded by both timeouts: it never exceeds
    the node's own timeout nor what is left of the deadline, it is never zero
    when a deadline applies, and there is none exactly when the deadline has
    passed. *)
Theorem compute_timeout_bounds own b waited :
  0 < own -> 0 <= waited ->
  match compute_timeout own (Some b) waited with
  | Some t => 0 < t <= from_secs own /\ waited + t <= from_secs b.(deadline_secs)
              /\ (t = from_secs own \/ waited + t = from_secs b.(deadline_secs))
  | None => from_secs b.(deadline_secs) <= waited
  end.
Proof.
  intros Hown Hw. unfold compute_timeout, from_secs, SEC.
  destruct (Z.ltb_spec (deadline_secs b * 1000000000) waited); [lia|].
  destruct (Z.eqb_spec (deadline_secs b * 1000000000 - waited) 0); [lia|]. lia.
Qed.

Lemma compute_timeout_bounds_witness :
  compute_timeout 300 (Some (mkBudget 330 (f64_of_Z 1))) (from_secs 100) = Some (from_secs 230)
  /\ from_secs 100 + from_secs 230 <= from_secs 330.
Proof.
  pose proof (compute_timeout_bounds 300 (mkBudget 330 (f64_of_Z 1)) (from_secs 100)
    ltac:(lia) ltac:(done)) as H.
  split; [reflexivity|]. exact (proj1 (proj2 H)).
Defined.
