(* ===== verification/Pcs.v ===== *)
(** * PCS messages ([src/domain/pcs.rs])

    Leaf PCS bundles are built for the slice proof winner, or by a builder that
    answers an open call.  The messages, the byte layouts they are signed over,
    and the job a node keeps between its result and the request for its bundle. *)

From S2P Require Import Prelude Bytes Models GoJson Wire.

#[local] Set Warnings "-clear-no-such-hyp".

(** ** Data *)

Definition PCS_REQUEST_KIND_OPEN_CALL : string := "open_call".
Definition PCS_MEMORY_POLICY_SPILL : string := "spill".
Definition PCS_MEMORY_POLICY_REFUSE : string := "refuse".

Inductive PcsMemoryPolicy := Refuse | Spill.

#[export] Instance policy_eq_dec : EqDecision PcsMemoryPolicy.
Proof. solve_decision. Defined.

(** [str::to_ascii_lowercase] *)
Definition lower_char (c : Z) : Z := if (65 <=? c) && (c <=? 90) then c + 32 else c.
Definition to_ascii_lowercase (s : string) : string := of_chars (map lower_char (chars s)).

Definition policy_from_env_str (raw : option string) : PcsMemoryPolicy :=
  match raw with
  | Some s => if decide (to_ascii_lowercase (trim s) = PCS_MEMORY_POLICY_SPILL) then Spill else Refuse
  | None => Refuse
  end.

Definition policy_as_str (p : PcsMemoryPolicy) : string :=
  match p with Refuse => PCS_MEMORY_POLICY_REFUSE | Spill => PCS_MEMORY_POLICY_SPILL end.
Definition is_spill (p : PcsMemoryPolicy) : bool := bool_decide (p = Spill).

(** [CoreSystemInfo::pcs_memory_policy] *)
Definition core_pcs_memory_policy (info : CoreSystemInfo) : PcsMemoryPolicy :=
  policy_from_env_str (Some info.(info_pcs_memory_policy)).

Record PcsMessage := mkPcsMessage {
  pm_sub_task_id : string; pm_node_id : string; pm_leaf_pcs_b64 : string;
  pm_refused : bool; pm_refuse_reason : option string
}.

Record PcsRequest := mkPcsRequest {
  pr_sub_task_id : string; pr_parent_task_id : string; pr_slice_id : string;
  pr_node_id : string; pr_issued_at_unix : Z; pr_request_kind : string;
  pr_leaf_proof_hash : string
}.
Definition request_is_open_call (r : PcsRequest) : bool :=
  bool_decide (r.(pr_request_kind) = PCS_REQUEST_KIND_OPEN_CALL).
Record PcsRequestMessage := mkPcsRequestMessage { prm_request : PcsRequest; prm_signature : string }.

Record PcsOpenCall := mkPcsOpenCall {
  oc_parent_task_id : string; oc_sub_task_id : string; oc_slice_id : string;
  oc_leaf_proof_hash : string; oc_leaf_proof_bytes : Z; oc_cas_presigned_url : string;
  oc_r_pcs_planck : string; oc_deadline_unix : Z; oc_issued_at_unix : Z;
  oc_refused_builders : list string
}.
Definition is_expired_at (call : PcsOpenCall) (now_unix : Z) : bool :=
  (0 <? call.(oc_deadline_unix)) && (call.(oc_deadline_unix) <=? now_unix).
Definition refuses_builder (call : PcsOpenCall) (node_id : string) : bool :=
  existsb (fun id => bool_decide (id = node_id)) call.(oc_refused_builders).
Record PcsOpenCallMessage := mkPcsOpenCallMessage { ocm_call : PcsOpenCall; ocm_signature : string }.

Record PcsBid := mkPcsBid {
  pb_sub_task_id : string; pb_node_id : string; pb_leaf_proof_hash : string;
  pb_pcs_memory_policy : string; pb_issued_at_unix : Z
}.
Definition is_spill_policy (b : PcsBid) : bool :=
  bool_decide (b.(pb_pcs_memory_policy) = PCS_MEMORY_POLICY_SPILL).
Record PcsBidMessage := mkPcsBidMessage { pbm_bid : PcsBid; pbm_signature : string }.

Record OpenCallPcsSource := mkOpenCallPcsSource {
  src_leaf_proof_hash : string; src_cas_presigned_url : string;
  src_leaf_proof_bytes : Z; src_slice_id : string
}.

Record PendingPcsJob := mkPendingPcsJob {
  job_sub_task_id : string;
  job_proof : Proof;
  job_requested : bool;
  job_leaf_pcs_b64 : option string;
  job_leaf_pcs_bytes : option Z;
  job_open_call : option OpenCallPcsSource
}.
Definition job_is_open_call (j : PendingPcsJob) : bool := bool_decide (is_Some j.(job_open_call)).

(** ** Payloads *)

Definition serialize_pcs_request_payload (r : PcsRequest) : bytes :=
  as_bytes r.(pr_sub_task_id) ++ as_bytes r.(pr_parent_task_id) ++ as_bytes r.(pr_slice_id)
  ++ as_bytes r.(pr_node_id) ++ i64_be r.(pr_issued_at_unix) ++ as_bytes r.(pr_request_kind)
  ++ as_bytes r.(pr_leaf_proof_hash).

(** [refused.sort()]: bytewise order. *)
Definition sorted_builders (call : PcsOpenCall) : list string :=
  sort_by (fun id => id) call.(oc_refused_builders).

Definition serialize_pcs_open_call_payload (call : PcsOpenCall) : bytes :=
  as_bytes call.(oc_parent_task_id) ++ as_bytes call.(oc_sub_task_id)
  ++ as_bytes call.(oc_slice_id) ++ as_bytes call.(oc_leaf_proof_hash)
  ++ u64_be call.(oc_leaf_proof_bytes) ++ as_bytes call.(oc_cas_presigned_url)
  ++ as_bytes call.(oc_r_pcs_planck) ++ i64_be call.(oc_deadline_unix)
  ++ i64_be call.(oc_issued_at_unix)
  ++ u32_be (as_u32 (Z.of_nat (length (sorted_builders call))))
  ++ flat_map (fun id => len_prefixed (as_bytes id)) (sorted_builders call).

Definition serialize_pcs_bid_payload (b : PcsBid) : bytes :=
  as_bytes b.(pb_sub_task_id) ++ as_bytes b.(pb_node_id) ++ as_bytes b.(pb_leaf_proof_hash)
  ++ as_bytes b.(pb_pcs_memory_policy) ++ i64_be b.(pb_issued_at_unix).

Section signatures.
Context {signature verifying_key : Type}.
Context (b64_decode : string -> option bytes) (signature_from_slice : bytes -> option signature).
Context (key_from_bytes : bytes -> option verifying_key).
Context (verify : verifying_key -> bytes -> signature -> bool).

Definition verify_pcs_request_signature (r : PcsRequest) (sig key : string) : result WireError unit :=
  verify_orchestrator_signature b64_decode signature_from_slice key_from_bytes verify
    (serialize_pcs_request_payload r) sig key "pcs request".

Definition verify_pcs_open_call_signature (call : PcsOpenCall) (sig key : string)
  : result WireError unit :=
  verify_orchestrator_signature b64_decode signature_from_slice key_from_bytes verify
    (serialize_pcs_open_call_payload call) sig key "pcs open call".
End signatures.

(** The clock reading [now_unix], [signing_key.sign] and base64 are arguments. *)
Definition build_signed_pcs_bid (sign : bytes -> bytes) (b64_encode : bytes -> string)
  (now_unix : Z) (open : PcsOpenCall) (node_id : string) : PcsBidMessage :=
  let bid := mkPcsBid open.(oc_sub_task_id) node_id open.(oc_leaf_proof_hash)
    PCS_MEMORY_POLICY_SPILL now_unix in
  mkPcsBidMessage bid (b64_encode (sign (serialize_pcs_bid_payload bid))).

Example policy_trims :
  policy_from_env_str (Some "  SPILL ") = Spill /\ policy_from_env_str (Some "spills") = Refuse.
Proof. by vm_compute. Qed.

(** ** Lemmas *)

Lemma sorted_builders_perm c : sorted_builders c ≡ₚ c.(oc_refused_builders).
Proof. apply sort_by_perm. Qed.

(** Sorting ids is canonical even with repetitions. *)
Lemma sort_ids_unique (l k : list string) :
  l ≡ₚ k -> sort_by (fun id => id) l = sort_by (fun id => id) k.
Proof.
  intros Hperm. apply (StronglySorted_unique_strong (key_le (fun id : string => id)));
    try apply sort_by_sorted.
  - intros x y _ _. apply (key_le_antisym (fun id : string => id)).
  - by rewrite !sort_by_perm.
Qed.

Lemma flat_map_prefixed_inj (l k : list string) :
  Forall (fun id => short (as_bytes id)) l -> Forall (fun id => short (as_bytes id)) k ->
  length l = length k ->
  flat_map (fun id => len_prefixed (as_bytes id)) l
  = flat_map (fun id => len_prefixed (as_bytes id)) k -> l = k.
Proof.
  intros Hl. revert k. induction Hl as [|x l Hx _ IH]; intros [|y k] Hk Hlen; try done.
  cbn [flat_map]. intros Heq. apply Forall_cons in Hk as [Hy Hk].
  apply len_prefixed_split in Heq as [H1 H2]; [|done..].
  apply as_bytes_inj in H1 as ->. f_equal. apply IH; try done. cbn in Hlen. lia.
Qed.

Record open_call_wf (c : PcsOpenCall) : Prop := {
  ocw_bytes : in_u64 c.(oc_leaf_proof_bytes);
  ocw_deadline : in_i64 c.(oc_deadline_unix);
  ocw_issued : in_i64 c.(oc_issued_at_unix);
  ocw_count : Z.of_nat (length c.(oc_refused_builders)) < 2 ^ 32;
  ocw_ids : Forall (fun id => short (as_bytes id)) c.(oc_refused_builders)
}.

Definition same_call_lengths (c d : PcsOpenCall) : Prop :=
  length (as_bytes c.(oc_parent_task_id)) = length (as_bytes d.(oc_parent_task_id))
  /\ length (as_bytes c.(oc_sub_task_id)) = length (as_bytes d.(oc_sub_task_id))
  /\ length (as_bytes c.(oc_slice_id)) = length (as_bytes d.(oc_slice_id))
  /\ length (as_bytes c.(oc_leaf_proof_hash)) = length (as_bytes d.(oc_leaf_proof_hash))
  /\ length (as_bytes c.(oc_cas_presigned_url)) = length (as_bytes d.(oc_cas_presigned_url))
  /\ length (as_bytes c.(oc_r_pcs_planck)) = length (as_bytes d.(oc_r_pcs_planck)).

(** Equality of open calls up to the order of the refused builders. *)
Definition same_call (c d : PcsOpenCall) : Prop :=
  c.(oc_parent_task_id) = d.(oc_parent_task_id) /\ c.(oc_sub_task_id) = d.(oc_sub_task_id)
  /\ c.(oc_slice_id) = d.(oc_slice_id) /\ c.(oc_leaf_proof_hash) = d.(oc_leaf_proof_hash)
  /\ c.(oc_leaf_proof_bytes) = d.(oc_leaf_proof_bytes)
  /\ c.(oc_cas_presigned_url) = d.(oc_cas_presigned_url)
  /\ c.(oc_r_pcs_planck) = d.(oc_r_pcs_planck) /\ c.(oc_deadline_unix) = d.(oc_deadline_unix)
  /\ c.(oc_issued_at_unix) = d.(oc_issued_at_unix)
  /\ c.(oc_refused_builders) ≡ₚ d.(oc_refused_builders).

Lemma same_call_refuses c d node : same_call c d -> refuses_builder c node = refuses_builder d node.
Proof.
  intros (_ & _ & _ & _ & _ & _ & _ & _ & _ & Hp). unfold refuses_builder.
  apply eq_true_iff_eq. rewrite !existsb_exists.
  split; intros (x & Hx & He); exists x; (split; [|done]);
    apply list_elem_of_In; apply list_elem_of_In in Hx; by rewrite ?Hp, <- ?Hp in *.
Qed.

Lemma open_call_payload_same c d : same_call c d ->
  serialize_pcs_open_call_payload c = serialize_pcs_open_call_payload d.
Proof.
  intros (H1 & H2 & H3 & H4 & H5 & H6 & H7 & H8 & H9 & Hp).
  unfold serialize_pcs_open_call_payload, sorted_builders.
  by rewrite H1, H2, H3, H4, H5, H6, H7, H8, H9, (sort_ids_unique _ _ Hp).
Qed.

Lemma open_call_payload_inj c d :
  open_call_wf c -> open_call_wf d -> same_call_lengths c d ->
  serialize_pcs_open_call_payload c = serialize_pcs_open_call_payload d -> same_call c d.
Proof.
  intros [Hb1 Hd1 Hi1 Hn1 Hs1] [Hb2 Hd2 Hi2 Hn2 Hs2] (L1 & L2 & L3 & L4 & L5 & L6) Heq.
  unfold serialize_pcs_open_call_payload in Heq.
  apply app_eq_split in Heq as [E1 Heq]; [|done]. apply app_eq_split in Heq as [E2 Heq]; [|done].
  apply app_eq_split in Heq as [E3 Heq]; [|done]. apply app_eq_split in Heq as [E4 Heq]; [|done].
  apply app_eq_split in Heq as [E5 Heq]; [|by rewrite !length_u64_be].
  apply app_eq_split in Heq as [E6 Heq]; [|done]. apply app_eq_split in Heq as [E7 Heq]; [|done].
  apply app_eq_split in Heq as [E8 Heq]; [|by rewrite !length_i64_be].
  apply app_eq_split in Heq as [E9 Heq]; [|by rewrite !length_i64_be].
  apply app_eq_split in Heq as [E10 Heq]; [|by rewrite !length_u32_be].
  apply u32_be_inj in E10; [|apply as_u32_range..].
  rewrite !sorted_builders_perm, !as_u32_id in E10 by (unfold in_u32; lia).
  apply flat_map_prefixed_inj in Heq;
    [|by rewrite sorted_builders_perm..|rewrite !sorted_builders_perm; lia].
  unfold same_call. split_and!; eauto using as_bytes_inj, u64_be_inj, i64_be_inj.
  by rewrite <- (sorted_builders_perm c), <- (sorted_builders_perm d), Heq.
Qed.

(** ** Theorems *)

(** The open-call payload fixes the announcement: for identifiers, URL and
    amount of the same lengths, two calls have the same payload exactly when they
    agree on every field and refuse the same builders, in whatever order. *)
Theorem open_call_payload_iff c d :
  open_call_wf c -> open_call_wf d -> same_call_lengths c d ->
  serialize_pcs_open_call_payload c = serialize_pcs_open_call_payload d <-> same_call c d.
Proof. intros. split; [by apply open_call_payload_inj | apply open_call_payload_same]. Qed.

Definition sample_call (refused : list string) : PcsOpenCall :=
  mkPcsOpenCall "parent" "sub" "0" "hash" 4096 "https://cas/x" "10" 1700000300 1700000000 refused.

Lemma sample_call_wf l :
  Z.of_nat (length l) < 2 ^ 32 -> Forall (fun id => short (as_bytes id)) l ->
  open_call_wf (sample_call l).
Proof. by split. Qed.

Lemma open_call_payload_iff_witness :
  serialize_pcs_open_call_payload (sample_call ["b"; "a"])
  = serialize_pcs_open_call_payload (sample_call ["a"; "b"]).
Proof.
  apply (open_call_payload_iff (sample_call ["b"; "a"]) (sample_call ["a"; "b"])).
  - apply sample_call_wf; repeat constructor.
  - apply sample_call_wf; repeat constructor.
  - repeat split.
  - unfold same_call. split_and!; try done. apply perm_swap.
Defined.

(** The request signature does not fix who the request is for: moving the
    addressee into the slice identifier leaves the signed bytes, and so the
    verdict on the signature, unchanged. *)
Theorem pcs_request_addressee_unbound {sig vk} (decode : string -> option bytes)
  (from_slice : bytes -> option sig) (key_of : bytes -> option vk) verify r s k :
  let r' := mkPcsRequest r.(pr_sub_task_id) r.(pr_parent_task_id)
    (r.(pr_slice_id) +:+ r.(pr_node_id)) "" r.(pr_issued_at_unix) r.(pr_request_kind)
    r.(pr_leaf_proof_hash) in
  verify_pcs_request_signature decode from_slice key_of verify r' s k
  = verify_pcs_request_signature decode from_slice key_of verify r s k.
Proof.
  cbv zeta. unfold verify_pcs_request_signature, serialize_pcs_request_payload.
  cbn [pr_sub_task_id pr_parent_task_id pr_slice_id pr_node_id pr_issued_at_unix
    pr_request_kind pr_leaf_proof_hash].
  rewrite as_bytes_app, <- (app_assoc (as_bytes (pr_slice_id r))). done.
Qed.
