(* ===== verification/Clock.v ===== *)
(** * The wall clock

    [std::time::SystemTime::now()] is the time since the Unix epoch in
    nanoseconds, before it for a clock that is set wrong.  Every part of the node
    reads it through a helper of its own, as seconds or milliseconds; a clock
    before the epoch reads as zero, and the narrowing casts wrap. *)

From S2P Require Import Prelude Pcs.

Definition SystemTime : Type := Z.   (* nanoseconds since the epoch *)
Definition NANOS_PER_SEC : Z := 1000000000.

(** [duration_since(UNIX_EPOCH)] *)
Definition since_epoch (now : SystemTime) : option Z := if now <? 0 then None else Some now.

Definition as_secs (d : Z) : Z := d / NANOS_PER_SEC.
Definition as_millis (d : Z) : Z := d / 1000000.

(** [.map(|d| d.as_secs() as i64).unwrap_or(0)] *)
Definition unix_secs (now : SystemTime) : Z :=
  default 0 ((fun d => as_i64 (as_secs d)) <$> since_epoch now).

(** [accept_task::unix_now_ms] *)
Definition unix_now_ms (now : SystemTime) : Z :=
  default 0 ((fun d => as_u64 (as_millis d)) <$> since_epoch now).
(** [bid::chrono_lottery_timestamp] *)
Definition chrono_lottery_timestamp (now : SystemTime) : Z := unix_secs now.
(** [unix_now] of the PCS outbox, of the open calls, and of the database *)
Definition outbox_unix_now (now : SystemTime) : Z := unix_secs now.
Definition open_call_unix_now (now : SystemTime) : Z := unix_secs now.
Definition storage_unix_now (now : SystemTime) : Z := unix_secs now.
(** [PcsOpenCall::is_expired] *)
Definition is_expired (call : PcsOpenCall) (now : SystemTime) : bool :=
  is_expired_at call (unix_secs now).

(** ** What the readings are *)

(** The last moment whose seconds an [i64] holds. *)
Definition CLOCK_MAX : Z := (I64_MAX + 1) * NANOS_PER_SEC.

Lemma unix_secs_i64 now : in_i64 (unix_secs now).
Proof.
  unfold unix_secs, since_epoch. destruct (now <? 0); [by vm_compute|]. apply as_i64_range.
Qed.

Lemma unix_now_ms_u64 now : in_u64 (unix_now_ms now).
Proof.
  unfold unix_now_ms, since_epoch. destruct (now <? 0); [by vm_compute|]. apply as_u64_range.
Qed.

Lemma unix_secs_exact now : 0 <= now < CLOCK_MAX -> unix_secs now = now / NANOS_PER_SEC.
Proof.
  intros [H0 H1]. unfold unix_secs, since_epoch.
  destruct (Z.ltb_spec now 0); [lia|]. cbn. apply as_i64_id. unfold as_secs, CLOCK_MAX in *.
  assert (now / NANOS_PER_SEC < I64_MAX + 1) by (apply Z.div_lt_upper_bound; [done|lia]).
  assert (0 <= now / NANOS_PER_SEC) by by apply Z.div_pos.
  unfold in_i64, I64_MAX, I64_MIN in *. lia.
Qed.

(** Readings follow the clock. *)
Lemma unix_secs_mono now now' :
  0 <= now -> now <= now' -> now' < CLOCK_MAX -> unix_secs now <= unix_secs now'.
Proof.
  intros H0 H1 H2. rewrite !unix_secs_exact by lia. by apply Z.div_le_mono.
Qed.

(** An open call stays expired. *)
Lemma expired_stays call now now' :
  0 <= now -> now <= now' -> now' < CLOCK_MAX ->
  is_expired call now = true -> is_expired call now' = true.
Proof.
  intros H0 H1 H2. unfold is_expired, is_expired_at. rewrite !andb_true_iff, !Z.leb_le.
  pose proof (unix_secs_mono now now' H0 H1 H2). lia.
Qed.
