(* ===== verification/Table.v ===== *)
(** * Tables

    The three keyed tables of the node's database have one shape: an
    [AUTOINCREMENT] id, the unique key [(orchestrator_pubkey, task id)], the
    data columns and [created_at].  The statements the node runs on them, what
    they do to the table seen as a finite map from keys, and the invariant they
    keep. *)

From S2P Require Import Prelude.

Abbreviation key := (string * string)%type.

Record Row (D : Type) := mkRow {
  row_id : Z; row_key : key; row_data : D; row_created : Z
}.
Arguments mkRow {D}. Arguments row_id {D}. Arguments row_key {D}.
Arguments row_data {D}. Arguments row_created {D}.

(** The rows in order of their ids, and the largest id ever given out. *)
Record Table (D : Type) := mkTable { rows : list (Row D); last_id : Z }.
Arguments mkTable {D}. Arguments rows {D}. Arguments last_id {D}.

Section table.
Context {D : Type}.
Implicit Types (t : Table D) (r : Row D) (k : key).

Definition empty_table : Table D := mkTable [] 0.

(** [SELECT .. WHERE key = k] *)
Definition select t k : option (Row D) :=
  List.find (fun r => bool_decide (r.(row_key) = k)) t.(rows).

(** [INSERT]; [None] when the unique constraint fails. *)
Definition insert_row t k (d : D) (now : Z) : option (Table D) :=
  match select t k with
  | Some _ => None
  | None =>
    let id := t.(last_id) + 1 in
    Some (mkTable (t.(rows) ++ [mkRow id k d now]) id)
  end.

(** [UPDATE .. WHERE P] *)
Definition update_where (P : Row D -> bool) (f : Row D -> Row D) t : Table D :=
  mkTable (map (fun r => if P r then f r else r) t.(rows)) t.(last_id).

Definition has_key k r : bool := bool_decide (r.(row_key) = k).
Definition has_id (id : Z) r : bool := row_id r =? id.

(** [INSERT .. ON CONFLICT(key) DO UPDATE SET ..]; [f] is the update. *)
Definition upsert_row t k (d : D) (now : Z) (f : Row D -> Row D) : Table D :=
  match insert_row t k d now with
  | Some t' => t'
  | None => update_where (has_key k) f t
  end.

(** [DELETE .. WHERE P] *)
Definition delete_where (P : Row D -> bool) t : Table D :=
  mkTable (List.filter (fun r => negb (P r)) t.(rows)) t.(last_id).

(** An update of data columns: the id and the key stay. *)
Definition set_data (g : D -> D) r : Row D :=
  mkRow r.(row_id) r.(row_key) (g r.(row_data)) r.(row_created).

(** [ORDER BY created_at ASC]; ties come in the order of the ids. *)
Definition by_created (r s : Row D) : Prop := r.(row_created) <= s.(row_created).
#[export] Instance by_created_dec r s : Decision (by_created r s).
Proof. unfold by_created. apply _. Defined.
Definition ordered (l : list (Row D)) : list (Row D) := merge_sort by_created l.

(** ** Invariant *)

Record table_wf t : Prop := {
  tw_keys : NoDup (row_key <$> t.(rows));
  tw_ids : NoDup (row_id <$> t.(rows));
  tw_last : Forall (fun r => r.(row_id) <= t.(last_id)) t.(rows)
}.

(** The table as a finite map. *)
Definition view t : gmap key (D * Z) :=
  list_to_map ((fun r => (r.(row_key), (r.(row_data), r.(row_created)))) <$> t.(rows)).

(** ** Lemmas *)

Lemma select_Some t k r : select t k = Some r -> r ∈ t.(rows) /\ r.(row_key) = k.
Proof.
  unfold select. intros [Hin Hk]%List.find_some. split; [by apply list_elem_of_In|].
  by apply bool_decide_eq_true in Hk.
Qed.

Lemma select_None t k : select t k = None <-> k ∉ (row_key <$> t.(rows)).
Proof.
  unfold select. split.
  - intros Hnone (r & -> & Hin)%list_elem_of_fmap.
    apply list_elem_of_In in Hin. apply (List.find_none _ _ Hnone r) in Hin.
    by apply bool_decide_eq_false in Hin.
  - intros Hk. destruct (List.find _ _) as [r|] eqn:E; [|done].
    apply List.find_some in E as [Hin Hr%bool_decide_eq_true]. destruct Hk. rewrite <- Hr.
    by apply list_elem_of_fmap_2, list_elem_of_In.
Qed.

Lemma view_keys t :
  ((fun r => (r.(row_key), (r.(row_data), r.(row_created)))) <$> t.(rows)).*1
  = row_key <$> t.(rows).
Proof. by rewrite <- list_fmap_compose. Qed.

Lemma view_lookup t k d c :
  table_wf t ->
  view t !! k = Some (d, c) <-> exists r, r ∈ t.(rows) /\ r.(row_key) = k
    /\ r.(row_data) = d /\ r.(row_created) = c.
Proof.
  intros [Hk _ _]. unfold view.
  rewrite <- elem_of_list_to_map by (by rewrite view_keys).
  rewrite list_elem_of_fmap. split.
  - intros (r & [= -> -> ->] & Hin). eauto.
  - intros (r & Hin & <- & <- & <-). eauto.
Qed.

Lemma nodup_key_inj t r s :
  table_wf t -> r ∈ t.(rows) -> s ∈ t.(rows) -> r.(row_key) = s.(row_key) -> r = s.
Proof.
  intros [Hk _ _]. induction (rows t) as [|x l IH]; [by intros ?%not_elem_of_nil|].
  cbn in Hk. apply NoDup_cons in Hk as [Hx Hl].
  rewrite !elem_of_cons. intros [->|Hr] [->|Hs] Heq; [done|..|by apply IH].
  - destruct Hx. rewrite Heq. by apply list_elem_of_fmap_2.
  - destruct Hx. rewrite <- Heq. by apply list_elem_of_fmap_2.
Qed.

Lemma nodup_id_inj t r s :
  table_wf t -> r ∈ t.(rows) -> s ∈ t.(rows) -> r.(row_id) = s.(row_id) -> r = s.
Proof.
  intros [_ Hk _]. induction (rows t) as [|x l IH]; [by intros ?%not_elem_of_nil|].
  cbn in Hk. apply NoDup_cons in Hk as [Hx Hl].
  rewrite !elem_of_cons. intros [->|Hr] [->|Hs] Heq; [done|..|by apply IH].
  - destruct Hx. rewrite Heq. by apply list_elem_of_fmap_2.
  - destruct Hx. rewrite <- Heq. by apply list_elem_of_fmap_2.
Qed.

(** [SELECT] reads the map. *)
Lemma select_view t k :
  table_wf t -> (fun r => (r.(row_data), r.(row_created))) <$> select t k = view t !! k.
Proof.
  intros Hwf. destruct (select t k) as [r|] eqn:E; cbn.
  - symmetry. apply view_lookup; [done|]. apply select_Some in E as [? ?]. eauto.
  - symmetry. apply select_None in E. unfold view. apply not_elem_of_list_to_map_1.
    by rewrite view_keys.
Qed.

Lemma select_view_data t k : table_wf t -> row_data <$> select t k = fst <$> view t !! k.
Proof. intros Hwf. rewrite <- select_view by done. by destruct (select t k). Qed.

(** *** Statements keep the invariant *)

Lemma insert_row_wf t t' k d now : table_wf t -> insert_row t k d now = Some t' -> table_wf t'.
Proof.
  intros [Hk Hi Hl]. unfold insert_row. destruct (select t k) eqn:E; [done|]. intros [= <-].
  apply select_None in E. split; cbn [rows last_id].
  - rewrite fmap_app. apply NoDup_app. split_and!; [done| |apply NoDup_singleton].
    intros x Hx ->%list_elem_of_singleton. done.
  - rewrite fmap_app. apply NoDup_app. split_and!; [done| |apply NoDup_singleton].
    intros x (r & -> & Hr)%list_elem_of_fmap Hx%list_elem_of_singleton. cbn in Hx.
    rewrite Forall_forall in Hl. specialize (Hl r Hr). lia.
  - apply Forall_app. split; [|repeat constructor; cbn; lia].
    eapply Forall_impl; [exact Hl|]. cbn. intros. lia.
Qed.

Lemma update_where_wf P f t :
  (forall r, row_id (f r) = row_id r /\ row_key (f r) = row_key r) ->
  table_wf t -> table_wf (update_where P f t).
Proof.
  intros Hf [Hk Hi Hl].
  assert (Hcols : row_key <$> rows (update_where P f t) = row_key <$> rows t
    /\ row_id <$> rows (update_where P f t) = row_id <$> rows t).
  { cbn. clear -Hf. induction (rows t) as [|r l [IHk IHi]]; [done|]. cbn. rewrite IHk, IHi.
    destruct (P r); [destruct (Hf r) as [-> ->]|]; done. }
  destruct Hcols as [Ck Ci]. split; [by rewrite Ck|by rewrite Ci|]. cbn.
  apply Forall_map. eapply Forall_impl; [exact Hl|]. cbn. intros r Hr.
  destruct (P r); [destruct (Hf r) as [-> _]|]; done.
Qed.

Lemma NoDup_fmap_filter {B} (f : Row D -> B) (P : Row D -> bool) l :
  NoDup (f <$> l) -> NoDup (f <$> List.filter P l).
Proof.
  induction l as [|r l IH]; [done|]. cbn. intros [Hr Hl]%NoDup_cons.
  destruct (P r); [|by apply IH]. cbn. apply NoDup_cons. split; [|by apply IH].
  intros (s & Hs & Hin)%list_elem_of_fmap. destruct Hr. rewrite Hs. apply list_elem_of_fmap_2.
  apply list_elem_of_In in Hin. apply List.filter_In in Hin as [Hin _].
  by apply list_elem_of_In.
Qed.

Lemma delete_where_wf P t : table_wf t -> table_wf (delete_where P t).
Proof.
  intros [Hk Hi Hl]. split; cbn; try by apply NoDup_fmap_filter.
  rewrite Forall_forall in *. intros r Hr. apply Hl.
  apply list_elem_of_In in Hr. apply List.filter_In in Hr as [Hr _]. by apply list_elem_of_In.
Qed.

Lemma upsert_row_wf t k d now f :
  (forall r, row_id (f r) = row_id r /\ row_key (f r) = row_key r) ->
  table_wf t -> table_wf (upsert_row t k d now f).
Proof.
  intros Hf Ht. unfold upsert_row. destruct (insert_row t k d now) eqn:E.
  - by eapply insert_row_wf.
  - by apply update_where_wf.
Qed.

Lemma empty_table_wf : table_wf empty_table.
Proof. split; constructor. Qed.

(** *** Statements on the map *)

Lemma elem_delete_where P t r : r ∈ rows (delete_where P t) <-> r ∈ rows t /\ P r = false.
Proof.
  cbn. rewrite !list_elem_of_In, List.filter_In, negb_true_iff. done.
Qed.

Lemma insert_row_view t t' k d now :
  table_wf t -> insert_row t k d now = Some t' ->
  view t !! k = None /\ view t' = <[k := (d, now)]> (view t).
Proof.
  intros Hwf. unfold insert_row. destruct (select t k) eqn:E; [done|]. intros [= <-].
  apply select_None in E. split.
  - apply not_elem_of_list_to_map_1. by rewrite view_keys.
  - unfold view. cbn [rows]. rewrite fmap_app. cbn. apply list_to_map_snoc. by rewrite view_keys.
Qed.

Lemma insert_row_None t k d now :
  table_wf t -> insert_row t k d now = None <-> is_Some (view t !! k).
Proof.
  intros Hwf. unfold insert_row. rewrite <- select_view by done.
  destruct (select t k); cbn; split; try done.
Qed.

Lemma delete_key_view t k : table_wf t -> view (delete_where (has_key k) t) = delete k (view t).
Proof.
  intros Hwf. apply map_eq. intros k'. apply option_eq. intros [d c].
  rewrite lookup_delete_Some, !view_lookup by auto using delete_where_wf.
  setoid_rewrite elem_delete_where. unfold has_key. split.
  - intros (r & [Hin Hk%bool_decide_eq_false] & <- & <- & <-). split; [congruence|eauto].
  - intros [Hne (r & Hin & <- & <- & <-)]. exists r. split_and!; try done.
    apply bool_decide_eq_false. congruence.
Qed.

Lemma delete_row_view t r : table_wf t -> r ∈ rows t ->
  view (delete_where (has_id r.(row_id)) t) = delete r.(row_key) (view t).
Proof.
  intros Hwf Hr. rewrite <- delete_key_view by done. f_equal. unfold delete_where. f_equal.
  apply filter_ext_in_iff. intros s Hs%list_elem_of_In. f_equal. unfold has_id, has_key.
  apply eq_true_iff_eq. rewrite bool_decide_eq_true, Z.eqb_eq. split; intros Heq.
  - by rewrite (nodup_id_inj t s r).
  - by rewrite (nodup_key_inj t s r).
Qed.

Lemma update_key_view t k (g : D -> D) (h : Z -> Z) :
  table_wf t ->
  view (update_where (has_key k)
    (fun r => mkRow r.(row_id) r.(row_key) (g r.(row_data)) (h r.(row_created))) t)
  = alter (fun v => (g v.1, h v.2)) k (view t).
Proof.
  intros Hwf. set (f := fun r => _). apply map_eq. intros k'. apply option_eq. intros [d c].
  assert (Hwf' : table_wf (update_where (has_key k) f t)) by (by apply update_where_wf).
  rewrite lookup_alter_Some. setoid_rewrite view_lookup; [|done..]. cbn [rows update_where].
  setoid_rewrite list_elem_of_fmap. unfold has_key. split.
  - intros (r & (s & -> & Hin) & Hr & Hd & Hc). case_bool_decide as Hk.
    + left. cbn in *. split; [congruence|]. exists (s.(row_data), s.(row_created)). split.
      * apply view_lookup; [done|]. exists s. split_and!; congruence || done.
      * cbn. congruence.
    + right. split; [congruence|]. exists s. done.
  - intros [(<- & [d' c'] & Hv & Heq)|(Hne & r & Hin & Hr & Hd & Hc)].
    + apply view_lookup in Hv as (s & Hin & Hk & Hd & Hc); [|done].
      cbn in Heq. injection Heq as -> ->. subst d' c'.
      exists (f s). split_and!; cbn; try done. exists s. split; [|done].
      by rewrite bool_decide_eq_true_2.
    + exists r. split_and!; try done. exists r. split; [|done].
      rewrite bool_decide_eq_false_2; [done|congruence].
Qed.

Lemma upsert_row_view t k d now (g : D -> D) (h : Z -> Z) :
  table_wf t ->
  view (upsert_row t k d now
    (fun r => mkRow r.(row_id) r.(row_key) (g r.(row_data)) (h r.(row_created))))
  = match view t !! k with
    | Some v => <[k := (g v.1, h v.2)]> (view t)
    | None => <[k := (d, now)]> (view t)
    end.
Proof.
  intros Hwf. unfold upsert_row. destruct (insert_row t k d now) as [t'|] eqn:E.
  - destruct (insert_row_view t t' k d now Hwf E) as [-> ->]. done.
  - apply insert_row_None in E as [v Hv]; [|done]. rewrite Hv, update_key_view by done.
    apply map_eq. intros k'. destruct (decide (k' = k)) as [->|Hne].
    + by rewrite lookup_alter_eq, lookup_insert_eq, Hv.
    + by rewrite lookup_alter_ne, lookup_insert_ne.
Qed.

(** A row is found by its id or by its key alike. *)
Lemma update_row_view t r (g : D -> D) (h : Z -> Z) : table_wf t -> r ∈ rows t ->
  view (update_where (has_id r.(row_id))
    (fun s => mkRow s.(row_id) s.(row_key) (g s.(row_data)) (h s.(row_created))) t)
  = alter (fun v => (g v.1, h v.2)) r.(row_key) (view t).
Proof.
  intros Hwf Hr. rewrite <- update_key_view by done. f_equal. unfold update_where. f_equal.
  apply map_ext_in. intros s Hs%list_elem_of_In.
  assert (has_id (row_id r) s = has_key (row_key r) s) as ->; [|done].
  unfold has_id, has_key. apply eq_true_iff_eq. rewrite bool_decide_eq_true, Z.eqb_eq.
  split; intros Heq.
  - by rewrite (nodup_id_inj t s r).
  - by rewrite (nodup_key_inj t s r).
Qed.

Lemma delete_where_view t (Q : key * (D * Z) -> Prop) `{!forall x, Decision (Q x)} :
  table_wf t ->
  view (delete_where (fun r => bool_decide (~ Q (r.(row_key), (r.(row_data), r.(row_created))))) t)
  = filter Q (view t).
Proof.
  intros Hwf. apply map_eq. intros k'. apply option_eq. intros [d c].
  rewrite map_lookup_filter_Some. setoid_rewrite view_lookup; [|by auto using delete_where_wf..].
  setoid_rewrite elem_delete_where. split.
  - intros (r & [Hin Hk%bool_decide_eq_false] & <- & <- & <-). apply dec_stable in Hk. split; [by exists r|done].
  - intros [(r & Hin & <- & <- & <-) Hq]. exists r. split_and!; try done.
    apply bool_decide_eq_false. auto.
Qed.

Lemma ordered_perm (l : list (Row D)) : ordered l ≡ₚ l.
Proof. apply merge_sort_Permutation. Qed.
End table.
