(* ===== verification/Storage.v ===== *)
(** * Storage ([src/infra/storage.rs])

    The SQLite database of the node.  Every method runs one statement, which
    either takes effect or fails; [faults] says which of the coming statements
    fail (none, once it is used up), and [clock] is what [unix_now] reads.  The
    JSON text of a task or a job is what [serde_json] makes of it, parameters
    with their round trip as a hypothesis. *)

From S2P Require Import Prelude Bytes F64 Models Pcs Table.

#[local] Set Warnings "-clear-no-such-hyp".

(** ** Data *)

Record task_data := mkTaskData { payload : string; status : string }.
Record result_data := mkResultData { wire_body : bytes; res_attempts : Z }.
Record pcs_data := mkPcsData { job_json : bytes; pcs_attempts : Z }.

Record GeoInfo := mkGeoInfo {
  latitude : f64; longitude : f64; country : string; city : string
}.

Definition GEO_CACHE_TTL_SECS : Z := 86400.

Record Db := mkDb {
  tasks : Table task_data;
  pending_results : Table result_data;
  pending_pcs : Table pcs_data;
  geo_cache : option (GeoInfo * Z)
}.

(** [Storage::new] on a fresh file. *)
Definition empty_db : Db := mkDb empty_table empty_table empty_table None.

Record PendingResult := mkPendingResult {
  prs_id : Z; prs_orchestrator_pubkey : string; prs_sub_task_id : string;
  prs_wire_body : bytes; prs_attempts : Z
}.
Record PendingPcs := mkPendingPcs {
  pp_id : Z; pp_orchestrator_pubkey : string; pp_sub_task_id : string;
  pp_job_json : bytes; pp_attempts : Z; pp_created_at : Z
}.

Inductive StorageError :=
| IoError            (* any failure of SQLite other than the ones below *)
| UniqueViolation    (* UNIQUE constraint failed *)
| NotNullViolation   (* NOT NULL constraint failed: a NaN is stored as NULL *)
| EncodeError
| DecodeError.

Record Store := mkStore { db : Db; faults : list bool; clock : Z }.

(** ** Statements *)

Definition St (A : Type) : Type := Store -> result StorageError A * Store.

(** A statement that fails leaves the database as it was. *)
Definition stmt {A} (f : Db -> Z -> result StorageError (Db * A)) : St A := fun s =>
  match s.(faults) with
  | true :: rest => (Err IoError, mkStore s.(db) rest s.(clock))
  | _ =>
    let rest := tl s.(faults) in
    match f s.(db) s.(clock) with
    | Ok (db', a) => (Ok a, mkStore db' rest s.(clock))
    | Err e => (Err e, mkStore s.(db) rest s.(clock))
    end
  end.

Definition exec (f : Db -> Z -> Db) : St unit := stmt (fun d now => Ok (f d now, tt)).
Definition query {A} (f : Db -> Z -> A) : St A := stmt (fun d now => Ok (d, f d now)).

(** What is done with a query's rows once they are read. *)
Definition decoding {A B} (q : St A) (f : A -> result StorageError B) : St B := fun s =>
  match q s with
  | (Ok a, s') => (f a, s')
  | (Err e, s') => (Err e, s')
  end.

Definition with_tasks (f : Table task_data -> Table task_data) (d : Db) : Db :=
  mkDb (f d.(tasks)) d.(pending_results) d.(pending_pcs) d.(geo_cache).
Definition with_results (f : Table result_data -> Table result_data) (d : Db) : Db :=
  mkDb d.(tasks) (f d.(pending_results)) d.(pending_pcs) d.(geo_cache).
Definition with_pcs (f : Table pcs_data -> Table pcs_data) (d : Db) : Db :=
  mkDb d.(tasks) d.(pending_results) (f d.(pending_pcs)) d.(geo_cache).

(** [row.get::<_, i64>(4)? as u32] *)
Definition to_pending_result (r : Row result_data) : PendingResult :=
  mkPendingResult r.(row_id) r.(row_key).1 r.(row_key).2 r.(row_data).(wire_body)
    (as_u32 r.(row_data).(res_attempts)).
Definition to_pending_pcs (r : Row pcs_data) : PendingPcs :=
  mkPendingPcs r.(row_id) r.(row_key).1 r.(row_key).2 r.(row_data).(job_json)
    (as_u32 r.(row_data).(pcs_attempts)) r.(row_created).

Definition has_status (st : string) (r : Row task_data) : bool :=
  bool_decide (r.(row_data).(status) = st).
Definition is_terminal (r : Row task_data) : bool :=
  has_status "completed" r || has_status "failed" r.

(** ** Results outbox *)

Definition upsert_pending_result (orchestrator_pubkey sub_task_id : string) (body : bytes)
  : St unit :=
  exec (fun d now => with_results (fun t =>
    upsert_row t (orchestrator_pubkey, sub_task_id) (mkResultData body 0) now
      (fun r => mkRow r.(row_id) r.(row_key) (mkResultData body 0) now)) d).

Definition delete_pending_result (orchestrator_pubkey sub_task_id : string) : St unit :=
  exec (fun d _ => with_results (delete_where (has_key (orchestrator_pubkey, sub_task_id))) d).

Definition list_pending_results : St (list PendingResult) :=
  query (fun d _ => map to_pending_result (ordered d.(pending_results).(rows))).

Definition count_pending_results : St Z :=
  query (fun d _ => Z.of_nat (length d.(pending_results).(rows))).

Definition bump_result (r : Row result_data) : Row result_data :=
  mkRow r.(row_id) r.(row_key)
    (mkResultData r.(row_data).(wire_body) (r.(row_data).(res_attempts) + 1)) r.(row_created).

Definition increment_pending_result_attempts (id : Z) : St unit :=
  exec (fun d _ => with_results (update_where (has_id id) bump_result) d).

(** ** PCS outbox *)

Definition delete_pending_pcs (orchestrator_pubkey sub_task_id : string) : St unit :=
  exec (fun d _ => with_pcs (delete_where (has_key (orchestrator_pubkey, sub_task_id))) d).

Definition get_pending_pcs (orchestrator_pubkey sub_task_id : string) : St (option PendingPcs) :=
  query (fun d _ => to_pending_pcs <$> select d.(pending_pcs) (orchestrator_pubkey, sub_task_id)).

Definition list_pending_pcs : St (list PendingPcs) :=
  query (fun d _ => map to_pending_pcs (ordered d.(pending_pcs).(rows))).

Definition delete_pending_pcs_by_id (id : Z) : St unit :=
  exec (fun d _ => with_pcs (delete_where (has_id id)) d).

Definition bump_pcs (r : Row pcs_data) : Row pcs_data :=
  mkRow r.(row_id) r.(row_key)
    (mkPcsData r.(row_data).(job_json) (r.(row_data).(pcs_attempts) + 1)) r.(row_created).

Definition increment_pending_pcs_attempts (id : Z) : St unit :=
  exec (fun d _ => with_pcs (update_where (has_id id) bump_pcs) d).

(** ** Tasks *)

Definition set_status (st : string) (r : Row task_data) : Row task_data :=
  mkRow r.(row_id) r.(row_key) (mkTaskData r.(row_data).(payload) st) r.(row_created).

Definition update_status (orchestrator_pubkey task_id st : string) : St unit :=
  exec (fun d _ => with_tasks (update_where (has_key (orchestrator_pubkey, task_id))
    (set_status st)) d).

(** The rows [prune_terminal_tasks] deletes. *)
Definition prunable (older_than_unix : Z) (d : Db) (r : Row task_data) : bool :=
  is_terminal r && (r.(row_created) <? older_than_unix)
    && negb (existsb (has_key r.(row_key)) d.(pending_results).(rows)).

Definition prune_terminal_tasks (older_than_unix : Z) : St Z :=
  stmt (fun d _ =>
    Ok (with_tasks (delete_where (prunable older_than_unix d)) d,
        Z.of_nat (length (List.filter (prunable older_than_unix d) d.(tasks).(rows))))).

Definition count_status (st : string) (d : Db) : Z :=
  Z.of_nat (length (List.filter (has_status st) d.(tasks).(rows))).

Definition count_tasks_by_status : St (Z * Z * Z) :=
  query (fun d _ => (count_status "pending" d, count_status "completed" d, count_status "failed" d)).

(** ** Geolocation cache *)

Definition get_cached_geo : St (option GeoInfo) :=
  query (fun d now =>
    match d.(geo_cache) with
    | Some (geo, updated_at) =>
      if now - updated_at <? GEO_CACHE_TTL_SECS then Some geo else None
    | None => None
    end).

Definition save_geo_cache (geo : GeoInfo) : St unit :=
  stmt (fun d now =>
    if f64_is_nan geo.(latitude) || f64_is_nan geo.(longitude) then Err NotNullViolation
    else Ok (mkDb d.(tasks) d.(pending_results) d.(pending_pcs) (Some (geo, now)), tt)).

(** ** Statements on JSON text *)

Section json.
Context (task_to_json : ComputeTask -> option string) (task_from_json : string -> option ComputeTask).
Context (job_to_json : PendingPcsJob -> option bytes).

Definition save_task (task : ComputeTask) : St unit := fun s =>
  match task_to_json task with
  | None => (Err EncodeError, s)
  | Some p =>
    stmt (fun d now =>
      match insert_row d.(tasks) (task.(orchestrator_pubkey), task.(request).(task_id))
              (mkTaskData p "pending") now with
      | Some t => Ok (with_tasks (fun _ => t) d, tt)
      | None => Err UniqueViolation
      end) s
  end.

Definition load_task (orchestrator_pubkey task_id : string) : St (option ComputeTask) :=
  decoding (query (fun d _ => select d.(tasks) (orchestrator_pubkey, task_id)))
    (fun row => match row with
      | Some r => match task_from_json r.(row_data).(payload) with
                  | Some t => Ok (Some t)
                  | None => Err DecodeError
                  end
      | None => Ok None
      end).

(** The payloads in order, up to the first that does not decode. *)
Fixpoint decode_all (payloads : list string) : result StorageError (list ComputeTask) :=
  match payloads with
  | [] => Ok []
  | p :: rest =>
    match task_from_json p with
    | Some t => match decode_all rest with Ok ts => Ok (t :: ts) | Err e => Err e end
    | None => Err DecodeError
    end
  end.

Definition get_pending_tasks : St (list ComputeTask) :=
  decoding (query (fun d _ =>
      map (fun r => r.(row_data).(payload))
        (ordered (List.filter (has_status "pending") d.(tasks).(rows)))))
    decode_all.

(** [created_at] is kept on conflict. *)
Definition upsert_pending_pcs (orchestrator_pubkey sub_task_id : string) (job : PendingPcsJob)
  : St unit := fun s =>
  match job_to_json job with
  | None => (Err EncodeError, s)
  | Some json =>
    exec (fun d now => with_pcs (fun t =>
      upsert_row t (orchestrator_pubkey, sub_task_id) (mkPcsData json 0) now
        (fun r => mkRow r.(row_id) r.(row_key) (mkPcsData json 0) r.(row_created))) d) s
  end.
End json.

(** ** Invariant and abstraction *)

Record db_wf (d : Db) : Prop := {
  dw_tasks : table_wf d.(tasks);
  dw_results : table_wf d.(pending_results);
  dw_pcs : table_wf d.(pending_pcs)
}.

(** What the rest of the node sees: three finite maps from
    [(orchestrator_pubkey, task id)] to the data and [created_at]. *)
Record AbsDb := mkAbsDb {
  a_tasks : gmap key (task_data * Z);
  a_results : gmap key (result_data * Z);
  a_pcs : gmap key (pcs_data * Z)
}.
Definition abs (d : Db) : AbsDb :=
  mkAbsDb (view d.(tasks)) (view d.(pending_results)) (view d.(pending_pcs)).

(** A task of this key, for a statement of which only the key and the text matter. *)
Definition task_at (k : key) : ComputeTask :=
  mkComputeTask (mkComputeRequest k.2 None "" None 0 0 "" [] [] None None None None None ""
    None None None [] None "") k.1 None 0.

(** The statements that change a table, with the text they store. *)
Inductive op :=
| OpInsertTask (k : key) (json : string)
| OpSetStatus (k : key) (st : string)
| OpPrune (older_than_unix : Z)
| OpUpsertResult (k : key) (body : bytes)
| OpDeleteResult (k : key)
| OpBumpResult (id : Z) (k : key)
| OpUpsertPcs (k : key) (json : bytes)
| OpDeletePcs (k : key)
| OpDeletePcsId (id : Z) (k : key)
| OpBumpPcs (id : Z) (k : key).

Definition run_op (o : op) : St unit :=
  match o with
  | OpInsertTask k json => save_task (fun _ => Some json) (task_at k)
  | OpSetStatus k st => update_status k.1 k.2 st
  | OpPrune z => fun s => let '(r, s') := prune_terminal_tasks z s in ((fun _ => tt) <$> r, s')
  | OpUpsertResult k body => upsert_pending_result k.1 k.2 body
  | OpDeleteResult k => delete_pending_result k.1 k.2
  | OpBumpResult id _ => increment_pending_result_attempts id
  | OpUpsertPcs k json => upsert_pending_pcs (fun _ => Some json) k.1 k.2
      (mkPendingPcsJob "" (mkProof (mkPublicInputs "" "" "" "" "" "" "") "") false None None None)
  | OpDeletePcs k => delete_pending_pcs k.1 k.2
  | OpDeletePcsId id _ => delete_pending_pcs_by_id id
  | OpBumpPcs id _ => increment_pending_pcs_attempts id
  end.

(** A statement by id is meant for the row listed with that id. *)
Definition op_pre (o : op) (d : Db) : Prop :=
  match o with
  | OpBumpResult id k =>
      exists r, r ∈ d.(pending_results).(rows) /\ r.(row_id) = id /\ r.(row_key) = k
  | OpDeletePcsId id k | OpBumpPcs id k =>
      exists r, r ∈ d.(pending_pcs).(rows) /\ r.(row_id) = id /\ r.(row_key) = k
  | _ => True
  end.

Definition kept_by_prune (older_than_unix : Z) (a : AbsDb) (kv : key * (task_data * Z)) : Prop :=
  ~ ((kv.2.1.(status) = "completed" \/ kv.2.1.(status) = "failed")
     /\ kv.2.2 < older_than_unix /\ a.(a_results) !! kv.1 = None).
#[export] Instance kept_by_prune_dec z a kv : Decision (kept_by_prune z a kv).
Proof. unfold kept_by_prune. apply _. Defined.

(** The maps after the statement. *)
Definition abs_op (o : op) (now : Z) (a : AbsDb) : AbsDb :=
  let set_tasks t := mkAbsDb t a.(a_results) a.(a_pcs) in
  let set_results r := mkAbsDb a.(a_tasks) r a.(a_pcs) in
  let set_pcs p := mkAbsDb a.(a_tasks) a.(a_results) p in
  match o with
  | OpInsertTask k json => set_tasks (<[k := (mkTaskData json "pending", now)]> a.(a_tasks))
  | OpSetStatus k st =>
      set_tasks (alter (fun v => (mkTaskData v.1.(payload) st, v.2)) k a.(a_tasks))
  | OpPrune z => set_tasks (filter (kept_by_prune z a) a.(a_tasks))
  | OpUpsertResult k body => set_results (<[k := (mkResultData body 0, now)]> a.(a_results))
  | OpDeleteResult k => set_results (delete k a.(a_results))
  | OpBumpResult _ k => set_results
      (alter (fun v => (mkResultData v.1.(wire_body) (v.1.(res_attempts) + 1), v.2)) k a.(a_results))
  | OpUpsertPcs k json => set_pcs
      (<[k := (mkPcsData json 0, default now (snd <$> a.(a_pcs) !! k))]> a.(a_pcs))
  | OpDeletePcs k | OpDeletePcsId _ k => set_pcs (delete k a.(a_pcs))
  | OpBumpPcs _ k => set_pcs
      (alter (fun v => (mkPcsData v.1.(job_json) (v.1.(pcs_attempts) + 1), v.2)) k a.(a_pcs))
  end.

(** *** Every statement of the node, as it is called *)

Inductive statement :=
| SaveTask (task : ComputeTask)
| LoadTask (orchestrator_pubkey task_id : string)
| GetPendingTasks
| UpdateStatus (orchestrator_pubkey task_id status : string)
| PruneTerminalTasks (older_than_unix : Z)
| CountTasksByStatus
| UpsertPendingResult (orchestrator_pubkey sub_task_id : string) (body : bytes)
| DeletePendingResult (orchestrator_pubkey sub_task_id : string)
| ListPendingResults
| CountPendingResults
| IncrementPendingResultAttempts (id : Z)
| UpsertPendingPcs (orchestrator_pubkey sub_task_id : string) (job : PendingPcsJob)
| GetPendingPcs (orchestrator_pubkey sub_task_id : string)
| DeletePendingPcs (orchestrator_pubkey sub_task_id : string)
| DeletePendingPcsById (id : Z)
| ListPendingPcs
| IncrementPendingPcsAttempts (id : Z)
| GetCachedGeo
| SaveGeoCache (geo : GeoInfo).

Definition ignoring {A} (m : St A) : St unit :=
  fun s => let '(r, s') := m s in ((fun _ => tt) <$> r, s').

(** The key of the row that has an id. *)
Definition id_key {D} (t : Table D) (id : Z) : option key :=
  row_key <$> List.find (has_id id) t.(rows).

Section statements.
Context (task_to_json : ComputeTask -> option string) (task_from_json : string -> option ComputeTask).
Context (job_to_json : PendingPcsJob -> option bytes).

Definition run_statement (q : statement) : St unit :=
  match q with
  | SaveTask task => save_task task_to_json task
  | LoadTask p i => ignoring (load_task task_from_json p i)
  | GetPendingTasks => ignoring (get_pending_tasks task_from_json)
  | UpdateStatus p i st => update_status p i st
  | PruneTerminalTasks z => ignoring (prune_terminal_tasks z)
  | CountTasksByStatus => ignoring count_tasks_by_status
  | UpsertPendingResult p i body => upsert_pending_result p i body
  | DeletePendingResult p i => delete_pending_result p i
  | ListPendingResults => ignoring list_pending_results
  | CountPendingResults => ignoring count_pending_results
  | IncrementPendingResultAttempts id => increment_pending_result_attempts id
  | UpsertPendingPcs p i job => upsert_pending_pcs job_to_json p i job
  | GetPendingPcs p i => ignoring (get_pending_pcs p i)
  | DeletePendingPcs p i => delete_pending_pcs p i
  | DeletePendingPcsById id => delete_pending_pcs_by_id id
  | ListPendingPcs => ignoring list_pending_pcs
  | IncrementPendingPcsAttempts id => increment_pending_pcs_attempts id
  | GetCachedGeo => ignoring get_cached_geo
  | SaveGeoCache geo => save_geo_cache geo
  end.

(** What it is meant to do to the maps, if anything: a statement by id is about the
    row that has the id. *)
Definition op_of (q : statement) (d : Db) : option op :=
  match q with
  | SaveTask task =>
      OpInsertTask (task.(orchestrator_pubkey), task.(request).(task_id)) <$> task_to_json task
  | UpdateStatus p i st => Some (OpSetStatus (p, i) st)
  | PruneTerminalTasks z => Some (OpPrune z)
  | UpsertPendingResult p i body => Some (OpUpsertResult (p, i) body)
  | DeletePendingResult p i => Some (OpDeleteResult (p, i))
  | IncrementPendingResultAttempts id => OpBumpResult id <$> id_key d.(pending_results) id
  | UpsertPendingPcs p i job => OpUpsertPcs (p, i) <$> job_to_json job
  | DeletePendingPcs p i => Some (OpDeletePcs (p, i))
  | DeletePendingPcsById id => OpDeletePcsId id <$> id_key d.(pending_pcs) id
  | IncrementPendingPcsAttempts id => OpBumpPcs id <$> id_key d.(pending_pcs) id
  | _ => None
  end.
Definition maps_after (q : statement) (now : Z) (d : Db) : AbsDb :=
  match op_of q d with Some o => abs_op o now (abs d) | None => abs d end.
Definition geo_after (q : statement) (now : Z) (d : Db) : option (GeoInfo * Z) :=
  match q with SaveGeoCache geo => Some (geo, now) | _ => d.(geo_cache) end.

(** When it succeeds, if SQLite does: a task has to be new and to have a JSON text, a
    job to have one, stored tasks to read back, and coordinates to be numbers. *)
Definition reads_back (v : task_data) : bool := bool_decide (is_Some (task_from_json v.(payload))).
Definition can_run (q : statement) (d : Db) : bool :=
  match q with
  | SaveTask task => bool_decide (is_Some (task_to_json task))
      && bool_decide (a_tasks (abs d) !! (task.(orchestrator_pubkey), task.(request).(task_id)) = None)
  | LoadTask p i =>
      match a_tasks (abs d) !! (p, i) with Some v => reads_back v.1 | None => true end
  | GetPendingTasks =>
      forallb (fun r => negb (has_status "pending" r) || reads_back r.(row_data)) d.(tasks).(rows)
  | UpsertPendingPcs _ _ job => bool_decide (is_Some (job_to_json job))
  | SaveGeoCache geo => negb (f64_is_nan geo.(latitude) || f64_is_nan geo.(longitude))
  | _ => true
  end.
End statements.

(** SQLite fails now. *)
Definition failing (s : Store) : bool := match s.(faults) with true :: _ => true | _ => false end.

(** ** Lemmas *)

Lemma stmt_Ok {A} (f : Db -> Z -> result StorageError (Db * A)) s a s' :
  stmt f s = (Ok a, s') -> f s.(db) s.(clock) = Ok (s'.(db), a) /\ s'.(clock) = s.(clock).
Proof.
  unfold stmt. destruct (faults s) as [|[] fs]; destruct (f _ _) as [[d' b]|e] eqn:E;
    intros; simplify_eq/=; done.
Qed.

Lemma stmt_Err {A} (f : Db -> Z -> result StorageError (Db * A)) s e s' :
  stmt f s = (Err e, s') -> s'.(db) = s.(db) /\ s'.(clock) = s.(clock)
    /\ (e = IoError \/ f s.(db) s.(clock) = Err e).
Proof.
  unfold stmt. destruct (faults s) as [|[] fs]; destruct (f _ _) as [[d' b]|e'] eqn:E;
    intros; simplify_eq/=; auto.
Qed.

Lemma exec_Ok f s s' : exec f s = (Ok tt, s') -> s'.(db) = f s.(db) s.(clock).
Proof. intros [H _]%stmt_Ok. by simplify_eq. Qed.

Lemma exec_Err f s e s' : exec f s = (Err e, s') -> s'.(db) = s.(db).
Proof. by intros (H & _ & _)%stmt_Err. Qed.

Lemma query_clock {A} (f : Db -> Z -> A) s r s' : query f s = (r, s') -> s'.(clock) = s.(clock).
Proof.
  unfold query, stmt. destruct (faults s) as [|[] ?]; by intros [= <- <-].
Qed.

Lemma query_db {A} (f : Db -> Z -> A) s r s' : query f s = (r, s') -> s'.(db) = s.(db).
Proof.
  destruct r as [a|e]; intros H; [|by apply stmt_Err in H as (? & ? & ?)].
  apply stmt_Ok in H as [H _]. by simplify_eq.
Qed.

Lemma query_Ok {A} (f : Db -> Z -> A) s a s' :
  query f s = (Ok a, s') -> a = f s.(db) s.(clock).
Proof. intros [H _]%stmt_Ok. by simplify_eq. Qed.

Lemma prunable_abs z d r :
  db_wf d -> r ∈ d.(tasks).(rows) ->
  prunable z d r
  = bool_decide (~ kept_by_prune z (abs d) (r.(row_key), (r.(row_data), r.(row_created)))).
Proof.
  intros [_ Hr _] Hin. apply eq_true_iff_eq. rewrite bool_decide_eq_true. unfold kept_by_prune.
  cbn [fst snd abs a_results]. unfold prunable, is_terminal, has_status.
  rewrite !andb_true_iff, orb_true_iff, !bool_decide_eq_true, Z.ltb_lt, negb_true_iff.
  assert (Hex : existsb (has_key (row_key r)) (rows (pending_results d)) = false
    <-> view (pending_results d) !! row_key r = None).
  { rewrite <- select_view by done. split; intros H.
    - destruct (select _ _) as [x|] eqn:E; [|done]. apply select_Some in E as [Hx Hk].
      assert (existsb (has_key (row_key r)) (rows (pending_results d)) = true); [|congruence].
      apply existsb_exists. exists x. split; [by apply list_elem_of_In|].
      by apply bool_decide_eq_true.
    - apply not_true_is_false. intros (x & Hx & Hk)%existsb_exists.
      apply bool_decide_eq_true in Hk. destruct (select _ _) eqn:E; [done|].
      apply select_None in E. destruct E. rewrite <- Hk.
      by apply list_elem_of_fmap_2, list_elem_of_In. }
  rewrite Hex. split; [intros [[? ?] ?] Hn; by apply Hn|].
  intros Hn. apply dec_stable in Hn. naive_solver.
Qed.

Lemma prune_view z d :
  db_wf d ->
  view (delete_where (prunable z d) d.(tasks)) = filter (kept_by_prune z (abs d)) (view d.(tasks)).
Proof.
  intros Hwf. rewrite <- delete_where_view by apply Hwf. f_equal. unfold delete_where. f_equal.
  apply filter_ext_in_iff. intros r Hr%list_elem_of_In. by rewrite prunable_abs.
Qed.

(** Every statement, on success: the invariant and the map it is meant to make. *)
Lemma run_op_Ok o s s' :
  db_wf s.(db) -> op_pre o s.(db) -> run_op o s = (Ok tt, s') ->
  db_wf s'.(db) /\ abs s'.(db) = abs_op o s.(clock) (abs s.(db)).
Proof.
  intros Hwf Hpre Hrun. pose proof Hwf as [Ht Hr Hp]. destruct o as [k json|k st|z|k body|k|id k|k json|k|id k|id k];
    cbn [run_op] in Hrun.
  - apply stmt_Ok in Hrun as [Hrun _]. cbn [task_at orchestrator_pubkey request task_id] in Hrun.
    rewrite <- surjective_pairing in Hrun.
    destruct (insert_row _ _ _ _) as [t|] eqn:E; [|done]. injection Hrun as <-.
    split; [split; cbn; try done; by eapply insert_row_wf|].
    apply insert_row_view in E as [_ E]; [|done]. cbn. unfold abs. cbn. by rewrite E.
  - apply exec_Ok in Hrun as ->. split; [split; cbn; try done; by apply update_where_wf|].
    unfold abs. cbn. rewrite <- surjective_pairing. f_equal.
    apply (update_key_view _ k (fun x => mkTaskData x.(payload) st) (fun c => c) Ht).
  - destruct (prune_terminal_tasks z s) as [r0 s0] eqn:E. destruct r0 as [n|]; [|done].
    injection Hrun as <-. apply stmt_Ok in E as [E _]. injection E as E _.
    rewrite <- E. split; [split; cbn; try done; by apply delete_where_wf|].
    unfold abs at 1. cbn [with_tasks tasks pending_results pending_pcs].
    by rewrite prune_view.
  - apply exec_Ok in Hrun as ->. rewrite <- surjective_pairing.
    split; [split; cbn; try done; by apply upsert_row_wf|]. unfold abs. cbn. f_equal.
    rewrite (upsert_row_view _ k _ _ (fun _ => mkResultData body 0) (fun _ => clock s) Hr).
    by destruct (view _ !! k).
  - apply exec_Ok in Hrun as ->. rewrite <- surjective_pairing.
    split; [split; cbn; try done; by apply delete_where_wf|]. unfold abs. cbn. f_equal.
    by apply delete_key_view.
  - apply exec_Ok in Hrun as ->. split; [split; cbn; try done; by apply update_where_wf|].
    destruct Hpre as (r & Hin & <- & <-). unfold abs. cbn. f_equal.
    apply (update_row_view _ r (fun x => mkResultData x.(wire_body) (x.(res_attempts) + 1))
      (fun c => c) Hr Hin).
  - apply exec_Ok in Hrun as ->. rewrite <- surjective_pairing.
    split; [split; cbn; try done; by apply upsert_row_wf|]. unfold abs. cbn. f_equal.
    rewrite (upsert_row_view _ k _ _ (fun _ => mkPcsData json 0) (fun c => c) Hp).
    by destruct (view _ !! k).
  - apply exec_Ok in Hrun as ->. rewrite <- surjective_pairing.
    split; [split; cbn; try done; by apply delete_where_wf|]. unfold abs. cbn. f_equal.
    by apply delete_key_view.
  - apply exec_Ok in Hrun as ->. split; [split; cbn; try done; by apply delete_where_wf|].
    destruct Hpre as (r & Hin & <- & <-). unfold abs. cbn. f_equal.
    by apply delete_row_view.
  - apply exec_Ok in Hrun as ->. split; [split; cbn; try done; by apply update_where_wf|].
    destruct Hpre as (r & Hin & <- & <-). unfold abs. cbn. f_equal.
    apply (update_row_view _ r (fun x => mkPcsData x.(job_json) (x.(pcs_attempts) + 1))
      (fun c => c) Hp Hin).
Qed.

Lemma run_op_Err o s e s' : run_op o s = (Err e, s') -> s'.(db) = s.(db).
Proof.
  destruct o; cbn [run_op]; unfold save_task; try apply exec_Err; try by intros (H & _ & _)%stmt_Err.
  destruct (prune_terminal_tasks older_than_unix s) as [r0 s0] eqn:E.
  destruct r0 as [n|]; [done|]. intros [= _ <-]. by apply stmt_Err in E as (? & _ & _).
Qed.

Lemma run_op_frame o s r s' :
  run_op o s = (r, s') -> s'.(clock) = s.(clock) /\ s'.(db).(geo_cache) = s.(db).(geo_cache).
Proof.
  assert (Hstmt : forall A (f : Db -> Z -> result StorageError (Db * A)) r s',
    (forall d now d' a, f d now = Ok (d', a) -> d'.(geo_cache) = d.(geo_cache)) ->
    stmt f s = (r, s') -> s'.(clock) = s.(clock) /\ s'.(db).(geo_cache) = s.(db).(geo_cache)).
  { intros A f r0 s0 Hf H. destruct r0; [apply stmt_Ok in H as [H Hc]|apply stmt_Err in H as (H & Hc & _)];
      (split; [exact Hc|]); [by eapply Hf|by rewrite H]. }
  destruct o; cbn [run_op];
    try (apply Hstmt; by intros d now d' a [= <- _]).
  - apply Hstmt. intros d now d' a H. destruct (insert_row _ _ _ _); [|done]. by injection H as <- _.
  - destruct (prune_terminal_tasks older_than_unix s) as [r0 s0] eqn:E. intros [= _ <-]. revert E.
    apply Hstmt. by intros d now d' a [= <- _].
Qed.

Lemma find_id {D} (t : Table D) id r : List.find (has_id id) t.(rows) = Some r -> r ∈ t.(rows) /\ r.(row_id) = id.
Proof. intros [Hin Hid]%List.find_some. split; [by apply list_elem_of_In|]. unfold has_id in Hid. lia. Qed.

Lemma id_key_None {D} (t : Table D) id r : id_key t id = None -> r ∈ t.(rows) -> has_id id r = false.
Proof.
  unfold id_key. destruct (List.find _ _) eqn:E; [done|]. intros _ Hr.
  by apply (List.find_none _ _ E), list_elem_of_In.
Qed.

Lemma update_id_None {D} (t : Table D) id f : id_key t id = None -> update_where (has_id id) f t = t.
Proof.
  intros H. unfold update_where. destruct t as [l n]. cbn in *. f_equal.
  rewrite <- (map_id l) at 2. apply map_ext_in. intros r Hr%list_elem_of_In.
  by rewrite (id_key_None (mkTable l n) id r H Hr).
Qed.

Lemma delete_id_None {D} (t : Table D) id : id_key t id = None -> delete_where (has_id id) t = t.
Proof.
  intros H. unfold delete_where. destruct t as [l n]. cbn in *. f_equal.
  apply forallb_filter_id, forallb_forall. intros r Hr%list_elem_of_In.
  by rewrite (id_key_None (mkTable l n) id r H Hr).
Qed.

Section statement_lemmas.
Context (tj : ComputeTask -> option string) (fj : string -> option ComputeTask).
Context (jj : PendingPcsJob -> option bytes).
Abbreviation run := (run_statement tj fj jj).

Lemma statement_is_op q s o :
  op_of tj jj q s.(db) = Some o -> run q s = run_op o s /\ op_pre o s.(db).
Proof.
  assert (Hid : forall D (t : Table D) (c : key -> op) id,
    c <$> id_key t id = Some o -> exists r, r ∈ t.(rows) /\ r.(row_id) = id /\ o = c r.(row_key)).
  { intros D t c id. unfold id_key. destruct (List.find _ _) as [r|] eqn:E; [|done].
    apply find_id in E as [? ?]. intros [= <-]. by exists r. }
  destruct q; cbn; try done; try (intros [= <-]; done).
  - unfold save_task. destruct (tj task); [|done]. intros [= <-]. done.
  - intros (r & Hr & Hi & ->)%Hid. split; [done|]. by exists r.
  - unfold upsert_pending_pcs. destruct (jj job); [|done]. intros [= <-]. done.
  - intros (r & Hr & Hi & ->)%Hid. split; [done|]. by exists r.
  - intros (r & Hr & Hi & ->)%Hid. split; [done|]. by exists r.
Qed.

Lemma ignoring_db {A} (m : St A) s r s' :
  (forall r s', m s = (r, s') -> s'.(db) = s.(db) /\ s'.(clock) = s.(clock)) ->
  ignoring m s = (r, s') -> s'.(db) = s.(db) /\ s'.(clock) = s.(clock).
Proof. intros Hm. unfold ignoring. destruct (m s) as [r0 s0]. intros [= _ <-]. by eapply Hm. Qed.

Lemma query_frame {A} (f : Db -> Z -> A) s r s' :
  query f s = (r, s') -> s'.(db) = s.(db) /\ s'.(clock) = s.(clock).
Proof. intros H. split; [by eapply query_db|by eapply query_clock]. Qed.

Lemma decoding_frame {A B} (f : Db -> Z -> A) (g : A -> result StorageError B) s r s' :
  decoding (query f) g s = (r, s') -> s'.(db) = s.(db) /\ s'.(clock) = s.(clock).
Proof.
  unfold decoding. destruct (query f s) as [r0 s0] eqn:E. apply query_frame in E.
  by destruct r0; intros [= _ <-].
Qed.

Lemma statement_no_op q s r s' :
  op_of tj jj q s.(db) = None -> run q s = (r, s') ->
  s'.(clock) = s.(clock)
  /\ match r with
     | Ok _ => s'.(db) = mkDb s.(db).(tasks) s.(db).(pending_results) s.(db).(pending_pcs)
                 (geo_after q s.(clock) s.(db))
     | Err _ => s'.(db) = s.(db)
     end.
Proof.
  intros Ho H.
  assert (Hsame : geo_after q s.(clock) s.(db) = s.(db).(geo_cache) ->
    s'.(db) = s.(db) /\ s'.(clock) = s.(clock) -> s'.(clock) = s.(clock)
    /\ match r with
       | Ok _ => s'.(db) = mkDb s.(db).(tasks) s.(db).(pending_results) s.(db).(pending_pcs)
                   (geo_after q s.(clock) s.(db))
       | Err _ => s'.(db) = s.(db)
       end).
  { intros -> [-> ->]. split; [done|]. destruct r; [|done]. by destruct (db s). }
  destruct q; cbn [op_of run_statement] in Ho, H; try done;
    try (apply Hsame; [done|]; revert H; apply ignoring_db; intros ? ?;
         first [apply query_frame|apply decoding_frame]).
  - apply Hsame; [done|]. unfold save_task in H. destruct (tj task); [done|]. by injection H as <- <-.
  - apply Hsame; [done|]. apply fmap_None in Ho.
    destruct r as [[]|e]; [apply stmt_Ok in H as [H Hc]|by apply stmt_Err in H as (? & ? & _)].
    injection H as H. split; [|done]. rewrite <- H. unfold with_results. rewrite update_id_None by done.
    by destruct (db s).
  - apply Hsame; [done|]. unfold upsert_pending_pcs in H. destruct (jj job); [done|].
    by injection H as <- <-.
  - apply Hsame; [done|]. apply fmap_None in Ho.
    destruct r as [[]|e]; [apply stmt_Ok in H as [H Hc]|by apply stmt_Err in H as (? & ? & _)].
    injection H as H. split; [|done]. rewrite <- H. unfold with_pcs. rewrite delete_id_None by done.
    by destruct (db s).
  - apply Hsame; [done|]. apply fmap_None in Ho.
    destruct r as [[]|e]; [apply stmt_Ok in H as [H Hc]|by apply stmt_Err in H as (? & ? & _)].
    injection H as H. split; [|done]. rewrite <- H. unfold with_pcs. rewrite update_id_None by done.
    by destruct (db s).
  - destruct r as [[]|e]; [apply stmt_Ok in H as [H Hc]|by apply stmt_Err in H as (? & ? & _)].
    split; [done|]. by destruct (_ || _); [|injection H as H].
Qed.

(** When a statement succeeds. *)
Lemma stmt_outcome {A} (f : Db -> Z -> result StorageError (Db * A)) s :
  is_ok (stmt f s).1 = negb (failing s) && is_ok (f s.(db) s.(clock)).
Proof.
  unfold stmt, failing. destruct (faults s) as [|[] ?]; [|done|]; by destruct (f _ _) as [[]|].
Qed.

Lemma ignoring_outcome {A} (m : St A) s : is_ok (ignoring m s).1 = is_ok (m s).1.
Proof. unfold ignoring. by destruct (m s) as [[] s']. Qed.

Lemma decoding_outcome {A B} (f : Db -> Z -> A) (g : A -> result StorageError B) s :
  is_ok (decoding (query f) g s).1 = negb (failing s) && is_ok (g (f s.(db) s.(clock))).
Proof.
  unfold decoding. pose proof (stmt_outcome (fun d now => Ok (d, f d now)) s) as H.
  fold (query f) in H. destruct (query f s) as [r s'] eqn:E. cbn [fst is_ok] in H.
  rewrite andb_true_r in H. rewrite <- H. destruct r as [a|e]; [|done]. apply query_Ok in E as ->.
  done.
Qed.

Lemma decode_all_outcome ps : is_ok (decode_all fj ps) = forallb (fun p => bool_decide (is_Some (fj p))) ps.
Proof.
  induction ps as [|p ps IH]; [done|]. cbn. destruct (fj p); [|done].
  rewrite bool_decide_eq_true_2 by done. rewrite <- IH. by destruct (decode_all fj ps).
Qed.

Lemma pending_outcome l :
  is_ok (decode_all fj (map (fun r => r.(row_data).(payload)) (ordered (List.filter (has_status "pending") l))))
  = forallb (fun r => negb (has_status "pending" r) || reads_back fj r.(row_data)) l.
Proof.
  rewrite decode_all_outcome. apply eq_true_iff_eq. rewrite !forallb_forall. split.
  - intros H r Hr. destruct (has_status "pending" r) eqn:E; [|done]. apply (H r.(row_data).(payload)).
    apply in_map_iff. exists r. split; [done|]. apply list_elem_of_In. rewrite ordered_perm.
    apply list_elem_of_In, filter_In. by split.
  - intros H p (r & <- & Hr)%in_map_iff. apply list_elem_of_In in Hr. rewrite ordered_perm in Hr.
    apply list_elem_of_In, filter_In in Hr as [Hr E]. specialize (H r Hr). by rewrite E in H.
Qed.

Lemma statement_outcome q s :
  db_wf s.(db) -> is_ok (run q s).1 = negb (failing s) && can_run tj fj jj q s.(db).
Proof.
  intros [Ht _ _]. destruct q; cbn [run_statement can_run]; rewrite ?ignoring_outcome;
    unfold query, exec; try apply stmt_outcome.
  - unfold save_task. destruct (tj task) as [j|].
    + rewrite stmt_outcome. f_equal. rewrite (bool_decide_eq_true_2 (is_Some (Some j))) by done. cbn [andb].
      apply eq_true_iff_eq. rewrite bool_decide_eq_true. cbn [abs a_tasks].
      destruct (insert_row _ _ _ _) eqn:E; cbn.
      * apply insert_row_view in E as [-> _]; done.
      * apply insert_row_None in E as [v ->]; done.
    + cbn. by rewrite andb_false_r.
  - unfold load_task. rewrite decoding_outcome. f_equal. cbn [abs a_tasks].
    rewrite <- select_view by done. destruct (select _ _) as [r|]; [|done]. cbn. unfold reads_back.
    by destruct (fj _).
  - unfold get_pending_tasks. by rewrite decoding_outcome, pending_outcome.
  - unfold upsert_pending_pcs. destruct (jj job); [apply stmt_outcome|]. cbn. by rewrite andb_false_r.
  - unfold save_geo_cache. rewrite stmt_outcome. by destruct (_ || _).
Qed.
End statement_lemmas.

Lemma empty_db_wf : db_wf empty_db.
Proof. split; apply empty_table_wf. Qed.

(** Fault-free runs of single statements, for the witnesses. *)
Definition run_all (ops : list op) (s : Store) : Store := foldl (fun s o => (run_op o s).2) s ops.

(** ** Theorems *)

(** C7. Every statement the node runs, as it is called, on a database whose keys and ids
    are unique: it succeeds exactly when SQLite does and its own conditions hold (a
    task that is saved is new and has a JSON text, a job has one, stored tasks that are
    read back decode, coordinates that are saved are numbers); when it succeeds, keys
    and ids stay unique and the three tables become, as finite maps, what the
    operation it stands for makes of them (insert, update of one key, delete, filter;
    an upsert of a PCS job keeps the row's [created_at] and resets its attempts; a
    statement by id is about the row that has it, and does nothing when there is none;
    a query changes nothing), the location cache changing only by [save_geo_cache];
    and when it fails the database is as it was. *)
Theorem statements_refine_maps tj fj jj q s r s' :
  db_wf s.(db) -> run_statement tj fj jj q s = (r, s') ->
  db_wf s'.(db) /\ s'.(clock) = s.(clock)
  /\ is_ok r = negb (failing s) && can_run tj fj jj q s.(db)
  /\ match r with
     | Ok _ => abs s'.(db) = maps_after tj jj q s.(clock) s.(db)
         /\ s'.(db).(geo_cache) = geo_after q s.(clock) s.(db)
     | Err _ => s'.(db) = s.(db)
     end.
Proof.
  intros Hwf H. pose proof (statement_outcome tj fj jj q s Hwf) as Hok. rewrite H in Hok.
  unfold maps_after. destruct (op_of tj jj q (db s)) as [o|] eqn:Ho.
  - destruct (statement_is_op tj fj jj q s o Ho) as [Hrun Hpre]. rewrite Hrun in H.
    apply run_op_frame in H as Hf. destruct Hf as [Hc Hg]. destruct r as [[]|e].
    + apply run_op_Ok in H as [? ?]; [|done..]. split_and!; try done. rewrite Hg. by destruct q.
    + apply run_op_Err in H as ->. done.
  - apply (statement_no_op tj fj jj) in H as [Hc Hd]; [|done].
    destruct r; rewrite Hd; [|done]. destruct Hwf. by split_and!.
Qed.

Definition sample_store : Store :=
  run_all [OpInsertTask ("orch", "t1") "{1}"; OpInsertTask ("orch", "t2") "{2}";
           OpUpsertResult ("orch", "t2") []; OpSetStatus ("orch", "t1") "completed";
           OpSetStatus ("orch", "t2") "failed"; OpUpsertPcs ("orch", "t1") []]
    (mkStore empty_db [] 1000).

Lemma sample_store_wf : db_wf sample_store.(db).
Proof.
  split; split; vm_compute; repeat (constructor; try (intros H; repeat
    match goal with H : _ ∈ _ |- _ => inversion H; clear H; subst; try discriminate end));
    try done; try (repeat constructor; done).
Qed.

(** A JSON text and its reading, for the sample tasks and jobs: the id alone. *)
Definition sample_request (id : string) : ComputeRequest :=
  mkComputeRequest id (Some "parent") "c" None 2 2 "0" [] [] (Some 1) None None None None ""
    None None None [] None "".
Definition sample_task (id : string) : ComputeTask := mkComputeTask (sample_request id) "orch" None 5.
Definition sample_to_json (t : ComputeTask) : option string :=
  if decide (t = sample_task t.(request).(task_id)) then Some t.(request).(task_id) else None.
Definition sample_from_json (j : string) : option ComputeTask := Some (sample_task j).
Definition sample_run (q : statement) (s : Store) : result StorageError unit * Store :=
  run_statement sample_to_json sample_from_json (fun _ => Some [Byte.x41]) q s.

(** A task is saved, and not a second time; a job stored again keeps its date; an id
    nobody has. *)
Lemma statements_refine_maps_witness :
  let late := mkStore (db sample_store) [] 5000 in
  let job := mkPendingPcsJob "t1" (mkProof (mkPublicInputs "" "" "" "" "" "" "") "") true None None None in
  let saved := (sample_run (SaveTask (sample_task "t3")) late).2 in
  a_tasks (abs saved.(db)) !! ("orch", "t3") = Some (mkTaskData "t3" "pending", 5000)
  /\ (sample_run (SaveTask (sample_task "t3")) saved).1 = Err UniqueViolation
  /\ a_pcs (abs (db (sample_run (UpsertPendingPcs "orch" "t1" job) late).2)) !! ("orch", "t1")
     = Some (mkPcsData [Byte.x41] 0, 1000)
  /\ abs (db (sample_run (DeletePendingPcsById 99) late).2) = abs late.(db).
Proof.
  intros late job saved.
  assert (R : forall q s, db_wf s.(db) -> is_ok (sample_run q s).1 = true ->
    abs (db (sample_run q s).2) = maps_after sample_to_json (fun _ => Some [Byte.x41]) q s.(clock) s.(db)).
  { intros q s Hwf Hok. destruct (sample_run q s) as [r s'] eqn:E. cbn [fst snd] in *.
    destruct (statements_refine_maps sample_to_json sample_from_json (fun _ => Some [Byte.x41]) q s r s'
      Hwf E) as (_ & _ & _ & H). destruct r; [apply H|done]. }
  assert (Hwf : db_wf late.(db)) by exact sample_store_wf.
  unfold saved. rewrite !R by (done || (vm_compute; reflexivity)).
  split_and!; vm_compute; reflexivity.
Defined.

(** C36. Pruning only removes what nobody needs: a pending task and a task whose
    result still waits in the outbox stay, every terminal task older than the
    cutoff without such a result goes, and the count returned is the number of
    rows removed. *)
Theorem prune_removes_only_settled z s n s' :
  db_wf s.(db) -> prune_terminal_tasks z s = (Ok n, s') ->
  let before := a_tasks (abs s.(db)) in
  let after := a_tasks (abs s'.(db)) in
  (forall k v, before !! k = Some v ->
     after !! k = Some v <->
     ~ ((v.1.(status) = "completed" \/ v.1.(status) = "failed") /\ v.2 < z
        /\ a_results (abs s.(db)) !! k = None)) /\
  (forall k, before !! k = None -> after !! k = None) /\
  abs s'.(db) = mkAbsDb after (a_results (abs s.(db))) (a_pcs (abs s.(db))) /\
  n + Z.of_nat (length s'.(db).(tasks).(rows)) = Z.of_nat (length s.(db).(tasks).(rows)).
Proof.
  intros Hwf [H _]%stmt_Ok. injection H as <- <-. cbv zeta.
  assert (Hview : a_tasks (abs (with_tasks (delete_where (prunable z (db s))) (db s)))
    = filter (kept_by_prune z (abs (db s))) (a_tasks (abs (db s)))) by (by apply prune_view).
  rewrite Hview. split_and!.
  - intros k v Hv. rewrite map_lookup_filter_Some. unfold kept_by_prune. naive_solver.
  - intros k Hk. apply map_lookup_filter_None. by left.
  - unfold abs at 1. cbn [with_tasks tasks pending_results pending_pcs]. by rewrite prune_view.
  - cbn. induction (rows (tasks (db s))) as [|r l IH]; [done|]. cbn.
    destruct (prunable z (db s) r); cbn [negb length]; lia.
Qed.

Lemma prune_removes_only_settled_witness :
  a_tasks (abs (db (prune_terminal_tasks 2000 sample_store).2)) !! ("orch", "t1") = None
  /\ is_Some (a_tasks (abs (db (prune_terminal_tasks 2000 sample_store).2)) !! ("orch", "t2")).
Proof.
  destruct (prune_removes_only_settled 2000 sample_store 1
    (prune_terminal_tasks 2000 sample_store).2 sample_store_wf eq_refl) as (Hk & _ & _ & _).
  split.
  - vm_compute. reflexivity.
  - exists (mkTaskData "{2}" "failed", 1000). apply Hk; [vm_compute; reflexivity|].
    vm_compute. intros (_ & _ & [=]).
Defined.

(** A saved task can be loaded again, also after a restart, as the task it
    was, provided its JSON reads back; and it cannot be saved twice: a second
    save under the same orchestrator and id fails and changes nothing. *)
Theorem save_task_then_load to_json from_json t s s1 :
  (forall j, to_json t = Some j -> from_json j = Some t) ->
  db_wf s.(db) -> save_task to_json t s = (Ok tt, s1) ->
  let orch := t.(orchestrator_pubkey) in
  let id := t.(request).(task_id) in
  ((load_task from_json orch id s1).1 = Ok (Some t)
   \/ (load_task from_json orch id s1).1 = Err IoError) /\
  (s1.(faults) = [] -> (load_task from_json orch id s1).1 = Ok (Some t)) /\
  (forall t' r s2, t'.(orchestrator_pubkey) = orch -> t'.(request).(task_id) = id ->
     save_task to_json t' s1 = (r, s2) -> r <> Ok tt /\ s2.(db) = s1.(db)).
Proof.
  intros Hjson Hwf Hsave. cbv zeta. unfold save_task in Hsave.
  destruct (to_json t) as [j|] eqn:Hj; [|done]. pose proof Hsave as Hsave'.
  apply (run_op_Ok (OpInsertTask (orchestrator_pubkey t, task_id (request t)) j) s s1 Hwf I)
    in Hsave' as [Hwf1 Habs].
  assert (Hget : view (tasks (db s1)) !! (orchestrator_pubkey t, task_id (request t))
    = Some (mkTaskData j "pending", clock s)).
  { change (view (tasks (db s1))) with (a_tasks (abs (db s1))). rewrite Habs. cbn.
    by rewrite lookup_insert_eq. }
  rewrite <- select_view in Hget by apply Hwf1.
  destruct (select (tasks (db s1)) (orchestrator_pubkey t, task_id (request t))) as [r|] eqn:Hsel;
    [|done]. injection Hget as Hdata _.
  unfold load_task, decoding, query, stmt. split_and!.
  - destruct (faults s1) as [|[] ?]; cbn; rewrite ?Hsel; cbn; rewrite ?Hdata; cbn;
      rewrite ?(Hjson j) by done; auto.
  - intros ->. cbn. rewrite Hsel. cbn. rewrite Hdata. cbn. by rewrite (Hjson j).
  - intros t' r' s2 Ho Hi. unfold save_task. destruct (to_json t'); [|by intros [= <- <-]].
    rewrite Ho, Hi. unfold stmt, insert_row. rewrite Hsel.
    destruct (faults s1) as [|[] ?]; by intros [= <- <-].
Qed.

Lemma sample_json_round_trip t j : sample_to_json t = Some j -> sample_from_json j = Some t.
Proof. unfold sample_to_json. case_decide as H; [|done]. intros [= <-]. by rewrite H at 2. Qed.

Lemma save_task_then_load_witness :
  (load_task sample_from_json "orch" "t9"
    (save_task sample_to_json (sample_task "t9") (mkStore empty_db [] 7)).2).1
  = Ok (Some (sample_task "t9")).
Proof.
  apply (save_task_then_load sample_to_json sample_from_json (sample_task "t9")
    (mkStore empty_db [] 7)); [apply sample_json_round_trip|apply empty_db_wf|
    vm_compute; reflexivity|vm_compute; reflexivity].
Defined.
