(* ===== verification/CoreClient.v ===== *)
(** * The wqc-core client ([src/infra/core_client.rs])

    The health gate in front of wqc-core: a circuit breaker that opens after a
    number of consecutive unreachable outcomes and skips every call until its
    backoff passes.  What an HTTP exchange returns and what the clock reads are
    arguments; every function also returns the exchanges it made. *)

From S2P Require Import Prelude Models.

(** ** HTTP exchanges *)

(** The predicates of a [reqwest::Error]. *)
Record HttpError := mkHttpError {
  is_timeout : bool; is_body : bool; is_decode : bool; is_connect : bool; is_request : bool
}.

(** The outcome of [send()]: an error, or a status with the body as the expected
    type, if it parses, and as text. *)
Inductive HttpOutcome (A : Type) : Type :=
| SendError (e : HttpError)
| Response (status : Z) (body : option A) (text : string).
Arguments SendError {A} _.
Arguments Response {A} _ _ _.

Inductive exchange :=
| GetHealth
| PostCompute (timeout : Z) (request : ComputeRequest)
| PostLeafPcs (timeout : Z) (proof : Proof)
| GetGates
| GetSysinfo.

Inductive CoreError :=
| Backoff                        (* wqc-core unhealthy (backoff); skipping request *)
| HealthUnreachable (e : HttpError)  (* health check failed: Failed to reach /health *)
| HealthStatus (status : Z)      (* health check failed: /health returned {} *)
| SendFailed (e : HttpError)     (* Failed to send request *)
| ParseFailed                    (* Failed to parse response body *)
| ErrorStatus (status : Z) (text : string).  (* error status: {} - {} *)

(** ** State *)

Definition DEFAULT_FAIL_THRESHOLD : Z := 3.
Definition DEFAULT_BACKOFF_SECS : Z := 30.
Definition SKIP_LOG_INTERVAL : Z := 30 * 1000000000.

(** Times in nanoseconds. *)
Record CoreConfig := mkCoreConfig {
  core_compute_timeout : Z;
  pcs_timeout : Z;
  fail_threshold : Z;
  backoff : Z
}.

Record CoreHealth := mkCoreHealth {
  consecutive_failures : Z;   (* AtomicU32 *)
  unhealthy_until : option Z;
  last_skip_log : option Z
}.

Definition initial_health : CoreHealth := mkCoreHealth 0 None None.

Record LeafPcsResponse := mkLeafPcsResponse { leaf_pcs_b64 : string; leaf_bytes : Z }.

Definition is_in_backoff (h : CoreHealth) (now : Z) : bool :=
  match h.(unhealthy_until) with Some until => now <? until | None => false end.

Definition mark_healthy (h : CoreHealth) : CoreHealth := mkCoreHealth 0 None h.(last_skip_log).

Definition log_skip (h : CoreHealth) (now : Z) : CoreHealth :=
  if match h.(last_skip_log) with
     | Some t => SKIP_LOG_INTERVAL <=? Z.max 0 (now - t)
     | None => true
     end
  then mkCoreHealth h.(consecutive_failures) h.(unhealthy_until) (Some now)
  else h.

Definition is_unreachable (e : HttpError) : bool :=
  if e.(is_timeout) || e.(is_body) || e.(is_decode) then false
  else e.(is_connect) || e.(is_request).

Section client.
Context (cfg : CoreConfig).

(** [fetch_add(1) + 1] is computed on the value before the addition; the stored
    counter wraps. *)
Definition record_unreachable (h : CoreHealth) (now : Z) : CoreHealth :=
  let n := h.(consecutive_failures) + 1 in
  if cfg.(fail_threshold) <=? n then
    mkCoreHealth 0 (Some (now + cfg.(backoff))) h.(last_skip_log)
  else mkCoreHealth (as_u32 n) h.(unhealthy_until) h.(last_skip_log).

Definition is_success (status : Z) : bool := (200 <=? status) && (status <? 300).

Definition probe_health (out : HttpOutcome unit) : result CoreError unit :=
  match out with
  | SendError e => Err (HealthUnreachable e)
  | Response st _ _ => if is_success st then Ok tt else Err (HealthStatus st)
  end.

(** One call: the health after it, the exchanges made, the outcome. *)
Definition Call (A : Type) : Type := CoreHealth * list exchange * result CoreError A.

(** [t0]: the reading of the clock before the probe; [t1]: after it. *)
Definition ensure_ready (h : CoreHealth) (t0 t1 : Z) (probe : HttpOutcome unit) : Call unit :=
  if is_in_backoff h t0 then (log_skip h t0, [], Err Backoff)
  else
    match probe_health probe with
    | Ok _ => (mark_healthy h, [GetHealth], Ok tt)
    | Err e => (record_unreachable h t1, [GetHealth], Err e)
    end.

(** [t2]: the reading of the clock after a failed [POST]. *)
Definition dispatch_task (h : CoreHealth) (request : ComputeRequest) (timeout t0 t1 t2 : Z)
  (probe : HttpOutcome unit) (post : HttpOutcome ComputeResponse) : Call ComputeResponse :=
  match ensure_ready h t0 t1 probe with
  | (h, calls, Err e) => (h, calls, Err e)
  | (h, calls, Ok _) =>
    let calls := calls ++ [PostCompute (Z.min timeout cfg.(core_compute_timeout)) request] in
    match post with
    | SendError e =>
      (if is_unreachable e then record_unreachable h t2 else h, calls, Err (SendFailed e))
    | Response st body text =>
      if st =? 200 then
        match body with
        | Some res => (mark_healthy h, calls, Ok res)
        | None => (h, calls, Err ParseFailed)
        end
      else (h, calls, Err (ErrorStatus st text))
    end
  end.

Definition post_leaf_pcs (h : CoreHealth) (proof : Proof) (t0 t1 t2 : Z)
  (probe : HttpOutcome unit) (post : HttpOutcome LeafPcsResponse) : Call LeafPcsResponse :=
  match ensure_ready h t0 t1 probe with
  | (h, calls, Err e) => (h, calls, Err e)
  | (h, calls, Ok _) =>
    let calls := calls ++ [PostLeafPcs cfg.(pcs_timeout) proof] in
    match post with
    | SendError e =>
      (if is_unreachable e then record_unreachable h t2 else h, calls, Err (SendFailed e))
    | Response st body text =>
      if st =? 200 then
        (mark_healthy h, calls, ok_or ParseFailed body)
      else (h, calls, Err (ErrorStatus st text))
    end
  end.

Definition build_leaf_pcs := post_leaf_pcs.

(** Base64 is third-party code. *)
Definition build_leaf_pcs_from_proof_bytes (b64_encode : list Byte.byte -> string)
  (h : CoreHealth) (proof_bytes : list Byte.byte) (sub_task_id node_id slice_id : string)
  (t0 t1 t2 : Z) (probe : HttpOutcome unit) (post : HttpOutcome LeafPcsResponse)
  : Call LeafPcsResponse :=
  build_leaf_pcs h
    (mkProof (mkPublicInputs "" sub_task_id node_id slice_id "" "" "") (b64_encode proof_bytes))
    t0 t1 t2 probe post.

(** The loop polls once a second: each poll is a probe and the clock after it.
    [None]: the polls given do not decide. *)
Fixpoint wait_until (deadline : Z) (polls : list (HttpOutcome unit * Z)) : option bool :=
  match polls with
  | [] => None
  | (probe, now) :: rest =>
    if is_ok (probe_health probe) then Some true
    else if deadline <=? now then Some false
    else wait_until deadline rest
  end.

Definition wait_until_up (start limit : Z) (polls : list (HttpOutcome unit * Z)) : option bool :=
  wait_until (start + limit) polls.
End client.

(** [get_supported_gates] and [get_system_info]: a [GET] whose body is parsed
    whatever its status. *)
Definition get_json {A} (out : HttpOutcome A) : result CoreError A :=
  match out with
  | SendError e => Err (SendFailed e)
  | Response _ body _ => ok_or ParseFailed body
  end.

(** ** The gate as a state machine *)

Inductive core_call :=
| CallDispatch (r : ComputeRequest) (timeout : Z) (post : HttpOutcome ComputeResponse)
| CallLeafPcs (proof : Proof) (post : HttpOutcome LeafPcsResponse).

(** A call at [t0], its probe, and the clock readings on its failure paths. *)
Record call_event := mkCallEvent {
  ev_call : core_call; ev_t0 : Z; ev_t1 : Z; ev_t2 : Z; ev_probe : HttpOutcome unit
}.

Definition run_call (cfg : CoreConfig) (h : CoreHealth) (e : call_event)
  : CoreHealth * list exchange * bool :=
  match e.(ev_call) with
  | CallDispatch r timeout post =>
    let '(h', calls, res) :=
      dispatch_task cfg h r timeout e.(ev_t0) e.(ev_t1) e.(ev_t2) e.(ev_probe) post in
    (h', calls, is_ok res)
  | CallLeafPcs proof post =>
    let '(h', calls, res) :=
      post_leaf_pcs cfg h proof e.(ev_t0) e.(ev_t1) e.(ev_t2) e.(ev_probe) post in
    (h', calls, is_ok res)
  end.

Definition run_calls (cfg : CoreConfig) (h : CoreHealth) (es : list call_event) : CoreHealth :=
  foldl (fun h e => (run_call cfg h e).1.1) h es.

(** ** Lemmas *)

Definition counter_ok (cfg : CoreConfig) (h : CoreHealth) : Prop :=
  0 <= h.(consecutive_failures)
  /\ (h.(consecutive_failures) = 0 \/ h.(consecutive_failures) < cfg.(fail_threshold)).

Lemma mark_healthy_ok cfg h : counter_ok cfg (mark_healthy h).
Proof. split; [done|by left]. Qed.

Lemma record_unreachable_ok cfg h now :
  cfg.(fail_threshold) <= U32_MAX -> counter_ok cfg h ->
  counter_ok cfg (record_unreachable cfg h now).
Proof.
  intros Ht [H0 H]. unfold record_unreachable, U32_MAX in *.
  destruct (Z.leb_spec (fail_threshold cfg) (consecutive_failures h + 1)).
  - split; cbn; [lia|by left].
  - unfold counter_ok. cbn. rewrite as_u32_id by (unfold in_u32; lia). lia.
Qed.

Lemma log_skip_ok cfg h now : counter_ok cfg h -> counter_ok cfg (log_skip h now).
Proof. unfold log_skip. by case_match. Qed.

Lemma ensure_ready_ok cfg h t0 t1 probe :
  cfg.(fail_threshold) <= U32_MAX -> counter_ok cfg h ->
  counter_ok cfg (ensure_ready cfg h t0 t1 probe).1.1.
Proof.
  intros Ht Hok. unfold ensure_ready. destruct (is_in_backoff h t0); [by apply log_skip_ok|].
  destruct (probe_health probe); [apply mark_healthy_ok|by apply record_unreachable_ok].
Qed.

(** The two kinds of call share the shape of [ensure_ready]. *)
Lemma run_call_cases cfg h e :
  let '(h1, calls1, r1) := ensure_ready cfg h e.(ev_t0) e.(ev_t1) e.(ev_probe) in
  let '(h2, calls2, r2) := run_call cfg h e in
  match r1 with
  | Err _ => h2 = h1 /\ calls2 = calls1 /\ r2 = false
  | Ok _ => (h2 = h1 \/ h2 = mark_healthy h1 \/ h2 = record_unreachable cfg h1 e.(ev_t2))
            /\ (exists c, calls2 = calls1 ++ [c])
            /\ (r2 = true -> h2 = mark_healthy h1)
  end.
Proof.
  unfold run_call, dispatch_task, post_leaf_pcs.
  destruct (ensure_ready _ _ _ _ _) as [[h1 calls1] [[]|er]] eqn:E;
    destruct (ev_call e) as [r timeout [er'|st body]|proof [er'|st body]]; try done;
    repeat case_match; naive_solver.
Qed.

Lemma run_call_ok cfg h e :
  cfg.(fail_threshold) <= U32_MAX -> counter_ok cfg h -> counter_ok cfg (run_call cfg h e).1.1.
Proof.
  intros Ht Hok. pose proof (ensure_ready_ok cfg h (ev_t0 e) (ev_t1 e) (ev_probe e) Ht Hok) as H1.
  pose proof (run_call_cases cfg h e) as Hcases.
  destruct (ensure_ready _ _ _ _ _) as [[h1 calls1] [[]|er]];
    destruct (run_call cfg h e) as [[h2 calls2] r2]; cbn in *.
  - destruct Hcases as [[-> | [-> | ->]] _]; auto using mark_healthy_ok, record_unreachable_ok.
  - by destruct Hcases as [-> _].
Qed.

Lemma run_calls_ok cfg h es :
  cfg.(fail_threshold) <= U32_MAX -> counter_ok cfg h -> counter_ok cfg (run_calls cfg h es).
Proof.
  intros Ht. revert h. induction es as [|e es IH]; intros h Hok; [done|].
  cbn. apply IH. by apply run_call_ok.
Qed.

Lemma failed_probe_step cfg h e :
  is_in_backoff h e.(ev_t0) = false -> is_ok (probe_health e.(ev_probe)) = false ->
  (run_call cfg h e).1.1 = record_unreachable cfg h e.(ev_t1).
Proof.
  intros Hgate Hprobe. pose proof (run_call_cases cfg h e) as Hcases.
  unfold ensure_ready in Hcases. rewrite Hgate in Hcases.
  destruct (probe_health (ev_probe e)); [done|].
  destruct (run_call cfg h e) as [[h2 calls2] r2]. by destruct Hcases as [-> _].
Qed.

(** Below the threshold the failures are only counted. *)
Lemma failures_below_threshold cfg es :
  cfg.(fail_threshold) <= U32_MAX -> Z.of_nat (length es) < cfg.(fail_threshold) ->
  Forall (fun e => is_ok (probe_health e.(ev_probe)) = false) es ->
  run_calls cfg initial_health es = mkCoreHealth (Z.of_nat (length es)) None None.
Proof.
  intros Hmax Hlen Hfail. unfold U32_MAX in Hmax.
  induction es as [|e es IH] using rev_ind; [done|].
  apply Forall_app in Hfail as [Hes [He _]%Forall_cons]. rewrite length_app in *. cbn in Hlen.
  unfold run_calls in *. rewrite foldl_app. cbn [foldl]. rewrite IH by (done || lia).
  rewrite failed_probe_step by done. unfold record_unreachable. cbn.
  destruct (Z.leb_spec (fail_threshold cfg) (Z.of_nat (length es) + 1)); [lia|].
  rewrite as_u32_id by (unfold in_u32; lia). f_equal. lia.
Qed.

(** ** Theorems *)

Definition sample_config : CoreConfig := mkCoreConfig 300 60 3 30000000000.
Definition failed_call (t : Z) : call_event :=
  mkCallEvent (CallLeafPcs (mkProof (mkPublicInputs "" "" "" "" "" "" "") "") (Response 200 None ""))
    t t t (Response 503 None "").

(** C27. The health gate opens after exactly [fail_threshold] failed probes in a
    row: fewer leave it closed, the last one closes it to calls until the backoff
    after it has passed and starts a new count. *)
Theorem gate_opens_at_threshold cfg es e :
  cfg.(fail_threshold) <= U32_MAX ->
  Forall (fun e => is_ok (probe_health e.(ev_probe)) = false) (es ++ [e]) ->
  Z.of_nat (length es) + 1 = cfg.(fail_threshold) ->
  (forall k, (k <= length es)%nat ->
     run_calls cfg initial_health (take k es) = mkCoreHealth (Z.of_nat k) None None) /\
  run_calls cfg initial_health (es ++ [e])
  = mkCoreHealth 0 (Some (e.(ev_t1) + cfg.(backoff))) None.
Proof.
  intros Hmax [Hes [He _]%Forall_cons]%Forall_app Hlen. split.
  - intros k Hk. rewrite failures_below_threshold; [|done|rewrite length_take; lia|
      by apply Forall_take]. rewrite length_take. do 2 f_equal. lia.
  - unfold run_calls. rewrite foldl_app. cbn [foldl].
    fold (run_calls cfg initial_health es). rewrite failures_below_threshold by (done || lia).
    rewrite failed_probe_step by done. unfold record_unreachable. cbn.
    destruct (Z.leb_spec (fail_threshold cfg) (Z.of_nat (length es) + 1)); [done|lia].
Qed.

Lemma gate_opens_at_threshold_witness :
  run_calls sample_config initial_health [failed_call 1; failed_call 2; failed_call 3]
  = mkCoreHealth 0 (Some 30000000003) None.
Proof.
  apply (gate_opens_at_threshold sample_config [failed_call 1; failed_call 2] (failed_call 3));
    [done|by repeat constructor|done].
Defined.

(** No call reaches wqc-core while the gate is open, and none but the probe
    reaches it unless the probe of that very call succeeded: an open gate leaves
    count and gate as they are and fails; otherwise the exchanges are the probe,
    then at most one request, and a call succeeds only past a healthy gate. *)
Theorem gate_guards_calls cfg h e :
  let '(h', calls, ok) := run_call cfg h e in
  (is_in_backoff h e.(ev_t0) = true ->
     calls = [] /\ ok = false /\ h'.(consecutive_failures) = h.(consecutive_failures)
     /\ h'.(unhealthy_until) = h.(unhealthy_until)) /\
  (is_in_backoff h e.(ev_t0) = false ->
     (is_ok (probe_health e.(ev_probe)) = false /\ calls = [GetHealth] /\ ok = false
      /\ h' = record_unreachable cfg h e.(ev_t1))
     \/ (is_ok (probe_health e.(ev_probe)) = true /\ exists c, calls = [GetHealth; c])) /\
  (ok = true -> h'.(consecutive_failures) = 0 /\ h'.(unhealthy_until) = None).
Proof.
  pose proof (run_call_cases cfg h e) as Hcases. unfold ensure_ready in Hcases.
  destruct (run_call cfg h e) as [[h' calls] ok].
  destruct (is_in_backoff h (ev_t0 e)) eqn:Hgate.
  - destruct Hcases as (-> & -> & ->). split_and!; try done. intros _.
    unfold log_skip. by case_match.
  - destruct (probe_health (ev_probe e)) as [[]|er].
    + destruct Hcases as (_ & [c ->] & Hok). split_and!; [done| |].
      * intros _. right. split; [done|]. by exists c.
      * by intros ->%Hok.
    + destruct Hcases as (-> & -> & ->). split_and!; [done| |done]. intros _. by left.
Qed.

(** The failure counter never leaves its range, whatever calls are made:
    below the threshold, and zero when the threshold is zero. *)
Theorem gate_counter_bounded cfg es :
  0 <= cfg.(fail_threshold) <= U32_MAX ->
  let n := (run_calls cfg initial_health es).(consecutive_failures) in
  0 <= n <= Z.max 0 (cfg.(fail_threshold) - 1).
Proof.
  intros [_ Hmax] n. destruct (run_calls_ok cfg initial_health es Hmax) as [H0 H].
  - split; [done|by left].
  - subst n. lia.
Qed.

Lemma gate_counter_bounded_witness :
  0 <= (run_calls sample_config initial_health [failed_call 1; failed_call 2]).(consecutive_failures)
  <= 2.
Proof.
  exact (gate_counter_bounded sample_config [failed_call 1; failed_call 2] ltac:(by split)).
Defined.

Lemma wait_until_decides deadline polls t0 :
  (forall i p t, polls !! i = Some (p, t) -> t0 + Z.of_nat i * 1000000000 <= t) ->
  deadline <= t0 + (Z.of_nat (length polls) - 1) * 1000000000 -> polls <> [] ->
  exists b, wait_until deadline polls = Some b.
Proof.
  revert t0. induction polls as [|[p t] polls IH]; intros t0 Ht Hd Hne; [done|].
  cbn [wait_until]. destruct (is_ok (probe_health p)); [eauto|].
  destruct (Z.leb_spec deadline t); [eauto|].
  destruct (decide (polls = [])) as [->|Hne'].
  - pose proof (Ht 0%nat p t eq_refl). cbn in Hd. lia.
  - apply (IH (t0 + 1000000000)); [| |done].
    + intros i p' t' Hi. pose proof (Ht (S i) p' t' Hi). lia.
    + cbn [length] in Hd. lia.
Qed.

Lemma wait_until_true deadline polls :
  wait_until deadline polls = Some true ->
  exists i p t, polls !! i = Some (p, t) /\ is_ok (probe_health p) = true.
Proof.
  induction polls as [|[p t] polls IH]; [done|]. cbn [wait_until].
  destruct (is_ok (probe_health p)) eqn:E; [intros _; by exists 0%nat, p, t|].
  destruct (_ <=? _); [done|]. intros (i & p' & t' & Hi & Hok)%IH. by exists (S i), p', t'.
Qed.

(** Waiting for core ends: when a poll takes at least the second the loop
    sleeps, the answer is there after [limit / 1 s + 2] polls, and it is [true]
    only if a poll found core up. *)
Theorem wait_until_up_terminates start limit polls :
  0 <= limit ->
  (forall i p t, polls !! i = Some (p, t) -> start + Z.of_nat i * 1000000000 <= t) ->
  limit / 1000000000 + 2 <= Z.of_nat (length polls) ->
  exists b, wait_until_up start limit polls = Some b /\
  (b = true -> exists i p t, polls !! i = Some (p, t) /\ is_ok (probe_health p) = true).
Proof.
  intros Hl Ht Hn.
  destruct (wait_until_decides (start + limit) polls start) as [b Hb]; [done| | |].
  - pose proof (Z.div_mod limit 1000000000 ltac:(lia)).
    pose proof (Z.mod_pos_bound limit 1000000000 ltac:(lia)). lia.
  - pose proof (Z.div_pos limit 1000000000 Hl ltac:(lia)). intros ->. cbn in Hn. lia.
  - exists b. split; [done|]. intros ->. by eapply wait_until_true.
Qed.

Lemma wait_until_up_terminates_witness :
  exists b, wait_until_up 5 0 [(Response 503 None "", 5); (Response 200 None "", 1000000005)] = Some b.
Proof.
  destruct (wait_until_up_terminates 5 0
    [(Response 503 None "", 5); (Response 200 None "", 1000000005)]) as (b & Hb & _).
  - done.
  - intros [|[|[|i]]] p t [= <- <-]; cbn; lia.
  - done.
  - by exists b.
Defined.
