(* ===== verification/Config.v ===== *)
(** * Configuration and bootstrap ([src/config.rs], [src/infra/orchestrator.rs])

    The node's configuration record, what it takes from wqc-core's [/sysinfo] and
    from the orchestrator's bootstrap endpoint, and the checks on both.  Peer
    ids and signing keys are their text and bytes; parsing them is third-party
    code and a parameter. *)

From S2P Require Import Prelude Bytes F64 Models MemoryBudget Wire WorkLedger Pcs.

Record NodeConfig := mkNodeConfig {
  peer_id : string;
  core_url : string;
  max_qubits : Z;
  max_mps_qubits : Z;
  max_memory_gib : f64;
  requested_memory_gib : option f64;
  host_total_memory_bytes : Z;
  memory_cap_source : MemoryCapSource;
  vram_budget_gib : option f64;
  compute_timeout_secs : Z;
  tn_rates : option TnRates;
  work_budget_margin : f64;
  work_overhead_secs : f64;
  work_unknown_secs : f64;
  pcs_timeout_secs : Z;
  signing_key : bytes;
  bootstrap_urls : list string;
  bootstrap_source_url : option string;
  bootstrap_peers : list string;
  p2p_listen_port : Z;
  p2p_idle_timeout_secs : Z;
  http_port : Z;
  database_url : string;
  stake_amount : Z;
  orchestrator_peer_id : option string;
  orchestrator_public_key : option string;
  operator_id : option string;
  operator_signing_key : option bytes
}.

(** ** What [from_env] checks of the work budget *)

Definition check_work_budget (margin overhead unknown : f64) : bool :=
  (f64_gtb margin f64_zero && f64_leb margin (f64_of_Z 1))
  && (f64_geb overhead f64_zero && f64_is_finite overhead)
  && (f64_geb unknown f64_zero && f64_is_finite unknown).

(** ** Core's [/sysinfo] *)

Definition eq_ignore_ascii_case (s t : string) : bool :=
  bool_decide (to_ascii_lowercase s = to_ascii_lowercase t).

Definition apply_core_sysinfo (c : NodeConfig) (info : CoreSystemInfo) : NodeConfig :=
  let rates := from_sysinfo info.(tn_seconds_per_byte) info.(tn_seconds_per_flop) in
  let ram_bytes := effective_memory_bytes c.(requested_memory_gib) c.(host_total_memory_bytes) in
  let vram_raw :=
    if eq_ignore_ascii_case info.(tn_backend_active) "webgpu" then
      match info.(vram_budget_bytes) with
      | Some b => if 0 <? b then Some b else None
      | None => None
      end
    else None in
  let vram_gib := (fun b => f64_div (f64_of_Z b) GIB) <$> vram_raw in
  let '(qubits, mps_qubits, memory_gib, source) :=
    resolve_max_qubits_with_optional_vram ram_bytes vram_raw in
  mkNodeConfig c.(peer_id) c.(core_url) qubits mps_qubits memory_gib c.(requested_memory_gib)
    c.(host_total_memory_bytes) source vram_gib c.(compute_timeout_secs) rates
    c.(work_budget_margin) c.(work_overhead_secs) c.(work_unknown_secs) c.(pcs_timeout_secs)
    c.(signing_key) c.(bootstrap_urls) c.(bootstrap_source_url) c.(bootstrap_peers)
    c.(p2p_listen_port) c.(p2p_idle_timeout_secs) c.(http_port) c.(database_url)
    c.(stake_amount) c.(orchestrator_peer_id) c.(orchestrator_public_key) c.(operator_id)
    c.(operator_signing_key).

(** ** Orchestrator bootstrap *)

Record BootstrapResponse := mkBootstrapResponse {
  br_peer_id : string; br_public_key_b64 : string; br_multiaddrs : list string
}.
Record OrchestratorBootstrap := mkOrchestratorBootstrap {
  source_url : string; ob_peer_id : string; ob_public_key_b64 : string; multiaddrs : list string
}.

Inductive BootstrapError :=
| NoUrls                      (* WQC_BOOTSTRAP_URLS must include at least one HTTP(S) URL *)
| NoUrlProvided               (* no bootstrap URLs provided *)
| FetchFailed (url : string)  (* GET, status or JSON *)
| MissingPublicKey
| MissingMultiaddrs
| InvalidPeerId (raw : string)
| InvalidMultiaddr (raw : string)
| MultiaddrWithoutPeer (raw : string)
| PeerMismatch (raw : string)
| NoMultiaddrs.               (* orchestrator bootstrap returned no multiaddrs *)

Inductive protocol := P2p (peer : string) | OtherProtocol.

Fixpoint peer_id_from_multiaddr (addr : list protocol) : option string :=
  match addr with
  | [] => None
  | P2p peer :: _ => Some peer
  | OtherProtocol :: rest => peer_id_from_multiaddr rest
  end.

Section bootstrap.
(** [str::parse] of a [PeerId] and of a [Multiaddr]. *)
Context (parse_peer_id : string -> option string) (parse_multiaddr : string -> option (list protocol)).

(** The loop over the advertised addresses. *)
Fixpoint check_multiaddrs (peer : string) (raws : list string) : result BootstrapError (list string) :=
  match raws with
  | [] => Ok []
  | raw :: rest =>
    addr ← ok_or (InvalidMultiaddr raw) (parse_multiaddr raw);
    addr_peer ← ok_or (MultiaddrWithoutPeer raw) (peer_id_from_multiaddr addr);
    if decide (addr_peer = peer) then
      addrs ← check_multiaddrs peer rest;
      Ok (raw :: addrs)
    else Err (PeerMismatch raw)
  end.

Definition validate_bootstrap (url : string) (payload : BootstrapResponse)
  : result BootstrapError OrchestratorBootstrap :=
  if decide (trim payload.(br_public_key_b64) = "") then Err MissingPublicKey
  else if decide (payload.(br_multiaddrs) = []) then Err MissingMultiaddrs
  else
    peer ← ok_or (InvalidPeerId payload.(br_peer_id)) (parse_peer_id payload.(br_peer_id));
    addrs ← check_multiaddrs peer payload.(br_multiaddrs);
    Ok (mkOrchestratorBootstrap url peer (trim payload.(br_public_key_b64)) addrs).

(** The body an endpoint answers with, if it does. *)
Context (http_get : string -> option BootstrapResponse).

Definition fetch_bootstrap (endpoint : string) : result BootstrapError OrchestratorBootstrap :=
  match http_get (trim endpoint) with
  | Some payload => validate_bootstrap (trim endpoint) payload
  | None => Err (FetchFailed (trim endpoint))
  end.

Fixpoint try_urls (urls : list string) (last_err : option BootstrapError)
  : result BootstrapError OrchestratorBootstrap :=
  match urls with
  | [] => Err (default NoUrlProvided last_err)
  | raw_url :: rest =>
    let url := trim raw_url in
    if decide (url = "") then try_urls rest last_err
    else
      match fetch_bootstrap url with
      | Ok b => Ok b
      | Err e => try_urls rest (Some e)
      end
  end.

Definition resolve_bootstrap (urls : list string) : result BootstrapError OrchestratorBootstrap :=
  if decide (urls = []) then Err NoUrls else try_urls urls None.
End bootstrap.

Definition apply_orchestrator_bootstrap (c : NodeConfig) (b : OrchestratorBootstrap)
  : result BootstrapError NodeConfig :=
  if decide (b.(multiaddrs) = []) then Err NoMultiaddrs
  else Ok (mkNodeConfig c.(peer_id) c.(core_url) c.(max_qubits) c.(max_mps_qubits)
    c.(max_memory_gib) c.(requested_memory_gib) c.(host_total_memory_bytes)
    c.(memory_cap_source) c.(vram_budget_gib) c.(compute_timeout_secs) c.(tn_rates)
    c.(work_budget_margin) c.(work_overhead_secs) c.(work_unknown_secs) c.(pcs_timeout_secs)
    c.(signing_key) c.(bootstrap_urls) (Some b.(source_url)) b.(multiaddrs)
    c.(p2p_listen_port) c.(p2p_idle_timeout_secs) c.(http_port) c.(database_url)
    c.(stake_amount) (Some b.(ob_peer_id)) (Some b.(ob_public_key_b64)) c.(operator_id)
    c.(operator_signing_key)).

(** The policy a bid is judged with ([BidClient::submit_bid]). *)
Definition bid_policy (c : NodeConfig) (rates : TnRates) : BudgetPolicy :=
  mkBudgetPolicy rates c.(work_overhead_secs) c.(work_budget_margin) c.(compute_timeout_secs)
    c.(work_unknown_secs).

(** ** Lemmas *)

Lemma f64_positive_upto_one x :
  f64_gtb x f64_zero = true -> f64_leb x (f64_of_Z 1) = true -> f64_pos_finite x.
Proof. by destruct x as [[]|[]| |[] m e]. Qed.

Lemma f64_geb_zero x : f64_geb x f64_zero = true -> f64_is_finite x = true -> f64_nonneg x.
Proof. by destruct x as [[]|[]| |[] m e]. Qed.

Lemma bid_policy_ok c rates info :
  check_work_budget c.(work_budget_margin) c.(work_overhead_secs) c.(work_unknown_secs) = true ->
  0 <= c.(compute_timeout_secs) ->
  (apply_core_sysinfo c info).(tn_rates) = Some rates ->
  policy_wf (bid_policy (apply_core_sysinfo c info) rates).
Proof.
  unfold check_work_budget. intros [[[H1 H2]%andb_prop [H3 H4]%andb_prop]%andb_prop
    [H5 H6]%andb_prop]%andb_prop Hown Hrates.
  unfold apply_core_sysinfo in *.
  destruct (resolve_max_qubits_with_optional_vram _ _) as [[[q m] g] src]. cbn in *.
  apply from_sysinfo_wf in Hrates as [? ?].
  split; cbn; auto using f64_positive_upto_one, f64_geb_zero.
Qed.

Section bootstrap_lemmas.
Context (parse_peer_id : string -> option string) (parse_multiaddr : string -> option (list protocol)).

Definition names_peer (peer raw : string) : Prop :=
  exists addr, parse_multiaddr raw = Some addr /\ peer_id_from_multiaddr addr = Some peer.

Lemma check_multiaddrs_ok peer raws addrs :
  check_multiaddrs parse_multiaddr peer raws = Ok addrs <->
  addrs = raws /\ Forall (names_peer peer) raws.
Proof.
  revert addrs. induction raws as [|raw rest IH]; intros addrs; cbn.
  - split; [intros [= <-]; by split|by intros [-> _]].
  - rewrite Forall_cons. unfold names_peer at 1.
    destruct (parse_multiaddr raw) as [addr|]; cbn; [|split; [done|]; naive_solver].
    destruct (peer_id_from_multiaddr addr) as [q|] eqn:Hq; cbn; [|split; [done|]; naive_solver].
    case_decide as Heq.
    + subst q. destruct (check_multiaddrs parse_multiaddr peer rest) as [l|e] eqn:E; cbn.
      * destruct (proj1 (IH l) eq_refl) as [-> Hl]. split; [intros [= <-]; eauto 10|].
        by intros [-> _].
      * split; [done|]. intros (-> & _ & Hrest).
        discriminate (proj2 (IH rest) (conj eq_refl Hrest)).
    + split; [done|]. intros (_ & (addr' & [= <-] & Hq') & _). congruence.
Qed.

(** What a validated bootstrap promises. *)
Definition bootstrap_valid (payload : BootstrapResponse) (b : OrchestratorBootstrap) : Prop :=
  parse_peer_id payload.(br_peer_id) = Some b.(ob_peer_id)
  /\ b.(ob_public_key_b64) = trim payload.(br_public_key_b64) /\ b.(ob_public_key_b64) <> ""
  /\ b.(multiaddrs) = payload.(br_multiaddrs) /\ b.(multiaddrs) <> []
  /\ Forall (names_peer b.(ob_peer_id)) b.(multiaddrs).

Lemma validate_bootstrap_ok url payload b :
  validate_bootstrap parse_peer_id parse_multiaddr url payload = Ok b <->
  b.(source_url) = url /\ bootstrap_valid payload b.
Proof.
  unfold validate_bootstrap, bootstrap_valid. case_decide as Hkey.
  { split; [done|]. intros (_ & _ & Hk & Hne & _). congruence. }
  case_decide as Haddrs.
  { split; [done|]. intros (_ & _ & _ & _ & Hm & Hne & _). congruence. }
  destruct (parse_peer_id (br_peer_id payload)) as [peer|]; cbn; [|split; [done|]; by intros (_ & ? & _)].
  destruct (check_multiaddrs parse_multiaddr peer (br_multiaddrs payload)) as [l|e] eqn:E; cbn.
  - apply check_multiaddrs_ok in E as [-> Hl].
    split; [intros [= <-]; cbn; by split_and!|]. destruct b as [u p k m]. cbn.
    intros (-> & [= ->] & -> & _ & -> & _). done.
  - split; [done|]. intros (_ & [= ->] & _ & _ & Hm & _ & Hall).
    assert (Err e = Ok (br_multiaddrs payload)); [|done]. rewrite <- E.
    apply check_multiaddrs_ok. by rewrite <- Hm.
Qed.

Context (http_get : string -> option BootstrapResponse).
Abbreviation fetch := (fetch_bootstrap parse_peer_id parse_multiaddr http_get).

Lemma try_urls_ok urls e b :
  try_urls parse_peer_id parse_multiaddr http_get urls e = Ok b ->
  exists i raw, urls !! i = Some raw /\ trim raw <> "" /\ fetch (trim raw) = Ok b
    /\ Forall (fun u => trim u = "" \/ is_ok (fetch (trim u)) = false) (take i urls).
Proof.
  revert e. induction urls as [|raw rest IH]; intros e; cbn; [done|].
  case_decide as Hempty.
  - intros (i & r & Hi & Hr & Hf & Hpre)%IH. exists (S i), r. split_and!; try done.
    constructor; [by left|done].
  - destruct (fetch (trim raw)) as [b'|e'] eqn:Hf.
    + intros [= ->]. exists 0%nat, raw. split_and!; try done.
    + intros (i & r & Hi & Hr & Hf' & Hpre)%IH. exists (S i), r. split_and!; try done.
      constructor; [right; by rewrite Hf|done].
Qed.

Lemma fetch_ok endpoint b : fetch endpoint = Ok b ->
  exists payload, http_get (trim endpoint) = Some payload /\ bootstrap_valid payload b.
Proof.
  unfold fetch_bootstrap. destruct (http_get (trim endpoint)) as [payload|]; [|done].
  intros [_ H]%validate_bootstrap_ok. eauto.
Qed.
End bootstrap_lemmas.

(** ** Theorems *)

(** Whatever wqc-core reports, the policy bids are judged with is sound: if
    the environment's margin, overhead and unknown share pass the configuration's
    checks, the rates taken from [/sysinfo] are positive finite numbers and every
    estimate is a number that is not negative. *)
Theorem sysinfo_policy_sound c rates info :
  check_work_budget c.(work_budget_margin) c.(work_overhead_secs) c.(work_unknown_secs) = true ->
  0 <= c.(compute_timeout_secs) ->
  (apply_core_sysinfo c info).(tn_rates) = Some rates ->
  policy_wf (bid_policy (apply_core_sysinfo c info) rates)
  /\ forall w, work_wf w ->
     f64_nonneg (f64_add (seconds rates w) (apply_core_sysinfo c info).(work_overhead_secs)).
Proof.
  intros Hc Hown Hrates. pose proof (bid_policy_ok c rates info Hc Hown Hrates) as Hp.
  split; [done|]. intros w Hw. exact (own_nonneg _ w Hp Hw).
Qed.

Definition sample_config : NodeConfig :=
  mkNodeConfig "peer" "http://localhost:3000" 26 2048 (f64_of_Z 1) None (8 * GIB_U64) Ram None
    300 None (f64_dec 5 1) (f64_of_Z 5) (f64_of_Z 30) 7200 [] ["http://orch"] None [] 4002 60
    8080 "sqlite:wqc-node.db" 50000000000000000 None None None None.

Definition sample_info : CoreSystemInfo :=
  mkCoreSystemInfo 0 0 f64_zero "auto" "WebGPU" None 128 "refuse" (Some (4 * GIB_U64))
    (Some (f64_dec 1 10)) (Some (f64_dec 1 10)).

Lemma sysinfo_policy_sound_witness :
  (apply_core_sysinfo sample_config sample_info).(memory_cap_source) = Vram /\
  policy_wf (bid_policy (apply_core_sysinfo sample_config sample_info)
    (mkTnRates (f64_dec 1 10) (f64_dec 1 10))).
Proof.
  split; [vm_compute; reflexivity|].
  apply (sysinfo_policy_sound sample_config (mkTnRates (f64_dec 1 10) (f64_dec 1 10)) sample_info);
    [vm_compute; reflexivity|done|vm_compute; reflexivity].
Defined.

(** The orchestrator the node trusts is the first one that answers with a
    consistent identity: the URLs before it are blank or failed, and every
    address it advertises names the peer id it claims, under a public key that is
    not blank. *)
Theorem bootstrap_is_first_consistent parse_peer parse_addr http_get urls b :
  resolve_bootstrap parse_peer parse_addr http_get urls = Ok b ->
  exists i raw payload, urls !! i = Some raw
    /\ http_get (trim (trim raw)) = Some payload /\ bootstrap_valid parse_peer parse_addr payload b
    /\ Forall (fun u => trim u = "" \/ is_ok (fetch_bootstrap parse_peer parse_addr http_get (trim u))
                        = false) (take i urls).
Proof.
  unfold resolve_bootstrap. case_decide; [done|].
  intros (i & raw & Hi & _ & Hf & Hpre)%try_urls_ok.
  apply fetch_ok in Hf as (payload & Hget & Hv). by exists i, raw, payload.
Qed.

Definition sample_payload : BootstrapResponse := mkBootstrapResponse "P" " key " ["/p2p/P"].

Lemma bootstrap_is_first_consistent_witness :
  exists i, ["http://a"; "http://b"] !! i = Some "http://b".
Proof.
  destruct (bootstrap_is_first_consistent Some (fun raw => Some [OtherProtocol; P2p "P"])
    (fun url => if decide (url = "http://b") then Some sample_payload else None)
    ["http://a"; "http://b"] (mkOrchestratorBootstrap "http://b" "P" "key" ["/p2p/P"]))
    as (i & raw & payload & Hi & Hget & _ & _); [vm_compute; reflexivity|].
  exists i. destruct i as [|[|i]]; [|done|done]. injection Hi as <-.
  vm_compute in Hget. discriminate Hget.
Defined.
