(* ===== verification/Banner.v ===== *)
(** * The startup banner ([print_startup_banner] of [src/main.rs])

    What the node prints when it has started: which lines, with which contents.  How
    a styled text looks, and how a width applies to it, is the [colored] crate's. *)

From Stdlib Require Import Floats.SpecFloat.
From S2P Require Import Prelude Bytes F64 FloatText Models MemoryBudget Pcs Storage CoreClient Config.

(** ** Texts *)

Inductive style :=
| Bold | Dimmed | Italic | Underline | Normal
| Red | Green | Yellow | Blue | Magenta | Cyan
| BrightBlack | BrightRed | BrightGreen | BrightYellow | BrightBlue | BrightMagenta | BrightCyan.

(** A piece of a line; [Width w] is a [{:w}]. *)
Inductive piece :=
| Str (t : text)
| Styled (styles : list style) (t : text)
| Width (w : nat) (p : piece).
Definition line : Type := list piece.

Definition str (s : string) : piece := Str (lit s).
Definition styled (styles : list style) (s : string) : piece := Styled styles (lit s).
Definition number (n : Z) : piece := Str (dec_text n).

(** [s.repeat(n)] of one character. *)
Definition repeated (c : Z) (n : nat) : text := replicate n c.

(** [to_ascii_uppercase] *)
Definition upper_char (c : Z) : Z := if (97 <=? c) && (c <=? 122) then c - 32 else c.
Definition to_ascii_uppercase (t : text) : text := map upper_char t.

(** *** [{:.n}]

    The exact value to [n] decimals, ties to the even digit. *)
Definition scaled (m e : Z) (n : nat) : Z * Z :=
  if 0 <=? e then (m * 2 ^ e * 10 ^ Z.of_nat n, 1) else (m * 10 ^ Z.of_nat n, 2 ^ (- e)).
Definition half_even (num den : Z) : Z :=
  let q := num / den in
  let r := num mod den in
  if (den <? 2 * r) || ((2 * r =? den) && Z.odd q) then q + 1 else q.
(** The last [n] digits of [q]. *)
Fixpoint last_digits (n : nat) (q : Z) : text :=
  match n with O => [] | S n => last_digits n (q / 10) ++ [CH_0 + q mod 10] end.
Definition fixed_point (q : Z) (n : nat) : text :=
  dec_text (q / 10 ^ Z.of_nat n) ++ match n with O => [] | S _ => CH_DOT :: last_digits n q end.
Definition format_fixed (n : nat) (x : f64) : text :=
  match x with
  | S754_nan => lit "NaN"
  | S754_infinity s => (if s then [CH_MINUS] else []) ++ lit "inf"
  | S754_zero s => (if s then [CH_MINUS] else []) ++ fixed_point 0 n
  | S754_finite s m e =>
    let '(num, den) := scaled (Zpos m) e n in
    (if s then [CH_MINUS] else []) ++ fixed_point (half_even num den) n
  end.

Example fixed_two : of_chars (format_fixed 2 (f64_dec 33554 4)) = "3.36".
Proof. vm_compute. reflexivity. Qed.
Example fixed_tie_even : of_chars (format_fixed 2 (f64_dec 125 3)) = "0.12".
Proof. vm_compute. reflexivity. Qed.
Example fixed_negative : of_chars (format_fixed 4 (f64_dec (-1225) 4)) = "-0.1225".
Proof. vm_compute. reflexivity. Qed.

(** ** Lines *)

(** ["  {}  {:15} {..}"] *)
Definition row (bullet label : piece) (rest : list piece) : line :=
  [str "  "; bullet; str "  "; Width 15 label; str " "] ++ rest.
(** ["  {} {}"], then ["    {}"] *)
Definition entry (label : string) (values : list piece) : list line :=
  [str "  "; styled [BrightYellow] "➜"; str " "; styled [Bold] label]
  :: map (fun v => [str "    "; v]) values.
Definition address (s : string) : piece := styled [Underline; BrightCyan] s.

Definition print_geo_line (node_geo : option GeoInfo) : list line :=
  match node_geo with
  | Some geo =>
    [row (styled [BrightGreen] "●") (styled [Bold] "GeoIP:")
       [styled [BrightCyan] geo.(city); str ", "; styled [BrightCyan] geo.(country); str " (";
        Str (format_fixed 4 geo.(latitude)); str ", "; Str (format_fixed 4 geo.(longitude)); str ")"]]
  | None =>
    [row (styled [Yellow] "●") (styled [Bold] "GeoIP:")
       [styled [Yellow] "unresolved (egress APIs unavailable)"]]
  end.

Definition or_cpu (backend : string) : string :=
  if decide (backend = "") then "cpu" else backend.

Definition engine_label (requested active : string) : list piece :=
  if decide (requested = active) then
    if decide (active = "webgpu") then [styled [BrightMagenta; Bold] "WEBGPU"]
    else [styled [BrightCyan; Bold] "CPU MPS"]
  else
    [Styled [BrightYellow] (to_ascii_uppercase (lit requested)); str " "; styled [Dimmed] "→"; str " ";
     Styled [BrightRed; Bold] (to_ascii_uppercase (lit active))].

Definition print_tn_engine_line (core_sysinfo : option CoreSystemInfo) : list line :=
  match core_sysinfo with
  | None =>
    [row (styled [Red] "●") (styled [Bold] "TN Engine:")
       [styled [Red] "UNKNOWN (wqc-core unreachable)"]]
  | Some info =>
    let requested := or_cpu info.(tn_backend_requested) in
    let active := or_cpu info.(tn_backend_active) in
    row (styled [Magenta] "●") (styled [Bold] "TN Engine:")
      (engine_label requested active
       ++ [str "  (χ≤"; number info.(info_mps_max_bond_dim); str ")"])
    :: match info.(tn_backend_note) with
       | Some note =>
         [row (styled [Normal] " ") (styled [Dimmed] "↳") [styled [Italic; BrightBlack] note]]
       | None => []
       end
  end.

Definition print_core_pcs_policy_line (core_sysinfo : option CoreSystemInfo) : list line :=
  match core_sysinfo with
  | None => []
  | Some info =>
    [row (styled [Blue] "●") (styled [Bold] "Core PCS RAM:")
       [match core_pcs_memory_policy info with
        | Spill => styled [BrightGreen] "spill (open-call builder eligible)"
        | Refuse => styled [Yellow] "refuse (no PCS open-call bids)"
        end]]
  end.

Definition wqc_logo : string := "
██╗    ██╗  ██████╗   ██████╗
██║    ██║ ██╔═══██╗ ██╔════╝
██║ █╗ ██║ ██║   ██║ ██║
██║███╗██║ ██║▄▄ ██║ ██║
╚███╔███╔╝ ╚██████╔╝ ╚██████╗
 ╚══╝╚══╝   ╚══▀▀═╝   ╚═════╝ worker-node
    ".

Definition to_gib (bytes : Z) : Z := bytes / 1024 / 1024 / 1024.

(** [total_memory] and [available_memory] are [sysinfo]'s, in bytes. *)
Definition print_startup_banner (config : NodeConfig) (recovered_task_count outbox_count : Z)
  (core_sysinfo : option CoreSystemInfo) (node_geo : option GeoInfo)
  (total_memory available_memory : Z) : list line :=
  [[Styled [BrightBlue] (repeated 61 60)];
   [styled [BrightCyan; Bold] wqc_logo];
   [str "  "; styled [Dimmed] "VISION:"; str " ";
    Styled [Italic; BrightMagenta] ([34] ++ lit "We are the Computer." ++ [34])];
   [Styled [BrightBlue] (repeated 45 60)];
   row (styled [Green] "●") (styled [Bold] "Status:") [styled [Green] "Online & Ready"];
   row (styled [Blue] "●") (styled [Bold] "Memory:")
     [number (to_gib available_memory); str " GB / "; number (to_gib total_memory);
      str " GB (Available/Total)"];
   row (styled [Magenta] "●") (styled [Bold] "Capacity:")
     [number config.(max_qubits); str " Max Qubits (Gate validation active)"];
   row (styled [Cyan] "●") (styled [Bold] "WQC budget:")
     [Str (format_fixed 2 config.(max_memory_gib)); str " GiB (cap=";
      str (MemoryCapSource_as_str config.(memory_cap_source)); str ")"];
   row (styled [Yellow] "●") (styled [Bold] "Storage:")
     [number recovered_task_count; str " task(s) recovered from SQLite"]]
  ++ (if 0 <? outbox_count then
        [row (styled [Yellow] "●") (styled [Bold] "Outbox:")
           [number outbox_count; str " result(s) queued in outbox (will retry)"]]
      else [])
  ++ print_tn_engine_line core_sysinfo
  ++ print_core_pcs_policy_line core_sysinfo
  ++ print_geo_line node_geo
  ++ [[]]
  ++ entry "Node libp2p PeerID:" [address config.(peer_id)]
  ++ entry "Orchestrator bootstrap:"
       match config.(bootstrap_source_url) with Some url => [address url] | None => [] end
  ++ match config.(orchestrator_peer_id) with
     | Some peer => entry "Orchestrator PeerID:" [address peer]
     | None => []
     end
  ++ entry "P2P listen port:" [Styled [Underline; BrightCyan] (dec_text config.(p2p_listen_port))]
  ++ entry "HTTP admin API:"
       [Styled [Underline; BrightCyan] (lit "http://0.0.0.0:" ++ dec_text config.(http_port))]
  ++ entry "Prometheus metrics:"
       [Styled [Underline; BrightCyan]
          (lit "http://0.0.0.0:" ++ dec_text config.(http_port) ++ lit "/metrics")]
  ++ entry "Backend Core Connection:" [address config.(core_url)]
  ++ [[];
      [Styled [BrightBlue] (repeated 61 60)];
      [styled [Dimmed] "Node runtime initialized. Waiting for orchestrator workload over P2P..."];
      []].

(** ** What the numbers are *)

(** [{:.n}] is the nearest number with [n] decimals. *)
Lemma half_even_nearest num den q :
  0 < den -> Z.abs (2 * (half_even num den * den - num)) <= Z.abs (2 * (q * den - num)).
Proof.
  intros Hd. unfold half_even.
  pose proof (Z.div_mod num den ltac:(lia)) as Hq. pose proof (Z.mod_pos_bound num den Hd) as Hr.
  set (k := num / den) in *. set (r := num mod den) in *. clearbody k r.
  assert (Hk : q <= k \/ k + 1 <= q) by lia.
  destruct (Z.ltb_spec den (2 * r)) as [H1|H1]; cbn [orb].
  - destruct Hk; nia.
  - destruct (Z.eqb_spec (2 * r) den) as [H2|H2]; cbn [andb].
    + destruct (Z.odd k); destruct Hk; nia.
    + destruct Hk; nia.
Qed.

Lemma last_digits_length n q : length (last_digits n q) = n.
Proof.
  revert q. induction n as [|n IH]; intros q; [done|]. cbn [last_digits].
  rewrite length_app, IH. cbn. lia.
Qed.

(** The engine is shown as fallen back exactly when the active backend is another
    than the requested one. *)
Lemma engine_label_fallback requested active :
  length (engine_label requested active) = 5%nat <-> requested <> active.
Proof.
  unfold engine_label. case_decide; [|done]. by case_decide.
Qed.
