(* ===== verification/State.v ===== *)
(** * The node's shared state ([src/application/state.rs])

    [AppState] as the handlers, the worker and the retry loops share it: the
    database, the work ledger, the counter of accepted tasks, the worker's queue,
    the health of wqc-core, the cache of open calls and the set of PCS builds in
    flight.  What the worker's loop holds in its locals between two waits is a
    field too.  The configuration and the supported gates do not change and are
    arguments where they are used. *)

From S2P Require Import Prelude Bytes Models Wire WorkLedger Pcs Table Storage CoreClient.

(** What computing a task gives ([src/application/worker.rs]). *)
Inductive WorkError :=
| ComputeFailed (e : CoreError)
| DeadlinePassed (waited_secs : Z).

Record TaskResultData := mkTaskResultData {
  td_result_type : string;
  td_complex_result : ComplexResult;
  td_sample_result : option SampleResult;
  td_expectation_result : option ExpectationResult;
  td_proof : Proof;
  td_execution_time_ms : Z;
  td_work_report : option WorkReport
}.

(** Where the worker is with its task: wqc-core has answered, or the result is
    stored and on its way. *)
Inductive WorkStage :=
| Computed (task : ComputeTask) (outcome : result WorkError TaskResultData)
| Reporting (task : ComputeTask) (payload : TaskResultPayload) (wire_body : bytes).

Record AppState := mkAppState {
  store : Store;
  work_ledger : WorkLedger;
  pending_tasks : Z;                       (* AtomicUsize *)
  queue : list ComputeTask;                (* sent and not yet received *)
  receiver_alive : bool;                   (* the worker still holds the receiver *)
  core : CoreHealth;
  stream_ready : bool;                     (* p2p_stream_control is set *)
  open_call_cache : gmap string PcsOpenCall;
  in_flight : gset string;                 (* pcs_outbox::IN_FLIGHT *)
  at_work : option WorkStage               (* where the worker's loop waits *)
}.

Definition with_store (st : Store) (s : AppState) : AppState :=
  mkAppState st s.(work_ledger) s.(pending_tasks) s.(queue) s.(receiver_alive) s.(core)
    s.(stream_ready) s.(open_call_cache) s.(in_flight) s.(at_work).
Definition with_ledger (f : WorkLedger -> WorkLedger) (s : AppState) : AppState :=
  mkAppState s.(store) (f s.(work_ledger)) s.(pending_tasks) s.(queue) s.(receiver_alive)
    s.(core) s.(stream_ready) s.(open_call_cache) s.(in_flight) s.(at_work).
Definition with_core (h : CoreHealth) (s : AppState) : AppState :=
  mkAppState s.(store) s.(work_ledger) s.(pending_tasks) s.(queue) s.(receiver_alive) h
    s.(stream_ready) s.(open_call_cache) s.(in_flight) s.(at_work).
Definition with_open_calls (f : gmap string PcsOpenCall -> gmap string PcsOpenCall) (s : AppState)
  : AppState :=
  mkAppState s.(store) s.(work_ledger) s.(pending_tasks) s.(queue) s.(receiver_alive) s.(core)
    s.(stream_ready) (f s.(open_call_cache)) s.(in_flight) s.(at_work).
Definition with_in_flight (f : gset string -> gset string) (s : AppState) : AppState :=
  mkAppState s.(store) s.(work_ledger) s.(pending_tasks) s.(queue) s.(receiver_alive) s.(core)
    s.(stream_ready) s.(open_call_cache) (f s.(in_flight)) s.(at_work).

Definition with_work (w : option WorkStage) (s : AppState) : AppState :=
  mkAppState s.(store) s.(work_ledger) s.(pending_tasks) s.(queue) s.(receiver_alive) s.(core)
    s.(stream_ready) s.(open_call_cache) s.(in_flight) w.

(** [fetch_add(1)] and [fetch_sub(1)] wrap. *)
Definition add_pending (n : Z) (s : AppState) : AppState :=
  mkAppState s.(store) s.(work_ledger) (as_u64 (s.(pending_tasks) + n)) s.(queue)
    s.(receiver_alive) s.(core) s.(stream_ready) s.(open_call_cache) s.(in_flight) s.(at_work).

(** A storage statement on the shared database. *)
Definition on_store {A} (m : St A) (s : AppState) : result StorageError A * AppState :=
  let '(r, st) := m s.(store) in (r, with_store st s).

(** [TaskIngress::enqueue]: [send] waits for room in the channel and fails only
    when the receiver is gone. *)
Definition enqueue (task : ComputeTask) (s : AppState) : result unit unit * AppState :=
  if s.(receiver_alive) then
    (Ok tt, mkAppState s.(store) s.(work_ledger) s.(pending_tasks) (s.(queue) ++ [task])
       s.(receiver_alive) s.(core) s.(stream_ready) s.(open_call_cache) s.(in_flight) s.(at_work))
  else (Err tt, s).

(** The key of a task's rows. *)
Definition task_key (task : ComputeTask) : key :=
  (task.(orchestrator_pubkey), task.(request).(task_id)).

Definition initial_state : AppState :=
  mkAppState (mkStore empty_db [] 0) empty_ledger 0 [] true initial_health true ∅ ∅ None.

(** Everything but the schedule of statement failures. *)
Definition same_but_faults (s t : AppState) : Prop :=
  s.(store).(db) = t.(store).(db) /\ s.(store).(clock) = t.(store).(clock)
  /\ s.(work_ledger) = t.(work_ledger) /\ s.(pending_tasks) = t.(pending_tasks)
  /\ s.(queue) = t.(queue) /\ s.(receiver_alive) = t.(receiver_alive) /\ s.(core) = t.(core)
  /\ s.(stream_ready) = t.(stream_ready) /\ s.(open_call_cache) = t.(open_call_cache)
  /\ s.(in_flight) = t.(in_flight) /\ s.(at_work) = t.(at_work).

#[export] Instance same_but_faults_equiv : Equivalence same_but_faults.
Proof.
  unfold same_but_faults. split.
  - intros x. by split_and!.
  - intros x y H. decompose [and] H. split_and!; congruence.
  - intros x y z H K. decompose [and] H. decompose [and] K. split_and!; congruence.
Qed.

Lemma on_store_eq {A} (m : St A) s r s' :
  on_store m s = (r, s') -> exists st, m s.(store) = (r, st) /\ s' = with_store st s.
Proof. unfold on_store. destruct (m (store s)) as [r0 st]. intros [= <- <-]. eauto. Qed.
