(* ===== verification/AcceptTask.v ===== *)
(** * Accepting a sub-task ([src/application/accept_task.rs],
      [src/transport/p2p/dispatch_handler.rs])

    A dispatch is verified, turned into a task, checked against the node's
    limits, saved once, counted, held in the work ledger and queued.  Streams
    are handled concurrently: [others] is what other tasks of the node do to the
    shared state between the lookup of the task and its insertion, the one place
    where the code allows for a race.  [serde_json] on requests and tasks, the
    gate deserialiser and the signature scheme are parameters. *)

From S2P Require Import Prelude Bytes F64 FloatText Models Features MemoryBudget Validation GoJson.
From S2P Require Import Wire WorkLedger Pcs Table Storage CoreClient Config State.

Inductive AcceptTaskError :=
| QubitLimit                       (* Validation: qubit_count exceeds node limit *)
| CircuitRejected (e : ValidationError)   (* Validation *)
| LookupFailed (e : StorageError)  (* Storage: task lookup failed *)
| PayloadConflict                  (* Storage: already exists with a different payload *)
| SaveFailed (e : StorageError)    (* Storage: storage error *)
| QueueFull.

Definition is_unique_violation (e : StorageError) : bool :=
  match e with UniqueViolation => true | _ => false end.

Definition compact_qubit_limit (output_mode : string) (max_qubits max_mps_qubits : Z) : Z :=
  if bool_decide (output_mode = "" \/ output_mode = "statevector_scalar")
     && (0 <? max_mps_qubits)
  then max_mps_qubits else max_qubits.

Section accept.
Context (config : NodeConfig) (supported_gates : list string).
Context (request_to_json : ComputeRequest -> option bytes).
Context (task_to_json : ComputeTask -> option string) (task_from_json : string -> option ComputeTask).
Context (others : AppState -> AppState).

Definition dispatch_payload_matches (existing incoming : ComputeTask) : bool :=
  if decide (existing.(orchestrator_pubkey) = incoming.(orchestrator_pubkey)) then
    match request_to_json (with_node_id None existing.(request)),
          request_to_json (with_node_id None incoming.(request)) with
    | Some a, Some b => bool_decide (a = b)
    | _, _ => false
    end
  else false.

(** Count the task, hold it, queue it; undo the first two when the worker is
    gone. *)
Definition count_hold_enqueue (task : ComputeTask) (s : AppState)
  : result AcceptTaskError unit * AppState :=
  let sub_task_id := task.(request).(task_id) in
  let s := add_pending 1 s in
  let s := with_ledger (fun l =>
    hold l sub_task_id task.(request).(parent_task_id) task.(budget)) s in
  match enqueue task s with
  | (Ok _, s) => (Ok tt, s)
  | (Err _, s) =>
    let s := add_pending (-1) s in
    (Err QueueFull, with_ledger (fun l => release l sub_task_id) s)
  end.

(** The insertion of a task that was not found, and what happens when another
    stream inserted it first. *)
Definition save_new_task (task : ComputeTask) (s : AppState)
  : result AcceptTaskError unit * AppState :=
  let key := task.(orchestrator_pubkey) in
  match on_store (save_task task_to_json task) s with
  | (Err e, s) =>
    if is_unique_violation e then
      match on_store (load_task task_from_json key task.(request).(task_id)) s with
      | (Ok (Some existing), s) =>
        if dispatch_payload_matches existing task then (Ok tt, s) else (Err (SaveFailed e), s)
      | (_, s) => (Err (SaveFailed e), s)
      end
    else (Err (SaveFailed e), s)
  | (Ok _, s) => count_hold_enqueue task s
  end.

(** The task a request becomes. *)
Definition task_of (req : ComputeRequest) (pubkey : string) (bud : option Budget) (now_ms : Z)
  : ComputeTask :=
  mkComputeTask
    (with_node_id (Some config.(peer_id))
      (with_circuit (normalize_gate_params req.(circuit)) req))
    pubkey bud now_ms.

Definition accept_compute_task (s : AppState) (req : ComputeRequest) (pubkey : string)
  (bud : option Budget) (now_ms : Z) : result AcceptTaskError unit * AppState :=
  let limit := compact_qubit_limit req.(output_mode) config.(max_qubits)
    config.(max_mps_qubits) in
  if limit <? req.(qubit_count) then (Err QubitLimit, s)
  else
    match validate_circuit_logic req.(circuit) req.(qubit_count)
            supported_gates with
    | Err e => (Err (CircuitRejected e), s)
    | Ok _ =>
      let task := task_of req pubkey bud now_ms in
      match on_store (load_task task_from_json pubkey task.(request).(task_id)) s with
      | (Err e, s) => (Err (LookupFailed e), s)
      | (Ok (Some existing), s) =>
        if dispatch_payload_matches existing task then (Ok tt, s) else (Err PayloadConflict, s)
      | (Ok None, s) => save_new_task task (others s)
      end
    end.
End accept.

(** ** The dispatch stream *)

Inductive DispatchError :=
| UnauthorizedPeer              (* the stream is dropped *)
| BadMessage                    (* serde_json::from_slice failed *)
| KeyNotConfigured              (* orchestrator public key not configured *)
| DispatchRejected (e : WireError)
| NotAccepted (e : AcceptTaskError).

Section dispatch.
Context (config : NodeConfig) (supported_gates : list string).
Context (request_to_json : ComputeRequest -> option bytes).
Context (task_to_json : ComputeTask -> option string) (task_from_json : string -> option ComputeTask).
Context (others : AppState -> AppState).
Context (format_finite : f64 -> text) (tree_json : ContractionTreeWire -> option bytes).
Context {signature verifying_key : Type}.
Context (b64_decode : string -> option bytes) (signature_from_slice : bytes -> option signature).
Context (key_from_bytes : bytes -> option verifying_key).
Context (verify : verifying_key -> bytes -> signature -> bool).
Context (dispatch_from_json : bytes -> option TaskDispatchMessage).

Definition handle_dispatch_stream (payload : bytes) (now_ms : Z) (s : AppState)
  : result DispatchError unit * AppState :=
  match dispatch_from_json payload with
  | None => (Err BadMessage, s)
  | Some message =>
    match config.(orchestrator_public_key) with
    | None => (Err KeyNotConfigured, s)
    | Some orchestrator_pubkey =>
      match verify_dispatch_signature format_finite tree_json b64_decode signature_from_slice
              key_from_bytes verify message.(sub_task) message.(dispatch_signature)
              orchestrator_pubkey with
      | Err e => (Err (DispatchRejected e), s)
      | Ok _ =>
        let req := into_compute_request message.(sub_task) config.(peer_id) in
        let bud := budget_of s.(work_ledger) message.(sub_task).(st_parent_task_id) in
        let '(r, s) := accept_compute_task config supported_gates request_to_json
          task_to_json task_from_json others s req orchestrator_pubkey bud now_ms in
        (map_err NotAccepted r, s)
      end
    end
  end.

(** [spawn_dispatch_handler]: one incoming stream. *)
Definition on_dispatch_stream (orchestrator_peer_id peer_id : string) (payload : bytes)
  (now_ms : Z) (s : AppState) : result DispatchError unit * AppState :=
  if decide (peer_id = orchestrator_peer_id) then handle_dispatch_stream payload now_ms s
  else (Err UnauthorizedPeer, s).
End dispatch.

(** ** Lemmas *)

Lemma stmt_clock {A} (f : Db -> Z -> result StorageError (Db * A)) st r st' :
  stmt f st = (r, st') -> st'.(clock) = st.(clock).
Proof.
  destruct r; intros H; [by apply stmt_Ok in H as []|by apply stmt_Err in H as (_ & ? & _)].
Qed.

Lemma with_store_same st s :
  st.(db) = s.(store).(db) -> st.(clock) = s.(store).(clock) ->
  same_but_faults s (with_store st s).
Proof. by intros H1 H2; unfold same_but_faults; cbn; rewrite H1, H2. Qed.

(** A lookup changes nothing but the schedule of failures. *)
Lemma load_task_spec from_json k id st r st' :
  load_task from_json k id st = (r, st') ->
  st'.(db) = st.(db) /\ st'.(clock) = st.(clock) /\
  match r with
  | Ok None => select st.(db).(tasks) (k, id) = None
  | Ok (Some t) => exists row, select st.(db).(tasks) (k, id) = Some row
                    /\ from_json row.(row_data).(payload) = Some t
  | Err _ => True
  end.
Proof.
  unfold load_task, decoding.
  destruct (query (fun d _ => select d.(tasks) (k, id)) st) as [q st1] eqn:E. intros H.
  pose proof (query_db _ _ _ _ E) as Hdb. pose proof (stmt_clock _ _ _ _ E) as Hck.
  destruct q as [o|e]; [|by simplify_eq]. apply query_Ok in E as ->.
  destruct (select (tasks (db st)) (k, id)) as [row|] eqn:Hs; [|by simplify_eq].
  destruct (from_json (payload (row_data row))) as [t|] eqn:Ht; simplify_eq; eauto.
Qed.

Lemma save_task_spec to_json t st r st' :
  db_wf st.(db) -> save_task to_json t st = (r, st') ->
  match r with
  | Ok _ => exists j, to_json t = Some j /\ db_wf st'.(db) /\ st'.(clock) = st.(clock)
      /\ view st.(db).(tasks) !! task_key t = None
      /\ abs st'.(db) = abs_op (OpInsertTask (task_key t) j) st.(clock) (abs st.(db))
  | Err _ => st'.(db) = st.(db) /\ st'.(clock) = st.(clock)
  end.
Proof.
  intros Hwf Hs. unfold save_task in Hs. destruct (to_json t) as [j|] eqn:Hj; [|by simplify_eq].
  pose proof (stmt_clock _ _ _ _ Hs) as Hck. destruct r as [[]|e].
  - exists j. pose proof (run_op_Ok (OpInsertTask (task_key t) j) st st' Hwf I Hs) as [? ?].
    split_and!; try done. apply stmt_Ok in Hs as [Hs _].
    destruct (insert_row _ _ _ _) as [t'|] eqn:E; [|done].
    apply insert_row_view in E as [? _]; [done|apply Hwf].
  - by apply stmt_Err in Hs as (? & _ & _).
Qed.

Lemma on_load_spec from_json k id s r s' :
  on_store (load_task from_json k id) s = (r, s') ->
  same_but_faults s s' /\
  match r with
  | Ok None => select s.(store).(db).(tasks) (k, id) = None
  | Ok (Some t) => exists row, select s.(store).(db).(tasks) (k, id) = Some row
                    /\ from_json row.(row_data).(payload) = Some t
  | Err _ => True
  end.
Proof.
  intros (st & H & ->)%on_store_eq. apply load_task_spec in H as (Hd & Hc & H).
  split; [by apply with_store_same|done].
Qed.

Lemma same_db s t : same_but_faults s t -> t.(store).(db) = s.(store).(db).
Proof. by intros [-> _]. Qed.

Section specification.
Context (config : NodeConfig) (supported_gates : list string).
Context (request_to_json : ComputeRequest -> option bytes).
Context (task_to_json : ComputeTask -> option string) (task_from_json : string -> option ComputeTask).
Context (others : AppState -> AppState).

Abbreviation accept := (accept_compute_task config supported_gates request_to_json
  task_to_json task_from_json others).

(** What the node may compute for a request: not too wide, a valid circuit. *)
Definition admissible (req : ComputeRequest) : Prop :=
  req.(qubit_count) <= compact_qubit_limit req.(output_mode) config.(max_qubits)
    config.(max_mps_qubits)
  /\ Forall (valid_gate req.(qubit_count) supported_gates) req.(circuit).

(** From [s] to [s'] the task got its row, and nothing else of the store
    changed. *)
Definition row_added (task : ComputeTask) (s s' : AppState) : Prop :=
  exists json, task_to_json task = Some json
  /\ a_tasks (abs s.(store).(db)) !! task_key task = None
  /\ db_wf s'.(store).(db) /\ s'.(store).(clock) = s.(store).(clock)
  /\ abs s'.(store).(db)
     = mkAbsDb (<[task_key task := (mkTaskData json "pending", s.(store).(clock))]>
                  (a_tasks (abs s.(store).(db))))
         (a_results (abs s.(store).(db))) (a_pcs (abs s.(store).(db))).

(** Nothing changed that accepting a task has no business with. *)
Definition rest_kept (s s' : AppState) : Prop :=
  s'.(receiver_alive) = s.(receiver_alive) /\ s'.(core) = s.(core)
  /\ s'.(stream_ready) = s.(stream_ready) /\ s'.(open_call_cache) = s.(open_call_cache)
  /\ s'.(in_flight) = s.(in_flight) /\ s'.(at_work) = s.(at_work).

Definition held_ledger (task : ComputeTask) (l : WorkLedger) : WorkLedger :=
  hold l task.(request).(task_id) task.(request).(parent_task_id) task.(budget).

(** The task is in: its row, the count, the ledger, the queue. *)
Definition taken_in (task : ComputeTask) (s s' : AppState) : Prop :=
  row_added task s s' /\ s'.(pending_tasks) = as_u64 (s.(pending_tasks) + 1)
  /\ s'.(work_ledger) = held_ledger task s.(work_ledger)
  /\ s'.(queue) = s.(queue) ++ [task] /\ rest_kept s s'.

(** The worker is gone: count and hold are undone, the row is not. *)
Definition turned_away (task : ComputeTask) (s s' : AppState) : Prop :=
  row_added task s s' /\ s.(receiver_alive) = false
  /\ s'.(pending_tasks) = as_u64 (s.(pending_tasks) + 1 - 1)
  /\ s'.(work_ledger) = release (held_ledger task s.(work_ledger)) task.(request).(task_id)
  /\ s'.(queue) = s.(queue) /\ rest_kept s s'.

(** A row of the task's key holds the same payload. *)
Definition already_stored (task : ComputeTask) (s : AppState) : Prop :=
  exists row existing, select s.(store).(db).(tasks) (task_key task) = Some row
  /\ task_from_json row.(row_data).(payload) = Some existing
  /\ dispatch_payload_matches request_to_json existing task = true.

Lemma count_hold_enqueue_spec task s r s' :
  count_hold_enqueue task s = (r, s') ->
  s'.(store) = s.(store) /\ rest_kept s s' /\
  match r with
  | Ok _ => s'.(pending_tasks) = as_u64 (s.(pending_tasks) + 1)
      /\ s'.(work_ledger) = held_ledger task s.(work_ledger) /\ s'.(queue) = s.(queue) ++ [task]
  | Err e => e = QueueFull /\ s.(receiver_alive) = false
      /\ s'.(pending_tasks) = as_u64 (s.(pending_tasks) + 1 - 1)
      /\ s'.(work_ledger) = release (held_ledger task s.(work_ledger)) task.(request).(task_id)
      /\ s'.(queue) = s.(queue)
  end.
Proof.
  unfold count_hold_enqueue, enqueue, rest_kept, held_ledger. cbn.
  destruct (receiver_alive s) eqn:Hr; intros [= <- <-]; cbn; split_and!; try done.
  unfold as_u64. change (-1) with (- (1)). rewrite Z.add_opp_r.
  by rewrite Zminus_mod_idemp_l.
Qed.

Lemma save_new_task_spec task s r s' :
  db_wf s.(store).(db) ->
  save_new_task request_to_json task_to_json task_from_json task s = (r, s') ->
  match r with
  | Ok _ => taken_in task s s' \/ (same_but_faults s s' /\ already_stored task s')
  | Err QueueFull => turned_away task s s'
  | Err (SaveFailed _) => same_but_faults s s'
  | Err _ => False
  end.
Proof.
  intros Hwf. unfold save_new_task.
  destruct (on_store (save_task task_to_json task) s) as [r1 s1] eqn:E1.
  apply on_store_eq in E1 as (st & E1 & ->). apply save_task_spec in E1; [|done].
  destruct r1 as [[]|e].
  - destruct E1 as (j & Hj & Hwf' & Hc & Hn & Ha). intros H.
    apply count_hold_enqueue_spec in H as (Hst & Hrest & H). cbn in Hst, Hrest, H.
    assert (Hrow : row_added task s s').
    { exists j. rewrite Hst. split_and!; try done. }
    destruct r as [[]|e]; [left; by split_and!; try apply H|].
    destruct H as (-> & ? & ? & ? & ?). by split_and!.
  - destruct E1 as [Hd Hc]. pose proof (with_store_same st s Hd Hc) as Hsame.
    destruct (is_unique_violation e); [|by intros [= <- <-]].
    destruct (on_store (load_task _ _ _) _) as [r2 s2] eqn:E2.
    apply on_load_spec in E2 as [Hs2 H2].
    assert (Hs : same_but_faults s s2) by (by transitivity (with_store st s)).
    destruct r2 as [[t|]|]; [|by intros [= <- <-]..].
    destruct (dispatch_payload_matches request_to_json t task) eqn:Hm; intros [= <- <-]; [|done].
    right. split; [done|]. destruct H2 as (row & Hrow & Ht). exists row, t.
    by rewrite (same_db _ _ Hs2).
Qed.

(** What [accept_compute_task] did, on every branch; [s1] is the state the
    lookup left, which the other tasks of the node turned into [others s1]. *)
Definition accept_outcome (req : ComputeRequest) (task : ComputeTask) (s s' : AppState)
  (r : result AcceptTaskError unit) : Prop :=
  match r with
  | Ok _ =>
    admissible req /\
    ((same_but_faults s s' /\ already_stored task s')
     \/ exists s1, same_but_faults s s1
        /\ (taken_in task (others s1) s'
            \/ (same_but_faults (others s1) s' /\ already_stored task s')))
  | Err QubitLimit | Err (CircuitRejected _) => s' = s /\ ~ admissible req
  | Err (LookupFailed _) => same_but_faults s s'
  | Err PayloadConflict => same_but_faults s s' /\ ~ already_stored task s
      /\ is_Some (select s.(store).(db).(tasks) (task_key task))
  | Err (SaveFailed _) => exists s1, same_but_faults s s1 /\ same_but_faults (others s1) s'
  | Err QueueFull =>
      exists s1, same_but_faults s s1 /\ turned_away task (others s1) s'
  end.

Lemma accept_spec req pubkey bud now_ms s r s' :
  (forall s1, db_wf s1.(store).(db) -> db_wf (others s1).(store).(db)) ->
  db_wf s.(store).(db) -> accept s req pubkey bud now_ms = (r, s') ->
  accept_outcome req (task_of config req pubkey bud now_ms) s s' r.
Proof.
  intros Hoth Hwf. unfold accept_compute_task, accept_outcome, admissible.
  set (limit := compact_qubit_limit _ _ _).
  destruct (Z.ltb_spec limit (qubit_count req)) as [Hlt|Hle].
  { intros [= <- <-]. split; [done|]. lia. }
  destruct (validate_circuit_logic _ _ _) as [[]|e] eqn:Hv.
  2: { intros [= <- <-]. split; [done|]. intros [_ H].
       apply (validate_from_ok 0) in H. unfold validate_circuit_logic in Hv. congruence. }
  apply validate_from_ok in Hv.
  set (task := task_of config req pubkey bud now_ms).
  destruct (on_store (load_task _ _ _) s) as [r1 s1] eqn:E1.
  apply on_load_spec in E1 as [Hs1 H1].
  destruct r1 as [[t|]|e]; [| |by intros [= <- <-]].
  - destruct H1 as (row & Hrow & Ht).
    destruct (dispatch_payload_matches request_to_json t task) eqn:Hm; intros [= <- <-].
    + split; [done|]. left. split; [done|]. exists row, t. by rewrite (same_db _ _ Hs1).
    + split_and!; [done| |by eexists]. intros (row' & t' & Hrow' & Ht' & Hm').
      change (task_key task) with (pubkey, task_id (request task)) in Hrow'. congruence.
  - intros Hsave. apply save_new_task_spec in Hsave.
    2: { apply Hoth. by rewrite (same_db _ _ Hs1). }
    destruct r as [[]|[]]; try done; eauto.
    split; [done|]. right. exists s1. split; [done|]. exact Hsave.
Qed.
End specification.

(** *** Redelivery *)

Section redelivery.
Context (config : NodeConfig) (supported_gates : list string).
Context (request_to_json : ComputeRequest -> option bytes).
Context (task_to_json : ComputeTask -> option string) (task_from_json : string -> option ComputeTask).
Hypothesis Hreq : forall r, is_Some (request_to_json r).

(** Equal but for the node that is to compute it. *)
Definition same_request (r r' : ComputeRequest) : Prop := with_node_id None r = with_node_id None r'.

Lemma same_request_task req req' pubkey bud bud' now now' :
  same_request req req' ->
  same_request (request (task_of config req pubkey bud now))
    (request (task_of config req' pubkey bud' now')).
Proof. destruct req, req'. unfold same_request, task_of. cbn. by intros [=]; subst. Qed.

Lemma matches_same t t' u :
  t.(orchestrator_pubkey) = t'.(orchestrator_pubkey) -> same_request t.(request) t'.(request) ->
  dispatch_payload_matches request_to_json u t = dispatch_payload_matches request_to_json u t'.
Proof. unfold dispatch_payload_matches, same_request. by intros -> ->. Qed.

Lemma matches_refl t : dispatch_payload_matches request_to_json t t = true.
Proof.
  unfold dispatch_payload_matches. rewrite decide_True by done.
  destruct (Hreq (with_node_id None (request t))) as [b ->]. by apply bool_decide_eq_true.
Qed.

(** What is stored of the task reads back as it. *)
Definition reads_back (task : ComputeTask) : Prop :=
  forall j, task_to_json task = Some j -> task_from_json j = Some task.

Lemma row_added_stored task s s' :
  reads_back task -> row_added task_to_json task s s' -> already_stored request_to_json task_from_json task s'.
Proof.
  intros Hjson (j & Hj & Hn & Hwf & _ & Habs). unfold already_stored.
  assert (Hv : view (tasks (db (store s'))) !! task_key task
    = Some (mkTaskData j "pending", clock (store s))).
  { change (view (tasks (db (store s')))) with (a_tasks (abs (db (store s')))). rewrite Habs.
    apply lookup_insert_eq. }
  rewrite <- select_view in Hv by apply Hwf.
  destruct (select _ _) as [row|]; [|done]. injection Hv as Hd _. exists row, task.
  rewrite Hd. split_and!; [done| |apply matches_refl]. by apply Hjson.
Qed.

(** A dispatch that is stored is answered from the store. *)
Lemma accept_stored others s req pubkey bud now_ms :
  admissible config supported_gates req ->
  already_stored request_to_json task_from_json (task_of config req pubkey bud now_ms) s ->
  s.(store).(faults) = [] ->
  accept_compute_task config supported_gates request_to_json task_to_json
    task_from_json others s req pubkey bud now_ms = (Ok tt, s).
Proof.
  intros [Hlim Hvalid] (row & t & Hrow & Ht & Hm) Hf. unfold accept_compute_task.
  rewrite (proj2 (Z.ltb_ge _ _) Hlim). unfold validate_circuit_logic.
  rewrite (proj2 (validate_from_ok 0 _ _ _) Hvalid).
  unfold task_key in Hrow. change (orchestrator_pubkey (task_of _ _ _ _ _)) with pubkey in Hrow.
  unfold on_store, load_task, decoding, query, stmt. rewrite Hf. cbn [tl].
  rewrite Hrow, Ht, Hm. f_equal. destruct s as [[d f c] ?]. cbn in *. by subst.
Qed.

Lemma admissible_same req req' :
  same_request req req' -> admissible config supported_gates req ->
  admissible config supported_gates req'.
Proof. destruct req, req'. unfold same_request, admissible. cbn. by intros [=]; subst. Qed.

Lemma stored_same s req req' pubkey bud bud' now now' :
  same_request req req' ->
  already_stored request_to_json task_from_json (task_of config req pubkey bud now) s ->
  already_stored request_to_json task_from_json (task_of config req' pubkey bud' now') s.
Proof.
  intros Hsame (row & t & Hrow & Ht & Hm). exists row, t.
  assert (Hkey : task_key (task_of config req pubkey bud now)
    = task_key (task_of config req' pubkey bud' now')).
  { revert Hsame. destruct req, req'. unfold same_request, task_key. cbn. by intros [=]; subst. }
  rewrite <- Hkey. split_and!; [done..|]. rewrite <- Hm. symmetry.
  apply matches_same; [done|by apply same_request_task].
Qed.
End redelivery.

(** ** Theorems *)

(** C2. What accepting a dispatch means: on [Ok] the request fits the node (no
    wider than the limit of its output mode, every gate of the circuit valid)
    and either its task is in (a new pending row, the count up by one, a hold in
    the ledger, the last place in the queue, nothing else changed) or a row with
    the same payload was already there and nothing changed; the error tells
    which check failed, and a request that fits is never rejected by the first
    two.  [others] is what other streams did between lookup and insertion. *)
Theorem accept_outcome_spec config sup rj tj fj others req pubkey bud now_ms s r s' :
  (forall s1, db_wf s1.(store).(db) -> db_wf (others s1).(store).(db)) ->
  db_wf s.(store).(db) ->
  accept_compute_task config sup rj tj fj others s req pubkey bud now_ms = (r, s') ->
  accept_outcome config sup rj tj fj others req (task_of config req pubkey bud now_ms) s s' r.
Proof. apply accept_spec. Qed.

(** C11. Redelivery is idempotent: after a dispatch was accepted, the same
    request again (for whatever node id, budget or time of arrival) is accepted
    and leaves the node exactly as it is. *)
Theorem redelivery_is_idempotent config sup rj tj fj others others' req req' pubkey
  bud bud' now_ms now_ms' s s' :
  (forall r, is_Some (rj r)) ->
  reads_back tj fj (task_of config req pubkey bud now_ms) ->
  (forall s1, db_wf s1.(store).(db) -> db_wf (others s1).(store).(db)) ->
  db_wf s.(store).(db) ->
  accept_compute_task config sup rj tj fj others s req pubkey bud now_ms = (Ok tt, s') ->
  same_request req req' -> s'.(store).(faults) = [] ->
  accept_compute_task config sup rj tj fj others' s' req' pubkey bud' now_ms' = (Ok tt, s').
Proof.
  intros Hreq Hjson Hoth Hwf H Hsame Hf.
  apply accept_spec in H as [Hadm H]; [|exact Hoth|exact Hwf].
  assert (Hst : already_stored rj fj (task_of config req pubkey bud now_ms) s').
  { destruct H as [[_ ?]|(s1 & _ & [[H _]|[_ ?]])]; [done| |done].
    by eapply row_added_stored. }
  apply accept_stored; [by eapply admissible_same|by eapply stored_same|done].
Qed.

(** When the worker is gone a dispatch is refused with [QueueFull], but its
    row stays: the same dispatch again is then answered [Ok] although no task is
    queued for it, and it waits for the next restart. *)
Theorem refused_then_acknowledged config sup rj tj fj others others' req pubkey bud now_ms
  now_ms' s s' :
  (forall r, is_Some (rj r)) ->
  reads_back tj fj (task_of config req pubkey bud now_ms) ->
  (forall s1, db_wf s1.(store).(db) -> db_wf (others s1).(store).(db)) ->
  db_wf s.(store).(db) ->
  accept_compute_task config sup rj tj fj others s req pubkey bud now_ms
    = (Err QueueFull, s') ->
  s'.(store).(faults) = [] ->
  admissible config sup req ->
  accept_compute_task config sup rj tj fj others' s' req pubkey bud now_ms' = (Ok tt, s')
  /\ exists s1, same_but_faults s s1 /\ s'.(queue) = (others s1).(queue)
     /\ exists json, a_tasks (abs s'.(store).(db)) !! (pubkey, req.(task_id))
        = Some (mkTaskData json "pending", (others s1).(store).(clock)).
Proof.
  intros Hreq Hjson Hoth Hwf H Hf Hadm.
  apply accept_spec in H as (s1 & Hs1 & Hrow & _ & _ & _ & Hq & _); [|exact Hoth|exact Hwf]. split.
  - apply accept_stored; [done..| |done].
    eapply (stored_same config rj fj _ req); [done|]. by eapply row_added_stored.
  - exists s1. split_and!; [done..|].
    destruct Hrow as (j & _ & _ & _ & _ & Ha). exists j. rewrite Ha. apply lookup_insert_eq.
Qed.

(** *** Witnesses *)

Definition demo_request (node : option string) : ComputeRequest :=
  mkComputeRequest "t1" (Some "parent") "c" node 2 2 "0" [] sample_circuit (Some 1)
    None None None None "" None None None [] None "".
Definition demo_task : ComputeTask :=
  task_of sample_config (demo_request None) "orch" (Some (mkBudget 330 (f64_of_Z 5))) 1000.
Definition demo_rj (r : ComputeRequest) : option bytes := Some (as_bytes r.(task_id)).
Definition demo_tj (t : ComputeTask) : option string :=
  if decide (t = demo_task) then Some "t1" else None.
Definition demo_fj (j : string) : option ComputeTask := Some demo_task.
Lemma demo_json t : reads_back demo_tj demo_fj t.
Proof. intros j. unfold demo_tj. case_decide as H; [|done]. by rewrite H. Qed.
Lemma demo_rj_total r : is_Some (demo_rj r).
Proof. by eexists. Qed.

Definition gone_state : AppState :=
  mkAppState (mkStore empty_db [] 7) empty_ledger 0 [] false initial_health true ∅ ∅ None.

Abbreviation demo_accept others s node := (accept_compute_task sample_config sample_gates
  demo_rj demo_tj demo_fj others s (demo_request node) "orch"
  (Some (mkBudget 330 (f64_of_Z 5)))).

Lemma accept_outcome_spec_witness :
  (demo_accept (fun s => s) initial_state None 1000).1 = Ok tt
  /\ admissible sample_config sample_gates (demo_request None).
Proof.
  split; [vm_compute; reflexivity|].
  apply (accept_outcome_spec sample_config sample_gates demo_rj demo_tj demo_fj
    (fun s => s) (demo_request None) "orch" (Some (mkBudget 330 (f64_of_Z 5))) 1000 initial_state
    (Ok tt) (demo_accept (fun s => s) initial_state None 1000).2
    (fun _ H => H) empty_db_wf).
  vm_compute. reflexivity.
Defined.

Lemma redelivery_is_idempotent_witness :
  (demo_accept (fun s => s) (demo_accept (fun s => s) initial_state None 1000).2
    (Some "other") 2000).1 = Ok tt.
Proof.
  erewrite (redelivery_is_idempotent sample_config sample_gates demo_rj demo_tj
    demo_fj (fun s => s) (fun s => s) (demo_request None) (demo_request (Some "other")) "orch"
    (Some (mkBudget 330 (f64_of_Z 5))) _ 1000 _ initial_state
    (demo_accept (fun s => s) initial_state None 1000).2 demo_rj_total
    (demo_json _) (fun _ H => H) empty_db_wf); [reflexivity|vm_compute; reflexivity..].
Defined.

Lemma refused_then_acknowledged_witness :
  (demo_accept (fun s => s) gone_state None 1000).1 = Err QueueFull
  /\ (demo_accept (fun s => s) (demo_accept (fun s => s) gone_state None 1000).2 None 2000).1
     = Ok tt.
Proof.
  split; [vm_compute; reflexivity|].
  destruct (refused_then_acknowledged sample_config sample_gates demo_rj demo_tj
    demo_fj (fun s => s) (fun s => s) (demo_request None) "orch"
    (Some (mkBudget 330 (f64_of_Z 5))) 1000 2000 gone_state
    (demo_accept (fun s => s) gone_state None 1000).2 demo_rj_total
    (demo_json _) (fun _ H => H) empty_db_wf) as [H _];
    [vm_compute; reflexivity|reflexivity| |by rewrite H].
  split; [vm_compute; discriminate|].
  exact (proj1 (validate_from_ok 0 sample_circuit 2
    sample_gates) eq_refl).
Defined.

(** C12. Only the orchestrator can give the node work: a stream that changes the
    node's state at all came from the orchestrator's peer, carries a signature
    over its sub-task that verifies under the configured key, and had the effect
    of accepting the request made of that sub-task, with the budget the node bid
    on for its parent. *)
Theorem only_signed_work_is_taken {sig vk} config sup rj tj fj others format tree_json
  (decode : string -> option bytes) (from_slice : bytes -> option sig)
  (key_of : bytes -> option vk) verify dispatch_from_json orch peer payload now_ms s r s' :
  on_dispatch_stream config sup rj tj fj others format tree_json decode from_slice key_of
    verify dispatch_from_json orch peer payload now_ms s = (r, s') ->
  s' <> s ->
  peer = orch /\
  exists m key p, dispatch_from_json payload = Some m
    /\ config.(orchestrator_public_key) = Some key
    /\ serialize_dispatch_payload format tree_json m.(sub_task) = Ok p
    /\ signed decode from_slice key_of verify p m.(dispatch_signature) key
    /\ accept_compute_task config sup rj tj fj others s
         (into_compute_request m.(sub_task) config.(peer_id)) key
         (budget_of s.(work_ledger) m.(sub_task).(st_parent_task_id)) now_ms
       = (match r with Ok _ => Ok tt | Err (NotAccepted e) => Err e | Err _ => Err QueueFull end, s').
Proof.
  unfold on_dispatch_stream, handle_dispatch_stream. intros H Hne.
  destruct (decide (peer = orch)) as [->|]; [|by simplify_eq]. split; [done|].
  destruct (dispatch_from_json payload) as [m|]; [|by simplify_eq].
  destruct (orchestrator_public_key config) as [key|]; [|by simplify_eq].
  destruct (verify_dispatch_signature _ _ _ _ _ _ _ _ _) as [[]|] eqn:Hv; [|by simplify_eq].
  unfold verify_dispatch_signature in Hv.
  destruct (serialize_dispatch_payload format tree_json (sub_task m)) as [p|] eqn:Hp; [|done].
  apply verify_signed in Hv.
  destruct (accept_compute_task _ _ _ _ _ _ _ _ _ _ _) as [r0 s0] eqn:E.
  injection H as <- <-. exists m, key, p. split_and!; try done. by destruct r0 as [[]|].
Qed.

Definition signing_config : NodeConfig :=
  mkNodeConfig "peer" "http://localhost:3000" 26 2048 (f64_of_Z 1) None (8 * GIB_U64) Ram None
    300 None (f64_dec 5 1) (f64_of_Z 5) (f64_of_Z 30) 7200 [] ["http://orch"] None [] 4002 60
    8080 "sqlite:wqc-node.db" 50000000000000000 (Some "orch") (Some toy_key) None None.
Definition demo_payload : bytes :=
  match serialize_dispatch_payload sample_format sample_tree_json sample_sub_task with
  | Ok p => p | Err _ => []
  end.
Definition demo_dispatched : TaskDispatchMessage :=
  mkTaskDispatchMessage sample_sub_task (of_bytes (toy_tag demo_payload)).
Definition demo_dispatch (peer : string) : result DispatchError unit * AppState :=
  on_dispatch_stream signing_config ["H"; "<b>"]
    demo_rj (fun t => Some t.(request).(task_id)) demo_fj (fun s => s)
    sample_format sample_tree_json toy_decode Some Some toy_verify (fun _ => Some demo_dispatched)
    "orch" peer [] 1000 initial_state.

Lemma only_signed_work_is_taken_witness :
  (demo_dispatch "orch").1 = Ok tt /\ length (demo_dispatch "orch").2.(queue) = 1%nat
  /\ exists p, signed toy_decode Some Some toy_verify p (of_bytes (toy_tag demo_payload)) toy_key.
Proof.
  split; [vm_compute; reflexivity|]. split; [vm_compute; reflexivity|].
  destruct (only_signed_work_is_taken signing_config ["H"; "<b>"] demo_rj
    (fun t => Some t.(request).(task_id)) demo_fj (fun s => s) sample_format sample_tree_json
    toy_decode Some Some toy_verify (fun _ => Some demo_dispatched) "orch" "orch" [] 1000 initial_state
    (demo_dispatch "orch").1 (demo_dispatch "orch").2) as (_ & m & k & p & Hm & Hk & _ & Hs & _).
  - unfold demo_dispatch. by destruct (on_dispatch_stream _ _ _ _ _ _ _ _ _ _ _ _ _ _ _ _ _ _).
  - intros H. apply (f_equal (fun s => length s.(queue))) in H. vm_compute in H. discriminate H.
  - injection Hm as <-. injection Hk as <-. exists p. exact Hs.
Defined.
