(* ===== verification/Stream.v ===== *)
(** * Outbound streams ([src/transport/p2p/stream_io.rs], [result_delivery.rs],
      [pcs_delivery.rs])

    What libp2p makes of a stream is an argument: whether it opens, takes the
    payload, closes, and what the peer answers.  A result is delivered once it is
    written and the stream closed; a PCS bundle only once the peer acknowledged
    it. *)

From S2P Require Import Prelude Bytes F64 Models MemoryBudget Wire WorkLedger Pcs Table Storage.
From S2P Require Import CoreClient Config State.

Record StreamIo := mkStreamIo {
  opens : bool; writes : bool; closes : bool; reply : option bytes
}.

Inductive StreamError :=
| PeerNotConfigured         (* orchestrator peer id not configured *)
| ControlNotReady           (* P2P stream control is not ready yet *)
| OpenFailed
| WriteFailed
| CloseFailed
| AckUnread                 (* failed to read ack *)
| AckInvalid                (* invalid ack *)
| AckRejected (err : string).

(** What was put on the wire. *)
Inductive sent := Sent (protocol : string) (payload : bytes).

Definition PROTOCOL_RESULT : string := "/wqc/tensor-result/1.0.0".
Definition PROTOCOL_PCS : string := "/wqc/tensor-pcs/1.0.0".

Definition write_outbound_stream (io : StreamIo) (protocol : string) (payload : bytes)
  : result StreamError unit * list sent :=
  if negb io.(opens) then (Err OpenFailed, [])
  else if negb io.(writes) then (Err WriteFailed, [])
  else if negb io.(closes) then (Err CloseFailed, [Sent protocol payload])
  else (Ok tt, [Sent protocol payload]).

(** [Value::as_bool], [Value::as_str] *)
Definition as_bool (v : value) : option bool := match v with VBool b => Some b | _ => None end.
Definition as_str (v : value) : option string := match v with VString s => Some s | _ => None end.
(** [Value::get] with a string *)
Definition value_get (k : string) (v : value) : option value := as_object v ≫= obj_get k.

Section ack.
Context (value_from_json : bytes -> option value).

Definition read_ack (resp : option bytes) : result StreamError unit :=
  match resp with
  | None => Err AckUnread
  | Some resp =>
    match value_from_json resp with
    | None => Err AckInvalid
    | Some ack =>
      if decide (value_get "ok" ack ≫= as_bool = Some true) then Ok tt
      else Err (AckRejected (default "orchestrator rejected stream"
                 (value_get "error" ack ≫= as_str)))
    end
  end.

Definition write_outbound_stream_expect_ack (io : StreamIo) (protocol : string) (payload : bytes)
  : result StreamError unit * list sent :=
  match write_outbound_stream io protocol payload with
  | (Ok _, w) => (read_ack io.(reply), w)
  | (Err e, w) => (Err e, w)
  end.

Section send.
Context (config : NodeConfig).

Definition send_result_wire (s : AppState) (io : StreamIo) (wire_body : bytes)
  : result StreamError unit * list sent :=
  match config.(orchestrator_peer_id) with
  | None => (Err PeerNotConfigured, [])
  | Some _ =>
    if s.(stream_ready) then write_outbound_stream io PROTOCOL_RESULT wire_body
    else (Err ControlNotReady, [])
  end.

Definition send_pcs_wire (s : AppState) (io : StreamIo) (wire_body : bytes)
  : result StreamError unit * list sent :=
  match config.(orchestrator_peer_id) with
  | None => (Err PeerNotConfigured, [])
  | Some _ =>
    if s.(stream_ready) then write_outbound_stream_expect_ack io PROTOCOL_PCS wire_body
    else (Err ControlNotReady, [])
  end.
End send.
End ack.

Definition build_pcs_wire_body (to_json : PcsMessage -> option bytes)
  (sub_task_id node_id leaf_pcs_b64 : string) : option bytes :=
  to_json (mkPcsMessage sub_task_id node_id leaf_pcs_b64 false None).

Definition build_pcs_refusal_wire_body (to_json : PcsMessage -> option bytes)
  (sub_task_id node_id reason : string) : option bytes :=
  to_json (mkPcsMessage sub_task_id node_id "" true (Some reason)).

(** ** Lemmas *)

Lemma write_outbound_Ok io p b w :
  write_outbound_stream io p b = (Ok tt, w) -> w = [Sent p b].
Proof. unfold write_outbound_stream. by repeat case_match; intros; simplify_eq. Qed.

Lemma send_result_Ok config s io b w :
  send_result_wire config s io b = (Ok tt, w) -> w = [Sent PROTOCOL_RESULT b].
Proof.
  unfold send_result_wire. destruct (orchestrator_peer_id config); [|done].
  destruct (stream_ready s); [|done]. apply write_outbound_Ok.
Qed.

(** A bundle counts as delivered only when the peer's reply says so. *)
Lemma send_pcs_Ok vj config s io b w :
  send_pcs_wire vj config s io b = (Ok tt, w) ->
  w = [Sent PROTOCOL_PCS b] /\ exists resp ack, io.(reply) = Some resp
    /\ vj resp = Some ack /\ (value_get "ok" ack ≫= as_bool) = Some true.
Proof.
  unfold send_pcs_wire, write_outbound_stream_expect_ack.
  destruct (orchestrator_peer_id config); [|done]. destruct (stream_ready s); [|done].
  destruct (write_outbound_stream io PROTOCOL_PCS b) as [[[]|] w'] eqn:E; [|done].
  apply write_outbound_Ok in E as ->. unfold read_ack.
  destruct (reply io) as [resp|]; [|done]. destruct (vj resp) as [ack|] eqn:Ha; [|done].
  case_decide; [|done]. intros [= <-]. eauto 6.
Qed.
