(* ===== verification/Geo.v ===== *)
(** * Location of the node ([src/domain/geo.rs], [src/infra/geoip.rs])

    The node's location goes into its bids.  Three providers are asked in order
    until one answers; the answer is kept in the database for a day. *)

From S2P Require Import Prelude F64 Models MemoryBudget WorkLedger Pcs Table Storage CoreClient.

Definition TOO_MANY_REQUESTS : Z := 429.

Record IpApiJsonResponse := mkIpApiJson {
  ij_lat : f64; ij_lon : f64; ij_country : string; ij_city : string; ij_status : string
}.
Record FreeIpApiResponse := mkFreeIpApi {
  fi_latitude : f64; fi_longitude : f64; fi_country_name : string; fi_city_name : string
}.
Record IpApiCoResponse := mkIpApiCo {
  ic_latitude : f64; ic_longitude : f64; ic_country_name : string; ic_city : string
}.

(** What each provider answers when it is asked. *)
Record Providers := mkProviders {
  ip_api : HttpOutcome IpApiJsonResponse;
  free_ip_api : HttpOutcome FreeIpApiResponse;
  ipapi_co : HttpOutcome IpApiCoResponse
}.

Definition try_ip_api (out : HttpOutcome IpApiJsonResponse) : option GeoInfo :=
  match out with
  | SendError _ => None
  | Response status body _ =>
    if status =? TOO_MANY_REQUESTS then None
    else if negb (is_success status) then None
    else
      json ← body;
      if negb (bool_decide (json.(ij_status) = "success")) then None
      else Some (mkGeoInfo json.(ij_lat) json.(ij_lon) json.(ij_country) json.(ij_city))
  end.

Definition try_free_ip_api (out : HttpOutcome FreeIpApiResponse) : option GeoInfo :=
  match out with
  | SendError _ => None
  | Response status body _ =>
    if (status =? TOO_MANY_REQUESTS) || negb (is_success status) then None
    else
      json ← body;
      Some (mkGeoInfo json.(fi_latitude) json.(fi_longitude) json.(fi_country_name)
              json.(fi_city_name))
  end.

Definition try_ipapi_co (out : HttpOutcome IpApiCoResponse) : option GeoInfo :=
  match out with
  | SendError _ => None
  | Response status body _ =>
    if (status =? TOO_MANY_REQUESTS) || negb (is_success status) then None
    else
      json ← body;
      Some (mkGeoInfo json.(ic_latitude) json.(ic_longitude) json.(ic_country_name)
              json.(ic_city))
  end.

Definition fetch_geolocation (p : Providers) : option GeoInfo :=
  match try_ip_api p.(ip_api) with
  | Some info => Some info
  | None =>
    match try_free_ip_api p.(free_ip_api) with
    | Some info => Some info
    | None =>
      match try_ipapi_co p.(ipapi_co) with
      | Some info => Some info
      | None => None
      end
    end
  end.

Definition resolve_node_location (p : Providers) (st : Store) : option GeoInfo * Store :=
  match get_cached_geo st with
  | (Ok (Some cached), st) => (Some cached, st)
  | (_, st) =>
    match fetch_geolocation p with
    | None => (None, st)
    | Some fresh => (Some fresh, (save_geo_cache fresh st).2)
    end
  end.

(** ** Lemmas *)

(** Neither the cache nor the providers touch the tables of the work. *)
Lemma resolve_location_tables p st :
  let st' := (resolve_node_location p st).2 in
  st'.(db).(tasks) = st.(db).(tasks) /\ st'.(db).(pending_results) = st.(db).(pending_results)
  /\ st'.(db).(pending_pcs) = st.(db).(pending_pcs).
Proof.
  cbv zeta. unfold resolve_node_location.
  destruct (get_cached_geo st) as [r st1] eqn:E. apply query_db in E.
  rewrite <- E. destruct r as [[c|]|e]; [by split_and!| |];
    destruct (fetch_geolocation p) as [g|]; try by split_and!.
  all: cbn [snd]; unfold save_geo_cache, stmt; destruct (faults st1) as [|[] fs]; cbn;
    try destruct (_ || _); repeat split.
Qed.

(** The first of the providers that answers is believed. *)
Lemma fetch_is_first p :
  fetch_geolocation p
  = head (omap id [try_ip_api p.(ip_api); try_free_ip_api p.(free_ip_api);
                   try_ipapi_co p.(ipapi_co)]).
Proof. unfold fetch_geolocation. by repeat case_match; cbn; simplify_eq. Qed.

(** ** Theorems *)

(** The location is asked for at most once a day: when the cache has nothing
    fresh, the answer of the first provider that has one is used and stored (a
    JSON number is never a NaN); for [GEO_CACHE_TTL_SECS] it is the location
    whatever the providers say, and from then on they are asked again. *)
Theorem location_is_cached_for_a_day p p' st now g :
  st.(faults) = [] -> (get_cached_geo st).1 = Ok None ->
  head (omap id [try_ip_api p.(ip_api); try_free_ip_api p.(free_ip_api);
                 try_ipapi_co p.(ipapi_co)]) = Some g ->
  f64_is_nan g.(latitude) = false -> f64_is_nan g.(longitude) = false ->
  let '(r, st') := resolve_node_location p st in
  r = Some g /\
  (resolve_node_location p' (mkStore st'.(db) [] now)).1
  = if now - st.(clock) <? GEO_CACHE_TTL_SECS then Some g else fetch_geolocation p'.
Proof.
  intros Hf Hc Hg Hlat Hlon. rewrite <- fetch_is_first in Hg. unfold resolve_node_location at 1.
  destruct (get_cached_geo st) as [r st1] eqn:E. cbn [fst] in Hc. subst r. rewrite Hg.
  split; [done|]. unfold get_cached_geo, query, stmt in E. rewrite Hf in E. cbn in E.
  injection E as _ <-. unfold resolve_node_location, get_cached_geo, save_geo_cache, query, stmt.
  cbn [faults clock db]. rewrite Hlat, Hlon. cbn [orb snd db geo_cache clock].
  destruct (now - clock st <? GEO_CACHE_TTL_SECS); [done|].
  by destruct (fetch_geolocation p').
Qed.

(** *** Witnesses *)

Definition no_providers : Providers :=
  let e := mkHttpError true false false false true in
  mkProviders (SendError e) (SendError e) (SendError e).
Definition limited_providers : Providers :=
  mkProviders (Response 429 None "")
    (Response 200 (Some (mkFreeIpApi (f64_of_Z 51) (f64_of_Z 7) "DE" "Essen")) "")
    (Response 200 (Some (mkIpApiCo (f64_of_Z 1) (f64_of_Z 2) "X" "Y")) "").

Lemma location_is_cached_for_a_day_witness :
  (resolve_node_location no_providers
     (mkStore (resolve_node_location limited_providers (mkStore empty_db [] 100)).2.(db) [] 5000)).1
  = Some (mkGeoInfo (f64_of_Z 51) (f64_of_Z 7) "DE" "Essen").
Proof.
  exact (proj2 (location_is_cached_for_a_day limited_providers no_providers (mkStore empty_db [] 100)
    5000 (mkGeoInfo (f64_of_Z 51) (f64_of_Z 7) "DE" "Essen") eq_refl eq_refl eq_refl eq_refl
    eq_refl)).
Defined.
