(* ===== verification/Operator.v ===== *)
(** * Operator identity ([src/domain/operator.rs])

    A bid carries the identity of the operator who staked for it: an Ed25519 key
    derived from the node key by HKDF, its identifier, and a signature over a
    layout without lengths.  HMAC, SHA-256, hex, Ed25519 and the text of a
    BigInt are parameters. *)

From S2P Require Import Prelude Bytes FloatText.

Definition HKDF_INFO : string := "wqc-operator-v1".

Inductive OperatorError :=
| NodeKeyRequired         (* node key is required *)
| SeedLength              (* hkdf seed must be 32 bytes *)
| Diverged.               (* the expansion loop does not end *)

Section operator.
Context (hmac : bytes -> bytes -> bytes) (sha256 : bytes -> bytes) (hex_encode : bytes -> string).
Context (verifying_key : bytes -> bytes).

(** The [while] loop; [None] when the fuel does not suffice. *)
Fixpoint expand_loop (fuel : nat) (prk info : bytes) (len : nat) (out t : bytes) (counter : Z)
  : option bytes :=
  if (length out <? len)%nat then
    match fuel with
    | O => None
    | S fuel =>
      let t := hmac prk (t ++ info ++ [byte_of_Z counter]) in
      expand_loop fuel prk info len (out ++ t) t (Z.min (counter + 1) 255)
    end
  else Some out.

Definition hkdf_expand (prk info : bytes) (len : nat) : option bytes :=
  take len <$> expand_loop len prk info len [] [] 1.

Definition hkdf_sha256 (ikm salt info : bytes) (len : nat) : option bytes :=
  let salt := if decide (salt = []) then replicate 32 Byte.x00 else salt in
  hkdf_expand (hmac salt ikm) info len.

Definition operator_id_from_pubkey (pubkey : bytes) : string := hex_encode (sha256 pubkey).

(** The signing key is its seed. *)
Definition derive_operator_keypair (node_key : string) : result OperatorError (string * bytes) :=
  if decide (node_key = "") then Err NodeKeyRequired
  else
    match hkdf_sha256 (as_bytes node_key) [] (as_bytes HKDF_INFO) 32 with
    | None => Err Diverged
    | Some seed =>
      if decide (length seed = 32%nat) then
        Ok (operator_id_from_pubkey (verifying_key seed), seed)
      else Err SeedLength
    end.
End operator.

(** [bigint_text] is [BigInt::to_string]. *)
Definition serialize_operator_bid_payload (bigint_text : Z -> string)
  (operator_id node_id task_id : string) (stake_amount : Z) : bytes :=
  as_bytes operator_id ++ as_bytes node_id ++ as_bytes task_id
  ++ as_bytes (bigint_text stake_amount).

(** What num-bigint documents of it: the decimal digits, after a minus if the
    number is negative. *)
Definition decimal (n : Z) : string :=
  if n <? 0 then of_chars (CH_MINUS :: dec_text (- n)) else of_chars (dec_text n).

(** ** Specification: HKDF-Expand of RFC 5869 *)

Section rfc5869.
Context (hmac : bytes -> bytes -> bytes).

(** T(n) *)
Fixpoint rfc_block (prk info : bytes) (n : nat) : bytes :=
  match n with
  | O => []
  | S m => hmac prk (rfc_block prk info m ++ info ++ [byte_of_Z (Z.of_nat n)])
  end.

(** The first [L] octets of T(1) | T(2) | ... | T(N), N = ceil(L / 32). *)
Definition rfc_expand (prk info : bytes) (len : nat) : bytes :=
  take len (concat (map (rfc_block prk info) (seq 1 ((len + 31) / 32)))).
End rfc5869.

(** ** Lemmas *)

Section expand.
Context (hmac : bytes -> bytes -> bytes).
Hypothesis hmac_32 : forall k m, length (hmac k m) = 32%nat.

Lemma length_blocks prk info a n :
  (1 <= a)%nat -> length (concat (map (rfc_block hmac prk info) (seq a n))) = (32 * n)%nat.
Proof.
  revert a. induction n as [|n IH]; intros a Ha; [done|]. cbn [seq map concat].
  rewrite length_app, IH by lia. destruct a as [|a]; [lia|]. cbn [rfc_block]. rewrite hmac_32. lia.
Qed.

Lemma blocks_needed len n :
  (len <= 32 * n)%nat -> (32 * n < len + 32)%nat -> ((len + 31) / 32)%nat = n.
Proof. intros. symmetry. apply (Nat.div_unique _ _ _ (len + 31 - 32 * n)); lia. Qed.

(** After [n] turns the loop holds the first [n] blocks and T(n). *)
Lemma expand_loop_blocks prk info len fuel n :
  (len <= 255 * 32)%nat -> (len <= 32 * n + 32 * fuel)%nat -> (32 * n < len + 32)%nat ->
  expand_loop hmac fuel prk info len (concat (map (rfc_block hmac prk info) (seq 1 n)))
    (rfc_block hmac prk info n) (Z.min (Z.of_nat n + 1) 255)
  = Some (concat (map (rfc_block hmac prk info) (seq 1 ((len + 31) / 32)))).
Proof.
  intros Hlen. revert n. induction fuel as [|fuel IH]; intros n Hfuel Hn;
    cbn [expand_loop]; rewrite length_blocks by lia;
    destruct (Nat.ltb_spec (32 * n) len) as [Hlt|Hge]; try lia.
  - by rewrite (blocks_needed len n).
  - specialize (IH (S n) ltac:(lia) ltac:(lia)). rewrite <- IH.
    assert (Hc : Z.min (Z.of_nat n + 1) 255 = Z.of_nat (S n)) by lia. rewrite Hc. f_equal.
    rewrite seq_S, map_app, concat_app. cbn [map concat]. by rewrite app_nil_r.
  - by rewrite (blocks_needed len n).
Qed.
End expand.

Lemma dec_text_inj a b : 0 <= a -> 0 <= b -> dec_text a = dec_text b -> a = b.
Proof. intros Ha Hb H. by rewrite <- (dec_text_value a Ha), H, dec_text_value. Qed.

Lemma digits_scalars t : forallb is_digit_char t = true -> Forall is_scalar t.
Proof.
  rewrite forallb_forall. intros H. apply Forall_forall. intros c Hc%list_elem_of_In.
  apply H, digit_char_range in Hc. unfold is_scalar. lia.
Qed.

Lemma of_digits_inj t u :
  Forall is_scalar t -> Forall is_scalar u -> of_chars t = of_chars u -> t = u.
Proof. intros Ht Hu H. by rewrite <- (chars_of_chars t Ht), H, chars_of_chars. Qed.

Lemma decimal_inj a b : decimal a = decimal b -> a = b.
Proof.
  assert (Hs : forall n, 0 <= n -> Forall is_scalar (dec_text n))
    by (intros; by apply digits_scalars, dec_text_digits).
  assert (Hm : forall n, 0 <= n -> Forall is_scalar (CH_MINUS :: dec_text n))
    by (intros; constructor; [by vm_compute|by apply Hs]).
  assert (Hd : forall n t, 0 <= n -> dec_text n <> CH_MINUS :: t).
  { intros n t Hn H. pose proof (dec_text_digits n Hn) as Hd. by rewrite H in Hd. }
  unfold decimal. destruct (Z.ltb_spec a 0), (Z.ltb_spec b 0); intros Heq%of_digits_inj;
    try (by apply Hs || by apply Hm; lia); try (apply Hs; lia); try (apply Hm; lia).
  - injection Heq as Heq%dec_text_inj; lia.
  - symmetry in Heq. by apply Hd in Heq; [|lia].
  - by apply Hd in Heq; [|lia].
  - by apply dec_text_inj in Heq.
Qed.

(** ** Theorems *)

(** C28. The derived operator key is RFC 5869's: for every output up to the 255
    blocks the standard allows, the loop ends and gives the standard's first
    octets; deriving from a node key then always succeeds, with a seed of 32
    bytes that is the first block and the identifier of its public key. *)
Theorem hkdf_expand_is_rfc5869 hmac sha256 hex vk prk info len node_key :
  (forall k m, length (hmac k m) = 32%nat) -> (len <= 255 * 32)%nat -> node_key <> "" ->
  hkdf_expand hmac prk info len = Some (rfc_expand hmac prk info len)
  /\ exists seed, derive_operator_keypair hmac sha256 hex vk node_key
       = Ok (operator_id_from_pubkey sha256 hex (vk seed), seed)
     /\ seed = rfc_block hmac (hmac (replicate 32 Byte.x00) (as_bytes node_key))
                 (as_bytes HKDF_INFO) 1.
Proof.
  intros Hmac Hlen Hkey.
  assert (Hex : forall prk info len, (len <= 255 * 32)%nat ->
    hkdf_expand hmac prk info len = Some (rfc_expand hmac prk info len)).
  { intros p i l Hl. unfold hkdf_expand.
    pose proof (expand_loop_blocks hmac Hmac p i l l 0 Hl) as H.
    change (Z.min (Z.of_nat 0 + 1) 255) with 1 in H. cbn [rfc_block seq map concat] in H.
    by rewrite H by lia. }
  split; [by apply Hex|]. unfold derive_operator_keypair, hkdf_sha256.
  rewrite (decide_False (P := node_key = "")) by done.
  rewrite (decide_True (P := ([] : bytes) = [])) by done.
  rewrite Hex by lia. unfold rfc_expand. cbn [seq map concat]. change ((32 + 31) / 32)%nat with 1%nat.
  cbn [seq map concat]. rewrite app_nil_r, take_ge by (cbn [rfc_block]; rewrite Hmac; lia).
  rewrite decide_True by apply Hmac. eauto.
Qed.

(** The operator's signature fixes the bid it was made for: at identifiers of the
    same lengths the layout determines operator, node, task and stake. *)
Theorem operator_payload_injective bigint_text op node task stake op' node' task' stake' :
  (forall n, bigint_text n = decimal n) ->
  length (as_bytes op) = length (as_bytes op') -> length (as_bytes node) = length (as_bytes node') ->
  length (as_bytes task) = length (as_bytes task') ->
  serialize_operator_bid_payload bigint_text op node task stake
  = serialize_operator_bid_payload bigint_text op' node' task' stake' ->
  op = op' /\ node = node' /\ task = task' /\ stake = stake'.
Proof.
  intros Htext Ho Hn Ht Heq. unfold serialize_operator_bid_payload in Heq. rewrite !Htext in Heq.
  apply app_eq_split in Heq as [H1%as_bytes_inj Heq]; [|done].
  apply app_eq_split in Heq as [H2%as_bytes_inj Heq]; [|done].
  apply app_eq_split in Heq as [H3%as_bytes_inj H4%as_bytes_inj%decimal_inj]; done.
Qed.

(** Without lengths in the layout the stake is not bound to the task: the last
    digits of a task identifier and the first ones of the stake are the same
    bytes, so one signature covers both bids. *)
Theorem operator_stake_not_bound bigint_text op node task :
  (forall n, bigint_text n = decimal n) ->
  serialize_operator_bid_payload bigint_text op node (task +:+ "1") 50
  = serialize_operator_bid_payload bigint_text op node task 150.
Proof.
  intros Htext. unfold serialize_operator_bid_payload.
  by rewrite !Htext, as_bytes_app, <- app_assoc.
Qed.

(** *** Witnesses *)

Definition toy_hmac (k m : bytes) : bytes := take 32 (k ++ m ++ replicate 32 Byte.x2a).
Lemma toy_hmac_32 (k m : bytes) : length (toy_hmac k m) = 32%nat.
Proof. unfold toy_hmac. rewrite length_take, !length_app, length_replicate. lia. Qed.

Lemma hkdf_expand_is_rfc5869_witness :
  hkdf_expand toy_hmac [Byte.x01] [Byte.x02] 70 = Some (rfc_expand toy_hmac [Byte.x01] [Byte.x02] 70).
Proof.
  apply (hkdf_expand_is_rfc5869 toy_hmac (fun b => b) (fun _ => "id") (fun b => b) [Byte.x01]
    [Byte.x02] 70 "nk" toy_hmac_32); [lia|done].
Defined.

Lemma operator_payload_injective_witness : "task-1" = "task-1" /\ 50 = 50.
Proof.
  destruct (operator_payload_injective decimal "op" "node" "task-1" 50 "op" "node" "task-1" 50)
    as (_ & _ & H1 & H2); [done..|]. by split.
Defined.

Lemma operator_stake_not_bound_witness :
  serialize_operator_bid_payload decimal "op" "node" ("t" +:+ "1") 50
  = serialize_operator_bid_payload decimal "op" "node" "t" 150.
Proof. by apply (operator_stake_not_bound decimal). Defined.
