(* ===== verification/Bid.v ===== *)
(** * Bids ([src/domain/bid.rs], [src/transport/p2p/bid_client.rs],
      [src/transport/p2p/announce_handler.rs])

    The orchestrator announces a task; a node that supports what it needs and
    can finish it in time mines a lottery proof, signs a bid and submits it until
    it is acknowledged.  SHA-256, Ed25519 and serde are parameters. *)

From S2P Require Import Prelude Bytes F64 Models Features MemoryBudget Wire WorkLedger Pcs Table.
From S2P Require Import Storage CoreClient Config State Stream Geo Operator.

(** ** Data *)

Definition PROTOCOL_BID : string := "/wqc/tensor-net/1.0.0".
Definition NETWORK_MIN_QUBITS : Z := 10.
Definition LOTTERY_TIME_WINDOW_SECS : Z := 10.
Definition BID_ATTEMPTS : nat := 3.

(** [infra/metrics.rs]: the unsigned health snapshot. *)
Record MetricsSummary := mkMetricsSummary {
  ms_pending_tasks : Z;
  ms_outbox_pending : Z;
  ms_p2p_connected_peers : Z;
  ms_p2p_orchestrator_connected : Z;
  ms_core_timeouts_total : Z;
  ms_uptime_seconds : Z
}.

Record Bid := mkBid {
  bid_task_id : string;
  bid_node_id : string;
  max_qubit_capability : Z;
  bid_max_mps_qubits : Z;
  current_load_factors : Z;
  timestamp : Z;
  lottery_attempt : Z;
  bid_signature : bytes;
  lottery_proof : bytes;
  bid_stake_amount : Z;
  supported_features : Z;
  location : option GeoInfo;
  bid_operator_id : option string;
  operator_sig : option bytes;
  metrics_summary : option MetricsSummary
}.

Inductive BidError :=
| BidUnauthorizedPeer                    (* the stream is dropped *)
| BidKeyNotConfigured
| AnnouncementRejected (e : WireError)
| StillMining                            (* the clock readings given do not decide the search *)
| NotMined                               (* failed to mine lottery proof within time window *)
| BidNotJson
| BidNotSubmitted (e : StreamError).

(** ** Whether to bid *)

Definition should_bid_on (a : TaskAnnouncement) (config : NodeConfig) (supported : Z) : bool :=
  if as_u32 config.(max_qubits) <? NETWORK_MIN_QUBITS then false
  else if supported =? 0 then false
  else supports_required_features supported a.(required_features).

(** ** The lottery *)

Section lottery.
Context (sha256 : bytes -> bytes).

Definition lottery_preimage (node_id : string) (nonce timestamp attempt : Z) : bytes :=
  as_bytes node_id ++ u64_be nonce ++ u64_be (as_u64 timestamp) ++ u64_be attempt.
Definition lottery_hash (node_id : string) (nonce timestamp attempt : Z) : bytes :=
  sha256 (lottery_preimage node_id nonce timestamp attempt).

Definition meets_difficulty (hash : bytes) (difficulty : Z) : bool :=
  if difficulty =? 0 then true
  else if Z.of_nat (length hash) <? difficulty then false
  else forallb (fun b => bool_decide (b = Byte.x00)) (take (Z.to_nat difficulty) hash).

(** The [while] loop; [reads] is what the clock says at each turn, and [None] that
    there are too few readings to tell. *)
Fixpoint mine_loop (reads : list Z) (deadline : Z) (node_id : string)
  (nonce timestamp difficulty attempt : Z) : option (option (Z * Z * bytes)) :=
  match reads with
  | [] => None
  | now :: reads =>
    if now <? deadline then
      let proof := lottery_hash node_id nonce timestamp attempt in
      if meets_difficulty proof difficulty then Some (Some (timestamp, attempt, proof))
      else mine_loop reads deadline node_id nonce timestamp difficulty (as_u64 (attempt + 1))
    else Some None
  end.

Definition mine_lottery (timestamp started : Z) (reads : list Z) (node_id : string)
  (nonce difficulty : Z) : option (option (Z * Z * bytes)) :=
  if difficulty =? 0 then Some (Some (timestamp, 0, lottery_hash node_id nonce timestamp 0))
  else mine_loop reads (started + from_secs LOTTERY_TIME_WINDOW_SECS) node_id nonce timestamp
         difficulty 0.
End lottery.

(** ** The signed bid *)

Definition serialize_bid_payload (b : Bid) : bytes :=
  as_bytes b.(bid_task_id) ++ as_bytes b.(bid_node_id) ++ u32_be b.(max_qubit_capability)
  ++ u32_be b.(current_load_factors) ++ i64_be b.(timestamp) ++ u64_be b.(lottery_attempt)
  ++ b.(lottery_proof) ++ u32_be b.(supported_features).

(** What a submission meets. *)
Record BidEnv := mkBidEnv {
  be_decided : Z;                  (* the clock when the ledger decides *)
  be_timestamp : Z;                (* unix seconds when mining starts *)
  be_started : Z;                  (* the clock then *)
  be_reads : list Z;               (* and at each turn of the search *)
  be_located : Providers;           (* what they answer *)
  be_peers : Z; be_orchestrator_up : bool; be_timeouts : Z; be_uptime : Z;
  be_attempts : list StreamIo
}.

Section bids.
Context (config : NodeConfig) (supported_gates : list string).
Context (values : forall A : Type, gmap string A -> list A).
Context (sha256 : bytes -> bytes) (sign : bytes -> bytes -> bytes) (bigint_text : Z -> string).
Context (bid_to_json : Bid -> option bytes) (value_from_json : bytes -> option value).

(** [None]: still mining. *)
Definition build_signed_bid (env : BidEnv) (a : TaskAnnouncement) (current_load supported : Z)
  (located : option GeoInfo) (summary : option MetricsSummary) : option (option Bid) :=
  match config.(operator_id), config.(operator_signing_key) with
  | Some operator_id, Some operator_signing_key =>
    match mine_lottery sha256 env.(be_timestamp) env.(be_started) env.(be_reads)
            config.(peer_id) a.(nonce) a.(bid_difficulty) with
    | Some (Some (timestamp, attempt, proof)) =>
      let unsigned sig op_sig := mkBid a.(an_task_id) config.(peer_id)
        (as_u32 config.(max_qubits)) (Z.min config.(max_mps_qubits) U32_MAX) current_load
        timestamp attempt sig proof config.(stake_amount) supported located (Some operator_id)
        op_sig summary in
      let payload := serialize_bid_payload (unsigned [] None) in
      let operator_payload := serialize_operator_bid_payload bigint_text operator_id config.(peer_id)
        a.(an_task_id) config.(stake_amount) in
      Some (Some (unsigned (sign config.(signing_key) payload)
                    (Some (sign operator_signing_key operator_payload))))
    | Some None => Some None
    | None => None
    end
  | _, _ => Some None
  end.

(** The ledger's verdict on announced work; work is not judged without rates. *)
Definition judge_work (env : BidEnv) (a : TaskAnnouncement) (s : AppState) : bool * AppState :=
  match a.(work), config.(tn_rates) with
  | Some w, Some r =>
    let policy := mkBudgetPolicy r config.(work_overhead_secs) config.(work_budget_margin)
      config.(compute_timeout_secs) config.(work_unknown_secs) in
    let '(l, verdict) := decide_work values s.(work_ledger) a.(an_task_id) w
      (default 0 a.(an_deadline_secs)) policy env.(be_decided) in
    (is_ok verdict, with_ledger (fun _ => l) s)
  | _, _ => (true, s)
  end.

Definition snapshot_for_bid (env : BidEnv) (s : AppState) : MetricsSummary * AppState :=
  let '(r, s) := on_store count_pending_results s in
  (mkMetricsSummary s.(pending_tasks) (match r with Ok n => n | Err _ => 0 end) env.(be_peers)
     (if env.(be_orchestrator_up) then 1 else 0) env.(be_timeouts) env.(be_uptime), s).

(** The submission loop; a bid counts only when it is acknowledged. *)
Fixpoint submit_acked (attempts : nat) (ios : list StreamIo) (payload : bytes)
  (last_err : option StreamError) : result StreamError unit * list sent :=
  match attempts, ios with
  | O, _ => (match last_err with Some e => Err e | None => Ok tt end, [])
  | _, [] => (Err (default OpenFailed last_err), [])
  | S attempts, io :: ios =>
    match write_outbound_stream_expect_ack value_from_json io PROTOCOL_BID payload with
    | (Ok _, w) => (Ok tt, w)
    | (Err e, w) =>
      let '(r, w') := submit_acked attempts ios payload (Some e) in (r, w ++ w')
    end
  end.

Definition submit_bid (env : BidEnv) (a : TaskAnnouncement) (s : AppState)
  : result BidError unit * AppState * list sent :=
  let supported := node_features supported_gates (bool_decide (is_Some config.(tn_rates))) in
  if negb (should_bid_on a config supported) then (Ok tt, s, [])
  else
    match judge_work env a s with
    | (false, s) => (Ok tt, s, [])
    | (true, s) =>
      let current_load := as_u32 s.(pending_tasks) in
      let '(located, st) := resolve_node_location env.(be_located) s.(store) in
      let s := with_store st s in
      let '(summary, s) := snapshot_for_bid env s in
      match build_signed_bid env a current_load supported located (Some summary) with
      | None => (Err StillMining, s, [])
      | Some None => (Err NotMined, s, [])
      | Some (Some signed_bid) =>
        match bid_to_json signed_bid with
        | None => (Err BidNotJson, s, [])
        | Some payload =>
          let '(r, w) := submit_acked BID_ATTEMPTS env.(be_attempts) payload None in
          (map_err BidNotSubmitted r, s, w)
        end
      end
    end.

(** ** Announcements *)

Context {signature verifying_key : Type}.
Context (b64_decode : string -> option bytes) (signature_from_slice : bytes -> option signature).
Context (key_from_bytes : bytes -> option verifying_key).
Context (verify : verifying_key -> bytes -> signature -> bool).
Context (message_from_json : bytes -> option TaskAnnouncementMessage).

(** The bytes of an announcement, from its stream or from the gossip topic. *)
Definition handle_announcement (env : BidEnv) (payload : bytes) (s : AppState)
  : result BidError unit * AppState * list sent :=
  match config.(orchestrator_public_key) with
  | None => (Err BidKeyNotConfigured, s, [])
  | Some orchestrator_pubkey =>
    match parse_signed_announcement b64_decode signature_from_slice key_from_bytes verify
            message_from_json payload orchestrator_pubkey with
    | Err e => (Err (AnnouncementRejected e), s, [])
    | Ok a => submit_bid env a s
    end
  end.

Definition on_announce_stream (orchestrator peer : string) (env : BidEnv) (payload : bytes)
  (s : AppState) : result BidError unit * AppState * list sent :=
  if decide (peer = orchestrator) then handle_announcement env payload s
  else (Err BidUnauthorizedPeer, s, []).
End bids.

(** The clock before each of the first [n] attempts was short of the deadline. *)
Definition tried_in_time (deadline : Z) (reads : list Z) (n : nat) : Prop :=
  (n <= length reads)%nat /\ Forall (fun t => t < deadline) (take n reads).

(** ** Lemmas *)

Lemma tried_one deadline t reads : t < deadline -> tried_in_time deadline (t :: reads) 1.
Proof. intros Ht. split; [cbn; lia|by repeat constructor]. Qed.

Lemma tried_more deadline t reads n :
  t < deadline -> tried_in_time deadline reads n -> tried_in_time deadline (t :: reads) (S n).
Proof. intros Ht [Hn Hf]. split; [cbn; lia|by constructor]. Qed.

Section lottery_lemmas.
Context (sha256 : bytes -> bytes) (node_id : string) (nonce timestamp difficulty deadline : Z).

Abbreviation hash_of := (lottery_hash sha256 node_id nonce timestamp).
Abbreviation loop reads := (mine_loop sha256 reads deadline node_id nonce timestamp difficulty).

(** The search stops at the first hit or at the first reading past the
    deadline, and one of them comes when some reading is past it. *)
Definition search_result (reads : list Z) (a : Z) (r : option (Z * Z * bytes)) : Prop :=
  match r with
  | Some (ts, b, proof) =>
    ts = timestamp /\ a <= b /\ proof = hash_of b /\ meets_difficulty proof difficulty = true
    /\ tried_in_time deadline reads (S (Z.to_nat (b - a)))
    /\ forall c, a <= c < b -> meets_difficulty (hash_of c) difficulty = false
  | None =>
    exists n t, reads !! n = Some t /\ deadline <= t /\ tried_in_time deadline reads n
    /\ forall c, a <= c < a + Z.of_nat n -> meets_difficulty (hash_of c) difficulty = false
  end.

Lemma mine_loop_spec reads a :
  0 <= a -> a + Z.of_nat (length reads) <= 2 ^ 64 ->
  match loop reads a with
  | Some r => search_result reads a r
  | None => Forall (fun t => t < deadline) reads
  end.
Proof.
  revert a. induction reads as [|now reads IH]; intros a Ha Hlen; [constructor|].
  cbn [mine_loop length] in *. destruct (Z.ltb_spec now deadline) as [Hlt|Hge].
  2: { exists 0%nat, now. split_and!; [done|done|split; [cbn; lia|constructor]|lia]. }
  destruct (meets_difficulty (hash_of a) difficulty) eqn:Hm.
  { cbn. split_and!; [done|lia|done|done| |lia]. rewrite Z.sub_diag. by apply tried_one. }
  destruct reads as [|now' reads']; [by constructor|].
  rewrite as_u64_id by (unfold in_u64; cbn [length] in Hlen; lia).
  specialize (IH (a + 1) ltac:(lia) ltac:(lia)).
  destruct (loop (now' :: reads') (a + 1)) as [[[[ts b] proof]|]|]; [| |by constructor].
  - destruct IH as (? & Hb & ? & ? & Ht & Hc). cbn. split_and!; try done; [lia| |].
    + replace (Z.to_nat (b - a)) with (S (Z.to_nat (b - (a + 1)))) by lia. by apply tried_more.
    + intros c Hc'. destruct (decide (c = a)) as [->|]; [done|]. apply Hc. lia.
  - destruct IH as (n & t & Hn & Ht & Hi & Hc). exists (S n), t.
    split_and!; [done|done|by apply tried_more|].
    intros c Hc'. destruct (decide (c = a)) as [->|]; [done|]. apply Hc. lia.
Qed.
End lottery_lemmas.

Lemma preimage_inj node node' n n' t t' a a' :
  length (as_bytes node) = length (as_bytes node') ->
  in_u64 n -> in_u64 n' -> in_i64 t -> in_i64 t' -> in_u64 a -> in_u64 a' ->
  lottery_preimage node n t a = lottery_preimage node' n' t' a' ->
  node = node' /\ n = n' /\ t = t' /\ a = a'.
Proof.
  intros Hl Hn Hn' Ht Ht' Ha Ha' Heq. unfold lottery_preimage in Heq.
  apply app_eq_split in Heq as [H1%as_bytes_inj Heq]; [|done].
  apply app_eq_split in Heq as [H2%u64_be_inj Heq]; [|done|done|by rewrite !length_u64_be].
  apply app_eq_split in Heq as [H3 H4%u64_be_inj]; [|done|done|by rewrite !length_u64_be].
  apply u64_be_inj in H3; [|apply as_u64_range..]. split_and!; try done.
  by apply as_u64_i64_inj.
Qed.

(** The bid's lottery ticket is valid for this announcement. *)
Definition ticket_valid (sha256 : bytes -> bytes) (a : TaskAnnouncement) (b : Bid) : Prop :=
  b.(lottery_proof) = lottery_hash sha256 b.(bid_node_id) a.(nonce) b.(timestamp) b.(lottery_attempt)
  /\ meets_difficulty b.(lottery_proof) a.(bid_difficulty) = true.

(** Everything but the ledger and the location cache. *)
Definition bid_kept (s s' : AppState) : Prop :=
  s'.(store).(db).(tasks) = s.(store).(db).(tasks)
  /\ s'.(store).(db).(pending_results) = s.(store).(db).(pending_results)
  /\ s'.(store).(db).(pending_pcs) = s.(store).(db).(pending_pcs)
  /\ s'.(pending_tasks) = s.(pending_tasks) /\ s'.(queue) = s.(queue)
  /\ s'.(receiver_alive) = s.(receiver_alive) /\ s'.(core) = s.(core)
  /\ s'.(stream_ready) = s.(stream_ready) /\ s'.(open_call_cache) = s.(open_call_cache)
  /\ s'.(in_flight) = s.(in_flight) /\ s'.(at_work) = s.(at_work).

Lemma bid_kept_refl s : bid_kept s s.
Proof. by split_and!. Qed.

Lemma submit_acked_sent vj n ios p e r w :
  submit_acked vj n ios p e = (r, w) -> (length w <= n)%nat /\ Forall (fun x => x = Sent PROTOCOL_BID p) w.
Proof.
  revert ios e r w. induction n as [|n IH]; intros ios e r w; [by intros [= <- <-]|].
  destruct ios as [|io ios]; [intros [= <- <-]; split; [cbn; lia|constructor]|].
  cbn [submit_acked].
  destruct (write_outbound_stream_expect_ack vj io PROTOCOL_BID p) as [r1 w1] eqn:E.
  assert (Hw : w1 = [] \/ w1 = [Sent PROTOCOL_BID p]).
  { unfold write_outbound_stream_expect_ack, write_outbound_stream in E.
    repeat case_match; simplify_eq; auto. }
  destruct r1 as [u|e1].
  - intros [= <- <-]. destruct Hw as [->| ->]; cbn; (split; [lia|by repeat constructor]).
  - destruct (submit_acked vj n ios p (Some e1)) as [r2 w2] eqn:E2. intros [= <- <-].
    apply IH in E2 as [Hlen Hall]. rewrite length_app.
    destruct Hw as [->| ->]; cbn; (split; [lia|by try constructor]).
Qed.

Section bid_lemmas.
Context (config : NodeConfig) (supported_gates : list string).
Context (values : forall A : Type, gmap string A -> list A).
Context (sha256 : bytes -> bytes) (sign : bytes -> bytes -> bytes) (bigint_text : Z -> string).
Context (bid_to_json : Bid -> option bytes) (value_from_json : bytes -> option value).

Definition features_of : Z :=
  node_features supported_gates (bool_decide (is_Some config.(tn_rates))).

Lemma judge_work_spec env a s ok s' :
  judge_work config values env a s = (ok, s') ->
  s' = with_ledger (fun _ => s'.(work_ledger)) s /\
  match a.(work), config.(tn_rates) with
  | Some w, Some r =>
    let d := decide_work values s.(work_ledger) a.(an_task_id) w (default 0 a.(an_deadline_secs))
      (bid_policy config r) env.(be_decided) in
    s'.(work_ledger) = d.1 /\ ok = is_ok d.2
  | _, _ => s' = s /\ ok = true
  end.
Proof.
  unfold judge_work. destruct (work a) as [w|], (tn_rates config) as [r|];
    try (intros [= <- <-]; by destruct s).
  fold (bid_policy config r).
  destruct (decide_work _ _ _ _ _ _ _) as [l v]. by intros [= <- <-].
Qed.

(** What the built bid says. *)
Lemma build_signed_bid_spec env a load sup loc sum b :
  Z.of_nat (length env.(be_reads)) <= 2 ^ 64 -> 0 <= a.(bid_difficulty) ->
  build_signed_bid config sha256 sign bigint_text env a load sup loc sum = Some (Some b) ->
  b.(bid_task_id) = a.(an_task_id) /\ b.(bid_node_id) = config.(peer_id)
  /\ b.(timestamp) = env.(be_timestamp) /\ b.(supported_features) = sup
  /\ ticket_valid sha256 a b
  /\ b.(bid_signature) = sign config.(signing_key) (serialize_bid_payload b)
  /\ exists op k, config.(operator_id) = Some op /\ config.(operator_signing_key) = Some k
     /\ b.(bid_operator_id) = Some op
     /\ b.(operator_sig) = Some (sign k (serialize_operator_bid_payload bigint_text op b.(bid_node_id)
          b.(bid_task_id) b.(bid_stake_amount))).
Proof.
  intros Hlen Hd. unfold build_signed_bid.
  destruct (operator_id config) as [op|], (operator_signing_key config) as [k|]; try done.
  destruct (mine_lottery _ _ _ _ _ _ _) as [[[[ts att] proof]|]|] eqn:E; try done.
  intros [= <-]. unfold ticket_valid. cbn -[lottery_hash].
  assert (Hm : ts = be_timestamp env
    /\ proof = lottery_hash sha256 (peer_id config) (nonce a) ts att
    /\ meets_difficulty proof (bid_difficulty a) = true).
  { unfold mine_lottery in E. destruct (Z.eqb_spec (bid_difficulty a) 0) as [Hz|Hz].
    - injection E as <- <- <-. split_and!; try done. unfold meets_difficulty. by rewrite Hz.
    - pose proof (mine_loop_spec sha256 (peer_id config) (nonce a) (be_timestamp env)
        (bid_difficulty a) (be_started env + from_secs LOTTERY_TIME_WINDOW_SECS)
        (be_reads env) 0 ltac:(lia) ltac:(lia)) as H.
      rewrite E in H. destruct H as (-> & _ & -> & ? & _). done. }
  destruct Hm as (-> & -> & ?). split_and!; try done. eauto 10.
Qed.

Lemma submit_bid_spec env a s r s' w :
  submit_bid config supported_gates values sha256 sign bigint_text bid_to_json value_from_json env a s
    = (r, s', w) ->
  bid_kept s s'
  /\ (s'.(work_ledger) = s.(work_ledger) \/ s'.(work_ledger) = (judge_work config values env a s).2.(work_ledger))
  /\ (length w <= BID_ATTEMPTS)%nat
  /\ (w <> [] -> should_bid_on a config features_of = true
       /\ (judge_work config values env a s).1 = true
       /\ s'.(work_ledger) = (judge_work config values env a s).2.(work_ledger)
       /\ exists b j load loc sum,
            build_signed_bid config sha256 sign bigint_text env a load features_of loc sum = Some (Some b)
            /\ bid_to_json b = Some j /\ Forall (fun x => x = Sent PROTOCOL_BID j) w).
Proof.
  unfold submit_bid. fold features_of.
  destruct (should_bid_on a config features_of); cbn [negb].
  2: { intros [= <- <- <-]. split_and!; [apply bid_kept_refl|by left|cbn; lia|done]. }
  destruct (judge_work config values env a s) as [ok s1] eqn:E1.
  apply judge_work_spec in E1 as [Hs1 _]. cbn [fst snd].
  assert (K1 : bid_kept s s1) by (rewrite Hs1; by split_and!).
  destruct ok.
  2: { intros [= <- <- <-]. split_and!; [done|by right|cbn; lia|done]. }
  pose proof (resolve_location_tables (be_located env) (store s1)) as Hloc.
  destruct (resolve_node_location _ _) as [loc st] eqn:E2. cbv zeta in Hloc. cbn [snd] in Hloc.
  unfold snapshot_for_bid.
  destruct (on_store count_pending_results (with_store st s1)) as [r3 s3] eqn:E3.
  apply on_store_eq in E3 as (st3 & H3%query_db & ->). cbn [with_store store] in H3.
  set (s3 := with_store st3 (with_store st s1)).
  assert (K3 : bid_kept s s3).
  { destruct K1 as (?&?&?&?&?&?&?&?&?&?&?), Hloc as (?&?&?). unfold s3.
    split_and!; cbn; rewrite ?H3; congruence. }
  assert (L3 : work_ledger s3 = work_ledger s1) by done.
  set (sum := mkMetricsSummary _ _ _ _ _ _).
  destruct (build_signed_bid _ _ _ _ _ _ _ _ _) as [[b|]|] eqn:E4.
  2,3: intros [= <- <- <-]; split_and!; [done|by right|cbn; lia|done].
  destruct (bid_to_json b) as [j|] eqn:Hj.
  2: { intros [= <- <- <-]; split_and!; [done|by right|cbn; lia|done]. }
  destruct (submit_acked _ _ _ _ _) as [r5 w5] eqn:E5. intros [= <- <- <-].
  apply submit_acked_sent in E5 as [Hl Hall].
  split_and!; [done|by right|done|]. intros _. split_and!; try done. eauto 10.
Qed.
Lemma submit_bid_kept env a s r s' w :
  submit_bid config supported_gates values sha256 sign bigint_text bid_to_json value_from_json env a s
    = (r, s', w) -> bid_kept s s'.
Proof. by intros (? & _)%submit_bid_spec. Qed.

Context {sig vk : Type}.
Context (decode : string -> option bytes) (from_slice : bytes -> option sig).
Context (key_of : bytes -> option vk) (verify : vk -> bytes -> sig -> bool).
Context (message_from_json : bytes -> option TaskAnnouncementMessage).

Lemma announcement_kept env payload s r s' w :
  handle_announcement config supported_gates values sha256 sign bigint_text bid_to_json value_from_json
    decode from_slice key_of verify message_from_json env payload s = (r, s', w) -> bid_kept s s'.
Proof.
  unfold handle_announcement. intros H.
  destruct (orchestrator_public_key config); [|simplify_eq; apply bid_kept_refl].
  destruct (parse_signed_announcement _ _ _ _ _ _ _); [by eapply submit_bid_kept|].
  simplify_eq. apply bid_kept_refl.
Qed.

(** An announcement touches the ledger only to have its work decided. *)
Lemma announcement_ledger env payload s r s' w :
  handle_announcement config supported_gates values sha256 sign bigint_text bid_to_json value_from_json
    decode from_slice key_of verify message_from_json env payload s = (r, s', w) ->
  s'.(work_ledger) = s.(work_ledger) \/
  exists m wk rates, message_from_json payload = Some m /\ m.(announcement).(work) = Some wk
    /\ config.(tn_rates) = Some rates
    /\ s'.(work_ledger) = (decide_work values s.(work_ledger) m.(announcement).(an_task_id) wk
         (default 0 m.(announcement).(an_deadline_secs)) (bid_policy config rates)
         env.(be_decided)).1.
Proof.
  unfold handle_announcement. intros H.
  destruct (orchestrator_public_key config); [|simplify_eq; by left].
  destruct (parse_signed_announcement _ _ _ _ _ _ _) as [a|] eqn:E; [|simplify_eq; by left].
  assert (Hm : exists m, message_from_json payload = Some m /\ m.(announcement) = a).
  { unfold parse_signed_announcement in E. destruct (message_from_json payload) as [m|]; [|done].
    exists m. split; [done|]. cbn [ok_or] in E.
    apply result_bind_Ok in E as (m' & Hm & E). apply result_bind_Ok in E as (u & _ & E).
    congruence. }
  destruct Hm as (m & Hm & <-). apply submit_bid_spec in H as (_ & Hl & _).
  destruct Hl as [Hl|Hl]; rewrite Hl; [by left|].
  destruct (judge_work _ _ _ _ _) as [ok s1] eqn:Ej. apply judge_work_spec in Ej as [_ Ej]. cbn [snd].
  destruct (work _) as [wk|] eqn:Hw, (tn_rates config) as [rates|] eqn:Hr;
    [right|destruct Ej as [-> _]; by left..].
  destruct Ej as [-> _]. by exists m, wk, rates.
Qed.
End bid_lemmas.

(** ** Theorems *)

(** C15. Mining ends and finds the first ticket: once a clock reading is past the
    ten-second window the search has decided.  A ticket it returns is for the first
    attempt whose hash meets the difficulty, and the clock was inside the window
    before that attempt and each one before it (at difficulty 0 it is attempt 0,
    without a look at the clock); without a ticket every attempt was made inside the
    window and failed, and the next reading was past it. *)
Theorem mining_finds_first_ticket sha256 timestamp started reads node_id nonce difficulty :
  0 <= difficulty -> Z.of_nat (length reads) <= 2 ^ 64 ->
  difficulty = 0
    \/ Exists (fun t => started + from_secs LOTTERY_TIME_WINDOW_SECS <= t) reads ->
  exists r, mine_lottery sha256 timestamp started reads node_id nonce difficulty = Some r /\
  match r with
  | Some (ts, attempt, proof) =>
    ts = timestamp /\ 0 <= attempt
    /\ proof = lottery_hash sha256 node_id nonce timestamp attempt
    /\ meets_difficulty proof difficulty = true
    /\ (if difficulty =? 0 then attempt = 0
        else tried_in_time (started + from_secs LOTTERY_TIME_WINDOW_SECS) reads
               (S (Z.to_nat attempt)))
    /\ forall c, 0 <= c < attempt ->
         meets_difficulty (lottery_hash sha256 node_id nonce timestamp c) difficulty = false
  | None =>
    exists n t, reads !! n = Some t /\ started + from_secs LOTTERY_TIME_WINDOW_SECS <= t
    /\ tried_in_time (started + from_secs LOTTERY_TIME_WINDOW_SECS) reads n
    /\ forall c, 0 <= c < Z.of_nat n ->
         meets_difficulty (lottery_hash sha256 node_id nonce timestamp c) difficulty = false
  end.
Proof.
  intros Hd Hlen Hend. unfold mine_lottery. destruct (Z.eqb_spec difficulty 0) as [->|Hnz].
  { eexists. split; [done|]. split_and!; [done|done|done|done|done|lia]. }
  destruct Hend as [|Hend]; [done|].
  pose proof (mine_loop_spec sha256 node_id nonce timestamp difficulty
    (started + from_secs LOTTERY_TIME_WINDOW_SECS) reads 0 ltac:(lia) ltac:(lia)) as H.
  destruct (mine_loop _ _ _ _ _ _ _ _) as [r|].
  - exists r. split; [done|]. destruct r as [[[ts b] proof]|].
    + destruct H as (-> & Hb & -> & Hm & Ht & Hc). rewrite Z.sub_0_r in Ht. by split_and!.
    + destruct H as (n & t & Hn & Ht & Hi & Hc). exists n, t. split_and!; try done.
  - apply Exists_exists in Hend as (t & Hin & Ht).
    rewrite Forall_forall in H. apply H in Hin. lia.
Qed.

(** The numbers are within their widths. *)
Definition bid_wf (b : Bid) : Prop :=
  in_u32 b.(max_qubit_capability) /\ in_u32 b.(current_load_factors) /\ in_i64 b.(timestamp)
  /\ in_u64 b.(lottery_attempt) /\ in_u32 b.(supported_features).

(** C23. What a bid's signature fixes: at identifiers and proofs of the same lengths
    the payload determines every field it serialises; and a ticket is for one
    announcement, node, second and attempt: its hash input determines them. *)
Theorem bid_payload_injective b c :
  bid_wf b -> bid_wf c ->
  length (as_bytes b.(bid_task_id)) = length (as_bytes c.(bid_task_id)) ->
  length (as_bytes b.(bid_node_id)) = length (as_bytes c.(bid_node_id)) ->
  (serialize_bid_payload b = serialize_bid_payload c ->
    b.(bid_task_id) = c.(bid_task_id) /\ b.(bid_node_id) = c.(bid_node_id)
    /\ b.(max_qubit_capability) = c.(max_qubit_capability)
    /\ b.(current_load_factors) = c.(current_load_factors)
    /\ b.(timestamp) = c.(timestamp) /\ b.(lottery_attempt) = c.(lottery_attempt)
    /\ b.(lottery_proof) = c.(lottery_proof) /\ b.(supported_features) = c.(supported_features)) /\
  (forall n n', in_u64 n -> in_u64 n' ->
    lottery_preimage b.(bid_node_id) n b.(timestamp) b.(lottery_attempt)
    = lottery_preimage c.(bid_node_id) n' c.(timestamp) c.(lottery_attempt) ->
    b.(bid_node_id) = c.(bid_node_id) /\ n = n' /\ b.(timestamp) = c.(timestamp)
    /\ b.(lottery_attempt) = c.(lottery_attempt)).
Proof.
  intros (Hq & Hl & Ht & Ha & Hf) (Hq' & Hl' & Ht' & Ha' & Hf') Hid Hnode. split.
  2: { intros n n' Hn Hn' Heq. by apply preimage_inj in Heq. }
  unfold serialize_bid_payload. intros Heq.
  apply app_eq_split in Heq as [H1%as_bytes_inj Heq]; [|done].
  apply app_eq_split in Heq as [H2%as_bytes_inj Heq]; [|done].
  apply app_eq_split in Heq as [H3%u32_be_inj Heq]; [|done|done|by rewrite !length_u32_be].
  apply app_eq_split in Heq as [H4%u32_be_inj Heq]; [|done|done|by rewrite !length_u32_be].
  apply app_eq_split in Heq as [H5%i64_be_inj Heq]; [|done|done|by rewrite !length_i64_be].
  apply app_eq_split in Heq as [H6%u64_be_inj Heq]; [|done|done|by rewrite !length_u64_be].
  apply app_eq_split_r in Heq as [H7 H8%u32_be_inj]; [|done|done|by rewrite !length_u32_be].
  by split_and!.
Qed.

Section theorems.
Context (config : NodeConfig) (supported_gates : list string).
Context (values : forall A : Type, gmap string A -> list A).
Context (sha256 : bytes -> bytes) (sign : bytes -> bytes -> bytes) (bigint_text : Z -> string).
Context (bid_to_json : Bid -> option bytes) (value_from_json : bytes -> option value).
Context {sig vk : Type}.
Context (decode : string -> option bytes) (from_slice : bytes -> option sig).
Context (key_of : bytes -> option vk) (verify : vk -> bytes -> sig -> bool).
Context (message_from_json : bytes -> option TaskAnnouncementMessage).

(** C6. A bid is a promise the node can keep and prove: what reaches the wire is at
    most three copies of one bid, for an announcement that came from the
    orchestrator and is signed as its content demands, by a node that is wide
    enough and supports every feature required, whose ledger (when the work is
    announced and wqc-core's rates are known) found the estimate within the limit
    and reserved it; the bid carries a valid ticket and the node's and the
    operator's signatures over it.  Nothing but the ledger and the location cache
    changes. *)
Theorem submitted_bid_is_justified orch peer env payload s r s' w :
  Z.of_nat (length env.(be_reads)) <= 2 ^ 64 ->
  (forall m, message_from_json payload = Some m -> 0 <= m.(announcement).(bid_difficulty)) ->
  on_announce_stream config supported_gates values sha256 sign bigint_text bid_to_json value_from_json
    decode from_slice key_of verify message_from_json orch peer env payload s = (r, s', w) ->
  bid_kept s s' /\ (length w <= BID_ATTEMPTS)%nat /\
  (w <> [] -> exists m key b j,
    peer = orch /\ message_from_json payload = Some m
    /\ config.(orchestrator_public_key) = Some key
    /\ announcement_signed decode from_slice key_of verify m key
    /\ NETWORK_MIN_QUBITS <= as_u32 config.(max_qubits)
    /\ (forall i, Z.testbit m.(announcement).(required_features) i = true ->
          Z.testbit (features_of config supported_gates) i = true)
    /\ (forall wk rt, m.(announcement).(work) = Some wk -> config.(tn_rates) = Some rt ->
          decide_work values s.(work_ledger) m.(announcement).(an_task_id) wk
            (default 0 m.(announcement).(an_deadline_secs)) (bid_policy config rt) env.(be_decided)
          = (s'.(work_ledger), Ok (mkBudget (default 0 m.(announcement).(an_deadline_secs))
              (f64_add (seconds rt wk) config.(work_overhead_secs)))))
    /\ ticket_valid sha256 m.(announcement) b
    /\ b.(bid_task_id) = m.(announcement).(an_task_id) /\ b.(bid_node_id) = config.(peer_id)
    /\ b.(bid_signature) = sign config.(signing_key) (serialize_bid_payload b)
    /\ (exists op k, config.(operator_id) = Some op /\ config.(operator_signing_key) = Some k
          /\ b.(operator_sig) = Some (sign k (serialize_operator_bid_payload bigint_text op b.(bid_node_id)
               b.(bid_task_id) b.(bid_stake_amount))))
    /\ bid_to_json b = Some j /\ Forall (fun x => x = Sent PROTOCOL_BID j) w).
Proof.
  intros Hlen Hdiff. unfold on_announce_stream.
  assert (Hno : forall e, (Err e, s, []) = (r, s', w) -> bid_kept s s' /\ (length w <= BID_ATTEMPTS)%nat
    /\ w = []) by (intros e [= <- <- <-]; split_and!; [apply bid_kept_refl|cbn; lia|done]).
  case_decide as Hpeer; [|intros (? & ? & ->)%Hno; split_and!; done].
  unfold handle_announcement. destruct (orchestrator_public_key config) as [key|] eqn:Hkey;
    [|intros (? & ? & ->)%Hno; split_and!; done].
  unfold parse_signed_announcement.
  destruct (message_from_json payload) as [m|] eqn:Hm; cbn [ok_or mbind result_bind];
    [|intros (? & ? & ->)%Hno; split_and!; done].
  destruct (verify_announcement_message _ _ _ _ m key) as [[]|e] eqn:Hv; cbn [mbind result_bind];
    [|intros (? & ? & ->)%Hno; split_and!; done].
  apply check_message_ok in Hv. specialize (Hdiff m eq_refl).
  intros (Hk & _ & Hl & Hw)%submit_bid_spec. split_and!; [done|done|].
  intros (Hshould & Hok & Hledger & b & j & load & loc & sum & Hb & Hj & Hall)%Hw.
  destruct (judge_work config values env (announcement m) s) as [ok s1] eqn:Hjudge.
  cbn [fst snd] in *. subst ok. apply judge_work_spec in Hjudge as [_ Hjudge].
  apply build_signed_bid_spec in Hb as (H1 & H2 & _ & _ & H5 & H6 & op & k & H7 & H8 & _ & H9);
    [|done|done].
  unfold should_bid_on in Hshould.
  destruct (Z.ltb_spec (as_u32 (max_qubits config)) NETWORK_MIN_QUBITS); [done|].
  destruct (features_of config supported_gates =? 0); [done|].
  exists m, key, b, j. split_and!; try done; [by apply supports_spec| |eauto 6].
  intros wk rt Hwk Hrt. rewrite Hwk, Hrt in Hjudge. cbv zeta in Hjudge.
  destruct Hjudge as [Hl1 Hok]. rewrite Hledger, Hl1. unfold decide_work in Hok |- *.
  by destruct (f64_gtb _ _).
Qed.

(** A reservation outlives the bid it was made for: when the ledger accepted the
    work and then no bid could be made or delivered, the estimate stays reserved
    until its time is up and counts against every other bid. *)
Theorem unsent_bid_keeps_reservation env a s r s' w wk rt :
  a.(work) = Some wk -> config.(tn_rates) = Some rt ->
  submit_bid config supported_gates values sha256 sign bigint_text bid_to_json value_from_json env a s
    = (Err r, s', w) ->
  s'.(work_ledger).(reserved) !! a.(an_task_id)
  = Some (f64_add (seconds rt wk) config.(work_overhead_secs), env.(be_decided) + RESERVATION_TTL).
Proof.
  intros Hwk Hrt. unfold submit_bid.
  destruct (negb _); [done|]. destruct (judge_work config values env a s) as [ok s1] eqn:E1.
  apply judge_work_spec in E1 as [_ E1]. rewrite Hwk, Hrt in E1. cbv zeta in E1.
  destruct E1 as [Hl Hok]. destruct ok; [|done].
  assert (Hres : reserved (work_ledger s1) !! an_task_id a
    = Some (f64_add (seconds rt wk) (work_overhead_secs config), be_decided env + RESERVATION_TTL)).
  { rewrite Hl. unfold decide_work in Hok |- *. destruct (f64_gtb _ _); [done|].
    cbn. by rewrite lookup_insert_eq. }
  destruct (resolve_node_location _ _) as [loc st]. unfold snapshot_for_bid.
  destruct (on_store _ _) as [r3 s3] eqn:E3. apply on_store_eq in E3 as (st3 & _ & ->).
  intros H. assert (Hs : s' = with_store st3 (with_store st s1)); [|by subst].
  repeat case_match; by simplify_eq.
Qed.
End theorems.

(** *** Witnesses *)

(** A hash that only the ticket of attempt 2 passes. *)
Definition toy_sha (b : bytes) : bytes :=
  match last b with Some Byte.x02 => [Byte.x00] | _ => [Byte.x01] end.

Definition bidding_config : NodeConfig :=
  mkNodeConfig "peer" "http://localhost:3000" 26 2048 (f64_of_Z 1) None (8 * GIB_U64) Ram None
    300 (Some (mkTnRates (f64_dec 1 9) (f64_dec 1 9))) (f64_dec 5 1) (f64_of_Z 5) (f64_of_Z 30)
    7200 [Byte.x61] ["http://orch"] None [] 4002 60 8080 "sqlite:wqc-node.db" 50 (Some "orch")
    (Some toy_key) (Some "op") (Some [Byte.x62]).

Definition ack_io : StreamIo := mkStreamIo true true true (Some []).
Definition refused_io : StreamIo := mkStreamIo false true true None.
Definition bid_env (ios : list StreamIo) : BidEnv :=
  mkBidEnv 0 1000 0 [1; 2; 3; 20000000000] no_providers 1 true 0 60 ios.
Definition toy_sign (key payload : bytes) : bytes := key ++ toy_tag payload.
Definition toy_ack (b : bytes) : option value := Some (VObject [("ok", VBool true)]).

Abbreviation toy_announce ios := (on_announce_stream bidding_config ["H"; "CNOT"] map_values toy_sha
  toy_sign decimal (fun b => Some b.(bid_signature)) toy_ack toy_decode (fun b => Some b) (fun b => Some b)
  toy_verify (fun _ => Some sample_message) "orch" "orch" (bid_env ios) [] initial_state).

Example toy_bid_is_sent : (toy_announce [refused_io; ack_io]).1.1 = Ok tt
  /\ length (toy_announce [refused_io; ack_io]).2 = 1%nat.
Proof. by vm_compute. Qed.

(** The first attempts miss; one inside the window hits. *)
Definition mining_sha (b : bytes) : bytes :=
  if decide (last b = Some Byte.x02) then [Byte.x00] else [Byte.xff].
Lemma mining_finds_first_ticket_witness :
  (fun t => t.1.2) <$> default None (mine_lottery mining_sha 1000 0 [1; 2; 3; 20000000000] "peer" 77 1)
    = Some 2
  /\ exists r, mine_lottery mining_sha 1000 0 [1; 2; 3; 20000000000] "peer" 77 1 = Some r.
Proof.
  split; [vm_compute; reflexivity|].
  destruct (mining_finds_first_ticket mining_sha 1000 0 [1; 2; 3; 20000000000] "peer" 77 1)
    as (r & H & _); [done|done| |by exists r].
  right. do 3 apply Exists_cons_tl. by apply Exists_cons_hd.
Defined.

Definition toy_bid : Bid :=
  mkBid "task-1" "peer" 26 2048 0 1000 2 [] [Byte.x00] 50 17 None (Some "op") None None.
Lemma toy_bid_wf : bid_wf toy_bid.
Proof. unfold bid_wf, in_u32, in_i64, in_u64. cbn. lia. Qed.
Lemma bid_payload_injective_witness : toy_bid.(lottery_attempt) = toy_bid.(lottery_attempt).
Proof.
  exact (proj1 (proj2 (proj2 (proj2 (proj2 (proj2
    (proj1 (bid_payload_injective toy_bid toy_bid toy_bid_wf toy_bid_wf eq_refl eq_refl) eq_refl))))))).
Defined.

Lemma submitted_bid_is_justified_witness :
  NETWORK_MIN_QUBITS <= as_u32 bidding_config.(max_qubits).
Proof.
  destruct (submitted_bid_is_justified bidding_config ["H"; "CNOT"] map_values toy_sha toy_sign decimal
    (fun b => Some b.(bid_signature)) toy_ack toy_decode (fun b => Some b) (fun b => Some b)
    toy_verify (fun _ => Some sample_message) "orch" "orch" (bid_env [refused_io; ack_io]) []
    initial_state (toy_announce [refused_io; ack_io]).1.1 (toy_announce [refused_io; ack_io]).1.2
    (toy_announce [refused_io; ack_io]).2) as (_ & _ & H);
    [done|by intros m [= <-]|by rewrite <- !surjective_pairing|].
  destruct H as (m & key & b & j & _ & _ & _ & _ & H & _); [by vm_compute|exact H].
Defined.

Lemma unsent_bid_keeps_reservation_witness :
  is_Some ((toy_announce [refused_io; refused_io; refused_io]).1.2.(work_ledger).(reserved)
    !! "task-1").
Proof.
  eexists. eapply (unsent_bid_keeps_reservation bidding_config ["H"; "CNOT"] map_values toy_sha
    toy_sign decimal (fun b => Some b.(bid_signature)) toy_ack
    (bid_env [refused_io; refused_io; refused_io]) sample_announcement initial_state
    (BidNotSubmitted OpenFailed) _ (toy_announce [refused_io; refused_io; refused_io]).2);
    [reflexivity|reflexivity|by vm_compute].
Defined.
