(* ===== verification/Host.v ===== *)
(** * The P2P host ([src/transport/p2p/host.rs])

    The event loop around the libp2p swarm: which connection events and timers
    make the node dial the orchestrator again, and when it renews its
    subscription to the announcement topic.  The swarm itself is third-party code;
    what the loop reads of it (the connections to the orchestrator) and the
    outcome of a subscription are part of the state and of the events. *)

From S2P Require Import Prelude Bytes F64 Models MemoryBudget Wire WorkLedger Pcs Table Storage.
From S2P Require Import CoreClient Config State.

(** ** State *)

Definition BOOTSTRAP_REDIAL_INITIAL : Z := 1.    (* seconds *)
Definition BOOTSTRAP_REDIAL_MAX : Z := 60.
Definition ANNOUNCEMENT_TOPIC : string := "wqc-global-announcements".

Record Host := mkHost {
  redial_attempt : Z;             (* u32 *)
  redial_sleep : option Z;        (* the delay that runs, in seconds *)
  orch_gossip_live : bool;
  links : nat;                    (* the swarm's connections to the orchestrator *)
  subscribed : bool               (* the behaviour's interest in the topic *)
}.

(** [Ok(true)], [Ok(false)] and [Err(_)] of [gossipsub.subscribe] *)
Inductive Subscription := Subscribed | AlreadySubscribed | SubscribeFailed.

Inductive SwarmEvent :=
| ConnectionEstablished (peer_id : string) (on_subscribe : Subscription)
| ConnectionClosed (peer_id : string)
| OutgoingConnectionError (peer_id : option string)
| GossipMessage (data : bytes)
| OtherEvent.

Inductive action :=
| Dial (addr : string)
| AddExplicitPeer (peer_id : string)
| Unsubscribe
| Subscribe
| SpawnBid (a : TaskAnnouncement).

Inductive HostError := NoOrchestratorPeer.

(** ** Operations *)

(** [checked_shl] of a [u32] fails from 32 on. *)
Definition bootstrap_redial_delay (attempt : Z) : Z :=
  let shift := Z.min attempt 16 in
  let multiplier := if shift <? 32 then as_u32 (Z.shiftl 1 shift) else U32_MAX in
  Z.min (BOOTSTRAP_REDIAL_INITIAL * multiplier) BOOTSTRAP_REDIAL_MAX.

Definition parse_bootstrap_addrs (valid : string -> bool) (peers : list string) : list string :=
  List.filter valid peers.

Definition dial_bootstrap_peers (addrs : list string) : list action := map Dial addrs.

Definition with_redial (attempt : Z) (sleep : option Z) (h : Host) : Host :=
  mkHost attempt sleep h.(orch_gossip_live) h.(links) h.(subscribed).
Definition with_gossip (live sub : bool) (h : Host) : Host :=
  mkHost h.(redial_attempt) h.(redial_sleep) live h.(links) sub.
Definition with_links (n : nat) (h : Host) : Host :=
  mkHost h.(redial_attempt) h.(redial_sleep) h.(orch_gossip_live) n h.(subscribed).

Definition schedule_bootstrap_redial (h : Host) : Host :=
  with_redial h.(redial_attempt) (Some (bootstrap_redial_delay h.(redial_attempt))) h.

Definition ensure_orchestrator_gossip_subscription (peer_id : string) (out : Subscription)
  (h : Host) : Host * list action :=
  if h.(orch_gossip_live) then (h, [AddExplicitPeer peer_id])
  else
    (match out with
     | Subscribed => with_gossip true true h
     | AlreadySubscribed => with_gossip false true h
     | SubscribeFailed => with_gossip false false h
     end, [AddExplicitPeer peer_id; Unsubscribe; Subscribe]).

Definition unsubscribe_orchestrator_announcements (h : Host) : Host * list action :=
  (with_gossip h.(orch_gossip_live) false h, [Unsubscribe]).

Section host.
Context (config : NodeConfig) (valid_multiaddr : string -> bool).
Context (parse_announcement : bytes -> string -> result WireError TaskAnnouncement).

(** The part of [run] from the storing of the stream control to the loop, but for the
    listening ([HostRun.run] is the whole); nothing is connected yet. *)
Definition start_host (s : AppState) : result HostError Host * AppState * list action :=
  let s := mkAppState s.(store) s.(work_ledger) s.(pending_tasks) s.(queue) s.(receiver_alive)
    s.(core) true s.(open_call_cache) s.(in_flight) s.(at_work) in
  match config.(orchestrator_peer_id) with
  | None => (Err NoOrchestratorPeer, s, [])
  | Some _ =>
    (Ok (schedule_bootstrap_redial (mkHost 0 None false 0 false)), s,
     dial_bootstrap_peers (parse_bootstrap_addrs valid_multiaddr config.(bootstrap_peers)))
  end.

(** The timer branch of the loop. *)
Definition on_redial_timer (h : Host) : Host * list action :=
  let h := with_redial (u32_sat_add h.(redial_attempt) 1) None h in
  (if (h.(links) =? 0)%nat then schedule_bootstrap_redial h else h,
   dial_bootstrap_peers (parse_bootstrap_addrs valid_multiaddr config.(bootstrap_peers))).

(** The swarm counts the connection before the event is handed out. *)
Definition handle_swarm_event (orchestrator_peer_id : string) (event : SwarmEvent) (h : Host)
  : Host * list action :=
  match event with
  | GossipMessage data =>
    match config.(orchestrator_public_key) with
    | None => (h, [])
    | Some key =>
      match parse_announcement data key with
      | Ok a => (h, [SpawnBid a])
      | Err _ => (h, [])
      end
    end
  | ConnectionEstablished peer_id out =>
    if decide (peer_id = orchestrator_peer_id) then
      let h := with_links (S h.(links)) h in
      let h := with_redial 0 None h in
      ensure_orchestrator_gossip_subscription peer_id out h
    else (h, [])
  | ConnectionClosed peer_id =>
    if decide (peer_id = orchestrator_peer_id) then
      let h := with_links (pred h.(links)) h in
      let '(h, acts) :=
        if (h.(links) =? 0)%nat then
          let '(h, acts) := unsubscribe_orchestrator_announcements h in
          (with_gossip false h.(subscribed) h, acts)
        else (h, []) in
      (schedule_bootstrap_redial h, acts)
    else (h, [])
  | OutgoingConnectionError (Some peer_id) =>
    if decide (peer_id = orchestrator_peer_id) then (schedule_bootstrap_redial h, []) else (h, [])
  | OutgoingConnectionError None | OtherEvent => (h, [])
  end.

(** The swarm closes only connections there are. *)
Inductive host_step (orchestrator_peer_id : string) : Host -> Host -> Prop :=
| step_event h event :
    (event = ConnectionClosed orchestrator_peer_id -> h.(links) <> 0%nat) ->
    host_step orchestrator_peer_id h (handle_swarm_event orchestrator_peer_id event h).1
| step_timer h :
    is_Some h.(redial_sleep) -> host_step orchestrator_peer_id h (on_redial_timer h).1.
End host.

Example delays : map bootstrap_redial_delay [0; 1; 2; 10; 100] = [1; 2; 4; 60; 60].
Proof. reflexivity. Qed.

(** ** Invariant *)

Record host_ok (h : Host) : Prop := {
  ho_attempt : in_u32 h.(redial_attempt);
  (* without a connection a redial is planned, within the bounds *)
  ho_offline : h.(links) = 0%nat -> is_Some h.(redial_sleep);
  ho_delay : forall d, h.(redial_sleep) = Some d ->
    BOOTSTRAP_REDIAL_INITIAL <= d <= BOOTSTRAP_REDIAL_MAX;
  (* a live subscription is one, on a connection there is *)
  ho_live : h.(orch_gossip_live) = true -> h.(subscribed) = true /\ h.(links) <> 0%nat;
  ho_gone : h.(links) = 0%nat -> h.(subscribed) = false
}.

(** ** Lemmas *)

Lemma redial_delay_spec attempt :
  0 <= attempt -> bootstrap_redial_delay attempt = Z.min (2 ^ attempt) 60.
Proof.
  intros Ha. unfold bootstrap_redial_delay, BOOTSTRAP_REDIAL_INITIAL, BOOTSTRAP_REDIAL_MAX.
  destruct (Z.ltb_spec (Z.min attempt 16) 32) as [_|]; [|lia].
  assert (Hshift : as_u32 (Z.shiftl 1 (Z.min attempt 16)) = 2 ^ Z.min attempt 16).
  { rewrite Z.shiftl_1_l. apply as_u32_id. split; [by apply Z.pow_nonneg|].
    apply Z.pow_lt_mono_r; lia. }
  rewrite Hshift. destruct (Z.le_gt_cases attempt 16) as [Hle|Hgt].
  - rewrite (Z.min_l attempt) by lia. lia.
  - rewrite (Z.min_r attempt) by lia.
    assert (2 ^ 16 <= 2 ^ attempt) by (apply Z.pow_le_mono_r; lia). lia.
Qed.

Lemma redial_delay_range attempt :
  0 <= attempt -> BOOTSTRAP_REDIAL_INITIAL <= bootstrap_redial_delay attempt <= BOOTSTRAP_REDIAL_MAX.
Proof.
  intros Ha. rewrite redial_delay_spec by done.
  unfold BOOTSTRAP_REDIAL_INITIAL, BOOTSTRAP_REDIAL_MAX.
  pose proof (Z.pow_pos_nonneg 2 attempt). lia.
Qed.

Lemma schedule_delay h d :
  in_u32 h.(redial_attempt) -> (schedule_bootstrap_redial h).(redial_sleep) = Some d ->
  BOOTSTRAP_REDIAL_INITIAL <= d <= BOOTSTRAP_REDIAL_MAX.
Proof. intros [? _] [= <-]. by apply redial_delay_range. Qed.

(** Scheduling keeps everything else. *)
Lemma schedule_ok h :
  in_u32 h.(redial_attempt) ->
  (h.(orch_gossip_live) = true -> h.(subscribed) = true /\ h.(links) <> 0%nat) ->
  (h.(links) = 0%nat -> h.(subscribed) = false) -> host_ok (schedule_bootstrap_redial h).
Proof.
  intros Ha Hlive Hgone. split; [done|done| |done|done]. intros d. by apply schedule_delay.
Qed.

Section host_lemmas.
Context (config : NodeConfig) (valid_multiaddr : string -> bool).
Context (parse_announcement : bytes -> string -> result WireError TaskAnnouncement).
Abbreviation handle := (handle_swarm_event config parse_announcement).

Lemma event_ok orch event h :
  (event = ConnectionClosed orch -> h.(links) <> 0%nat) ->
  host_ok h -> host_ok (handle orch event h).1.
Proof.
  intros Hclosed Hok. destruct event as [peer out|peer|[peer|]|data|]; cbn [handle_swarm_event];
    try done.
  - case_decide as Hp; [|done].
    unfold ensure_orchestrator_gossip_subscription.
    cbn [with_redial with_links orch_gossip_live].
    destruct (orch_gossip_live h) eqn:Hl.
    + destruct (ho_live h Hok Hl) as [Hs _]. by split.
    + destruct out; by split.
  - case_decide as Hp; [|done]. subst peer. specialize (Hclosed eq_refl).
    cbn [with_links links]. destruct (Nat.eqb_spec (pred (links h)) 0) as [Hz|Hz].
    + apply schedule_ok; cbn; [apply Hok|done|done].
    + apply schedule_ok; cbn; [apply Hok| |lia].
      intros [Hs _]%(ho_live h Hok). by split.
  - case_decide as Hp; [|done]. apply schedule_ok; apply Hok.
  - destruct (orchestrator_public_key config); [|done].
    by destruct (parse_announcement data s).
Qed.

Lemma timer_ok h : host_ok h -> host_ok (on_redial_timer config valid_multiaddr h).1.
Proof.
  intros Hok. assert (Ha : in_u32 (u32_sat_add (redial_attempt h) 1)).
  { destruct (ho_attempt h Hok). unfold in_u32, u32_sat_add, U32_MAX. lia. }
  unfold on_redial_timer. cbn [with_redial links].
  destruct (Nat.eqb_spec (links h) 0) as [Hz|Hz].
  - apply schedule_ok; cbn; [done|apply Hok|apply Hok].
  - split; cbn; try done. apply Hok.
Qed.
End host_lemmas.

(** ** Theorems *)

Section theorems.
Context (config : NodeConfig) (valid_multiaddr : string -> bool).
Context (parse_announcement : bytes -> string -> result WireError TaskAnnouncement).

(** C13. The node never stays cut off: in every state the host can reach from its
    start, over any connection events, failures and timers, a host without a
    connection to the orchestrator has a redial planned within a minute; its idea
    of a live subscription is right, on a connection there is; and without a
    connection there is no stale subscription. *)
Theorem offline_host_has_redial_planned orch s h0 s0 acts h :
  start_host config valid_multiaddr s = (Ok h0, s0, acts) ->
  rtc (host_step config valid_multiaddr parse_announcement orch) h0 h ->
  host_ok h.
Proof.
  unfold start_host. destruct (orchestrator_peer_id config); [|done].
  intros [= <- <- _] Hrtc.
  assert (H0 : host_ok (schedule_bootstrap_redial (mkHost 0 None false 0 false)))
    by (by apply schedule_ok).
  induction Hrtc as [|h1 h2 h3 Hstep _ IH]; [done|]. apply IH.
  destruct Hstep; [by apply event_ok|by apply timer_ok].
Qed.

(** Redialling backs off and dials everyone: from a lost connection on, the
    [n]-th redial without success waits [min(2^n, 60)] seconds, and every redial
    dials each bootstrap address that parses, in order. *)
Theorem redial_backs_off h n :
  h.(links) = 0%nat -> h.(redial_attempt) = 0 -> Z.of_nat n <= U32_MAX ->
  let hn := Nat.iter n (fun h => (on_redial_timer config valid_multiaddr h).1)
              (schedule_bootstrap_redial h) in
  hn.(redial_attempt) = Z.of_nat n /\ hn.(links) = 0%nat
  /\ hn.(redial_sleep) = Some (Z.min (2 ^ Z.of_nat n) 60)
  /\ (on_redial_timer config valid_multiaddr hn).2
     = map Dial (List.filter valid_multiaddr config.(bootstrap_peers)).
Proof.
  intros Hlinks Hatt. cbv zeta. induction n as [|n IH]; intros Hn.
  { cbn. rewrite Hatt. by split_and!. }
  rewrite Nat.iter_succ. destruct (IH ltac:(lia)) as (Ha & Hl & Hs & _).
  set (hn := Nat.iter n _ _) in *. unfold on_redial_timer.
  cbn [with_redial links fst snd]. rewrite Hl. cbn [Nat.eqb schedule_bootstrap_redial with_redial
    redial_attempt redial_sleep links].
  rewrite Ha. replace (u32_sat_add (Z.of_nat n) 1) with (Z.of_nat (S n))
    by (unfold u32_sat_add; lia).
  rewrite redial_delay_spec by lia. by split_and!.
Qed.

(** C18. The subscription is renewed once per reconnection: the first connection to
    the orchestrator after a full disconnect forces unsubscribe and subscribe,
    stops the redial timer and resets the backoff; a further transport while the
    subscription lives leaves it alone; and losing one of several connections
    keeps it, losing the last drops it. *)
Theorem resubscribes_once_per_reconnect orch h :
  host_ok h ->
  let established out := handle_swarm_event config parse_announcement orch
    (ConnectionEstablished orch out) h in
  let closed := handle_swarm_event config parse_announcement orch (ConnectionClosed orch) h in
  (h.(links) = 0%nat ->
     (established Subscribed).1 = mkHost 0 None true 1 true
     /\ forall out, (established out).2 = [AddExplicitPeer orch; Unsubscribe; Subscribe]) /\
  (h.(orch_gossip_live) = true -> forall out,
     established out = (mkHost 0 None true (S h.(links)) true, [AddExplicitPeer orch])) /\
  (forall n, h.(links) = S (S n) ->
     closed.1.(subscribed) = h.(subscribed) /\ closed.1.(orch_gossip_live) = h.(orch_gossip_live)
     /\ closed.2 = []) /\
  (h.(links) = 1%nat ->
     closed.1.(subscribed) = false /\ closed.1.(orch_gossip_live) = false
     /\ closed.2 = [Unsubscribe]).
Proof.
  intros Hok. cbn [handle_swarm_event]. rewrite !decide_True by done.
  unfold ensure_orchestrator_gossip_subscription. cbn [with_redial with_links orch_gossip_live].
  split_and!.
  - intros Hl. destruct (orch_gossip_live h) eqn:E.
    { by destruct (ho_live h Hok E). }
    rewrite Hl. split; [done|]. intros out. by rewrite decide_True by done.
  - intros E out. rewrite decide_True by done. rewrite E. destruct (ho_live h Hok E) as [Hs _].
    unfold with_redial, with_links. cbn. by rewrite E, Hs.
  - intros n Hl. rewrite Hl. done.
  - intros Hl. rewrite Hl. done.
Qed.
End theorems.

(** *** Witnesses *)

Definition host_config : NodeConfig :=
  mkNodeConfig "peer" "http://localhost:3000" 26 2048 (f64_of_Z 1) None (8 * GIB_U64) Ram None
    300 None (f64_dec 5 1) (f64_of_Z 5) (f64_of_Z 30) 7200 [] ["http://orch"] None
    ["/ip4/1/p2p/orch"; "bad"] 4002 60 8080 "sqlite:wqc-node.db" 50 (Some "orch") (Some toy_key)
    None None.
Definition toy_valid (addr : string) : bool := negb (bool_decide (addr = "bad")).
Definition toy_parse (data : bytes) (key : string) : result WireError TaskAnnouncement :=
  Ok sample_announcement.
Definition started : Host := schedule_bootstrap_redial (mkHost 0 None false 0 false).
Definition connected : Host :=
  (handle_swarm_event host_config toy_parse "orch" (ConnectionEstablished "orch" Subscribed) started).1.
Definition lost : Host :=
  (handle_swarm_event host_config toy_parse "orch" (ConnectionClosed "orch") connected).1.

Lemma lost_is_reached : rtc (host_step host_config toy_valid toy_parse "orch") started lost.
Proof.
  eapply rtc_l; [exact (step_event host_config toy_valid toy_parse "orch" started
    (ConnectionEstablished "orch" Subscribed) ltac:(done))|].
  eapply rtc_l; [exact (step_event host_config toy_valid toy_parse "orch" connected
    (ConnectionClosed "orch") ltac:(done))|]. apply rtc_refl.
Qed.

Lemma offline_host_has_redial_planned_witness : lost.(links) = 0%nat /\ is_Some lost.(redial_sleep).
Proof.
  split; [done|]. apply (ho_offline lost); [|done].
  eapply (offline_host_has_redial_planned host_config toy_valid toy_parse "orch" initial_state);
    [reflexivity|exact lost_is_reached].
Defined.

Lemma redial_backs_off_witness :
  (Nat.iter 7 (fun h => (on_redial_timer host_config toy_valid h).1) started).(redial_sleep) = Some 60.
Proof.
  exact (proj1 (proj2 (proj2 (redial_backs_off host_config toy_valid
    (mkHost 0 None false 0 false) 7 eq_refl eq_refl ltac:(by vm_compute))))).
Defined.

Lemma resubscribes_once_per_reconnect_witness :
  (handle_swarm_event host_config toy_parse "orch" (ConnectionEstablished "orch" Subscribed) started).1
  = mkHost 0 None true 1 true.
Proof.
  refine (proj1 (proj1 (resubscribes_once_per_reconnect host_config toy_parse "orch" started _) _)).
  - by apply schedule_ok.
  - done.
Defined.
