(* ===== verification/HostRun.v ===== *)
(** * The P2P host's setup and loop ([run] of [src/transport/p2p/host.rs])

    What the host does before its event loop: its keys, the gossip settings, the
    stream protocols and who serves them, the listening addresses; then the loop
    itself over whatever wakes it.  libp2p is third-party code: whether each of its
    constructors succeeds is a parameter, and so is the registry of stream
    protocols. *)

From S2P Require Import Prelude Bytes F64 Models MemoryBudget FloatText Wire WorkLedger Pcs Table.
From S2P Require Import Storage CoreClient Config State Stream Bid Host.

(** ** Settings *)

Record GossipsubConfig := mkGossipsubConfig {
  heartbeat_interval : Z;   (* seconds *)
  mesh_n : Z; mesh_n_low : Z; mesh_n_high : Z; mesh_outbound_min : Z;
  flood_publish : bool
}.
(** A small star mesh: the default never forms with a single bootstrap peer. *)
Definition gossipsub_config : GossipsubConfig := mkGossipsubConfig 1 1 1 3 0 true.

(** What [ConfigBuilder::build] documents that it checks. *)
Definition mesh_in_order (g : GossipsubConfig) : bool :=
  (g.(mesh_outbound_min) <=? g.(mesh_n_low)) && (g.(mesh_n_low) <=? g.(mesh_n))
  && (g.(mesh_n) <=? g.(mesh_n_high)) && (g.(mesh_outbound_min) * 2 <=? g.(mesh_n)).

Definition IDENTIFY_PROTOCOL : string := "/wqc/1.0.0".
Definition PROTOCOL_ANNOUNCE : string := "/wqc/task-announce/1.0.0".
Definition PROTOCOL_DISPATCH : string := "/wqc/tensor-dispatch/1.0.0".
Definition PROTOCOL_PCS_REQUEST : string := "/wqc/tensor-pcs-req/1.0.0".
Definition PROTOCOL_PCS_OPEN : string := "/wqc/tensor-pcs-open/1.0.0".

(** Who serves the incoming streams of a protocol; a sink closes them unread
    ([spawn_incoming_stream_sink]). *)
Inductive Server := StreamSink | AnnounceHandler | DispatchHandler | PcsRequestHandler | PcsOpenHandler.
#[export] Instance server_eq_dec : EqDecision Server.
Proof. solve_decision. Defined.

(** In the order of their registration. *)
Definition protocols : list (string * Server) :=
  [(PROTOCOL_BID, StreamSink); (PROTOCOL_ANNOUNCE, AnnounceHandler);
   (PROTOCOL_DISPATCH, DispatchHandler); (PROTOCOL_RESULT, StreamSink);
   (PROTOCOL_PCS_REQUEST, PcsRequestHandler); (PROTOCOL_PCS_OPEN, PcsOpenHandler)].

Inductive RunError :=
| KeypairError | GossipsubConfigError | GossipsubError | SwarmError
| NotRegistered (protocol : string)
| NotConfigured              (* orchestrator peer id not configured *)
| BadListenAddr (addr : string)
| NotListening (addr : string).

(** Which of libp2p's constructors succeed. *)
Record Libp2p := mkLibp2p {
  keypair_from_bytes : bytes -> bool;
  gossipsub_builds : GossipsubConfig -> bool;
  gossipsub_behaviour : bool;
  swarm_builds : Z -> bool;               (* with the idle timeout in seconds *)
  listens : string -> bool
}.

Section run.
Context {Control : Type} (accept : string -> Control -> option Control).
Context (lib : Libp2p) (config : NodeConfig) (valid_multiaddr : string -> bool).
Context (parse_announcement : bytes -> string -> result WireError TaskAnnouncement).

(** The sinks are spawned as soon as their protocol is registered. *)
Fixpoint register (ps : list (string * Server)) (c : Control)
  : result RunError Control * list (string * Server) :=
  match ps with
  | [] => (Ok c, [])
  | (p, server) :: ps =>
    match accept p c with
    | None => (Err (NotRegistered p), [])
    | Some c =>
      let '(r, spawned) := register ps c in
      (r, (if decide (server = StreamSink) then [(p, server)] else []) ++ spawned)
    end
  end.

(** The four handlers, spawned once the orchestrator is known. *)
Definition handlers : list (string * Server) :=
  List.filter (fun ps => negb (bool_decide (ps.2 = StreamSink))) protocols.

Definition listen_addrs : list string :=
  let port := of_chars (dec_text config.(p2p_listen_port)) in
  [String.append "/ip4/0.0.0.0/tcp/" port;
   String.append "/ip4/0.0.0.0/udp/" (String.append port "/quic-v1")].

(** Both addresses are parsed before either is listened on. *)
Definition listen : result RunError unit :=
  match List.find (fun a => negb (valid_multiaddr a)) listen_addrs with
  | Some a => Err (BadListenAddr a)
  | None =>
    match List.find (fun a => negb (lib.(listens) a)) listen_addrs with
    | Some a => Err (NotListening a)
    | None => Ok tt
    end
  end.

(** [run] up to its loop: its outcome, the state, what was spawned and dialled. *)
Definition run (c : Control) (s : AppState)
  : result RunError Host * AppState * list (string * Server) * list action :=
  if negb (lib.(keypair_from_bytes) config.(signing_key)) then (Err KeypairError, s, [], [])
  else if negb (lib.(gossipsub_builds) gossipsub_config) then (Err GossipsubConfigError, s, [], [])
  else if negb lib.(gossipsub_behaviour) then (Err GossipsubError, s, [], [])
  else if negb (lib.(swarm_builds) config.(p2p_idle_timeout_secs)) then (Err SwarmError, s, [], [])
  else
    match register protocols c with
    | (Err e, spawned) => (Err e, s, spawned, [])
    | (Ok _, spawned) =>
      match start_host config valid_multiaddr s with
      | (Err NoOrchestratorPeer, s, _) => (Err NotConfigured, s, spawned, [])
      | (Ok h, s, acts) =>
        let spawned := spawned ++ handlers in
        match listen with
        | Err e => (Err e, s, spawned, [])
        | Ok _ => (Ok h, s, spawned, acts)
        end
      end
    end.

(** [spawn]: an error ends the task of the host, and only of the host. *)
Definition spawn (c : Control) (s : AppState) : option Host * AppState :=
  match run c s with
  | (Ok h, s, _, _) => (Some h, s)
  | (Err _, s, _, _) => (None, s)
  end.

(** The loop: an event of the swarm, or the redial timer when one runs (an absent
    timer never fires). *)
Inductive wake := Event (e : SwarmEvent) | Timer.
Definition on_wake (orchestrator_peer_id : string) (x : wake) (h : Host) : Host * list action :=
  match x with
  | Event e => handle_swarm_event config parse_announcement orchestrator_peer_id e h
  | Timer =>
    match h.(redial_sleep) with
    | Some _ => on_redial_timer config valid_multiaddr h
    | None => (h, [])
    end
  end.
Fixpoint run_loop (orchestrator_peer_id : string) (wakes : list wake) (h : Host) : Host * list action :=
  match wakes with
  | [] => (h, [])
  | x :: wakes =>
    let '(h, acts) := on_wake orchestrator_peer_id x h in
    let '(h, acts') := run_loop orchestrator_peer_id wakes h in
    (h, acts ++ acts')
  end.

(** The swarm closes only connections there are. *)
Fixpoint wakes_ok (orch : string) (wakes : list wake) (h : Host) : Prop :=
  match wakes with
  | [] => True
  | x :: wakes =>
    (x = Event (ConnectionClosed orch) -> h.(links) <> 0%nat)
    /\ wakes_ok orch wakes (on_wake orch x h).1
  end.
End run.

(** The registry of [libp2p-stream]: registering a protocol that is not registered
    succeeds, and registers that one. *)
Class Registry {Control} (accept : string -> Control -> option Control)
  (registered : Control -> string -> Prop) : Prop :=
  accept_new c p : ~ registered c p ->
    exists c', accept p c = Some c' /\ forall q, registered c' q <-> q = p \/ registered c q.

(** ** Lemmas *)

Section lemmas.
Context {Control : Type} (accept : string -> Control -> option Control).
Context (registered : Control -> string -> Prop) `{!Registry accept registered}.

Lemma register_all ps c :
  NoDup ps.*1 -> Forall (fun p => ~ registered c p) ps.*1 ->
  exists c', register accept ps c
    = (Ok c', List.filter (fun ps => bool_decide (ps.2 = StreamSink)) ps)
  /\ forall p, registered c' p <-> p ∈ ps.*1 \/ registered c p.
Proof.
  revert c. induction ps as [|[p server] ps IH]; intros c Hnd Hc; cbn.
  { exists c. split; [done|]. intros p. rewrite elem_of_nil. tauto. }
  apply NoDup_cons in Hnd as [Hp Hnd]. apply Forall_cons in Hc as [Hc1 Hc].
  destruct (accept_new c p Hc1) as (c1 & -> & Hreg).
  destruct (IH c1 Hnd) as (c' & -> & Hreg').
  { apply Forall_forall. intros q Hq. rewrite Hreg. intros [->|Hr]; [done|].
    rewrite Forall_forall in Hc. by apply (Hc q). }
  exists c'. split.
  - do 2 f_equal. case_decide; [by rewrite bool_decide_eq_true_2|by rewrite bool_decide_eq_false_2].
  - intros q. rewrite Hreg', Hreg, elem_of_cons. cbn. tauto.
Qed.

End lemmas.

Lemma loop_ok config valid_multiaddr parse_announcement orch wakes h :
  host_ok h -> wakes_ok config valid_multiaddr parse_announcement orch wakes h ->
  host_ok (run_loop config valid_multiaddr parse_announcement orch wakes h).1.
Proof.
  revert h. induction wakes as [|x wakes IH]; intros h Hok; cbn [run_loop wakes_ok]; [done|].
  intros [Hx Hw]. destruct (on_wake _ _ _ orch x h) as [h1 a1] eqn:E. cbn [fst] in Hw.
  assert (Hok1 : host_ok h1).
  { destruct x as [e|]; cbn [on_wake] in E.
    - apply (f_equal fst) in E. cbn [fst] in E. subst h1. apply event_ok; [|done].
      intros ->. by apply Hx.
    - destruct (redial_sleep h); [|by injection E as <- _].
      apply (f_equal fst) in E. cbn [fst] in E. subst h1. by apply timer_ok. }
  destruct (run_loop _ _ _ orch wakes h1) as [h2 a2] eqn:E2. cbn [fst].
  specialize (IH h1 Hok1 Hw). by rewrite E2 in IH.
Qed.

Lemma gossipsub_config_in_order : mesh_in_order gossipsub_config = true.
Proof. reflexivity. Qed.

(** ** Theorems *)

(** The host serves what it announces: on a libp2p that comes up and a registry
    without the node's protocols, the setup registers exactly the six protocols,
    hands the four incoming ones to their handlers and the other two to sinks, stores
    the stream control, and dials the bootstrap peers with a redial planned.  It
    never starts a handler without knowing the orchestrator: with no peer id it ends
    after the sinks. *)
Theorem run_serves_every_protocol {Control} (accept : string -> Control -> option Control)
  registered lib config valid_multiaddr c s :
  Registry accept registered -> (forall p, ~ registered c p) ->
  lib.(keypair_from_bytes) config.(signing_key) = true ->
  lib.(gossipsub_builds) gossipsub_config = true -> lib.(gossipsub_behaviour) = true ->
  lib.(swarm_builds) config.(p2p_idle_timeout_secs) = true ->
  (forall a, a ∈ listen_addrs config -> valid_multiaddr a = true /\ lib.(listens) a = true) ->
  match config.(orchestrator_peer_id) with
  | Some _ =>
    exists s' spawned,
      run accept lib config valid_multiaddr c s
      = (Ok (mkHost 0 (Some 1) false 0 false), s', spawned,
         map Dial (List.filter valid_multiaddr config.(bootstrap_peers)))
      /\ spawned ≡ₚ protocols /\ s'.(stream_ready) = true /\ s'.(store) = s.(store)
  | None =>
    exists s', run accept lib config valid_multiaddr c s
      = (Err NotConfigured, s', [(PROTOCOL_BID, StreamSink); (PROTOCOL_RESULT, StreamSink)], [])
      /\ s'.(stream_ready) = true
  end.
Proof.
  intros Hreg Hfresh Hkey Hg Hb Hs Hl. unfold run. rewrite Hkey, Hg, Hb, Hs. cbn [negb].
  destruct (register_all accept registered protocols c) as (c' & -> & _).
  { by apply (bool_decide_unpack _); vm_compute. }
  { apply Forall_forall. intros p _. apply Hfresh. }
  unfold start_host. destruct (orchestrator_peer_id config) as [orch|].
  - assert (listen lib config valid_multiaddr = Ok tt) as ->.
    { unfold listen. assert (Hn : forall f, (forall a, a ∈ listen_addrs config -> f a = true) ->
        List.find (fun a => negb (f a)) (listen_addrs config) = None).
      { intros f Hf. destruct (List.find _ _) as [a|] eqn:E; [|done].
        apply find_some in E as [Hin Hneg]. apply list_elem_of_In, Hf in Hin. by rewrite Hin in Hneg. }
      by rewrite !Hn by (intros a Ha; by apply Hl). }
    eexists _, _. split_and!; [reflexivity| |done|done]. by apply (bool_decide_unpack _); vm_compute.
  - eexists. by split.
Qed.

(** *** Witnesses *)

(** A registry: the list of what is registered. *)
Definition toy_accept (p : string) (c : list string) : option (list string) :=
  if decide (p ∈ c) then None else Some (p :: c).
#[export] Instance toy_registry : Registry toy_accept (fun c p => p ∈ c).
Proof.
  intros c p Hp. unfold toy_accept. rewrite decide_False by done. eexists. split; [done|].
  intros q. by rewrite elem_of_cons.
Qed.
Definition toy_libp2p : Libp2p :=
  mkLibp2p (fun _ => true) mesh_in_order true (fun _ => true) (fun _ => true).

Lemma run_serves_every_protocol_witness :
  exists s' spawned,
    run toy_accept toy_libp2p host_config toy_valid [] initial_state
    = (Ok (mkHost 0 (Some 1) false 0 false), s', spawned, [Dial "/ip4/1/p2p/orch"])
    /\ spawned ≡ₚ protocols /\ s'.(stream_ready) = true /\ s'.(store) = initial_state.(store).
Proof.
  refine (run_serves_every_protocol toy_accept (fun c p => p ∈ c) toy_libp2p host_config toy_valid []
    initial_state toy_registry _ eq_refl eq_refl eq_refl eq_refl _).
  - intros p. apply not_elem_of_nil.
  - intros a Ha. split; [|done].
    revert a Ha. apply Forall_forall. apply (bool_decide_unpack _). vm_compute. exact I.
Defined.
