(* ===== verification/Metrics.v ===== *)
(** * Metrics ([src/infra/metrics.rs])

    The process's counters, and the calls they make of the Prometheus registry.
    The registry is third-party code: what the node asks of it is the list of calls
    each operation returns; the atomics next to it, which the bids read, are
    state.  [metrics()] panics before [init]: then an operation returns [None]. *)

From S2P Require Import Prelude Bytes F64 Models MemoryBudget Wire WorkLedger Pcs Table Storage.
From S2P Require Import CoreClient State.

(** ** The catalogue *)

Inductive metric_kind := Counter | Gauge | Histogram.
#[export] Instance metric_kind_eq_dec : EqDecision metric_kind.
Proof. solve_decision. Defined.

(** [m_const]: the names of the constant labels. *)
Record Metric := mkMetric {
  m_kind : metric_kind; m_name : string; m_help : string;
  m_const : list string; m_labels : list string; m_buckets : list f64
}.

Definition wall_ms_buckets : list f64 :=
  [f64_dec 1 2; f64_dec 5 2; f64_dec 1 1; f64_dec 25 2; f64_dec 5 1; f64_of_Z 1; f64_of_Z 2;
   f64_of_Z 5; f64_of_Z 10; f64_of_Z 30; f64_of_Z 60; f64_of_Z 120; f64_of_Z 300].

(** What [NodeMetrics::new] registers, in order. *)
Definition catalog : list Metric :=
  [mkMetric Gauge "wqc_node_info" "Constant 1 labeled with node build metadata" ["version"] [] [];
   mkMetric Gauge "wqc_node_uptime_seconds" "Process uptime in seconds" [] [] [];
   mkMetric Gauge "wqc_node_pending_tasks" "Sub-tasks queued or in-flight on this node" [] [] [];
   mkMetric Gauge "wqc_node_outbox_pending" "Result outbox rows waiting for P2P delivery" [] [] [];
   mkMetric Gauge "wqc_node_p2p_connected_peers" "Number of live libp2p peer connections" [] [] [];
   mkMetric Gauge "wqc_node_p2p_orchestrator_connected"
     "1 when connected to the orchestrator peer, else 0" [] [] [];
   mkMetric Histogram "wqc_node_core_compute_duration_seconds"
     "wqc-core compute wall time from WorkReport" [] [] wall_ms_buckets;
   mkMetric Histogram "wqc_node_core_prove_duration_seconds"
     "wqc-core prove wall time from WorkReport" [] [] wall_ms_buckets;
   mkMetric Histogram "wqc_node_core_request_duration_seconds"
     "End-to-end POST /compute latency observed by the node" [] [] wall_ms_buckets;
   mkMetric Counter "wqc_node_core_requests_total" "POST /compute outcomes observed by the node"
     [] ["result"] [];
   mkMetric Counter "wqc_node_core_timeouts_total" "POST /compute requests that timed out" [] [] [];
   mkMetric Counter "wqc_node_tasks_total" "Worker task outcomes (success or error payload)"
     [] ["status"] [];
   mkMetric Counter "wqc_node_result_deliveries_total"
     "P2P result delivery attempts (initial and outbox retry)" [] ["attempt"; "result"] [];
   mkMetric Counter "wqc_node_tasks_pruned_total"
     "Terminal SQLite task rows deleted by the background prune loop" [] [] [];
   mkMetric Gauge "wqc_node_tasks_rows" "SQLite tasks table row counts by status" [] ["status"] []].

(** ** State and calls *)

Record Statics := mkStatics {
  metrics_ready : bool;             (* METRICS *)
  started_at : option Z;            (* STARTED_AT *)
  orchestrator_connected : bool;    (* ORCHESTRATOR_CONNECTED *)
  connected_peers : Z;              (* CONNECTED_PEERS *)
  core_timeouts : Z                 (* CORE_TIMEOUTS, a u64 that wraps *)
}.
Definition initial_statics : Statics := mkStatics false None false 0 0.

(** A call of the registry's metrics, with the values of its labels. *)
Inductive metric_call :=
| Inc (name : string) (labels : list string) (by_ : Z)
| SetGauge (name : string) (labels : list string) (v : Z)
| Observe (name : string) (v : f64).

Definition Recorded : Type := option (Statics * list metric_call).

(** [registers] is whether the registry takes the whole list. *)
Definition init (registers : list Metric -> bool) (now : Z) (m : Statics) : Recorded :=
  let started := Some (default now m.(started_at)) in
  if m.(metrics_ready) then
    Some (mkStatics true started m.(orchestrator_connected) m.(connected_peers) m.(core_timeouts), [])
  else if registers catalog then
    Some (mkStatics true started m.(orchestrator_connected) m.(connected_peers) m.(core_timeouts),
          [SetGauge "wqc_node_info" [] 1])
  else None.

Definition set_orchestrator_connected (connected : bool) (m : Statics) : Recorded :=
  Some (mkStatics m.(metrics_ready) m.(started_at) connected m.(connected_peers) m.(core_timeouts),
    if m.(metrics_ready) then
      [SetGauge "wqc_node_p2p_orchestrator_connected" [] (if connected then 1 else 0)]
    else []).

Definition set_connected_peers (count : Z) (m : Statics) : Recorded :=
  Some (mkStatics m.(metrics_ready) m.(started_at) m.(orchestrator_connected) count
          m.(core_timeouts),
    if m.(metrics_ready) then [SetGauge "wqc_node_p2p_connected_peers" [] (as_i64 count)] else []).

(** [metrics()] *)
Definition metrics (m : Statics) (calls : list metric_call) : Recorded :=
  if m.(metrics_ready) then Some (m, calls) else None.

(** [f64] milliseconds as seconds. *)
Definition wall_secs (ms : Z) : f64 := f64_div (f64_of_Z ms) (f64_of_Z 1000).

Definition record_core_success (elapsed : Z) (work_report : option WorkReport) (m : Statics)
  : Recorded :=
  metrics m
    ([Inc "wqc_node_core_requests_total" ["ok"] 1;
      Observe "wqc_node_core_request_duration_seconds" (as_secs_f64 elapsed)]
     ++ match work_report with
        | Some report =>
          (if 0 <? report.(compute_wall_ms)
           then [Observe "wqc_node_core_compute_duration_seconds" (wall_secs report.(compute_wall_ms))]
           else [])
          ++ (if 0 <? report.(prove_wall_ms)
              then [Observe "wqc_node_core_prove_duration_seconds" (wall_secs report.(prove_wall_ms))]
              else [])
        | None => []
        end).

Definition record_core_error (is_timeout : bool) (m : Statics) : Recorded :=
  if m.(metrics_ready) then
    if is_timeout then
      Some (mkStatics true m.(started_at) m.(orchestrator_connected) m.(connected_peers)
              (as_u64 (m.(core_timeouts) + 1)),
            [Inc "wqc_node_core_requests_total" ["timeout"] 1;
             Inc "wqc_node_core_timeouts_total" [] 1])
    else Some (m, [Inc "wqc_node_core_requests_total" ["error"] 1])
  else None.

Definition record_task_status (status : string) (m : Statics) : Recorded :=
  metrics m [Inc "wqc_node_tasks_total" [status] 1].

Definition record_result_delivery (attempt result_ : string) (m : Statics) : Recorded :=
  metrics m [Inc "wqc_node_result_deliveries_total" [attempt; result_] 1].

Definition record_tasks_pruned (count : Z) (m : Statics) : Recorded :=
  if count =? 0 then Some (m, []) else metrics m [Inc "wqc_node_tasks_pruned_total" [] count].

(** Seconds since the start. *)
Definition uptime (now : Z) (m : Statics) : Z :=
  match m.(started_at) with Some t => duration_since now t / SEC | None => 0 end.

Definition refresh_gauges (now : Z) (s : AppState) (m : Statics) : option (AppState * list metric_call) :=
  if m.(metrics_ready) then
    let '(r, s) := on_store count_pending_results s in
    let outbox := match r with Ok n => n | Err _ => 0 end in
    let gauges :=
      [SetGauge "wqc_node_uptime_seconds" [] (as_i64 (uptime now m));
       SetGauge "wqc_node_pending_tasks" [] (as_i64 s.(pending_tasks));
       SetGauge "wqc_node_outbox_pending" [] (as_i64 outbox);
       SetGauge "wqc_node_p2p_orchestrator_connected" []
         (if m.(orchestrator_connected) then 1 else 0)] in
    match on_store count_tasks_by_status s with
    | (Ok (pending, completed, failed), s) =>
      Some (s, gauges ++ [SetGauge "wqc_node_tasks_rows" ["pending"] (as_i64 pending);
                          SetGauge "wqc_node_tasks_rows" ["completed"] (as_i64 completed);
                          SetGauge "wqc_node_tasks_rows" ["failed"] (as_i64 failed)])
    | (Err _, s) => Some (s, gauges)
    end
  else None.

(** ** Sequences of operations *)

Inductive metric_op :=
| CoreSuccess (elapsed : Z) (work_report : option WorkReport)
| CoreError_ (is_timeout : bool)
| TaskStatus (status : string)
| ResultDelivery (attempt result_ : string)
| TasksPruned (count : Z)
| OrchestratorConnected (connected : bool)
| ConnectedPeers (count : Z).

Definition record (o : metric_op) : Statics -> Recorded :=
  match o with
  | CoreSuccess elapsed report => record_core_success elapsed report
  | CoreError_ is_timeout => record_core_error is_timeout
  | TaskStatus status => record_task_status status
  | ResultDelivery attempt r => record_result_delivery attempt r
  | TasksPruned count => record_tasks_pruned count
  | OrchestratorConnected c => set_orchestrator_connected c
  | ConnectedPeers n => set_connected_peers n
  end.

Fixpoint record_all (ops : list metric_op) (m : Statics) : Recorded :=
  match ops with
  | [] => Some (m, [])
  | o :: ops =>
    '(m, calls) ← record o m;
    '(m, calls') ← record_all ops m;
    Some (m, calls ++ calls')
  end.

(** ** Specification *)

(** The call names a metric of the catalogue, of its kind and with as many
    labels: what [with_label_values] panics without. *)
Definition declared (c : metric_call) : Prop :=
  match c with
  | Inc name labels _ => exists m, m ∈ catalog /\ m.(m_name) = name /\ m.(m_kind) = Counter
      /\ length m.(m_labels) = length labels
  | SetGauge name labels _ => exists m, m ∈ catalog /\ m.(m_name) = name /\ m.(m_kind) = Gauge
      /\ length m.(m_labels) = length labels
  | Observe name _ => exists m, m ∈ catalog /\ m.(m_name) = name /\ m.(m_kind) = Histogram
      /\ m.(m_labels) = []
  end.

(** What the calls add to a counter. *)
Definition counted (name : string) (labels : list string) (calls : list metric_call) : Z :=
  foldr (fun c n => match c with
                    | Inc x ls k => if decide (x = name /\ ls = labels) then k + n else n
                    | _ => n
                    end) 0 calls.

(** What Prometheus asks of a metric before it is made and registered: a metric name,
    a help text, label names that are valid and no two alike, and of a histogram
    ascending buckets and that no label is called [le]. *)
Definition name_byte (colon first : bool) (b : byte) : bool :=
  let z := byte_to_Z b in
  ((97 <=? z) && (z <=? 122)) || ((65 <=? z) && (z <=? 90)) || (z =? 95) || (colon && (z =? 58))
  || (negb first && ((48 <=? z) && (z <=? 57))).
Definition valid_ident (colon : bool) (s : string) : bool :=
  match as_bytes s with
  | b :: bs => name_byte colon true b && forallb (name_byte colon false) bs
  | [] => false
  end.
Fixpoint ascending (l : list f64) : bool :=
  match l with
  | x :: ((y :: _) as rest) => f64_ltb x y && ascending rest
  | _ => true
  end.
Definition registrable (m : Metric) : bool :=
  let labels := m.(m_const) ++ m.(m_labels) in
  valid_ident true m.(m_name) && negb (bool_decide (m.(m_help) = ""))
  && forallb (valid_ident false) labels && bool_decide (NoDup labels)
  && match m.(m_kind) with
     | Histogram => ascending m.(m_buckets) && negb (bool_decide ("le" ∈ labels))
     | _ => true
     end.
(** A registry takes metrics of different names that are like that. *)
Definition takes_registrable (registers : list Metric -> bool) : Prop :=
  forall l, NoDup (m_name <$> l) -> Forall registrable l -> registers l = true.

Definition errors_of (is_timeout : bool) (ops : list metric_op) : Z :=
  foldr (fun o n => match o with
                    | CoreError_ b => if Bool.eqb b is_timeout then 1 + n else n
                    | _ => n
                    end) 0 ops.
Definition successes_of (ops : list metric_op) : Z :=
  foldr (fun o n => match o with CoreSuccess _ _ => 1 + n | _ => n end) 0 ops.

(** ** Lemmas *)

Ltac in_catalog :=
  unfold declared;
  match goal with |- exists m, m ∈ catalog /\ m.(m_name) = ?n /\ _ =>
    let r := eval vm_compute in (List.find (fun m => bool_decide (m.(m_name) = n)) catalog) in
    match r with Some ?m => exists m; split; [unfold catalog; repeat first [apply list_elem_of_here|apply list_elem_of_further]|done] end
  end.
Ltac all_declared := repeat (apply Forall_cons; split; [in_catalog|]); by apply Forall_nil.

Ltac recorded :=
  eexists _, _; split_and!; [reflexivity|split; done|cbn [app]; all_declared|done..].

Lemma counted_app name labels a b :
  counted name labels (a ++ b) = counted name labels a + counted name labels b.
Proof.
  induction a as [|c a IH]; [done|]. cbn [app]. unfold counted in *. cbn [foldr].
  destruct c; [case_decide|..]; lia.
Qed.

Definition same_statics (m m' : Statics) : Prop :=
  m'.(metrics_ready) = m.(metrics_ready) /\ m'.(started_at) = m.(started_at).

(** One operation on a registry that is ready. *)
Lemma record_spec o m :
  m.(metrics_ready) = true -> in_u64 m.(core_timeouts) ->
  exists m' calls, record o m = Some (m', calls) /\ same_statics m m' /\ Forall declared calls
  /\ m'.(core_timeouts) = as_u64 (m.(core_timeouts) + errors_of true [o])
  /\ counted "wqc_node_core_timeouts_total" [] calls = errors_of true [o]
  /\ counted "wqc_node_core_requests_total" ["timeout"] calls = errors_of true [o]
  /\ counted "wqc_node_core_requests_total" ["error"] calls = errors_of false [o]
  /\ counted "wqc_node_core_requests_total" ["ok"] calls = successes_of [o].
Proof.
  intros Hr Ht.
  assert (Hsame : core_timeouts m = as_u64 (core_timeouts m + 0))
    by (by rewrite Z.add_0_r, as_u64_id).
  destruct o as [elapsed report|b|st|a r|n|c|n]; cbn [record];
    unfold record_core_success, record_core_error, record_task_status, record_result_delivery,
      record_tasks_pruned, set_orchestrator_connected, set_connected_peers, metrics;
    try destruct report as [w|]; try destruct b; try destruct (n =? 0); rewrite ?Hr;
    try destruct (0 <? compute_wall_ms w); try destruct (0 <? prove_wall_ms w); recorded.
Qed.

Lemma refresh_spec now s m :
  m.(metrics_ready) = true ->
  exists s' calls, refresh_gauges now s m = Some (s', calls) /\ Forall declared calls
  /\ s'.(store).(db) = s.(store).(db).
Proof.
  intros Hr. unfold refresh_gauges. rewrite Hr.
  destruct (on_store count_pending_results s) as [r s1] eqn:E1.
  apply on_store_eq in E1 as (st1 & E1%query_db & ->).
  destruct (on_store count_tasks_by_status _) as [q s2] eqn:E2.
  apply on_store_eq in E2 as (st2 & E2%query_db & ->). cbn in E2.
  destruct q as [[[p c] f]|e]; eexists _, _; split_and!; try done;
    try (cbn; congruence); cbn [app]; all_declared.
Qed.

Lemma counts_step ops o is_timeout :
  errors_of is_timeout (o :: ops) = errors_of is_timeout [o] + errors_of is_timeout ops
  /\ successes_of (o :: ops) = successes_of [o] + successes_of ops.
Proof.
  unfold errors_of, successes_of. cbn [foldr]. destruct o; try (split; lia).
  destruct (Bool.eqb _ _); split; lia.
Qed.

(** ** Theorems *)

(** C37. Recording never panics.  Everything in the catalogue is as Prometheus asks (names
    valid and distinct, help texts, labels valid and no two alike on one metric,
    ascending buckets), so the registry takes it; once it has, every operation
    succeeds, and every call names a declared metric of its kind with as many label
    values as it was declared with. *)
Theorem recording_never_panics registers now m ops now' s :
  takes_registrable registers -> in_u64 m.(core_timeouts) ->
  exists m1 calls1 m2 calls2 s' calls3,
    init registers now m = Some (m1, calls1)
    /\ record_all ops m1 = Some (m2, calls2) /\ refresh_gauges now' s m2 = Some (s', calls3)
    /\ Forall declared (calls1 ++ calls2 ++ calls3) /\ s'.(store).(db) = s.(store).(db).
Proof.
  intros Hreg Ht.
  assert (Hinit : exists m1 calls1, init registers now m = Some (m1, calls1)
    /\ m1.(metrics_ready) = true /\ m1.(core_timeouts) = m.(core_timeouts) /\ Forall declared calls1).
  { unfold init. destruct (metrics_ready m).
    - eexists _, _. split_and!; [done|done|done|all_declared].
    - rewrite Hreg; [|apply (bool_decide_unpack _); by vm_compute..].
      eexists _, _. split_and!; [done|done|done|all_declared]. }
  destruct Hinit as (m1 & calls1 & E1 & Hr1 & Hc1 & Hd1). rewrite <- Hc1 in Ht.
  assert (Hall : exists m2 calls2, record_all ops m1 = Some (m2, calls2) /\ m2.(metrics_ready) = true
    /\ Forall declared calls2).
  { clear E1 Hc1 Hd1. revert m1 Hr1 Ht. induction ops as [|o ops IH]; intros m1 Hr1 Ht.
    { eexists _, _. split_and!; [done|done|by apply Forall_nil]. }
    destruct (record_spec o m1 Hr1 Ht) as (m' & calls & Eo & [Hr' _] & Hd & Hc & _).
    destruct (IH m') as (m2 & calls2 & E2 & Hr2 & Hd2);
      [congruence|rewrite Hc; apply as_u64_range|].
    cbn [record_all]. rewrite Eo. cbn [mbind option_bind]. rewrite E2. cbn [mbind option_bind].
    eexists _, _. split_and!; [done|done|by apply Forall_app]. }
  destruct Hall as (m2 & calls2 & E2 & Hr2 & Hd2).
  destruct (refresh_spec now' s m2 Hr2) as (s' & calls3 & E3 & Hd3 & Hdb).
  exists m1, calls1, m2, calls2, s', calls3. split_and!; try done.
  by rewrite !Forall_app.
Qed.

(** What the bids say of timeouts is what Prometheus counts: over any sequence of
    operations the atomic moves, modulo [2^64], by the increments of the timeout
    counter, which are those of the requests labelled [timeout]; and the requests
    labelled [ok] and [error] are the answered and the other failed ones. *)
Theorem timeouts_agree ops m m' calls :
  m.(metrics_ready) = true -> in_u64 m.(core_timeouts) -> record_all ops m = Some (m', calls) ->
  let total := counted "wqc_node_core_requests_total" in
  m'.(core_timeouts)
    = as_u64 (m.(core_timeouts) + counted "wqc_node_core_timeouts_total" [] calls)
  /\ counted "wqc_node_core_timeouts_total" [] calls = errors_of true ops
  /\ total ["timeout"] calls = errors_of true ops /\ total ["error"] calls = errors_of false ops
  /\ total ["ok"] calls = successes_of ops.
Proof.
  cbv zeta. revert m m' calls. induction ops as [|o ops IH]; intros m m' calls Hr Ht.
  { intros [= <- <-]. cbn. by rewrite Z.add_0_r, as_u64_id. }
  cbn [record_all].
  destruct (record_spec o m Hr Ht) as (m1 & c1 & Eo & [Hr1 _] & _ & Hc & K1 & K2 & K3 & K4).
  rewrite Eo. cbn [mbind option_bind].
  destruct (record_all ops m1) as [[m2 c2]|] eqn:E2; cbn [mbind option_bind]; [|done].
  intros [= <- <-].
  destruct (IH m1 m2 c2) as (J0 & J1 & J2 & J3 & J4);
    [congruence|rewrite Hc; apply as_u64_range|done|].
  destruct (counts_step ops o true) as [-> ->]. destruct (counts_step ops o false) as [-> _].
  rewrite !counted_app, K1, K2, K3, K4, J1, J2, J3, J4. split_and!; try done.
  rewrite J0, Hc, J1. unfold as_u64. rewrite Zplus_mod_idemp_l. f_equal. lia.
Qed.

(** *** Witnesses *)

Definition ready_statics : Statics := mkStatics true (Some 0) false 0 (2 ^ 64 - 1).

(** A registry that takes nothing else, and what it would refuse. *)
Definition strict_registry (l : list Metric) : bool :=
  bool_decide (NoDup (m_name <$> l)) && forallb registrable l.
Example strict_registry_refuses :
  map registrable [mkMetric Gauge "a" "" [] [] []; mkMetric Gauge "1a" "x" [] [] [];
    mkMetric Counter "a" "x" [] ["b"; "b"] []; mkMetric Counter "a" "x" [] ["b:c"] [];
    mkMetric Histogram "a" "x" [] [] [f64_of_Z 1; f64_of_Z 1];
    mkMetric Histogram "a" "x" [] ["le"] [f64_of_Z 1]]
  = [false; false; false; false; false; false].
Proof. by vm_compute. Qed.

Lemma recording_never_panics_witness :
  exists m calls, init strict_registry 5 initial_statics = Some (m, calls).
Proof.
  destruct (recording_never_panics strict_registry 5 initial_statics
    [CoreError_ true; TaskStatus "error"] 60 initial_state) as (m & calls & _ & _ & _ & _ & H & _);
    [|done|eauto].
  intros l Hn Hl. unfold strict_registry. rewrite bool_decide_eq_true_2 by done. cbn [andb].
  apply forallb_forall. intros x Hx%list_elem_of_In. rewrite Forall_forall in Hl.
  by apply Is_true_true, Hl.
Defined.

Lemma timeouts_agree_witness :
  option_map (fun r => r.1.(core_timeouts)) (record_all [CoreError_ true; CoreError_ false] ready_statics)
  = Some 0.
Proof.
  destruct (record_all [CoreError_ true; CoreError_ false] ready_statics) as [[m calls]|] eqn:E;
    [|by vm_compute in E].
  destruct (timeouts_agree [CoreError_ true; CoreError_ false] ready_statics m calls) as (H & H1 & _);
    [done|done|exact E|]. cbn [option_map fst]. f_equal. rewrite H, H1. reflexivity.
Defined.
