(* ===== verification/Cas.v ===== *)
(** * Content-addressed blobs ([src/infra/cas_client.rs])

    A blob fetched from a presigned URL is used only when its SHA-256 is the one
    that was announced.  SHA-256 and its hexadecimal text are parameters, the
    outcome of the [GET] an argument. *)

From S2P Require Import Prelude Bytes F64 Models MemoryBudget Wire WorkLedger Pcs CoreClient.
From S2P Require Import Config.

Inductive CasIo :=
| CasSendError (e : HttpError)
| CasResponse (status : Z) (body : option bytes) (text : string).

Inductive CasError :=
| CasGetFailed (url : string) (e : HttpError)
| CasStatus (status : Z) (text : string)
| CasBodyFailed
| CasHashMismatch (got want : string).

Section cas.
Context (sha256 : bytes -> bytes) (hex_encode : bytes -> string).

Definition sha256_hex (data : bytes) : string := hex_encode (sha256 data).

Definition verify_cas_blob (data : bytes) (expected_hash : string) : result CasError unit :=
  let got := sha256_hex data in
  if eq_ignore_ascii_case got (trim expected_hash) then Ok tt
  else Err (CasHashMismatch got (trim expected_hash)).

(** A size other than the announced one is only logged. *)
Definition fetch_and_verify (io : CasIo) (url expected_hash : string) : result CasError bytes :=
  match io with
  | CasSendError e => Err (CasGetFailed url e)
  | CasResponse status body text =>
    if negb (is_success status) then Err (CasStatus status text)
    else
      match body with
      | None => Err CasBodyFailed
      | Some data =>
        match verify_cas_blob data expected_hash with Ok _ => Ok data | Err e => Err e end
      end
  end.

(** Only bytes with the announced hash come back. *)
Lemma fetch_and_verify_Ok io url h data :
  fetch_and_verify io url h = Ok data ->
  eq_ignore_ascii_case (sha256_hex data) (trim h) = true.
Proof.
  unfold fetch_and_verify, verify_cas_blob. destruct io as [e|st [b|] t]; [done| |].
  - destruct (negb (is_success st)); [done|].
    destruct (eq_ignore_ascii_case (sha256_hex b) (trim h)) eqn:E; [|done].
    by intros [= <-].
  - by destruct (negb (is_success st)).
Qed.
End cas.
