(* ===== verification/SampleJson.v ===== *)
(** * Sample serialisations

    The texts [serde_json] writes and reads are a parameter of the model, with their
    documented behaviour as a hypothesis.  For the witnesses, texts of JSON
    documents with that behaviour, and an encoding of any countable type that is
    total and reads back. *)

From stdpp Require Import countable.
From S2P Require Import Prelude Bytes F64 Models Serde Pcs.

(** The binary digits of a number, one byte each. *)
Fixpoint pos_bytes (p : positive) : bytes :=
  match p with
  | xH => []
  | xO p => Byte.x00 :: pos_bytes p
  | xI p => Byte.x01 :: pos_bytes p
  end.
Fixpoint bytes_pos (b : bytes) : positive :=
  match b with
  | [] => xH
  | Byte.x00 :: b => xO (bytes_pos b)
  | _ :: b => xI (bytes_pos b)
  end.

Lemma bytes_pos_of p : bytes_pos (pos_bytes p) = p.
Proof. induction p as [p IH|p IH|]; cbn; by rewrite ?IH. Qed.

Section sample.
Context {A : Type} `{Countable A}.
Definition sample_encode (x : A) : option bytes := Some (pos_bytes (encode x)).
Definition sample_decode (b : bytes) : option A := decode (bytes_pos b).

Lemma sample_total x : is_Some (sample_encode x).
Proof. by eexists. Qed.
Lemma sample_round_trip x b : sample_encode x = Some b -> sample_decode b = Some x.
Proof. intros [= <-]. unfold sample_decode. by rewrite bytes_pos_of, decode_encode. Qed.
End sample.

(** Records as trees of strings and numbers, whose encoding grows linearly. *)
Abbreviation tree := (gen_tree (string + Z)).
Definition str (s : string) : tree := GenLeaf (inl s).
Definition num (z : Z) : tree := GenLeaf (inr z).
Definition opt {A} (f : A -> tree) (o : option A) : tree :=
  match o with Some x => GenNode 1 [f x] | None => GenNode 0 [] end.
Definition unopt {A} (f : tree -> option A) (t : tree) : option (option A) :=
  match t with
  | GenNode 1 [x] => Some <$> f x
  | GenNode 0 [] => Some None
  | _ => None
  end.
Definition unstr (t : tree) : option string := match t with GenLeaf (inl s) => Some s | _ => None end.
Definition unnum (t : tree) : option Z := match t with GenLeaf (inr z) => Some z | _ => None end.

Definition inputs_tree (p : PublicInputs) : tree :=
  GenNode 0 (map str [p.(pi_circuit_id); p.(pi_sub_task_id); p.(pi_node_id); p.(pi_slice_id);
    p.(output_result_hash); p.(measurement_spec_hash); p.(pi_security_level)]).
Definition tree_inputs (t : tree) : option PublicInputs :=
  match t with
  | GenNode 0 [GenLeaf (inl a); GenLeaf (inl b); GenLeaf (inl c); GenLeaf (inl d);
      GenLeaf (inl e); GenLeaf (inl f); GenLeaf (inl g)] => Some (mkPublicInputs a b c d e f g)
  | _ => None
  end.
Definition source_tree (x : OpenCallPcsSource) : tree :=
  GenNode 0 [str x.(src_leaf_proof_hash); str x.(src_cas_presigned_url);
    num x.(src_leaf_proof_bytes); str x.(src_slice_id)].
Definition tree_source (t : tree) : option OpenCallPcsSource :=
  match t with
  | GenNode 0 [GenLeaf (inl a); GenLeaf (inl b); GenLeaf (inr c); GenLeaf (inl d)] =>
      Some (mkOpenCallPcsSource a b c d)
  | _ => None
  end.
Definition job_tree (j : PendingPcsJob) : tree :=
  GenNode (if j.(job_requested) then 1 else 0)
    [str j.(job_sub_task_id); inputs_tree j.(job_proof).(public_inputs);
     str j.(job_proof).(stark_proof_b64); opt str j.(job_leaf_pcs_b64);
     opt num j.(job_leaf_pcs_bytes); opt source_tree j.(job_open_call)].
Definition tree_job (t : tree) : option PendingPcsJob :=
  match t with
  | GenNode r [a; i; p; b; n; o] =>
    a ← unstr a; i ← tree_inputs i; p ← unstr p; b ← unopt unstr b; n ← unopt unnum n;
    o ← unopt tree_source o;
    Some (mkPendingPcsJob a (mkProof i p) (bool_decide (r = 1%nat)) b n o)
  | _ => None
  end.

#[export] Instance public_inputs_eq_dec : EqDecision PublicInputs.
Proof. solve_decision. Defined.
#[export] Instance proof_eq_dec : EqDecision Proof.
Proof. solve_decision. Defined.
#[export] Instance source_eq_dec : EqDecision OpenCallPcsSource.
Proof. solve_decision. Defined.
#[export] Instance job_eq_dec : EqDecision PendingPcsJob.
Proof. solve_decision. Defined.
#[export] Instance job_countable : Countable PendingPcsJob.
Proof.
  refine (inj_countable job_tree tree_job _).
  intros [a [[] p] [] [b|] [n|] [[]|]]; reflexivity.
Defined.

Definition sample_proof : Proof := mkProof (mkPublicInputs "c" "t1" "peer" "0" "h" "m" "s") "cHJvb2Y=".
Definition sample_job (requested : bool) : PendingPcsJob :=
  mkPendingPcsJob "t1" sample_proof requested None None None.

Example sample_job_reads_back :
  (sample_encode (sample_job true) ≫= sample_decode) = Some (sample_job true).
Proof. vm_compute. reflexivity. Qed.

(** ** Texts of documents *)

Definition bool_nat (b : bool) : nat := if b then 1 else 0.
Definition f64_tree (f : f64) : tree :=
  match f with
  | SpecFloat.S754_zero s => GenNode (bool_nat s) []
  | SpecFloat.S754_infinity s => GenNode (2 + bool_nat s) []
  | SpecFloat.S754_nan => GenNode 4 []
  | SpecFloat.S754_finite s m e => GenNode (5 + bool_nat s) [num (Zpos m); num e]
  end.
Definition tree_f64 (t : tree) : option f64 :=
  match t with
  | GenNode 0 [] => Some (SpecFloat.S754_zero false)
  | GenNode 1 [] => Some (SpecFloat.S754_zero true)
  | GenNode 2 [] => Some (SpecFloat.S754_infinity false)
  | GenNode 3 [] => Some (SpecFloat.S754_infinity true)
  | GenNode 4 [] => Some SpecFloat.S754_nan
  | GenNode 5 [GenLeaf (inr (Zpos m)); GenLeaf (inr e)] => Some (SpecFloat.S754_finite false m e)
  | GenNode 6 [GenLeaf (inr (Zpos m)); GenLeaf (inr e)] => Some (SpecFloat.S754_finite true m e)
  | _ => None
  end.

Fixpoint value_tree (v : value) : tree :=
  match v with
  | VNull => GenNode 0 []
  | VBool b => GenNode (1 + bool_nat b) []
  | VNumber (PosInt n) => GenNode 3 [num n]
  | VNumber (NegInt n) => GenNode 4 [num n]
  | VNumber (Float f) => GenNode 5 [f64_tree f]
  | VString s => GenNode 6 [str s]
  | VArray items => GenNode 7 (map value_tree items)
  | VObject m => GenNode 8 (map (fun kv => GenNode 9 [str kv.1; value_tree kv.2]) m)
  end.
Fixpoint tree_value (t : tree) : option value :=
  match t with
  | GenNode 0 [] => Some VNull
  | GenNode 1 [] => Some (VBool false)
  | GenNode 2 [] => Some (VBool true)
  | GenNode 3 [GenLeaf (inr n)] => Some (VNumber (PosInt n))
  | GenNode 4 [GenLeaf (inr n)] => Some (VNumber (NegInt n))
  | GenNode 5 [f] => VNumber ∘ Float <$> tree_f64 f
  | GenNode 6 [GenLeaf (inl s)] => Some (VString s)
  | GenNode 7 items =>
    VArray <$> (fix go l := match l with
                            | [] => Some []
                            | t :: l => v ← tree_value t; vs ← go l; Some (v :: vs)
                            end) items
  | GenNode 8 items =>
    VObject <$> (fix go l := match l with
                             | [] => Some []
                             | GenNode 9 [GenLeaf (inl k); t] :: l =>
                               v ← tree_value t; vs ← go l; Some ((k, v) :: vs)
                             | _ => None
                             end) items
  | _ => None
  end.

Lemma tree_value_tree v : tree_value (value_tree v) = Some v.
Proof.
  induction v as [|[]|[n|n|f]|s|l IH|m IH] using value_rect_nested; try reflexivity.
  - by destruct f as [[]|[]| |[]].
  - cbn [value_tree tree_value]. set (go := fix go l := match l with [] => _ | _ :: _ => _ end).
    enough (go (map value_tree l) = Some l) as -> by done.
    induction IH as [|v l Hv _ IHl]; [done|]. cbn. by rewrite Hv, IHl.
  - cbn [value_tree tree_value]. set (go := fix go l := match l with [] => _ | _ :: _ => _ end).
    match goal with |- _ <$> go ?l = _ => enough (go l = Some m) as -> by done end.
    induction IH as [|[k v] m Hv _ IHm]; [done|]. cbn in *. by rewrite Hv, IHm.
Qed.

#[export] Instance value_countable : Countable value.
Proof. refine (inj_countable value_tree tree_value tree_value_tree). Defined.

Definition sample_print (v : value) : bytes := pos_bytes (encode v).
Definition sample_parse (b : bytes) : option value :=
  v ← decode (bytes_pos b); if json_ok JSON_DEPTH v then Some v else None.

Lemma sample_text_spec : json_text_spec sample_print sample_parse.
Proof.
  split; unfold sample_parse, sample_print.
  - intros v Hv. rewrite bytes_pos_of, decode_encode. cbn. by rewrite Hv.
  - intros b v (w & _ & Hw)%bind_Some. destruct (json_ok JSON_DEPTH w) eqn:E; by simplify_eq.
Qed.
