(* ===== verification/PcsOutbox.v ===== *)
(** * The PCS outbox ([src/application/pcs_outbox.rs])

    After its result was delivered the node keeps the proof a leaf PCS bundle
    would bind to; when the orchestrator asks for the bundle it is built by
    wqc-core, cached, and sent until it is acknowledged.  [in_flight] keeps two
    builds of one sub-task from running at the same time.

    Functions return the state and the list of effects in order.  What the
    environment does (clock readings, HTTP and stream outcomes, and the changes
    other tasks make to the shared state while this one waits) is in [BuildEnv].
    The messages of errors are the texts of the source, because the code decides
    by searching them. *)

From S2P Require Import Prelude Bytes F64 Models MemoryBudget Wire WorkLedger Pcs Table Storage.
From S2P Require Import CoreClient Config State Stream Cas SampleJson.

(** ** Data *)

Definition RETAINED_PROOF_LOOKUP_ATTEMPTS : nat := 10.
Definition DEFAULT_UNREQUESTED_TTL_SECS : Z := 6 * 3600.

Inductive DeliverOutcome := Delivered | SkippedInFlight | SkippedCoreDown | RefusedPermanent.

(** An error of a build: of wqc-core or of the fetch of the leaf proof. *)
Inductive BuildError := CoreFailed (e : CoreError) | CasFailed (e : CasError).

Inductive PcsError :=
| BuildFailed (e : BuildError)
| StoreFailed (e : StorageError)
| EncodeFailed
| NotSent (e : StreamError).

Inductive effect :=
| ECore (x : exchange)
| ECasGet (url : string)
| ESend (x : sent)
| ESpawn (pubkey sub_task_id : string) (job : PendingPcsJob).

Record BuildEnv := mkBuildEnv {
  be_check : Z;                       (* the clock at [is_in_backoff] *)
  be_t0 : Z; be_t1 : Z; be_t2 : Z;    (* and during the call *)
  be_probe : HttpOutcome unit;
  be_post : HttpOutcome LeafPcsResponse;
  be_cas : CasIo;
  be_during_build : AppState -> AppState;
  be_send : StreamIo;
  be_during_send : AppState -> AppState
}.

(** ** Error texts *)

(** [str::contains] *)
Definition contains (sub s : string) : bool :=
  match String.index 0 sub s with Some _ => true | None => false end.

Section texts.
Context (describe : HttpError -> string) (status_text : Z -> string) (parse_text : string).

(** [format!("{err:#}")] *)
Definition leaf_pcs_text (e : CoreError) : string :=
  match e with
  | Backoff => "wqc-core unhealthy (backoff); skipping request"
  | HealthUnreachable e =>
      "wqc-core health check failed: Failed to reach wqc-core /health: " +:+ describe e
  | HealthStatus st =>
      "wqc-core health check failed: wqc-core /health returned " +:+ status_text st
  | SendFailed e => "Failed to send leaf_pcs request to wqc-core: " +:+ describe e
  | ParseFailed => "Failed to parse leaf_pcs response: " +:+ parse_text
  | ErrorStatus st text =>
      "wqc-core leaf_pcs error status: " +:+ status_text st +:+ " - " +:+ text
  end.

Definition cas_text (e : CasError) : string :=
  match e with
  | CasGetFailed url e => "CAS GET failed for " +:+ url +:+ ": " +:+ describe e
  | CasStatus st text => "CAS GET status " +:+ status_text st +:+ ": " +:+ text
  | CasBodyFailed => "CAS GET body read failed: " +:+ parse_text
  | CasHashMismatch got want =>
      "CAS leaf proof hash mismatch: got " +:+ got +:+ " want " +:+ want
  end.

Definition build_text (e : BuildError) : string :=
  match e with CoreFailed e => leaf_pcs_text e | CasFailed e => cas_text e end.
End texts.

Definition is_core_down_error (msg : string) : bool :=
  contains "unhealthy (backoff)" msg || contains "health check failed" msg
  || contains "Failed to send leaf_pcs request to wqc-core" msg.

Definition is_pcs_memory_refuse (msg : string) : bool :=
  contains "PCS memory:" msg && contains "policy=refuse" msg.

Definition is_cas_hash_mismatch (msg : string) : bool :=
  contains "CAS leaf proof hash mismatch" msg.

(** The text up to each newline, as bytes in reverse; the last one may be
    empty. *)
Fixpoint split_newlines (line : bytes) (b : bytes) : list bytes :=
  match b with
  | [] => [rev line]
  | c :: b => if decide (c = Byte.x0a) then rev line :: split_newlines [] b
              else split_newlines (c :: line) b
  end.
Definition strip_cr (b : bytes) : bytes :=
  match rev b with Byte.x0d :: r => rev r | _ => b end.
(** [str::lines] *)
Definition lines (s : string) : list string :=
  let parts := split_newlines [] (as_bytes s) in
  let parts := match last parts with Some [] => removelast parts | _ => parts end in
  map (fun b => of_bytes (strip_cr b)) parts.

Definition pcs_refuse_reason (msg : string) : string :=
  match List.find (fun l => contains "PCS memory:" l || contains "CAS leaf proof hash mismatch" l)
          (lines msg) with
  | Some l => if decide (trim l = "") then "PCS memory: refused" else trim l
  | None => "PCS memory: refused"
  end.

Example reason_of_refusal :
  pcs_refuse_reason ("wqc-core leaf_pcs error status: 422 - " +:+
    of_bytes [Byte.x78; Byte.x0a; Byte.x20] +:+ "PCS memory: 9 GiB > 8 GiB policy=refuse"
    +:+ of_bytes [Byte.x0d; Byte.x0a] +:+ "y") = "PCS memory: 9 GiB > 8 GiB policy=refuse".
Proof. by vm_compute. Qed.

Definition placeholder_proof (sub_task_id node_id slice_id : string) : Proof :=
  mkProof (mkPublicInputs "" sub_task_id node_id slice_id "" "" "") "".

(** ** The set of builds in flight *)

Definition claim_inflight (sub_task_id : string) (s : AppState) : bool * AppState :=
  (bool_decide (sub_task_id ∉ s.(in_flight)), with_in_flight (fun f => {[sub_task_id]} ∪ f) s).
Definition release_inflight (sub_task_id : string) (s : AppState) : AppState :=
  with_in_flight (fun f => f ∖ {[sub_task_id]}) s.

(** ** The cache of open calls ([pcs_open_call.rs]) *)

Definition cache_open_call (open : PcsOpenCall) (s : AppState) : AppState :=
  with_open_calls (fun c => <[open.(oc_sub_task_id) := open]> c) s.
Definition cached_open_call (s : AppState) (sub_task_id leaf_proof_hash : string)
  : option PcsOpenCall :=
  open ← s.(open_call_cache) !! sub_task_id;
  if negb (bool_decide (leaf_proof_hash = ""))
     && negb (bool_decide (open.(oc_leaf_proof_hash) = leaf_proof_hash))
  then None else Some open.
Definition clear_cached_open_call (sub_task_id : string) (s : AppState) : AppState :=
  with_open_calls (fun c => delete sub_task_id c) s.

(** [job.requested = true], and the job with its bundle. *)
Definition mark_requested (j : PendingPcsJob) : PendingPcsJob :=
  mkPendingPcsJob j.(job_sub_task_id) j.(job_proof) true j.(job_leaf_pcs_b64)
    j.(job_leaf_pcs_bytes) j.(job_open_call).
Definition with_bundle (pcs : LeafPcsResponse) (j : PendingPcsJob) : PendingPcsJob :=
  mkPendingPcsJob j.(job_sub_task_id) j.(job_proof) j.(job_requested)
    (Some pcs.(leaf_pcs_b64)) (Some pcs.(leaf_bytes)) j.(job_open_call).

(** ** Operations *)

Section outbox.
Context (config : NodeConfig) (core_cfg : CoreConfig).
Context (describe : HttpError -> string) (status_text : Z -> string) (parse_text : string).
Context (sha256 : bytes -> bytes) (hex_encode : bytes -> string) (b64_encode : bytes -> string).
Context (job_to_json : PendingPcsJob -> option bytes) (job_from_json : bytes -> option PendingPcsJob).
Context (message_to_json : PcsMessage -> option bytes) (value_from_json : bytes -> option value).

Abbreviation text_of := (build_text describe status_text parse_text).

(** A call of wqc-core on the shared health record. *)
Definition call_core {A} (c : Call A) (s : AppState) : result BuildError A * AppState * list effect :=
  let '(h, xs, r) := c in (map_err CoreFailed r, with_core h s, map ECore xs).

Definition build_open_call_leaf_pcs (env : BuildEnv) (s : AppState) (sub_task_id : string)
  (open : OpenCallPcsSource) : result BuildError LeafPcsResponse * AppState * list effect :=
  let url := open.(src_cas_presigned_url) in
  match fetch_and_verify sha256 hex_encode env.(be_cas) url open.(src_leaf_proof_hash) with
  | Err e => (Err (CasFailed e), s, [ECasGet url])
  | Ok proof_bytes =>
    let '(r, s, es) := call_core
      (build_leaf_pcs_from_proof_bytes core_cfg b64_encode s.(core) proof_bytes sub_task_id
         config.(peer_id) open.(src_slice_id) env.(be_t0) env.(be_t1) env.(be_t2)
         env.(be_probe) env.(be_post)) s in
    (r, s, ECasGet url :: es)
  end.

Definition run_build (env : BuildEnv) (s : AppState) (sub_task_id : string) (job : PendingPcsJob)
  : result BuildError LeafPcsResponse * AppState * list effect :=
  match job.(job_open_call) with
  | Some open => build_open_call_leaf_pcs env s sub_task_id open
  | None => call_core (build_leaf_pcs core_cfg s.(core) job.(job_proof) env.(be_t0) env.(be_t1)
              env.(be_t2) env.(be_probe) env.(be_post)) s
  end.

(** Send [wire]; once it is acknowledged delete the job and run [after]. *)
Definition send_and_delete (env : BuildEnv) (s : AppState) (pubkey sub_task_id : string)
  (wire : option bytes) (after : AppState -> AppState) (outcome : DeliverOutcome)
  : result PcsError DeliverOutcome * AppState * list effect :=
  match wire with
  | None => (Err EncodeFailed, s, [])
  | Some wire =>
    let '(r, w) := send_pcs_wire value_from_json config s env.(be_send) wire in
    let s := env.(be_during_send) s in
    match r with
    | Err e => (Err (NotSent e), s, map ESend w)
    | Ok _ =>
      match on_store (delete_pending_pcs pubkey sub_task_id) s with
      | (Err e, s) => (Err (StoreFailed e), s, map ESend w)
      | (Ok _, s) => (Ok outcome, after s, map ESend w)
      end
    end
  end.

Definition report_permanent_refusal (env : BuildEnv) (s : AppState) (pubkey sub_task_id : string)
  (msg : string) : result PcsError DeliverOutcome * AppState * list effect :=
  send_and_delete env s pubkey sub_task_id
    (build_pcs_refusal_wire_body message_to_json sub_task_id config.(peer_id)
       (pcs_refuse_reason msg))
    (clear_cached_open_call sub_task_id) RefusedPermanent.

Definition deliver_bundle (env : BuildEnv) (s : AppState) (pubkey sub_task_id : string)
  (job : PendingPcsJob) (bundle : string) : result PcsError DeliverOutcome * AppState * list effect :=
  send_and_delete env s pubkey sub_task_id
    (build_pcs_wire_body message_to_json sub_task_id config.(peer_id) bundle)
    (fun s => if job_is_open_call job then clear_cached_open_call sub_task_id s else s) Delivered.

Definition is_permanent (job : PendingPcsJob) (msg : string) : bool :=
  is_pcs_memory_refuse msg || (job_is_open_call job && is_cas_hash_mismatch msg).

(** The [async] block of [try_build_and_deliver]. *)
Definition build_and_deliver (env : BuildEnv) (s : AppState) (pubkey sub_task_id : string)
  (job : PendingPcsJob) : result PcsError DeliverOutcome * AppState * list effect :=
  match job.(job_leaf_pcs_b64) with
  | Some cached => deliver_bundle env s pubkey sub_task_id job cached
  | None =>
    if is_in_backoff s.(core) env.(be_check) then (Ok SkippedCoreDown, s, [])
    else
      let '(r, s, es) := run_build env s sub_task_id job in
      let s := env.(be_during_build) s in
      match r with
      | Err e =>
        let msg := text_of e in
        if is_core_down_error msg then (Ok SkippedCoreDown, s, es)
        else if is_permanent job msg then
          let '(r, s, es') := report_permanent_refusal env s pubkey sub_task_id msg in
          (r, s, es ++ es')
        else (Err (BuildFailed e), s, es)
      | Ok pcs =>
        let job := with_bundle pcs job in
        match on_store (upsert_pending_pcs job_to_json pubkey sub_task_id job) s with
        | (Err e, s) => (Err (StoreFailed e), s, es)
        | (Ok _, s) =>
          let '(r, s, es') := deliver_bundle env s pubkey sub_task_id job pcs.(leaf_pcs_b64) in
          (r, s, es ++ es')
        end
      end
  end.

Definition try_build_and_deliver (env : BuildEnv) (s : AppState) (pubkey sub_task_id : string)
  (job : PendingPcsJob) : result PcsError DeliverOutcome * AppState * list effect :=
  match claim_inflight sub_task_id s with
  | (false, s) => (Ok SkippedInFlight, s, [])
  | (true, s) =>
    let '(r, s, es) := build_and_deliver env s pubkey sub_task_id job in
    (r, release_inflight sub_task_id s, es)
  end.

(** The task of [spawn_build_and_deliver]: the outcome is only logged, at a level of
    its own; a failed delivery is left to the retry loop. *)
Inductive log_level := Debug | Info | Warn.
Definition outcome_log (r : result PcsError DeliverOutcome) : option log_level :=
  match r with
  | Ok Delivered => None
  | Ok SkippedInFlight => Some Debug
  | Ok SkippedCoreDown => Some Warn
  | Ok RefusedPermanent => Some Info
  | Err _ => Some Warn
  end.
Definition spawn_build_and_deliver (env : BuildEnv) (s : AppState) (pubkey sub_task_id : string)
  (job : PendingPcsJob) : AppState * list effect * option log_level :=
  let '(r, s, es) := try_build_and_deliver env s pubkey sub_task_id job in
  (s, es, outcome_log r).

(** [if let Ok(Some(entry)) = .. { if let Ok(existing) = .. }] *)
Definition merge_existing (r : result StorageError (option PendingPcs)) (job : PendingPcsJob)
  : PendingPcsJob :=
  match r with
  | Ok (Some entry) =>
    match job_from_json entry.(pp_job_json) with
    | Some existing =>
      mkPendingPcsJob job.(job_sub_task_id) job.(job_proof) existing.(job_requested)
        (match existing.(job_leaf_pcs_b64) with
         | Some b => Some b | None => job.(job_leaf_pcs_b64) end)
        (match existing.(job_leaf_pcs_b64) with
         | Some _ => existing.(job_leaf_pcs_bytes) | None => job.(job_leaf_pcs_bytes) end)
        existing.(job_open_call)
    | None => job
    end
  | _ => job
  end.

Definition retain_after_result (s : AppState) (task : ComputeTask) (proof : Proof)
  : AppState * list effect :=
  let pubkey := task.(orchestrator_pubkey) in
  let sub_task_id := task.(request).(task_id) in
  let job := mkPendingPcsJob sub_task_id proof false None None None in
  let '(r, s) := on_store (get_pending_pcs pubkey sub_task_id) s in
  let job := merge_existing r job in
  match on_store (upsert_pending_pcs job_to_json pubkey sub_task_id job) s with
  | (Err _, s) => (s, [])
  | (Ok _, s) =>
    (s, if job.(job_requested) then [ESpawn pubkey sub_task_id job] else [])
  end.

(** The lookup loop of [handle_pcs_request]; [during] is what other tasks do
    while it sleeps.  Without a job the request is dropped. *)
Fixpoint lookup_retained (attempts : nat) (during : AppState -> AppState) (s : AppState)
  (pubkey sub_task_id : string) : option PendingPcsJob * AppState :=
  match attempts with
  | O => (None, s)
  | S attempts =>
    match on_store (get_pending_pcs pubkey sub_task_id) s with
    | (Ok (Some entry), s) => (job_from_json entry.(pp_job_json), s)
    | (Err _, s) => (None, s)
    | (Ok None, s) =>
      match attempts with
      | O => (None, s)
      | _ => lookup_retained attempts during (during s) pubkey sub_task_id
      end
    end
  end.

Definition handle_open_call_pcs_request (s : AppState) (pubkey : string) (r : PcsRequest)
  : AppState * list effect :=
  let sub_task_id := r.(pr_sub_task_id) in
  if decide (r.(pr_leaf_proof_hash) = "") then (s, [])
  else
    match cached_open_call s sub_task_id r.(pr_leaf_proof_hash) with
    | None => (s, [])
    | Some open =>
      let job := mkPendingPcsJob sub_task_id
        (placeholder_proof sub_task_id config.(peer_id) r.(pr_slice_id)) true None None
        (Some (mkOpenCallPcsSource open.(oc_leaf_proof_hash) open.(oc_cas_presigned_url)
                 open.(oc_leaf_proof_bytes)
                 (if decide (r.(pr_slice_id) = "") then open.(oc_slice_id) else r.(pr_slice_id)))) in
      match on_store (upsert_pending_pcs job_to_json pubkey sub_task_id job) s with
      | (Err _, s) => (s, [])
      | (Ok _, s) => (s, [ESpawn pubkey sub_task_id job])
      end
    end.

Definition handle_pcs_request (during : AppState -> AppState) (s : AppState) (pubkey : string)
  (r : PcsRequest) : AppState * list effect :=
  if request_is_open_call r then handle_open_call_pcs_request s pubkey r
  else
    let sub_task_id := r.(pr_sub_task_id) in
    match lookup_retained RETAINED_PROOF_LOOKUP_ATTEMPTS during s pubkey sub_task_id with
    | (None, s) => (s, [])
    | (Some job, s) =>
      if job.(job_requested) then (s, [ESpawn pubkey sub_task_id job])
      else
        let job := mark_requested job in
        match on_store (upsert_pending_pcs job_to_json pubkey sub_task_id job) s with
        | (Err _, s) => (s, [])
        | (Ok _, s) => (s, [ESpawn pubkey sub_task_id job])
        end
    end.

(** One entry of a retry pass: it is taken as it was listed. *)
Definition retry_entry (env : BuildEnv) (now ttl : Z) (s : AppState) (entry : PendingPcs)
  : AppState * list effect :=
  match job_from_json entry.(pp_job_json) with
  | None => (s, [])
  | Some job =>
    if negb job.(job_requested) then
      if ttl <=? now - entry.(pp_created_at) then
        ((on_store (delete_pending_pcs_by_id entry.(pp_id)) s).2, [])
      else (s, [])
    else
      match try_build_and_deliver env s entry.(pp_orchestrator_pubkey) entry.(pp_sub_task_id) job with
      | (Ok _, s, es) => (s, es)
      | (Err _, s, es) => ((on_store (increment_pending_pcs_attempts entry.(pp_id)) s).2, es)
      end
  end.

Fixpoint retry_entries (env : PendingPcs -> BuildEnv) (now ttl : Z) (s : AppState)
  (entries : list PendingPcs) : AppState * list effect :=
  match entries with
  | [] => (s, [])
  | e :: entries =>
    let '(s, es) := retry_entry (env e) now ttl s e in
    let '(s, es') := retry_entries env now ttl s entries in (s, es ++ es')
  end.

(** One turn of the retry loop. *)
Definition retry_pass (env : PendingPcs -> BuildEnv) (now ttl : Z) (s : AppState)
  : AppState * list effect :=
  match on_store list_pending_pcs s with
  | (Err _, s) => (s, [])
  | (Ok entries, s) => retry_entries env now ttl s entries
  end.
End outbox.

(** ** Lemmas *)

(** The other tasks leave the store and the claims alone. *)
Definition quiet (h : AppState -> AppState) : Prop :=
  forall t, (h t).(store) = t.(store) /\ (h t).(in_flight) = t.(in_flight).
Definition quiet_env (env : BuildEnv) : Prop :=
  quiet env.(be_during_build) /\ quiet env.(be_during_send).

Lemma quiet_id : quiet (fun s => s).
Proof. done. Qed.

Lemma on_store_flight {A} (m : St A) s r s' :
  on_store m s = (r, s') -> s'.(in_flight) = s.(in_flight).
Proof. by intros (st & _ & ->)%on_store_eq. Qed.

(** The rows of other keys stay as they are, ids and dates included. *)
Definition rows_kept (k : key) (s s' : AppState) : Prop :=
  forall row, row ∈ s.(store).(db).(pending_pcs).(rows) -> row.(row_key) <> k ->
  row ∈ s'.(store).(db).(pending_pcs).(rows).

Lemma rows_kept_db k s s' : s'.(store).(db) = s.(store).(db) -> rows_kept k s s'.
Proof. unfold rows_kept. by intros ->. Qed.
Lemma rows_kept_trans k s s1 s' : rows_kept k s s1 -> rows_kept k s1 s' -> rows_kept k s s'.
Proof. unfold rows_kept. eauto. Qed.

(** The key whose job a statement touches. *)
Definition op_pcs_key (o : op) : option key :=
  match o with
  | OpUpsertPcs k _ | OpDeletePcs k | OpDeletePcsId _ k | OpBumpPcs _ k => Some k
  | _ => None
  end.

Lemma update_where_other {D} (P : Row D -> bool) f t row :
  row ∈ t.(rows) -> P row = false -> row ∈ (update_where P f t).(rows).
Proof. intros Hin HP. cbn. apply list_elem_of_fmap. exists row. by rewrite HP. Qed.

Lemma delete_where_other {D} (P : Row D -> bool) (t : Table D) row :
  row ∈ t.(rows) -> P row = false -> row ∈ (delete_where P t).(rows).
Proof.
  intros Hin HP. cbn. apply list_elem_of_In, List.filter_In. split; [by apply list_elem_of_In|].
  by rewrite HP.
Qed.

Lemma has_id_other {D} (t : Table D) r row :
  table_wf t -> r ∈ t.(rows) -> row ∈ t.(rows) -> row.(row_key) <> r.(row_key) ->
  has_id r.(row_id) row = false.
Proof.
  intros Hwf Hr Hrow Hne. unfold has_id. apply Z.eqb_neq. intros Heq. apply Hne.
  f_equal. by apply (nodup_id_inj t).
Qed.

Lemma run_op_others o k s r s' :
  db_wf s.(db) -> op_pre o s.(db) -> op_pcs_key o = Some k -> run_op o s = (r, s') ->
  forall row, row ∈ s.(db).(pending_pcs).(rows) -> row.(row_key) <> k ->
  row ∈ s'.(db).(pending_pcs).(rows).
Proof.
  intros [_ _ Hp] Hpre Hk H row Hin Hne. destruct r as [[]|e]; [|by apply run_op_Err in H as ->].
  assert (Hkey : has_key k row = false) by (by apply bool_decide_eq_false).
  destruct o; simplify_eq/=; apply exec_Ok in H as ->; cbn [with_pcs pending_pcs].
  - rewrite <- surjective_pairing. unfold upsert_row, insert_row.
    destruct (select _ _); cbn [rows]; [by apply update_where_other|].
    apply elem_of_app. by left.
  - rewrite <- surjective_pairing. by apply delete_where_other.
  - destruct Hpre as (r & Hr & <- & <-). apply delete_where_other; [done|].
    by eapply has_id_other.
  - destruct Hpre as (r & Hr & <- & <-). apply update_where_other; [done|].
    by eapply has_id_other.
Qed.

(** The statement on the shared database as the map operation it stands for. *)
Lemma on_store_op o s r s' :
  db_wf s.(store).(db) -> op_pre o s.(store).(db) -> on_store (run_op o) s = (r, s') ->
  db_wf s'.(store).(db) /\ s'.(in_flight) = s.(in_flight) /\
  (forall k, op_pcs_key o = Some k -> rows_kept k s s') /\
  match r with
  | Ok _ => abs s'.(store).(db) = abs_op o s.(store).(clock) (abs s.(store).(db))
  | Err _ => s'.(store).(db) = s.(store).(db)
  end.
Proof.
  intros Hwf Hpre (st & H & ->)%on_store_eq.
  pose proof (fun k Hk => run_op_others o k _ _ _ Hwf Hpre Hk H) as Hrows. destruct r as [[]|e].
  - apply run_op_Ok in H as [? ?]; done.
  - apply run_op_Err in H. cbn. by rewrite H.
Qed.

Lemma upsert_is_op job_to_json pubkey id job j :
  job_to_json job = Some j ->
  upsert_pending_pcs job_to_json pubkey id job = run_op (OpUpsertPcs (pubkey, id) j).
Proof. intros H. unfold run_op, upsert_pending_pcs. by rewrite H. Qed.

Definition no_core (e : effect) : Prop := match e with ECore _ => False | _ => True end.
Definition is_send (e : effect) : Prop := match e with ESend _ => True | _ => False end.

Section lemmas.
Context (config : NodeConfig) (core_cfg : CoreConfig).
Context (describe : HttpError -> string) (status_text : Z -> string) (parse_text : string).
Context (sha256 : bytes -> bytes) (hex_encode : bytes -> string) (b64_encode : bytes -> string).
Context (job_to_json : PendingPcsJob -> option bytes) (job_from_json : bytes -> option PendingPcsJob).
Context (message_to_json : PcsMessage -> option bytes) (value_from_json : bytes -> option value).

Abbreviation try_build := (try_build_and_deliver config core_cfg describe status_text parse_text
  sha256 hex_encode b64_encode job_to_json message_to_json value_from_json).
Abbreviation build := (build_and_deliver config core_cfg describe status_text parse_text
  sha256 hex_encode b64_encode job_to_json message_to_json value_from_json).

(** The peer's reply acknowledges what was sent. *)
Definition acked (env : BuildEnv) : Prop :=
  exists resp ack, env.(be_send).(reply) = Some resp /\ value_from_json resp = Some ack
  /\ (value_get "ok" ack ≫= as_bool) = Some true.

Lemma send_effects env s w r es :
  send_pcs_wire value_from_json config s env.(be_send) w = (r, es) ->
  Forall is_send (map ESend es) /\
  (r = Ok tt -> es = [Sent PROTOCOL_PCS w] /\ acked env).
Proof.
  intros H. split.
  - apply List.Forall_map, Forall_true. done.
  - intros ->. by apply send_pcs_Ok in H.
Qed.

Lemma send_and_delete_spec env s pubkey id wire after outcome r s' es :
  quiet env.(be_during_send) -> quiet after -> db_wf s.(store).(db) ->
  send_and_delete config value_from_json env s pubkey id wire after outcome = (r, s', es) ->
  db_wf s'.(store).(db) /\ s'.(in_flight) = s.(in_flight) /\ Forall is_send es /\
  rows_kept (pubkey, id) s s' /\
  match r with
  | Ok o => o = outcome /\ acked env
      /\ (exists w, wire = Some w /\ es = [ESend (Sent PROTOCOL_PCS w)])
      /\ abs s'.(store).(db) = abs_op (OpDeletePcs (pubkey, id)) s.(store).(clock)
          (abs s.(store).(db))
  | Err e => s'.(store).(db) = s.(store).(db)
  end.
Proof.
  intros Hq Ha Hwf. unfold send_and_delete. destruct wire as [w|].
  2: { intros [= <- <- <-]. split_and!; try done. by apply rows_kept_db. }
  destruct (send_pcs_wire _ _ _ _ _) as [r0 w0] eqn:E. apply send_effects in E as [Hs Hok].
  destruct (Hq s) as [Q1 Q2]. destruct r0 as [[]|e].
  2: { intros [= <- <- <-]. split_and!; try done; try apply rows_kept_db; by rewrite Q1. }
  destruct (Hok eq_refl) as [-> Hack].
  destruct (on_store (delete_pending_pcs pubkey id) _) as [r1 s1] eqn:E1.
  apply (on_store_op (OpDeletePcs (pubkey, id))) in E1 as (Hwf1 & Hf & Hk & H1);
    [|by rewrite Q1|done].
  specialize (Hk _ eq_refl). unfold rows_kept in *.
  rewrite Q1 in H1, Hk. rewrite Q2 in Hf. destruct r1 as [[]|e]; intros [= <- <- <-].
  - destruct (Ha s1) as [-> ->]. split_and!; eauto.
  - by split_and!.
Qed.

Lemma call_core_spec {A} (c : Call A) s r s' es :
  call_core c s = (r, s', es) -> s'.(store) = s.(store) /\ s'.(in_flight) = s.(in_flight).
Proof. unfold call_core. destruct c as [[h xs] r0]. by intros [= <- <- <-]. Qed.

Lemma run_build_spec env s id job r s' es :
  run_build config core_cfg sha256 hex_encode b64_encode env s id job = (r, s', es) ->
  s'.(store) = s.(store) /\ s'.(in_flight) = s.(in_flight).
Proof.
  unfold run_build, build_open_call_leaf_pcs.
  destruct (job_open_call job) as [o|]; [|by intros ?%call_core_spec].
  destruct (fetch_and_verify _ _ _ _ _) as [b|e]; [|by intros [= <- <- <-]].
  destruct (call_core _ s) as [[r0 s0] es0] eqn:E. apply call_core_spec in E.
  by intros [= <- <- <-].
Qed.

Lemma quiet_clear id (b : bool) :
  quiet (fun s => if b then clear_cached_open_call id s else s).
Proof. by destruct b. Qed.
(** What a try did to the outbox, seen as maps, by its result. *)
Definition try_outcome (env : BuildEnv) (k : key) (job : PendingPcsJob) (s s' : AppState)
  (es : list effect) (r : result PcsError DeliverOutcome) : Prop :=
  let gone := abs s'.(store).(db) = abs_op (OpDeletePcs k) s.(store).(clock) (abs s.(store).(db)) in
  match r with
  | Ok Delivered => acked env /\ gone /\ exists bundle w,
      build_pcs_wire_body message_to_json k.2 config.(peer_id) bundle = Some w
      /\ last es = Some (ESend (Sent PROTOCOL_PCS w))
  | Ok RefusedPermanent => acked env /\ gone /\ exists msg w,
      is_permanent job msg = true
      /\ build_pcs_refusal_wire_body message_to_json k.2 config.(peer_id) (pcs_refuse_reason msg)
         = Some w
      /\ last es = Some (ESend (Sent PROTOCOL_PCS w))
  | Ok _ => s'.(store).(db) = s.(store).(db)
  | Err _ => s'.(store).(db) = s.(store).(db)
      \/ exists pcs j, job_to_json (with_bundle pcs job) = Some j
         /\ abs s'.(store).(db) = abs_op (OpUpsertPcs k j) s.(store).(clock) (abs s.(store).(db))
  end.

Lemma abs_delete_upsert k j now now' a :
  abs_op (OpDeletePcs k) now' (abs_op (OpUpsertPcs k j) now a) = abs_op (OpDeletePcs k) now' a.
Proof. destruct a. cbn. by rewrite delete_insert_eq. Qed.

Lemma build_spec env s pubkey id job r s' es :
  quiet_env env -> db_wf s.(store).(db) -> build env s pubkey id job = (r, s', es) ->
  db_wf s'.(store).(db) /\ s'.(in_flight) = s.(in_flight)
  /\ rows_kept (pubkey, id) s s'
  /\ try_outcome env (pubkey, id) job s s' es r
  /\ (is_Some job.(job_leaf_pcs_b64) -> Forall no_core es)
  /\ r <> Ok SkippedInFlight.
Proof.
  intros [Qb Qs] Hwf. unfold build_and_deliver, deliver_bundle, report_permanent_refusal.
  assert (Hcore : forall l, Forall is_send l -> Forall no_core l).
  { intros l Hl. eapply Forall_impl; [exact Hl|]. by intros []. }
  destruct (job_leaf_pcs_b64 job) as [b|] eqn:Hb.
  { intros H. apply send_and_delete_spec in H as (? & ? & Hs & Hrk & H); try done;
      [|apply quiet_clear]. split_and!; try done; [|by eauto|].
    - destruct r as [o|e]; [|by left]. destruct H as (-> & ? & (w & Hw & ->) & ?).
      cbn. split_and!; try done. by exists b, w.
    - destruct r; [|done]. by destruct H as (-> & _). }
  destruct (is_in_backoff (core s) (be_check env)).
  { intros [= <- <- <-]. split_and!; try done; by intros []. }
  destruct (run_build _ _ _ _ _ _ _ _ _) as [[r0 s0] es0] eqn:E.
  apply run_build_spec in E as [E1 E2]. destruct (Qb s0) as [Q1 Q2]. rewrite E1 in Q1.
  rewrite E2 in Q2. destruct r0 as [pcs|e].
  - destruct (job_to_json (with_bundle pcs job)) as [j|] eqn:Hj.
    2: { unfold upsert_pending_pcs. rewrite Hj. unfold on_store. intros [= <- <- <-]. cbn.
         rewrite Q1. split_and!; try done;
           first [by apply rows_kept_db|by left|by intros []]. }
    rewrite (upsert_is_op _ _ _ _ j Hj).
    destruct (on_store (run_op _) _) as [r1 s1] eqn:E3.
    apply on_store_op in E3 as (Hwf1 & Hf1 & Hk1 & H1); [|by rewrite Q1|done].
    specialize (Hk1 _ eq_refl). unfold rows_kept in Hk1. rewrite Q1 in H1, Hk1. rewrite Q2 in Hf1. destruct r1 as [[]|e1].
    2: { intros [= <- <- <-]. split_and!; try done; first [by left|by intros []]. }
    destruct (send_and_delete _ _ _ _ _ _ _ _ _) as [[r2 s2] es2] eqn:E4. intros [= <- <- <-].
    apply send_and_delete_spec in E4 as (? & Hf2 & Hs & Hrk & H); try done; [|apply quiet_clear].
    split_and!; try done; [by rewrite Hf2|by eapply rows_kept_trans| |].
    + destruct r2 as [o|e]; [|right; rewrite H; eauto]. destruct H as (-> & ? & (w & Hw & ->) & Ha).
      cbn. split_and!; [done| |].
      * rewrite Ha, H1. cbn [abs_op a_pcs a_tasks a_results]. by rewrite delete_insert_eq.
      * exists (leaf_pcs_b64 pcs), w. split; [done|]. apply last_snoc.
    + destruct r2; [|done]. by destruct H as (-> & _).
  - destruct (is_core_down_error _).
    { intros [= <- <- <-]. rewrite Q1. split_and!; try done; first [by apply rows_kept_db; rewrite Q1|by cbn; rewrite Q1|by intros []]. }
    destruct (is_permanent job _) eqn:Hperm.
    2: { intros [= <- <- <-]. rewrite Q1. split_and!; try done;
           first [by apply rows_kept_db; rewrite Q1|by left; rewrite Q1|by intros []]. }
    destruct (send_and_delete _ _ _ _ _ _ _ _ _) as [[r2 s2] es2] eqn:E4. intros [= <- <- <-].
    apply send_and_delete_spec in E4 as (? & Hf2 & Hs & Hrk & H); try done;
      try (by rewrite Q1).
    unfold rows_kept in Hrk. rewrite Q1 in H, Hrk. split_and!; try done; [by rewrite Hf2| |].
    + destruct r2 as [o|e']; [|by left]. destruct H as (-> & ? & (w & Hw & ->) & Ha).
      cbn. split_and!; [done|by rewrite Ha|]. eexists _, w. split_and!; [done..|apply last_snoc].
    + destruct r2; [|done]. by destruct H as (-> & _).
Qed.
Lemma claim_taken id s :
  id ∈ s.(in_flight) -> claim_inflight id s = (false, s).
Proof.
  intros H. unfold claim_inflight, with_in_flight. rewrite bool_decide_eq_false_2 by set_solver.
  replace ({[id]} ∪ in_flight s) with (in_flight s) by set_solver. by destruct s.
Qed.

Lemma try_taken env s pubkey id job :
  id ∈ s.(in_flight) -> try_build env s pubkey id job = (Ok SkippedInFlight, s, []).
Proof. intros H. unfold try_build_and_deliver. by rewrite claim_taken. Qed.

Lemma try_claimed env s pubkey id job :
  id ∉ s.(in_flight) ->
  try_build env s pubkey id job
  = let '(r, s', es) := build env (with_in_flight (fun f => {[id]} ∪ f) s) pubkey id job in
    (r, release_inflight id s', es).
Proof.
  intros H. unfold try_build_and_deliver, claim_inflight. by rewrite bool_decide_eq_true_2.
Qed.

Lemma try_spec env s pubkey id job r s' es :
  quiet_env env -> db_wf s.(store).(db) -> id ∉ s.(in_flight) ->
  try_build env s pubkey id job = (r, s', es) ->
  db_wf s'.(store).(db) /\ s'.(in_flight) = s.(in_flight)
  /\ rows_kept (pubkey, id) s s'
  /\ try_outcome env (pubkey, id) job s s' es r
  /\ (is_Some job.(job_leaf_pcs_b64) -> Forall no_core es)
  /\ r <> Ok SkippedInFlight.
Proof.
  intros Hq Hwf Hid. rewrite try_claimed by done.
  destruct (build env _ pubkey id job) as [[r0 s0] es0] eqn:E. intros [= <- <- <-].
  apply build_spec in E as (? & Hf & ? & Ho & ? & ?); [|done..]. split_and!; try done.
  cbn. rewrite Hf. cbn. set_solver.
Qed.

(** The same environment, with nobody else at work. *)
Definition undisturbed (env : BuildEnv) : BuildEnv :=
  mkBuildEnv env.(be_check) env.(be_t0) env.(be_t1) env.(be_t2) env.(be_probe) env.(be_post)
    env.(be_cas) (fun s => s) env.(be_send) (fun s => s).

(** Hooks that do nothing where the claim is held do nothing at all. *)
Lemma send_and_delete_undisturbed env s pubkey id wire after o :
  (forall t, id ∈ t.(in_flight) -> env.(be_during_send) t = t) -> id ∈ s.(in_flight) ->
  send_and_delete config value_from_json env s pubkey id wire after o
  = send_and_delete config value_from_json (undisturbed env) s pubkey id wire after o.
Proof.
  intros Hs Hid. unfold send_and_delete. destruct wire as [w|]; [|done]. cbn.
  destruct (send_pcs_wire _ _ _ _ _). by rewrite Hs.
Qed.

Lemma build_undisturbed env s pubkey id job :
  (forall t, id ∈ t.(in_flight) -> env.(be_during_build) t = t) ->
  (forall t, id ∈ t.(in_flight) -> env.(be_during_send) t = t) -> id ∈ s.(in_flight) ->
  build env s pubkey id job = build (undisturbed env) s pubkey id job.
Proof.
  intros Hb Hs Hid. unfold build_and_deliver, deliver_bundle, report_permanent_refusal.
  destruct (job_leaf_pcs_b64 job) as [b|]; [by apply send_and_delete_undisturbed|].
  change (be_check (undisturbed env)) with (be_check env).
  destruct (is_in_backoff _ _); [done|].
  change (run_build config core_cfg sha256 hex_encode b64_encode (undisturbed env) s id job)
    with (run_build config core_cfg sha256 hex_encode b64_encode env s id job).
  destruct (run_build _ _ _ _ _ _ _ _ _) as [[r0 s0] es0] eqn:E.
  apply run_build_spec in E as [_ E]. rewrite <- E in Hid. rewrite Hb by done.
  change (be_during_build (undisturbed env) s0) with s0. destruct r0 as [pcs|e].
  - destruct (on_store _ s0) as [r1 s1] eqn:E1. apply on_store_flight in E1.
    rewrite <- E1 in Hid. destruct r1; [|done].
    by rewrite send_and_delete_undisturbed.
  - destruct (is_core_down_error _); [done|]. destruct (is_permanent job _); [|done].
    by rewrite send_and_delete_undisturbed.
Qed.

(** A job with its bundle is sent without asking wqc-core again. *)
Lemma cached_no_core env s pubkey id job :
  is_Some job.(job_leaf_pcs_b64) -> Forall no_core (try_build env s pubkey id job).2.
Proof.
  intros [b Hb]. unfold try_build_and_deliver. destruct (claim_inflight id s) as [[] s0]; [|by cbn].
  unfold build_and_deliver, deliver_bundle, send_and_delete. rewrite Hb.
  repeat case_match; simplify_eq/=; try done; apply List.Forall_map, Forall_true; done.
Qed.
End lemmas.

(** *** Retaining a proof *)

Section retain.
Context (job_to_json : PendingPcsJob -> option bytes) (job_from_json : bytes -> option PendingPcsJob).
Hypothesis Htotal : forall j, is_Some (job_to_json j).

(** The job a retained proof becomes beside an earlier job. *)
Definition retained (id : string) (proof : Proof) (old : option PendingPcsJob) : PendingPcsJob :=
  match old with
  | None => mkPendingPcsJob id proof false None None None
  | Some o => mkPendingPcsJob id proof o.(job_requested) o.(job_leaf_pcs_b64)
      (match o.(job_leaf_pcs_b64) with Some _ => o.(job_leaf_pcs_bytes) | None => None end)
      o.(job_open_call)
  end.

Definition stored_pcs (s : AppState) (k : key) : option (pcs_data * Z) :=
  a_pcs (abs s.(store).(db)) !! k.
Definition stored_job (s : AppState) (k : key) : option PendingPcsJob :=
  stored_pcs s k ≫= fun d => job_from_json d.1.(job_json).

Lemma no_faults_upsert s k job :
  s.(store).(faults) = [] -> db_wf s.(store).(db) ->
  exists j s', job_to_json job = Some j
  /\ on_store (upsert_pending_pcs job_to_json k.1 k.2 job) s = (Ok tt, s')
  /\ s'.(store).(faults) = [] /\ db_wf s'.(store).(db)
  /\ abs s'.(store).(db) = abs_op (OpUpsertPcs k j) s.(store).(clock) (abs s.(store).(db)).
Proof.
  intros Hf Hwf. destruct (Htotal job) as [j Hj]. rewrite (upsert_is_op _ _ _ _ j Hj).
  rewrite <- surjective_pairing.
  destruct (on_store (run_op (OpUpsertPcs k j)) s) as [r s'] eqn:E.
  pose proof E as (? & _ & _ & H)%on_store_op; [|done..].
  assert (r = Ok tt /\ s'.(store).(faults) = []) as [-> Hf'].
  { revert E. unfold on_store. cbn [run_op]. unfold upsert_pending_pcs, exec, stmt. rewrite Hf.
    by intros [= <- <-]. }
  exists j, s'. by split_and!.
Qed.

Lemma get_pcs_no_faults s k :
  s.(store).(faults) = [] ->
  on_store (get_pending_pcs k.1 k.2) s
  = (Ok (to_pending_pcs <$> select s.(store).(db).(pending_pcs) k), s).
Proof.
  intros Hf. unfold on_store, get_pending_pcs, query, stmt. rewrite Hf. cbn [tl].
  rewrite <- surjective_pairing. f_equal. destruct s as [[d f c] ?]. cbn in *. by subst.
Qed.

Lemma merge_stored s k id proof :
  db_wf s.(store).(db) ->
  merge_existing job_from_json (Ok (to_pending_pcs <$> select s.(store).(db).(pending_pcs) k))
    (mkPendingPcsJob id proof false None None None)
  = retained id proof (stored_job s k).
Proof.
  intros [_ _ Hp]. unfold stored_job, stored_pcs, abs. cbn [a_pcs].
  rewrite <- select_view by done. destruct (select _ k) as [row|]; [|done]. cbn.
  by destruct (job_from_json _) as [[? ? ? [] ? ?]|].
Qed.

Lemma retain_spec s task proof s' es :
  db_wf s.(store).(db) -> s.(store).(faults) = [] ->
  retain_after_result job_to_json job_from_json s task proof = (s', es) ->
  let k := (task.(orchestrator_pubkey), task.(request).(task_id)) in
  let job := retained k.2 proof (stored_job s k) in
  exists j, job_to_json job = Some j
  /\ abs s'.(store).(db) = abs_op (OpUpsertPcs k j) s.(store).(clock) (abs s.(store).(db))
  /\ es = if job.(job_requested) then [ESpawn k.1 k.2 job] else [].
Proof.
  intros Hwf Hf. unfold retain_after_result.
  set (k := (orchestrator_pubkey task, task_id (request task))).
  change (orchestrator_pubkey task) with k.1. change (task_id (request task)) with k.2.
  rewrite get_pcs_no_faults by done. rewrite merge_stored by done.
  destruct (no_faults_upsert s k (retained k.2 proof (stored_job s k))) as (j & s1 & Hj & E & H);
    [done..|].
  rewrite E. intros [= <- <-]. exists j. split_and!; [done|apply H|done].
Qed.
End retain.

(** *** The retry pass *)

Definition entry_key (e : PendingPcs) : key := (e.(pp_orchestrator_pubkey), e.(pp_sub_task_id)).

(** The row an entry was listed from is there, its attempts aside. *)
Definition listed (e : PendingPcs) (s : AppState) : Prop :=
  exists row, row ∈ s.(store).(db).(pending_pcs).(rows) /\ row.(row_id) = e.(pp_id)
  /\ row.(row_key) = entry_key e /\ row.(row_data).(job_json) = e.(pp_job_json)
  /\ row.(row_created) = e.(pp_created_at).

Definition has_job (s : AppState) (k : key) : Prop := is_Some (stored_pcs s k).

Lemma has_job_row s k :
  db_wf s.(store).(db) ->
  has_job s k <-> exists row, row ∈ s.(store).(db).(pending_pcs).(rows) /\ row.(row_key) = k.
Proof.
  intros [_ _ Hp]. unfold has_job, stored_pcs, abs. cbn [a_pcs]. split.
  - intros [[d c] H]. apply view_lookup in H as (row & ? & ? & _); eauto.
  - intros (row & Hr & Hk). exists (row_data row, row_created row). apply view_lookup; eauto 6.
Qed.

Lemma rows_kept_job k s s' k' :
  db_wf s.(store).(db) -> db_wf s'.(store).(db) -> rows_kept k s s' -> k' <> k ->
  has_job s k' -> has_job s' k'.
Proof.
  intros Hwf Hwf' Hk Hne. rewrite !has_job_row by done. intros (row & Hr & Hrk).
  exists row. split; [|done]. apply Hk; [done|by rewrite Hrk].
Qed.

Lemma rows_kept_listed k s s' e :
  rows_kept k s s' -> entry_key e <> k -> listed e s -> listed e s'.
Proof.
  intros Hk Hne (row & Hr & Hi & Hrk & ? & ?). exists row. split_and!; try done. apply Hk; [done|by rewrite Hrk].
Qed.

(** Counting an attempt leaves every row in place. *)
Lemma bump_spec id s r s' :
  db_wf s.(store).(db) -> on_store (increment_pending_pcs_attempts id) s = (r, s') ->
  db_wf s'.(store).(db) /\ s'.(in_flight) = s.(in_flight)
  /\ (forall e, listed e s -> listed e s') /\ (forall k, has_job s k -> has_job s' k).
Proof.
  intros Hwf (st & H & ->)%on_store_eq. destruct r as [[]|e].
  2: { apply exec_Err in H. unfold listed, has_job, stored_pcs. cbn. by rewrite H. }
  apply exec_Ok in H. assert (Hwf' : db_wf (db (store (with_store st s)))).
  { cbn. rewrite H. destruct Hwf. split; cbn; try done. by apply update_where_wf. }
  assert (Hl : forall row, row ∈ s.(store).(db).(pending_pcs).(rows) ->
    exists row', row' ∈ st.(db).(pending_pcs).(rows) /\ row'.(row_id) = row.(row_id)
    /\ row'.(row_key) = row.(row_key) /\ row'.(row_data).(job_json) = row.(row_data).(job_json)
    /\ row'.(row_created) = row.(row_created)).
  { intros row Hr. rewrite H. cbn.
    exists (if has_id id row then bump_pcs row else row). split.
    - apply list_elem_of_fmap. eauto.
    - by destruct (has_id id row). }
  split_and!; try done.
  - intros e (row & Hr & ? & ? & ? & ?). destruct (Hl row Hr) as (row' & ? & ? & ? & ? & ?).
    exists row'. split_and!; first [done|congruence].
  - intros k. rewrite !has_job_row by done. intros (row & Hr & Hk).
    destruct (Hl row Hr) as (row' & ? & _ & ? & _). exists row'. split; [done|congruence].
Qed.

Section retry.
Context (config : NodeConfig) (core_cfg : CoreConfig).
Context (describe : HttpError -> string) (status_text : Z -> string) (parse_text : string).
Context (sha256 : bytes -> bytes) (hex_encode : bytes -> string) (b64_encode : bytes -> string).
Context (job_to_json : PendingPcsJob -> option bytes) (job_from_json : bytes -> option PendingPcsJob).
Context (message_to_json : PcsMessage -> option bytes) (value_from_json : bytes -> option value).

Abbreviation one_entry := (retry_entry config core_cfg describe status_text parse_text
  sha256 hex_encode b64_encode job_to_json job_from_json message_to_json value_from_json).
Abbreviation all_entries := (retry_entries config core_cfg describe status_text parse_text
  sha256 hex_encode b64_encode job_to_json job_from_json message_to_json value_from_json).

(** Why a pass may remove an entry's job. *)
Definition may_remove (env : BuildEnv) (now ttl : Z) (e : PendingPcs) : Prop :=
  exists job, job_from_json e.(pp_job_json) = Some job
  /\ (job.(job_requested) = false /\ ttl <= now - e.(pp_created_at)
      \/ job.(job_requested) = true /\ acked value_from_json env).

Lemma outcome_keeps_job env k job s s' es r :
  try_outcome config job_to_json message_to_json value_from_json env k job s s' es r ->
  has_job s k -> ~ has_job s' k -> acked value_from_json env.
Proof.
  intros Ho Hj Hn. destruct r as [[]|e]; cbn in Ho.
  - apply Ho.
  - destruct Hn. unfold has_job, stored_pcs in *. by rewrite Ho.
  - destruct Hn. unfold has_job, stored_pcs in *. by rewrite Ho.
  - apply Ho.
  - destruct Hn. unfold has_job, stored_pcs in *.
    destruct Ho as [->|(? & j & _ & ->)]; [done|]. cbn. rewrite lookup_insert_eq. by eexists.
Qed.

Lemma retry_entry_spec env now ttl s e s' es :
  quiet_env env -> db_wf s.(store).(db) -> listed e s ->
  one_entry env now ttl s e = (s', es) ->
  db_wf s'.(store).(db)
  /\ (forall e', entry_key e' <> entry_key e -> listed e' s -> listed e' s')
  /\ (forall k, has_job s k -> ~ has_job s' k -> k = entry_key e /\ may_remove env now ttl e).
Proof.
  intros Hq Hwf Hl. unfold retry_entry.
  destruct (job_from_json (pp_job_json e)) as [job|] eqn:Hjob; [|by intros [= <- <-]].
  destruct (job_requested job) eqn:Hreq; cbn [negb].
  2: { destruct (Z.leb_spec ttl (now - pp_created_at e)) as [Hold|]; [|by intros [= <- <-]].
    destruct (on_store _ s) as [r s1] eqn:E. intros [= <- <-].
    destruct Hl as (row & Hr & Hi & Hk & _).
    apply (on_store_op (OpDeletePcsId (pp_id e) (entry_key e))) in E as (Hwf1 & _ & Hrk & _);
      [|done|cbn; eauto]. specialize (Hrk _ eq_refl).
    split_and!; [done|intros e' ? ?; by eapply rows_kept_listed|].
    intros k Hj Hn. split; [|exists job; eauto].
    destruct (decide (k = entry_key e)) as [|Hne]; [done|]. destruct Hn. exact (rows_kept_job _ s s1 k Hwf Hwf1 Hrk Hne Hj). }
  destruct (try_build_and_deliver _ _ _ _ _ _ _ _ _ _ _ _ _ _ _ _) as [[r s1] es1] eqn:E.
  destruct (decide (pp_sub_task_id e ∈ s.(in_flight))) as [Hin|Hin].
  { rewrite try_taken in E by done. injection E as <- <- <-. by intros [= <- <-]. }
  apply try_spec in E as (Hwf1 & _ & Hrk & Ho & _); [|done..].
  change (pp_orchestrator_pubkey e, pp_sub_task_id e) with (entry_key e) in *.
  assert (Hrem : forall k, has_job s k -> ~ has_job s1 k ->
    k = entry_key e /\ may_remove env now ttl e).
  { intros k Hj Hn. destruct (decide (k = entry_key e)) as [->|Hne].
    - split; [done|]. exists job. split; [done|]. right. split; [done|].
      by eapply outcome_keeps_job.
    - destruct Hn. exact (rows_kept_job _ s s1 k Hwf Hwf1 Hrk Hne Hj). }
  destruct r as [o|er].
  - intros [= <- <-]. split_and!; [done|intros e' ? ?; by eapply rows_kept_listed|done].
  - destruct (on_store _ s1) as [r2 s2] eqn:E2. intros [= <- <-].
    apply bump_spec in E2 as (Hwf2 & _ & Hl2 & Hj2); [|done].
    split_and!; [done|intros e' ? ?; apply Hl2; by eapply rows_kept_listed|]. intros k Hj Hn. by apply Hrem; auto.
Qed.

Lemma retry_entries_spec env now ttl entries s s' es :
  (forall e, quiet_env (env e)) -> db_wf s.(store).(db) ->
  NoDup (entry_key <$> entries) -> Forall (fun e => listed e s) entries ->
  all_entries env now ttl s entries = (s', es) ->
  forall k, has_job s k -> ~ has_job s' k ->
  exists e, e ∈ entries /\ k = entry_key e /\ may_remove (env e) now ttl e.
Proof.
  intros Hq. revert s es. induction entries as [|e entries IH]; intros s es Hwf Hnd Hl; cbn.
  { by intros [= <- <-]. }
  cbn in Hnd. apply NoDup_cons in Hnd as [He Hnd]. apply Forall_cons in Hl as [Hle Hl].
  destruct (one_entry (env e) now ttl s e) as [s1 es1] eqn:E1.
  destruct (all_entries env now ttl s1 entries) as [s2 es2] eqn:E2. intros [= <- <-] k Hj Hn.
  apply retry_entry_spec in E1 as (Hwf1 & Hl1 & Hrem); [|done..].
  destruct (decide (has_job s1 k)) as [Hj1|Hn1].
  - destruct (IH s1 es2) with (k := k) as (e' & ? & ? & ?); try done.
    + apply Forall_forall. intros e' He'. apply Hl1.
      * intros Heq. destruct He. rewrite <- Heq. by apply list_elem_of_fmap_2.
      * by eapply Forall_forall in Hl.
    + exists e'. split_and!; [by right|done..].
  - destruct (Hrem k Hj Hn1) as [? ?]. exists e. split_and!; [by left|done..].
Qed.
End retry.

(** *** Error texts *)

Lemma prefix_append sub rest : String.prefix sub (sub +:+ rest) = true.
Proof.
  induction sub as [|c sub IH]; [by destruct rest|].
  change (String c sub +:+ rest) with (String c (sub +:+ rest)). cbn [String.prefix].
  by destruct (Ascii.ascii_dec c c).
Qed.

Lemma contains_prefix sub rest : contains sub (sub +:+ rest) = true.
Proof.
  unfold contains. destruct (sub +:+ rest) as [|c t] eqn:E.
  - by destruct sub.
  - cbn [String.index]. by rewrite <- E, prefix_append.
Qed.

(** Whatever goes wrong with the [POST] itself, the text says core is down. *)
Lemma send_failure_is_core_down describe status_text parse_text e :
  is_core_down_error (build_text describe status_text parse_text (CoreFailed (SendFailed e)))
  = true.
Proof.
  unfold is_core_down_error. cbn [build_text leaf_pcs_text]. apply orb_true_iff. right.
  exact (contains_prefix "Failed to send leaf_pcs request to wqc-core" (": " +:+ describe e)).
Qed.

(** ** Theorems *)

Section theorems.
Context (config : NodeConfig) (core_cfg : CoreConfig).
Context (describe : HttpError -> string) (status_text : Z -> string) (parse_text : string).
Context (sha256 : bytes -> bytes) (hex_encode : bytes -> string) (b64_encode : bytes -> string).
Context (job_to_json : PendingPcsJob -> option bytes) (job_from_json : bytes -> option PendingPcsJob).
Context (message_to_json : PcsMessage -> option bytes) (value_from_json : bytes -> option value).

Abbreviation try_build := (try_build_and_deliver config core_cfg describe status_text parse_text
  sha256 hex_encode b64_encode job_to_json message_to_json value_from_json).
Abbreviation entry_step := (retry_entry config core_cfg describe status_text parse_text
  sha256 hex_encode b64_encode job_to_json job_from_json message_to_json value_from_json).
Abbreviation pass := (retry_pass config core_cfg describe status_text parse_text
  sha256 hex_encode b64_encode job_to_json job_from_json message_to_json value_from_json).

(** A build by itself, while nothing else touches the store or the claims at its two
    waits ([quiet_env]; [Outboxes.rows_leave_for_cause] is what holds when others do):
    a try that says it delivered (or refused) sent the bundle (or the refusal) last,
    read an acknowledgement and removed exactly this job; every other outcome leaves
    the job, at most with the bundle it now has, and the claim on the sub-task is
    given back.  A cached bundle is never proved again. *)
Theorem job_leaves_only_acknowledged env s pubkey id job r s' es :
  quiet_env env -> db_wf s.(store).(db) -> id ∉ s.(in_flight) ->
  try_build env s pubkey id job = (r, s', es) ->
  db_wf s'.(store).(db) /\ s'.(in_flight) = s.(in_flight)
  /\ try_outcome config job_to_json message_to_json value_from_json env (pubkey, id) job s s' es r
  /\ (is_Some job.(job_leaf_pcs_b64) -> Forall no_core es).
Proof. intros Hq Hwf Hid H. apply try_spec in H as (? & ? & _ & ? & ? & _); done. Qed.

(** C9. One build of a sub-task at a time: whatever tries on the same sub-task
    start while one waits for wqc-core or for the peer (from the retry loop, a
    PCS request or a result), they do nothing, and the try in progress runs as if
    it were alone. *)
Theorem one_build_at_a_time env env1 env2 s pubkey id job p1 j1 p2 j2 :
  (forall t, env.(be_during_build) t = (try_build env1 t p1 id j1).1.2) ->
  (forall t, env.(be_during_send) t = (try_build env2 t p2 id j2).1.2) ->
  try_build env s pubkey id job = try_build (undisturbed env) s pubkey id job
  /\ (id ∈ s.(in_flight) -> try_build env s pubkey id job = (Ok SkippedInFlight, s, [])).
Proof.
  intros Hb Hs. split; [|by apply try_taken].
  destruct (decide (id ∈ s.(in_flight))) as [Hin|Hin]; [by rewrite !try_taken|].
  rewrite !try_claimed by done. rewrite build_undisturbed; [done|..].
  - intros t Ht. by rewrite Hb, try_taken.
  - intros t Ht. by rewrite Hs, try_taken.
  - cbn. set_solver.
Qed.

(** A failed delivery never costs a second prove: when wqc-core built the
    bundle and only the sending failed, the stored job holds the bundle, and no
    later try of the stored job calls wqc-core. *)
Theorem failed_send_keeps_bundle env s pubkey id job pcs s0 es0 e s' es :
  (forall j b, job_to_json j = Some b -> job_from_json b = Some j) ->
  quiet_env env -> db_wf s.(store).(db) -> id ∉ s.(in_flight) ->
  job.(job_leaf_pcs_b64) = None ->
  run_build config core_cfg sha256 hex_encode b64_encode env
    (with_in_flight (fun f => {[id]} ∪ f) s) id job = (Ok pcs, s0, es0) ->
  try_build env s pubkey id job = (Err (NotSent e), s', es) ->
  stored_job job_from_json s' (pubkey, id) = Some (with_bundle pcs job)
  /\ forall env' t, Forall no_core (try_build env' t pubkey id (with_bundle pcs job)).2.
Proof.
  intros Hjson [Qb Qs] Hwf Hid Hnone Hbuild H. split; [|by intros; apply cached_no_core; eexists].
  rewrite try_claimed in H by done. unfold build_and_deliver, deliver_bundle in H.
  rewrite Hnone in H. destruct (is_in_backoff _ _); [by simplify_eq|]. rewrite Hbuild in H.
  apply run_build_spec in Hbuild as [Hst _]. cbn in Hst. destruct (Qb s0) as [Q1 _].
  destruct (job_to_json (with_bundle pcs job)) as [j|] eqn:Hj.
  2: { unfold upsert_pending_pcs in H. rewrite Hj in H. unfold on_store in H. by simplify_eq. }
  rewrite (upsert_is_op _ _ _ _ j Hj) in H.
  destruct (on_store (run_op _) _) as [r1 s1] eqn:E1.
  apply on_store_op in E1 as (Hwf1 & _ & _ & H1); [|by rewrite Q1, Hst|done].
  destruct r1 as [[]|]; [|by simplify_eq].
  destruct (send_and_delete _ _ _ _ _ _ _ _ _) as [[r2 s2] es2] eqn:E2.
  apply send_and_delete_spec in E2 as (_ & _ & _ & _ & H2); [|done|apply quiet_clear|done].
  injection H as -> <- <-. unfold stored_job, stored_pcs. cbn [release_inflight with_in_flight store].
  rewrite H2, H1. cbn. rewrite lookup_insert_eq. cbn. by apply Hjson.
Qed.

(** C30. A result that is delivered again never takes back what the node already
    won: when the statements succeed, the stored job gets the new proof and keeps
    the request, the open call and the bundle it had, keeps the date it was first
    stored, and is built again only if it was requested; a job that was not there
    is stored unrequested, so nothing is proved for it. *)
Theorem retained_job_keeps_request s task proof s' es :
  (forall j, is_Some (job_to_json j)) ->
  (forall j b, job_to_json j = Some b -> job_from_json b = Some j) ->
  db_wf s.(store).(db) -> s.(store).(faults) = [] ->
  retain_after_result job_to_json job_from_json s task proof = (s', es) ->
  let k := (task.(orchestrator_pubkey), task.(request).(task_id)) in
  let job := retained k.2 proof (stored_job job_from_json s k) in
  stored_job job_from_json s' k = Some job
  /\ snd <$> stored_pcs s' k
     = Some (default s.(store).(clock) (snd <$> stored_pcs s k))
  /\ (forall k', k' <> k -> stored_pcs s' k' = stored_pcs s k')
  /\ es = if job.(job_requested) then [ESpawn k.1 k.2 job] else [].
Proof.
  intros Htotal Hjson Hwf Hf H. cbv zeta.
  apply (retain_spec _ _ Htotal) in H as (j & Hj & Ha & ->); [|done..].
  unfold stored_job at 1, stored_pcs. rewrite Ha. cbn. rewrite !lookup_insert_eq. cbn.
  split_and!; [by apply Hjson|done| |done]. intros k' Hne. by rewrite lookup_insert_ne.
Qed.

(** A pass of the retry loop by itself, while nothing else touches the store or the
    claims during its builds ([quiet_env] for every entry;
    [Outboxes.rows_leave_for_cause] is what holds when others do, and
    [Outboxes.stale_listing_drops_request] what then can go wrong): whatever
    statements fail and whatever wqc-core and the peer answer, a job that is
    gone after the pass was listed by it and either was never requested and has
    reached the time to live, or was requested and the peer acknowledged what
    was sent for it. *)
Theorem retry_pass_removes_for_cause env now ttl s s' es :
  (forall e, quiet_env (env e)) -> db_wf s.(store).(db) ->
  pass env now ttl s = (s', es) ->
  forall k d created, stored_pcs s k = Some (d, created) -> stored_pcs s' k = None ->
  exists e job, entry_key e = k /\ e.(pp_created_at) = created
    /\ job_from_json d.(job_json) = Some job
    /\ (job.(job_requested) = false /\ ttl <= now - created
        \/ job.(job_requested) = true /\ acked value_from_json (env e)).
Proof.
  intros Hq Hwf. unfold retry_pass.
  destruct (on_store list_pending_pcs s) as [r s1] eqn:E.
  apply on_store_eq in E as (st & E & ->). pose proof (query_db _ _ _ _ E) as Hdb.
  assert (Hpcs : forall k, stored_pcs (with_store st s) k = stored_pcs s k).
  { intros k. unfold stored_pcs. cbn. by rewrite Hdb. }
  destruct r as [entries|e].
  2: { intros [= <- <-] k d c Hk Hn. rewrite Hpcs in Hn. congruence. }
  apply query_Ok in E as ->. intros H k d c Hk Hn.
  assert (Hperm : ordered (rows (pending_pcs (db (store s)))) ≡ₚ rows (pending_pcs (db (store s))))
    by (by apply merge_sort_Permutation).
  pose proof Hwf as [_ _ Hp].
  assert (Hrow : forall e, e ∈ map to_pending_pcs (ordered (rows (pending_pcs (db (store s))))) ->
    exists row, row ∈ rows (pending_pcs (db (store s))) /\ e = to_pending_pcs row).
  { intros e He. apply list_elem_of_fmap in He as (row & -> & Hr). exists row.
    split; [by rewrite <- Hperm|done]. }
  assert (Hkeys : forall row, entry_key (to_pending_pcs row) = row.(row_key)).
  { intros row. unfold entry_key. cbn. by rewrite <- surjective_pairing. }
  destruct (retry_entries_spec config core_cfg describe status_text parse_text sha256 hex_encode
    b64_encode job_to_json job_from_json message_to_json value_from_json env now ttl
    (map to_pending_pcs (ordered (rows (pending_pcs (db (store s)))))) (with_store st s) s' es Hq)
    with (k := k) as (e & He & -> & job & Hjob & Hcause); cbn; rewrite ?Hdb; try done.
  - assert (entry_key <$> map to_pending_pcs (ordered (rows (pending_pcs (db (store s)))))
      = row_key <$> ordered (rows (pending_pcs (db (store s))))) as ->.
    { rewrite <- list_fmap_compose. apply list_fmap_ext. intros _ row _. apply Hkeys. }
    rewrite Hperm. apply Hp.
  - apply Forall_forall. intros e (row & Hr & ->)%Hrow. exists row. cbn [with_store store].
    rewrite Hdb, Hkeys. done.
  - unfold has_job. rewrite Hpcs, Hk. by eexists.
  - unfold has_job. rewrite Hn. by intros [].
  - apply Hrow in He as (row & Hr & ->). rewrite Hkeys in Hk |- *.
    assert (Hv : stored_pcs s (row_key row) = Some (row_data row, row_created row)).
    { unfold stored_pcs. cbn. apply view_lookup; eauto 6. }
    rewrite Hv in Hk. simplify_eq. exists (to_pending_pcs row), job.
    split_and!; [by rewrite Hkeys|done..].
Qed.

(** When the lookup of the earlier job fails, [retain_after_result] goes on
    without it: a job that was requested (or nominated by an open call, or built)
    is overwritten by an unrequested one. *)
Theorem lookup_error_drops_request s task proof s' es :
  (forall j, is_Some (job_to_json j)) ->
  (forall j b, job_to_json j = Some b -> job_from_json b = Some j) ->
  db_wf s.(store).(db) -> s.(store).(faults) = [true] ->
  retain_after_result job_to_json job_from_json s task proof = (s', es) ->
  stored_job job_from_json s' (task.(orchestrator_pubkey), task.(request).(task_id))
  = Some (mkPendingPcsJob task.(request).(task_id) proof false None None None) /\ es = [].
Proof.
  intros Htotal Hjson Hwf Hf. unfold retain_after_result.
  set (k := (orchestrator_pubkey task, task_id (request task))).
  change (orchestrator_pubkey task) with k.1. change (task_id (request task)) with k.2.
  unfold on_store at 1. unfold get_pending_pcs, query, stmt. rewrite Hf. cbn [merge_existing].
  destruct (no_faults_upsert job_to_json Htotal (with_store (mkStore s.(store).(db) [] s.(store).(clock)) s)
    k (mkPendingPcsJob k.2 proof false None None None)) as (j & s1 & Hj & E & _ & _ & Ha); [done..|].
  rewrite E. intros [= <- <-]. unfold stored_job, stored_pcs. rewrite Ha. cbn.
  rewrite lookup_insert_eq. cbn. split; [by apply Hjson|done].
Qed.

(** wqc-core answers the health probe. *)
Definition core_reachable (env : BuildEnv) (s : AppState) : Prop :=
  is_in_backoff s.(core) env.(be_check) = false /\ is_in_backoff s.(core) env.(be_t0) = false
  /\ probe_health env.(be_probe) = Ok tt.

Lemma run_build_plain env s id job :
  job.(job_open_call) = None -> core_reachable env s ->
  exists h r, run_build config core_cfg sha256 hex_encode b64_encode env s id job
    = (r, with_core h s, [ECore GetHealth; ECore (PostLeafPcs core_cfg.(pcs_timeout) job.(job_proof))])
  /\ match env.(be_post) with
     | SendError e => r = Err (CoreFailed (SendFailed e))
         /\ (is_unreachable e = false -> h = mark_healthy s.(core))
     | Response st body text => st = 200 -> r = map_err CoreFailed (ok_or ParseFailed body)
     end.
Proof.
  intros Ho (_ & Hb & Hp). unfold run_build, call_core. rewrite Ho.
  unfold build_leaf_pcs, post_leaf_pcs, ensure_ready. rewrite Hb, Hp.
  destruct (be_post env) as [e|st body text].
  - eexists _, _. split; [done|]. split; [done|]. by intros ->.
  - destruct (Z.eqb_spec st 200); eexists _, _; by split.
Qed.

(** The orchestrator is connected and acknowledges. *)
Definition peer_reachable (env : BuildEnv) (s : AppState) : Prop :=
  is_Some config.(orchestrator_peer_id) /\ s.(stream_ready) = true
  /\ env.(be_send).(opens) = true /\ env.(be_send).(writes) = true
  /\ env.(be_send).(closes) = true /\ acked value_from_json env.

Lemma send_reaches env s w :
  peer_reachable env s ->
  send_pcs_wire value_from_json config s env.(be_send) w = (Ok tt, [Sent PROTOCOL_PCS w]).
Proof.
  intros ([p Hp] & Hr & Ho & Hw & Hc & resp & ack & Hrep & Hv & Hack).
  unfold send_pcs_wire, write_outbound_stream_expect_ack, write_outbound_stream.
  rewrite Hp, Hr, Ho, Hw, Hc. cbn. rewrite Hrep. cbn. rewrite Hv. by rewrite decide_True.
Qed.

(** A retry pass works on the jobs as they were listed and does not look at
    the table again: whatever it holds by then (a job that another task delivered
    in the meantime and deleted included), a job listed without its bundle is
    proved by wqc-core, stored and sent. *)
Theorem stale_entry_is_rebuilt env now ttl s e job pcs text :
  job_from_json e.(pp_job_json) = Some job -> job.(job_requested) = true ->
  job.(job_leaf_pcs_b64) = None -> job.(job_open_call) = None ->
  (forall j, is_Some (job_to_json j)) -> (forall m, is_Some (message_to_json m)) ->
  env.(be_during_build) = (fun t => t) ->
  db_wf s.(store).(db) -> s.(store).(faults) = [] ->
  e.(pp_sub_task_id) ∉ s.(in_flight) ->
  core_reachable env s -> env.(be_post) = Response 200 (Some pcs) text ->
  peer_reachable env s ->
  exists w, build_pcs_wire_body message_to_json e.(pp_sub_task_id) config.(peer_id)
      pcs.(leaf_pcs_b64) = Some w
  /\ (entry_step env now ttl s e).2
    = [ECore GetHealth; ECore (PostLeafPcs core_cfg.(pcs_timeout) job.(job_proof));
       ESend (Sent PROTOCOL_PCS w)].
Proof.
  intros Hjob Hreq Hb Ho Htotal Hmsg Qb Hwf Hf Hin Hcore Hpost Hsend.
  destruct (Hmsg (mkPcsMessage e.(pp_sub_task_id) config.(peer_id) pcs.(leaf_pcs_b64) false None))
    as [w Hw]. exists w. split; [done|]. unfold retry_entry. rewrite Hjob, Hreq. cbn [negb].
  rewrite try_claimed by done. unfold build_and_deliver. rewrite Hb.
  destruct Hcore as (Hc1 & Hc2 & Hc3). cbn [with_in_flight core]. rewrite Hc1.
  destruct (run_build_plain env (with_in_flight (fun f => {[pp_sub_task_id e]} ∪ f) s)
    (pp_sub_task_id e) job Ho) as (h & r & -> & Hr); [by split_and!|].
  rewrite Hpost in Hr. rewrite (Hr eq_refl). cbn [ok_or map_err].
  rewrite Qb. set (s1 := with_core h _).
  destruct (no_faults_upsert job_to_json Htotal s1 (entry_key e) (with_bundle pcs job))
    as (j & s2 & Hj & E & _ & _ & _); [done..|].
  cbn [entry_key fst snd] in E. rewrite E. unfold deliver_bundle, send_and_delete, build_pcs_wire_body.
  apply on_store_eq in E as (st & _ & ->). rewrite Hw, (send_reaches env) by done.
  destruct (on_store (delete_pending_pcs _ _) _) as [[[]|] s3]; done.
Qed.

(** A prove that outlives the client's timeout is taken for a core that is
    down: no attempt is counted and the health gate stays closed, so the retry
    loop starts the same prove again at every turn. *)
Theorem build_timeout_not_counted env now ttl s e job err :
  job_from_json e.(pp_job_json) = Some job -> job.(job_requested) = true ->
  job.(job_leaf_pcs_b64) = None -> job.(job_open_call) = None ->
  env.(be_during_build) = (fun t => t) -> e.(pp_sub_task_id) ∉ s.(in_flight) ->
  core_reachable env s -> env.(be_post) = SendError err -> err.(is_timeout) = true ->
  let s' := (entry_step env now ttl s e).1 in
  s'.(store) = s.(store) /\ (forall t, is_in_backoff s'.(core) t = false)
  /\ (entry_step env now ttl s e).2
     = [ECore GetHealth; ECore (PostLeafPcs core_cfg.(pcs_timeout) job.(job_proof))].
Proof.
  intros Hjob Hreq Hb Ho Qb Hin (Hc1 & Hc2 & Hc3) Hpost Ht. cbv zeta.
  unfold retry_entry. rewrite Hjob, Hreq. cbn [negb].
  rewrite try_claimed by done. unfold build_and_deliver. rewrite Hb.
  cbn [with_in_flight core]. rewrite Hc1.
  destruct (run_build_plain env (with_in_flight (fun f => {[pp_sub_task_id e]} ∪ f) s)
    (pp_sub_task_id e) job Ho) as (h & r & -> & Hr); [by split_and!|].
  rewrite Hpost in Hr. destruct Hr as [-> Hh]. rewrite Hh by (unfold is_unreachable; by rewrite Ht).
  rewrite send_failure_is_core_down, Qb. done.
Qed.
End theorems.

(** *** Witnesses *)

Definition demo_config : NodeConfig :=
  mkNodeConfig "peer" "http://localhost:3000" 26 2048 (f64_of_Z 1) None (8 * GIB_U64) Ram None
    300 None (f64_dec 5 1) (f64_of_Z 5) (f64_of_Z 30) 7200 [] ["http://orch"] None [] 4002 60
    8080 "sqlite:wqc-node.db" 50000000000000000 (Some "orch-peer") None None None.
Definition demo_core : CoreConfig := mkCoreConfig 300 7200 3 30.
Definition demo_http : HttpError := mkHttpError true false false false true.
Definition demo_io (ok : bool) : StreamIo := mkStreamIo ok true true (Some []).
Definition demo_env (post : HttpOutcome LeafPcsResponse) (ok : bool) : BuildEnv :=
  mkBuildEnv 0 0 0 0 (Response 200 None "") post (CasSendError demo_http) (fun s => s) (demo_io ok)
    (fun s => s).
Definition built : HttpOutcome LeafPcsResponse :=
  Response 200 (Some (mkLeafPcsResponse "bundle" 6)) "".
Definition demo_message (m : PcsMessage) : option bytes := Some (as_bytes m.(pm_leaf_pcs_b64)).
Definition demo_value (b : bytes) : option value := Some (VObject [("ok", VBool true)]).
Definition demo_store (requested : bool) : Store :=
  run_all [OpUpsertPcs ("orch", "t1") (default [] (sample_encode (sample_job requested)))]
    (mkStore empty_db [] 100).
Definition demo_state (requested : bool) : AppState := with_store (demo_store requested) initial_state.
Lemma run_op_wf o s : db_wf s.(db) -> op_pre o s.(db) -> db_wf (run_op o s).2.(db).
Proof.
  intros Hwf Hpre. destruct (run_op o s) as [[[]|e] s'] eqn:E; cbn [snd].
  - by apply run_op_Ok in E as [? _].
  - by apply run_op_Err in E as ->.
Qed.
Lemma demo_store_wf requested : db_wf (demo_store requested).(db).
Proof.
  unfold demo_store, run_all. cbn [foldl].
  generalize (default [] (sample_encode (sample_job requested))) as b. intros b.
  apply run_op_wf; [apply empty_db_wf|exact I].
Qed.
Lemma demo_env_quiet post ok : quiet_env (demo_env post ok).
Proof. by split. Qed.

Abbreviation demo_try env s := (try_build_and_deliver demo_config demo_core (fun _ => "timed out")
  (fun _ => "200 OK") "" (fun b => b) of_bytes of_bytes sample_encode demo_message demo_value
  env s "orch" "t1" (sample_job true)).

Lemma job_leaves_only_acknowledged_witness :
  (demo_try (demo_env built true) (demo_state true)).1.1 = Ok Delivered
  /\ in_flight (demo_try (demo_env built true) (demo_state true)).1.2 = ∅.
Proof.
  split; [vm_compute; reflexivity|].
  apply (job_leaves_only_acknowledged demo_config demo_core (fun _ => "timed out")
    (fun _ => "200 OK") "" (fun b => b) of_bytes of_bytes sample_encode demo_message demo_value
    (demo_env built true) (demo_state true) "orch" "t1" (sample_job true) (Ok Delivered)
    (demo_try (demo_env built true) (demo_state true)).1.2
    (demo_try (demo_env built true) (demo_state true)).2
    (demo_env_quiet _ _) (demo_store_wf true)); [set_solver|vm_compute; reflexivity].
Defined.

Lemma one_build_at_a_time_witness :
  let env := mkBuildEnv 0 0 0 0 (Response 200 None "") built (CasSendError demo_http)
    (fun t => (demo_try (demo_env built true) t).1.2) (demo_io true)
    (fun t => (demo_try (demo_env built true) t).1.2) in
  (demo_try env (demo_state true)).1.1 = Ok Delivered.
Proof.
  cbv zeta.
  rewrite (proj1 (one_build_at_a_time demo_config demo_core (fun _ => "timed out")
    (fun _ => "200 OK") "" (fun b => b) of_bytes of_bytes sample_encode demo_message demo_value
    (mkBuildEnv 0 0 0 0 (Response 200 None "") built (CasSendError demo_http)
      (fun t => (demo_try (demo_env built true) t).1.2) (demo_io true)
      (fun t => (demo_try (demo_env built true) t).1.2))
    (demo_env built true) (demo_env built true) (demo_state true) "orch" "t1" (sample_job true)
    "orch" (sample_job true) "orch" (sample_job true) (fun _ => eq_refl) (fun _ => eq_refl))).
  vm_compute. reflexivity.
Defined.

Definition claimed_state : AppState :=
  with_core (mark_healthy initial_health)
    (with_in_flight (fun f => {["t1"]} ∪ f) (demo_state true)).

Lemma failed_send_keeps_bundle_witness :
  (demo_try (demo_env built false) (demo_state true)).1.1 = Err (NotSent OpenFailed)
  /\ stored_job sample_decode (demo_try (demo_env built false) (demo_state true)).1.2
      ("orch", "t1") = Some (with_bundle (mkLeafPcsResponse "bundle" 6) (sample_job true)).
Proof.
  split; [vm_compute; reflexivity|].
  assert (Hrun : run_build demo_config demo_core (fun b => b) of_bytes of_bytes
      (demo_env built false) (with_in_flight (fun f => {["t1"]} ∪ f) (demo_state true)) "t1"
      (sample_job true) = (Ok (mkLeafPcsResponse "bundle" 6), claimed_state,
        [ECore GetHealth; ECore (PostLeafPcs 7200 sample_proof)])) by reflexivity.
  assert (Htry : demo_try (demo_env built false) (demo_state true)
    = (Err (NotSent OpenFailed), (demo_try (demo_env built false) (demo_state true)).1.2,
       (demo_try (demo_env built false) (demo_state true)).2)) by (vm_compute; reflexivity).
  refine (proj1 (failed_send_keeps_bundle demo_config demo_core (fun _ => "timed out")
    (fun _ => "200 OK") "" (fun b => b) of_bytes of_bytes sample_encode sample_decode demo_message
    demo_value (demo_env built false) (demo_state true) "orch" "t1" (sample_job true)
    (mkLeafPcsResponse "bundle" 6) claimed_state
    [ECore GetHealth; ECore (PostLeafPcs 7200 sample_proof)] OpenFailed
    (demo_try (demo_env built false) (demo_state true)).1.2
    (demo_try (demo_env built false) (demo_state true)).2 sample_round_trip
    (demo_env_quiet _ _) (demo_store_wf true) _ eq_refl Hrun Htry)). set_solver.
Defined.

Definition demo_task : ComputeTask := sample_task "t1".

Lemma retained_job_keeps_request_witness :
  stored_job sample_decode
    (retain_after_result sample_encode sample_decode (demo_state true) demo_task sample_proof).1
    ("orch", "t1") = Some (sample_job true).
Proof.
  destruct (retained_job_keeps_request sample_encode sample_decode (demo_state true) demo_task
    sample_proof
    (retain_after_result sample_encode sample_decode (demo_state true) demo_task sample_proof).1
    (retain_after_result sample_encode sample_decode (demo_state true) demo_task sample_proof).2
    sample_total sample_round_trip (demo_store_wf true) eq_refl) as (H & _).
  - vm_compute. reflexivity.
  - cbn in H |- *. rewrite H. vm_compute. reflexivity.
Defined.

(** An unrequested job past its time, and the pass that drops it. *)
Abbreviation demo_pass post now s := (retry_pass demo_config demo_core (fun _ => "timed out")
  (fun _ => "200 OK") "" (fun b => b) of_bytes of_bytes sample_encode sample_decode demo_message
  demo_value (fun _ => demo_env post true) now DEFAULT_UNREQUESTED_TTL_SECS s).

Lemma retry_pass_removes_for_cause_witness :
  stored_pcs (demo_pass built 30000 (demo_state false)).1 ("orch", "t1") = None
  /\ exists job, sample_decode (default [] (sample_encode (sample_job false))) = Some job
     /\ job.(job_requested) = false.
Proof.
  assert (Hgone : stored_pcs (demo_pass built 30000 (demo_state false)).1 ("orch", "t1") = None)
    by (vm_compute; reflexivity).
  split; [exact Hgone|].
  destruct (retry_pass_removes_for_cause demo_config demo_core (fun _ => "timed out")
    (fun _ => "200 OK") "" (fun b => b) of_bytes of_bytes sample_encode sample_decode demo_message
    demo_value (fun _ => demo_env built true) 30000 DEFAULT_UNREQUESTED_TTL_SECS (demo_state false)
    (demo_pass built 30000 (demo_state false)).1 (demo_pass built 30000 (demo_state false)).2
    (fun _ => demo_env_quiet _ _) (demo_store_wf false)) with (k := ("orch", "t1"))
    (d := mkPcsData (default [] (sample_encode (sample_job false))) 0) (created := 100)
    as (e & job & _ & _ & Hjob & _).
  - vm_compute. reflexivity.
  - vm_compute. reflexivity.
  - exact Hgone.
  - exists job. split; [exact Hjob|]. rewrite (sample_round_trip (sample_job false)) in Hjob
      by reflexivity. injection Hjob as <-. reflexivity.
Defined.

Lemma lookup_error_drops_request_witness :
  let s := with_store (mkStore (demo_store true).(db) [true] 200) initial_state in
  stored_job sample_decode
    (retain_after_result sample_encode sample_decode s demo_task sample_proof).1 ("orch", "t1")
  = Some (sample_job false).
Proof.
  cbv zeta.
  exact (proj1 (lookup_error_drops_request sample_encode sample_decode
    (with_store (mkStore (demo_store true).(db) [true] 200) initial_state) demo_task sample_proof
    _ _ sample_total sample_round_trip (demo_store_wf true) eq_refl (surjective_pairing _))).
Defined.

Definition demo_entry : PendingPcs :=
  mkPendingPcs 1 "orch" "t1" (default [] (sample_encode (sample_job true))) 0 100.
Abbreviation demo_entry_step env s := (retry_entry demo_config demo_core (fun _ => "timed out")
  (fun _ => "200 OK") "" (fun b => b) of_bytes of_bytes sample_encode sample_decode demo_message
  demo_value env 30000 DEFAULT_UNREQUESTED_TTL_SECS s demo_entry).

Lemma stale_entry_is_rebuilt_witness :
  exists w, (demo_entry_step (demo_env built true) initial_state).2
  = [ECore GetHealth; ECore (PostLeafPcs 7200 sample_proof); ESend (Sent PROTOCOL_PCS w)].
Proof.
  destruct (stale_entry_is_rebuilt demo_config demo_core (fun _ => "timed out")
    (fun _ => "200 OK") "" (fun b => b) of_bytes of_bytes sample_encode sample_decode demo_message
    demo_value (demo_env built true) 30000 DEFAULT_UNREQUESTED_TTL_SECS initial_state demo_entry
    (sample_job true) (mkLeafPcsResponse "bundle" 6) "") as (w & _ & H); try done.
  - apply empty_db_wf.
  - split_and!; try done. by exists [], (VObject [("ok", VBool true)]).
  - exists w. exact H.
Defined.

Lemma build_timeout_not_counted_witness :
  (demo_entry_step (demo_env (SendError demo_http) true) (demo_state true)).1.(store)
  = (demo_state true).(store).
Proof.
  apply (build_timeout_not_counted demo_config demo_core (fun _ => "timed out")
    (fun _ => "200 OK") "" (fun b => b) of_bytes of_bytes sample_encode sample_decode demo_message
    demo_value (demo_env (SendError demo_http) true) 30000 DEFAULT_UNREQUESTED_TTL_SECS
    (demo_state true) demo_entry (sample_job true) demo_http); done.
Defined.
