(* ===== verification/PcsHandlers.v ===== *)
(** * PCS streams ([src/application/pcs_open_call.rs],
      [src/transport/p2p/pcs_open_handler.rs], [pcs_request_handler.rs],
      [pcs_bid_client.rs])

    The orchestrator announces an open call for a bundle nobody built; a node
    whose wqc-core spills to disk caches it and bids.  Later the orchestrator
    asks the chosen node (the slice's proof winner, or the open call's builder)
    for the bundle. *)

From S2P Require Import Prelude Bytes F64 Models MemoryBudget Wire WorkLedger Pcs Table Storage.
From S2P Require Import CoreClient Config State Stream Cas SampleJson PcsOutbox.

Definition PROTOCOL_PCS_BID : string := "/wqc/tensor-pcs-bid/1.0.0".
Definition MAX_BID_ATTEMPTS : nat := 3.

Inductive HandlerError :=
| UnauthorizedPeer                       (* the stream is dropped *)
| BadMessage                             (* serde_json::from_slice failed *)
| KeyNotConfigured
| SignatureRejected (e : WireError)
| NotAddressed (node_id : string)        (* addressed to {}, not this node *)
| NotSpill                               (* must declare pcs_memory_policy=spill *)
| BidNotEncoded
| BidNotSent (e : StreamError).

(** ** Whether to bid *)

Definition should_bid_open_call_at (config : NodeConfig) (core_policy : PcsMemoryPolicy)
  (open : PcsOpenCall) (now_unix : Z) : bool :=
  if negb (is_spill core_policy) then false
  else if is_expired_at open now_unix then false
  else if refuses_builder open config.(peer_id) then false
  else if bool_decide (open.(oc_leaf_proof_hash) = "")
          || bool_decide (open.(oc_sub_task_id) = "") then false
  else true.

Definition skip_bid_reason (config : NodeConfig) (core_policy : PcsMemoryPolicy)
  (open : PcsOpenCall) (now_unix : Z) : string :=
  if negb (is_spill core_policy) then "policy=refuse"
  else if is_expired_at open now_unix then "expired"
  else if refuses_builder open config.(peer_id) then "already_refused"
  else if bool_decide (open.(oc_leaf_proof_hash) = "")
          || bool_decide (open.(oc_sub_task_id) = "") then "incomplete_open_call"
  else "unknown".

(** A core that does not answer counts as one that refuses. *)
Definition fetch_core_pcs_memory_policy (out : HttpOutcome CoreSystemInfo) : PcsMemoryPolicy :=
  match get_json out with
  | Ok info => core_pcs_memory_policy info
  | Err _ => Refuse
  end.

(** The submission loop; [ios] is what each attempt meets. *)
Fixpoint submit_attempts (attempts : nat) (ios : list StreamIo) (protocol : string)
  (payload : bytes) (last_err : option StreamError) : result StreamError unit * list sent :=
  match attempts, ios with
  | O, _ | _, [] => (Err (default OpenFailed last_err), [])
  | S attempts, io :: ios =>
    match write_outbound_stream io protocol payload with
    | (Ok _, w) => (Ok tt, w)
    | (Err e, w) =>
      let '(r, w') := submit_attempts attempts ios protocol payload (Some e) in (r, w ++ w')
    end
  end.

Section handlers.
Context (config : NodeConfig).
Context {signature verifying_key : Type}.
Context (b64_decode : string -> option bytes) (signature_from_slice : bytes -> option signature).
Context (key_from_bytes : bytes -> option verifying_key).
Context (verify : verifying_key -> bytes -> signature -> bool).
Context (sign : bytes -> bytes) (b64_encode : bytes -> string).
Context (bid_to_json : PcsBidMessage -> option bytes).
Context (open_from_json : bytes -> option PcsOpenCallMessage).
Context (request_from_json : bytes -> option PcsRequestMessage).
Context (job_to_json : PendingPcsJob -> option bytes) (job_from_json : bytes -> option PendingPcsJob).

Definition submit_pcs_open_call_bid (open : PcsOpenCall) (now_unix : Z) (ios : list StreamIo)
  : result HandlerError unit * list sent :=
  let message := build_signed_pcs_bid sign b64_encode now_unix open config.(peer_id) in
  if negb (is_spill_policy message.(pbm_bid)) then (Err NotSpill, [])
  else
    match bid_to_json message with
    | None => (Err BidNotEncoded, [])
    | Some payload =>
      let '(r, w) := submit_attempts MAX_BID_ATTEMPTS ios PROTOCOL_PCS_BID payload None in
      (map_err BidNotSent r, w)
    end.

(** [sysinfo]: wqc-core's answer to the probe of its policy. *)
Definition handle_pcs_open_stream (payload : bytes) (sysinfo : HttpOutcome CoreSystemInfo)
  (now_unix : Z) (ios : list StreamIo) (s : AppState)
  : result HandlerError unit * AppState * list sent :=
  match open_from_json payload with
  | None => (Err BadMessage, s, [])
  | Some message =>
    match config.(orchestrator_public_key) with
    | None => (Err KeyNotConfigured, s, [])
    | Some orchestrator_pubkey =>
      match verify_pcs_open_call_signature b64_decode signature_from_slice key_from_bytes verify
              message.(ocm_call) message.(ocm_signature) orchestrator_pubkey with
      | Err e => (Err (SignatureRejected e), s, [])
      | Ok _ =>
        let open := message.(ocm_call) in
        let core_policy := fetch_core_pcs_memory_policy sysinfo in
        let s := if is_spill core_policy then cache_open_call open s else s in
        if negb (should_bid_open_call_at config core_policy open now_unix) then (Ok tt, s, [])
        else
          let '(r, w) := submit_pcs_open_call_bid open now_unix ios in (r, s, w)
      end
    end
  end.

Definition on_pcs_open_stream (orchestrator peer : string) (payload : bytes)
  (sysinfo : HttpOutcome CoreSystemInfo) (now_unix : Z) (ios : list StreamIo) (s : AppState)
  : result HandlerError unit * AppState * list sent :=
  if decide (peer = orchestrator) then handle_pcs_open_stream payload sysinfo now_unix ios s
  else (Err UnauthorizedPeer, s, []).

(** The stream ends once the request is handed over; what the spawned tasks do
    is in the effects. *)
Definition handle_pcs_request_stream (during : AppState -> AppState) (payload : bytes)
  (s : AppState) : result HandlerError unit * AppState * list effect :=
  match request_from_json payload with
  | None => (Err BadMessage, s, [])
  | Some message =>
    let r := message.(prm_request) in
    match config.(orchestrator_public_key) with
    | None => (Err KeyNotConfigured, s, [])
    | Some orchestrator_pubkey =>
      match verify_pcs_request_signature b64_decode signature_from_slice key_from_bytes verify
              r message.(prm_signature) orchestrator_pubkey with
      | Err e => (Err (SignatureRejected e), s, [])
      | Ok _ =>
        if negb (bool_decide (r.(pr_node_id) = ""))
           && negb (bool_decide (r.(pr_node_id) = config.(peer_id)))
        then (Err (NotAddressed r.(pr_node_id)), s, [])
        else
          let '(s, es) := handle_pcs_request config job_to_json job_from_json during s
            orchestrator_pubkey r in (Ok tt, s, es)
      end
    end
  end.

Definition on_pcs_request_stream (orchestrator peer : string) (during : AppState -> AppState)
  (payload : bytes) (s : AppState) : result HandlerError unit * AppState * list effect :=
  if decide (peer = orchestrator) then handle_pcs_request_stream during payload s
  else (Err UnauthorizedPeer, s, []).
End handlers.

(** ** Lemmas *)

Lemma get_pcs_spec pubkey id s r s' :
  on_store (get_pending_pcs pubkey id) s = (r, s') ->
  s'.(store).(db) = s.(store).(db) /\ s'.(in_flight) = s.(in_flight) /\
  forall o, r = Ok o -> o = to_pending_pcs <$> select s.(store).(db).(pending_pcs) (pubkey, id).
Proof.
  intros (st & H & ->)%on_store_eq. split_and!; [by apply query_db in H|done|].
  intros o ->. by apply query_Ok in H.
Qed.

Lemma stored_job_row job_from_json s k row :
  db_wf s.(store).(db) -> select s.(store).(db).(pending_pcs) k = Some row ->
  stored_job job_from_json s k = job_from_json row.(row_data).(job_json).
Proof.
  intros [_ _ Hp] Hrow. unfold stored_job, stored_pcs, abs. cbn [a_pcs].
  rewrite <- select_view by done. by rewrite Hrow.
Qed.

Lemma lookup_retained_spec job_from_json n during s pubkey id o s' :
  (forall t, db_wf t.(store).(db) -> db_wf (during t).(store).(db)) ->
  db_wf s.(store).(db) ->
  lookup_retained job_from_json n during s pubkey id = (o, s') ->
  db_wf s'.(store).(db) /\
  forall job, o = Some job -> stored_job job_from_json s' (pubkey, id) = Some job.
Proof.
  intros Hd. revert s. induction n as [|n IH]; intros s Hwf; cbn [lookup_retained].
  { by intros [= <- <-]. }
  destruct (on_store (get_pending_pcs pubkey id) s) as [r s1] eqn:E.
  apply get_pcs_spec in E as (Hdb & _ & Hr).
  assert (Hwf1 : db_wf s1.(store).(db)) by (by rewrite Hdb).
  destruct r as [[entry|]|e].
  - specialize (Hr _ eq_refl). destruct (select _ _) as [row|] eqn:Hrow; [|done].
    injection Hr as ->. intros [= <- <-]. split; [done|]. intros job Hjob.
    rewrite (stored_job_row _ _ _ row); [by cbn in Hjob|done|by rewrite Hdb].
  - destruct n as [|n]; [by intros [= <- <-]|]. apply IH. by apply Hd.
  - by intros [= <- <-].
Qed.

Lemma upsert_stored job_to_json job_from_json s k job s' :
  (forall j b, job_to_json j = Some b -> job_from_json b = Some j) ->
  db_wf s.(store).(db) ->
  on_store (upsert_pending_pcs job_to_json k.1 k.2 job) s = (Ok tt, s') ->
  stored_job job_from_json s' k = Some job.
Proof.
  intros Hjson Hwf H. destruct (job_to_json job) as [j|] eqn:Hj.
  2: { unfold upsert_pending_pcs, on_store in H. by rewrite Hj in H. }
  rewrite (upsert_is_op _ _ _ _ j Hj), <- surjective_pairing in H.
  apply on_store_op in H as (_ & _ & _ & Ha); [|done..].
  unfold stored_job, stored_pcs. rewrite Ha. cbn. rewrite lookup_insert_eq. by apply Hjson.
Qed.

Lemma submit_attempts_sent n ios p b e r w :
  submit_attempts n ios p b e = (r, w) ->
  (length w <= n)%nat /\ Forall (fun x => x = Sent p b) w /\ (r = Ok tt -> w <> []).
Proof.
  revert ios e r w. induction n as [|n IH]; intros ios e r w; [by intros [= <- <-]|].
  destruct ios as [|io ios]; [intros [= <- <-]; split_and!; [cbn; lia|constructor|done]|].
  cbn [submit_attempts]. destruct (write_outbound_stream io p b) as [[[]|e1] w1] eqn:E.
  - intros [= <- <-]. apply write_outbound_Ok in E as ->. split_and!; [cbn; lia|by constructor|done].
  - assert (Hw : w1 = [] \/ w1 = [Sent p b]).
    { unfold write_outbound_stream in E. repeat case_match; simplify_eq; auto. }
    destruct (submit_attempts n ios p b (Some e1)) as [r2 w2] eqn:E2. intros [= <- <-].
    apply IH in E2 as (Hlen & Hall & Hne). rewrite length_app.
    destruct Hw as [->| ->]; cbn; split_and!; [lia|done|done|lia|by constructor|done].
Qed.

Lemma should_bid_iff config p open now :
  should_bid_open_call_at config p open now = true
  <-> p = Spill /\ (0 < open.(oc_deadline_unix) -> now < open.(oc_deadline_unix))
      /\ (config.(peer_id) ∉ open.(oc_refused_builders))
      /\ open.(oc_leaf_proof_hash) <> "" /\ open.(oc_sub_task_id) <> "".
Proof.
  unfold should_bid_open_call_at, is_spill, is_expired_at, refuses_builder.
  case_bool_decide as Hp; cbn [negb]; [|split; [done|by intros [? _]]].
  destruct (Z.ltb_spec 0 (oc_deadline_unix open)) as [H0|H0]; cbn [andb].
  2: destruct (existsb _ _) eqn:He.
  1: destruct (Z.leb_spec (oc_deadline_unix open) now); [split; [done|intros (_ & Hlt & _); lia]|].
  1: destruct (existsb _ _) eqn:He.
  1,3: split; [done|]; intros (_ & _ & Hn & _); destruct Hn;
    apply existsb_exists in He as (x & Hx & <-%bool_decide_eq_true); by apply list_elem_of_In.
  all: assert (Hn : peer_id config ∉ oc_refused_builders open)
    by (intros Hin%list_elem_of_In; apply not_true_iff_false in He; apply He, existsb_exists;
        exists (peer_id config); split; [done|by apply bool_decide_eq_true]).
  all: repeat case_bool_decide; cbn [orb]; split; intros Hx; try done;
    try (by destruct Hx as (_ & _ & _ & ? & ?)); split_and!; done || lia.
Qed.

(** ** Theorems *)

Section theorems.
Context (config : NodeConfig).
Context {sig vk : Type}.
Context (decode : string -> option bytes) (from_slice : bytes -> option sig).
Context (key_of : bytes -> option vk) (verify : vk -> bytes -> sig -> bool).
Context (sign : bytes -> bytes) (b64_encode : bytes -> string).
Context (bid_to_json : PcsBidMessage -> option bytes).
Context (open_from_json : bytes -> option PcsOpenCallMessage).
Context (request_from_json : bytes -> option PcsRequestMessage).
Context (job_to_json : PendingPcsJob -> option bytes) (job_from_json : bytes -> option PendingPcsJob).

Abbreviation on_open := (on_pcs_open_stream config decode from_slice key_of verify sign b64_encode
  bid_to_json open_from_json).
Abbreviation on_request := (on_pcs_request_stream config decode from_slice key_of verify
  request_from_json job_to_json job_from_json).
Abbreviation handle := (handle_pcs_request config job_to_json job_from_json).

(** The call is the orchestrator's: it came from its peer, reads as a message, and
    carries a signature that verifies with the configured key. *)
Definition genuine (orch peer : string) (payload : bytes) (m : PcsOpenCallMessage) : Prop :=
  peer = orch /\ open_from_json payload = Some m
  /\ exists key, config.(orchestrator_public_key) = Some key
     /\ signed decode from_slice key_of verify (serialize_pcs_open_call_payload m.(ocm_call))
          m.(ocm_signature) key.
(** The node could build the bundle: wqc-core spills, and the call is open to it. *)
Definition buildable (policy : PcsMemoryPolicy) (now : Z) (open : PcsOpenCall) : Prop :=
  policy = Spill /\ (0 < open.(oc_deadline_unix) -> now < open.(oc_deadline_unix))
  /\ (config.(peer_id) ∉ open.(oc_refused_builders))
  /\ open.(oc_leaf_proof_hash) <> "" /\ open.(oc_sub_task_id) <> "".
Definition bid_text (now : Z) (open : PcsOpenCall) : option bytes :=
  bid_to_json (build_signed_pcs_bid sign b64_encode now open config.(peer_id)).

(** C31. A node bids on an open call exactly when it could build the bundle.  What
    reaches the wire is at most three copies of one bid, signed by this node, for a
    call of the orchestrator whose signature verifies, that has not expired, has not
    refused this node, names its leaf proof and its sub-task, and comes while wqc-core
    says it spills; and for such a call the bid is submitted.  A call of the
    orchestrator whose signature verifies is cached under its sub-task exactly when
    wqc-core spills; any other stream leaves the node as it was, and nothing else of
    it changes. *)
Theorem open_call_bid_is_safe orch peer payload sysinfo now ios s r s' w :
  on_open orch peer payload sysinfo now ios s = (r, s', w) ->
  let policy := fetch_core_pcs_memory_policy sysinfo in
  (length w <= MAX_BID_ATTEMPTS)%nat /\
  (w <> [] -> exists m b, genuine orch peer payload m /\ buildable policy now m.(ocm_call)
     /\ bid_text now m.(ocm_call) = Some b /\ Forall (fun x => x = Sent PROTOCOL_PCS_BID b) w) /\
  (forall m b, genuine orch peer payload m -> buildable policy now m.(ocm_call) ->
     bid_text now m.(ocm_call) = Some b ->
     (r, w) = (map_err BidNotSent (submit_attempts MAX_BID_ATTEMPTS ios PROTOCOL_PCS_BID b None).1,
               (submit_attempts MAX_BID_ATTEMPTS ios PROTOCOL_PCS_BID b None).2)) /\
  (forall m, genuine orch peer payload m -> policy = Spill ->
     s' = with_open_calls <[m.(ocm_call).(oc_sub_task_id) := m.(ocm_call)]> s) /\
  ((forall m, genuine orch peer payload m -> policy <> Spill) -> s' = s).
Proof.
  unfold on_pcs_open_stream, handle_pcs_open_stream, bid_text. cbv zeta. intros H.
  set (policy := fetch_core_pcs_memory_policy sysinfo) in *.
  (* a stream that is turned away before the cache *)
  match goal with |- ?G =>
    assert (Hout : (forall m, ~ genuine orch peer payload m) -> s' = s -> w = [] -> G) end.
  { intros Hno -> ->. split_and!; [cbn; lia|done|intros m b Hm; by destruct (Hno m)|intros m Hm; by destruct (Hno m)|done]. }
  destruct (decide (peer = orch)) as [->|Hp]; [|simplify_eq; apply Hout; [by intros m [? _]|done..]].
  destruct (open_from_json payload) as [m|] eqn:Hm;
    [|simplify_eq; apply Hout; [intros m (_ & Hm' & _); congruence|done..]].
  destruct (orchestrator_public_key config) as [key|] eqn:Hkey;
    [|simplify_eq; apply Hout; [intros m' (_ & _ & k & Hk & _); congruence|done..]].
  destruct (verify_pcs_open_call_signature _ _ _ _ _ _ _) as [[]|] eqn:Hv.
  2: { simplify_eq. apply Hout; [|done..]. intros m' (_ & Hm' & k & Hk & Hs).
       rewrite Hm in Hm'. rewrite Hkey in Hk. simplify_eq.
       eapply verify_signed in Hs. unfold verify_pcs_open_call_signature in Hv. by rewrite Hs in Hv. }
  clear Hout. apply verify_signed in Hv.
  assert (Hg : genuine orch orch payload m) by (split_and!; [done..|by exists key]).
  assert (Huniq : forall m', genuine orch orch payload m' -> m' = m)
    by (intros m' (_ & Hm' & _); congruence).
  assert (Hs' : s' = if is_spill policy then cache_open_call (ocm_call m) s else s).
  { destruct (should_bid_open_call_at _ _ _ _); cbn [negb] in H; [|by simplify_eq].
    destruct (submit_pcs_open_call_bid _ _ _ _ _ _ _). by simplify_eq. }
  assert (Hcache : (forall m', genuine orch orch payload m' -> policy = Spill ->
       s' = with_open_calls <[m'.(ocm_call).(oc_sub_task_id) := m'.(ocm_call)]> s) /\
     ((forall m', genuine orch orch payload m' -> policy <> Spill) -> s' = s)).
  { rewrite Hs'. split; [by intros m' ->%Huniq ->|]. intros Hn. specialize (Hn m Hg).
    by destruct policy. }
  clear Hs'. destruct (should_bid_open_call_at config policy (ocm_call m) now) eqn:Hb; cbn [negb] in H.
  2: { simplify_eq. split_and!; [cbn; lia|done| |apply Hcache..].
       intros m' b ->%Huniq Hb' _. apply should_bid_iff in Hb'. congruence. }
  apply should_bid_iff in Hb. unfold submit_pcs_open_call_bid in H.
  change (negb (is_spill_policy _)) with false in H. cbn match in H.
  destruct (bid_to_json _) as [b|] eqn:Hbid.
  - destruct (submit_attempts _ _ _ _ _) as [r0 w0] eqn:E. injection H as <- _ <-.
    apply submit_attempts_sent in E as Hsent. destruct Hsent as (Hlen & Hall & _).
    split_and!; [done| | |apply Hcache..].
    + intros _. by exists m, b.
    + intros m' b' ->%Huniq _ Hb'. rewrite Hbid in Hb'. injection Hb' as <-. by rewrite E.
  - injection H as <- _ <-. split_and!; [cbn; lia|done| |apply Hcache..].
    intros m' b' ->%Huniq _ Hb'. congruence.
Qed.

(** C25. A bundle is built only for a request the orchestrator signed, that is
    not addressed to another node, and after the request is on disk: every build
    that is started is the stored job of that sub-task, marked as requested, and
    one of an open call fetches the leaf proof of the hash that was asked for. *)
Theorem build_follows_stored_request orch peer during payload s r s' es :
  (forall j b, job_to_json j = Some b -> job_from_json b = Some j) ->
  (forall t, db_wf t.(store).(db) -> db_wf (during t).(store).(db)) ->
  db_wf s.(store).(db) ->
  on_pcs_request_stream config decode from_slice key_of verify request_from_json job_to_json
    job_from_json orch peer during payload s = (r, s', es) ->
  es = [] \/
  exists m key job, es = [ESpawn key m.(prm_request).(pr_sub_task_id) job]
    /\ peer = orch /\ request_from_json payload = Some m
    /\ config.(orchestrator_public_key) = Some key
    /\ signed decode from_slice key_of verify (serialize_pcs_request_payload m.(prm_request))
         m.(prm_signature) key
    /\ (m.(prm_request).(pr_node_id) = "" \/ m.(prm_request).(pr_node_id) = config.(peer_id))
    /\ job.(job_requested) = true
    /\ stored_job job_from_json s' (key, m.(prm_request).(pr_sub_task_id)) = Some job
    /\ (request_is_open_call m.(prm_request) = true ->
         m.(prm_request).(pr_leaf_proof_hash) <> ""
         /\ src_leaf_proof_hash <$> job.(job_open_call) = Some m.(prm_request).(pr_leaf_proof_hash)).
Proof.
  intros Hjson Hd Hwf. unfold on_pcs_request_stream, handle_pcs_request_stream. intros H.
  destruct (decide (peer = orch)) as [->|]; [|by simplify_eq; auto].
  destruct (request_from_json payload) as [m|] eqn:Hm; [|by simplify_eq; auto].
  destruct (orchestrator_public_key config) as [key|] eqn:Hkey; [|by simplify_eq; auto].
  destruct (verify_pcs_request_signature _ _ _ _ _ _ _) as [[]|] eqn:Hv; [|by simplify_eq; auto].
  apply verify_signed in Hv.
  destruct (negb _ && negb _) eqn:Ha; [by simplify_eq; auto|].
  assert (Haddr : pr_node_id (prm_request m) = "" \/ pr_node_id (prm_request m) = peer_id config).
  { apply andb_false_iff in Ha as [Ha|Ha]; apply negb_false_iff, bool_decide_eq_true in Ha; auto. }
  destruct (handle during s key (prm_request m)) as [s1 es1] eqn:E. injection H as <- <- <-.
  destruct (decide (es1 = [])) as [->|Hne]; [by left|right].
  assert (Hgoal : exists job, es1 = [ESpawn key (pr_sub_task_id (prm_request m)) job]
    /\ job_requested job = true
    /\ stored_job job_from_json s1 (key, pr_sub_task_id (prm_request m)) = Some job
    /\ (request_is_open_call (prm_request m) = true -> pr_leaf_proof_hash (prm_request m) <> ""
       /\ src_leaf_proof_hash <$> job_open_call job = Some (pr_leaf_proof_hash (prm_request m)))).
  2: { destruct Hgoal as (job & ? & ? & ? & ?). exists m, key, job. by split_and!. }
  set (rq := prm_request m) in *. clearbody rq. unfold handle_pcs_request in E.
  destruct (request_is_open_call rq) eqn:Hopen.
  - unfold handle_open_call_pcs_request in E. case_decide as Hh; [by simplify_eq|].
    destruct (cached_open_call s _ _) as [open|] eqn:Hc; [|by simplify_eq].
    destruct (on_store _ s) as [[[]|] s2] eqn:E2; simplify_eq.
    eexists. split; [done|]. split; [done|].
    split; [by apply (upsert_stored job_to_json _ s (key, pr_sub_task_id rq))|].
    intros _. split; [done|]. cbn. f_equal. unfold cached_open_call in Hc.
    destruct (open_call_cache s !! _) as [open'|]; [|done]. cbn in Hc.
    rewrite (bool_decide_eq_false_2 _ Hh) in Hc. cbn [negb andb] in Hc.
    case_bool_decide; cbn [negb] in Hc; by simplify_eq.
  - destruct (lookup_retained _ _ _ _ _ _) as [o s2] eqn:E2.
    apply lookup_retained_spec in E2 as [Hwf2 Hst]; [|done..].
    destruct o as [job|]; [|by simplify_eq]. specialize (Hst _ eq_refl).
    destruct (job_requested job) eqn:Hreq; [by simplify_eq; eexists|].
    destruct (on_store _ s2) as [[[]|] s3] eqn:E3; simplify_eq.
    eexists. split; [done|]. split; [done|].
    split; [by apply (upsert_stored job_to_json _ s2 (key, pr_sub_task_id rq))|done].
Qed.
End theorems.

(** *** Witnesses *)

Definition keyed_config : NodeConfig :=
  mkNodeConfig "peer" "http://localhost:3000" 26 2048 (f64_of_Z 1) None (8 * GIB_U64) Ram None
    300 None (f64_dec 5 1) (f64_of_Z 5) (f64_of_Z 30) 7200 [] ["http://orch"] None [] 4002 60
    8080 "sqlite:wqc-node.db" 50000000000000000 (Some "orch-peer") (Some toy_key) None None.
Definition sample_call : PcsOpenCall :=
  mkPcsOpenCall "parent" "t1" "0" "hash" 10 "https://cas" "5" 5000 100 ["other"].
Definition sample_call_message : PcsOpenCallMessage :=
  mkPcsOpenCallMessage sample_call (of_bytes (toy_tag (serialize_pcs_open_call_payload sample_call))).
Definition spill_info : CoreSystemInfo :=
  mkCoreSystemInfo 0 0 f64_zero "auto" "cpu" None 128 "spill" None None None.
Definition sample_pcs_request : PcsRequest :=
  mkPcsRequest "t1" "parent" "0" "peer" 100 "" "".
Definition sample_request_message : PcsRequestMessage :=
  mkPcsRequestMessage sample_pcs_request
    (of_bytes (toy_tag (serialize_pcs_request_payload sample_pcs_request))).
Definition sample_bid_json (m : PcsBidMessage) : option bytes :=
  Some (serialize_pcs_bid_payload m.(pbm_bid)).

Definition demo_open : result HandlerError unit * AppState * list sent :=
  on_pcs_open_stream keyed_config toy_decode Some Some toy_verify (fun b => b) of_bytes
    sample_bid_json (fun _ => Some sample_call_message) "orch-peer" "orch-peer" []
    (Response 200 (Some spill_info) "") 200 [demo_io false; demo_io true] initial_state.

Lemma open_call_bid_is_safe_witness :
  demo_open.1.1 = Ok tt /\ length demo_open.2 = 1%nat
  /\ demo_open.1.2.(open_call_cache) !! "t1" = Some sample_call
  /\ fetch_core_pcs_memory_policy (Response 200 (Some spill_info) "") = Spill.
Proof.
  split; [vm_compute; reflexivity|]. split; [vm_compute; reflexivity|].
  destruct (open_call_bid_is_safe keyed_config toy_decode Some Some toy_verify (fun b => b) of_bytes
    sample_bid_json (fun _ => Some sample_call_message) "orch-peer" "orch-peer" []
    (Response 200 (Some spill_info) "") 200 [demo_io false; demo_io true] initial_state
    demo_open.1.1 demo_open.1.2 demo_open.2) as (_ & H & _ & Hc & _).
  - unfold demo_open. by destruct (on_pcs_open_stream _ _ _ _ _ _ _ _ _ _ _ _ _ _ _ _) as [[? ?] ?].
  - destruct H as (m & b & Hg & (Hp & _) & _).
    { intros H. apply (f_equal length) in H. vm_compute in H. discriminate H. }
    split; [|exact Hp]. rewrite (Hc m Hg Hp). destruct Hg as (_ & [= <-] & _). reflexivity.
Defined.

Definition demo_asked : result HandlerError unit * AppState * list effect :=
  on_pcs_request_stream keyed_config toy_decode Some Some toy_verify
    (fun _ => Some sample_request_message) sample_encode sample_decode "orch-peer" "orch-peer"
    (fun s => s) [] (with_store (run_op (OpUpsertPcs (toy_key, "t1")
      (default [] (sample_encode (sample_job false)))) (mkStore empty_db [] 100)).2 initial_state).

Lemma build_follows_stored_request_witness :
  stored_job sample_decode demo_asked.1.2 (toy_key, "t1") = Some (sample_job true)
  /\ exists key job, demo_asked.2 = [ESpawn key "t1" job] /\ job.(job_requested) = true.
Proof.
  split; [vm_compute; reflexivity|].
  destruct (build_follows_stored_request keyed_config toy_decode Some Some toy_verify
    (fun _ => Some sample_request_message) sample_encode sample_decode "orch-peer" "orch-peer"
    (fun s => s) [] (with_store (run_op (OpUpsertPcs (toy_key, "t1")
      (default [] (sample_encode (sample_job false)))) (mkStore empty_db [] 100)).2 initial_state)
    demo_asked.1.1 demo_asked.1.2 demo_asked.2 sample_round_trip (fun _ H => H))
    as [H|(m & key & job & He & _ & Hm & _ & _ & _ & Hr & _)].
  - apply run_op_wf; [apply empty_db_wf|exact I].
  - unfold demo_asked. by destruct (on_pcs_request_stream _ _ _ _ _ _ _ _ _ _ _ _ _) as [[? ?] ?].
  - apply (f_equal length) in H. vm_compute in H. discriminate H.
  - injection Hm as <-. exists key, job. split; [exact He|exact Hr].
Defined.
