(* ===== verification/ResultJson.v ===== *)
(** * Result messages ([src/domain/result.rs], [result_delivery.rs])

    The JSON a node sends for a computed sub-task.  The orchestrator hashes the
    parts of it, so their text is fixed by hand; [serde_json] writes the strings,
    the proof and the work report and is a parameter. *)

From S2P Require Import Prelude Bytes F64 FloatText Models GoJson.

Record ResultMessage := mkResultMessage {
  rm_sub_task_id : string; rm_node_id : string; rm_result_type : string;
  rm_complex_result : ComplexResult; rm_sample_result : option SampleResult;
  rm_expectation_result : option ExpectationResult; rm_proof : Proof;
  rm_work_report : option WorkReport; rm_error : option string
}.

Definition format_go_float (val : f64) : text :=
  if f64_eqb val (f64_of_Z (f64_as_i64 val)) then display_f64_int_1 val else display_f64 val.

(** The literals of the format strings: a quoted name and a colon. *)
Definition field (name : string) : text := [34] ++ lit name ++ [34; 58].

Definition format_go_complex_result_json (v : ComplexResult) : text :=
  [123] ++ field "real" ++ format_go_float v.(cr_real)
  ++ [44] ++ field "imag" ++ format_go_float v.(cr_imag) ++ [125].

(** The loop over the entries, [pairs] so far. *)
Fixpoint push_pairs {A} (write : string * A -> text) (pairs : text) (l : list (string * A)) : text :=
  match l with
  | [] => pairs
  | kv :: l =>
    let pairs := if bool_decide (pairs = []) then pairs else pairs ++ [44] in
    push_pairs write (pairs ++ write kv) l
  end.

Definition expectation_pair (kv : string * ComplexResult) : text :=
  [34] ++ chars kv.1 ++ [34; 58] ++ format_go_complex_result_json kv.2.
Definition count_pair (kv : string * Z) : text :=
  [34] ++ chars kv.1 ++ [34; 58] ++ dec_text kv.2.

Definition format_go_expectation_result_json (v : ExpectationResult) : text :=
  [123] ++ field "values" ++ [123] ++ push_pairs expectation_pair [] v.(values) ++ [125; 125].

Definition format_go_sample_result_json (v : SampleResult) : text :=
  [123] ++ field "counts" ++ [123] ++ push_pairs count_pair [] v.(counts) ++ [125; 44]
  ++ field "shots" ++ dec_text v.(sr_shots) ++ [125].

Section message.
Context (json_string : string -> text) (proof_json : Proof -> text) (report_json : WorkReport -> text).

Definition failure_json_bytes (sub_task_id node_id error : string) : bytes :=
  utf8_encode ([123] ++ field "sub_task_id" ++ json_string sub_task_id
    ++ [44] ++ field "node_id" ++ json_string node_id
    ++ [44] ++ field "error" ++ json_string error ++ [125]).

(** [Some] as its text, [None] as [null] *)
Definition or_null {A} (write : A -> text) (o : option A) : text :=
  match o with Some x => write x | None => lit "null" end.

Definition to_json_bytes (m : ResultMessage) : bytes :=
  utf8_encode ([123] ++ field "sub_task_id" ++ json_string m.(rm_sub_task_id)
    ++ [44] ++ field "node_id" ++ json_string m.(rm_node_id)
    ++ [44] ++ field "result_type" ++ json_string m.(rm_result_type)
    ++ [44] ++ field "complex_result" ++ format_go_complex_result_json m.(rm_complex_result)
    ++ [44] ++ field "sample_result" ++ or_null format_go_sample_result_json m.(rm_sample_result)
    ++ [44] ++ field "expectation_result"
      ++ or_null format_go_expectation_result_json m.(rm_expectation_result)
    ++ [44] ++ field "proof" ++ proof_json m.(rm_proof)
    ++ [44] ++ field "work_report" ++ or_null report_json m.(rm_work_report)
    ++ [44] ++ field "error" ++ or_null json_string m.(rm_error) ++ [125]).

Inductive WireBodyError := MissingComplexResult | MissingProof.

Definition build_result_wire_body (task : ComputeTask) (payload : TaskResultPayload)
  (node_id : string) : result WireBodyError bytes :=
  if negb (bool_decide (payload.(pl_status) = "success")) then
    Ok (failure_json_bytes task.(request).(task_id) node_id
          (default "compute failed" payload.(pl_error)))
  else
    match payload.(pl_complex_result) with
    | None => Err MissingComplexResult
    | Some complex_result =>
      match payload.(pl_proof) with
      | None => Err MissingProof
      | Some proof =>
        Ok (to_json_bytes (mkResultMessage task.(request).(task_id) node_id
          (if bool_decide (payload.(pl_result_type) = "") then "statevector_scalar"
           else payload.(pl_result_type))
          complex_result payload.(pl_sample_result) payload.(pl_expectation_result) proof
          payload.(pl_work_report) None))
      end
    end.
End message.

(** The unit tests' texts. *)
Example complex_result_text :
  format_go_complex_result_json (mkComplexResult f64_zero (f64_of_Z 1))
  = [123; 34] ++ lit "real" ++ [34; 58] ++ lit "0.0,"
    ++ [34] ++ lit "imag" ++ [34; 58] ++ lit "1.0}".
Proof. vm_compute. reflexivity. Qed.

(** ** Lemmas *)

(** What a float is written with: no comma, brace or quote. *)
Definition float_char (c : Z) : bool :=
  is_digit_char c || bool_decide (c ∈ [45; 46; 78; 97; 102; 105; 110]).

Lemma float_char_digits t : forallb is_digit_char t = true -> Forall (fun c => float_char c = true) t.
Proof.
  intros H. apply Forall_forall. intros c Hc%list_elem_of_In.
  unfold float_char. by rewrite (proj1 (forallb_forall _ _) H c Hc).
Qed.

Lemma drop_while_incl {A} (f : A -> bool) (l : list A) x : x ∈ drop_while f l -> x ∈ l.
Proof.
  induction l as [|y l IH]; cbn; [done|]. destruct (f y); [|done].
  intros H. apply elem_of_cons. auto.
Qed.

Lemma decimal_of_digits d p : 0 <= d -> forallb is_digit_char (decimal_of d p).1 = true.
Proof.
  intros Hd. unfold decimal_of, trim_zeros. cbn [fst]. apply forallb_forall. intros c Hc.
  apply list_elem_of_In in Hc. rewrite elem_of_reverse in Hc. apply drop_while_incl in Hc.
  rewrite elem_of_reverse in Hc. apply list_elem_of_In in Hc.
  exact (proj1 (forallb_forall _ _) (dec_text_digits d Hd) c Hc).
Qed.

Lemma dec_floor_nonneg m e p : 0 <= m -> 0 <= dec_floor m e p.
Proof.
  intros Hm. unfold dec_floor, q_bin.
  assert (Hpow : forall b k, 0 < b -> 0 <= k -> 0 < b ^ k) by (intros; by apply Z.pow_pos_nonneg).
  destruct (Z.leb_spec 0 e), (Z.leb_spec 0 p); apply Z.div_pos;
    repeat first [apply Z.mul_nonneg_nonneg | apply Z.mul_pos_pos];
    first [lia | apply Hpow; lia | apply Z.lt_le_incl, Hpow; lia].
Qed.

Lemma shortest_from_digits fuel m e p digits exp :
  0 <= m -> shortest_from fuel m e p = Some (digits, exp) -> forallb is_digit_char digits = true.
Proof.
  intros Hm. revert p. induction fuel as [|fuel IH]; intros p; cbn; [done|].
  pose proof (dec_floor_nonneg m e p Hm) as Hd.
  destruct (_ && _); [|destruct (_ && _)]; [..|apply IH];
    intros [= <- _]; apply (decimal_of_digits _ p); lia.
Qed.

Lemma positional_chars digits exp :
  forallb is_digit_char digits = true -> Forall (fun c => float_char c = true) (positional digits exp).
Proof.
  intros Hd%float_char_digits. unfold positional.
  assert (Hz : forall k, Forall (fun c => float_char c = true) (replicate k CH_0))
    by (intros; apply Forall_replicate; done).
  repeat case_match; rewrite ?Forall_app; split_and!; auto using Forall_take, Forall_drop.
Qed.

Lemma sign_chars (b : bool) :
  Forall (fun c => float_char c = true) (if b then [CH_MINUS] else []).
Proof. destruct b; by repeat constructor. Qed.

Lemma go_float_chars x : Forall (fun c => float_char c = true) (format_go_float x).
Proof.
  unfold format_go_float, display_f64_int_1, display_f64.
  destruct (f64_eqb _ _).
  - rewrite !Forall_app. split_and!; [apply sign_chars| |by repeat constructor].
    apply float_char_digits, dec_text_digits. lia.
  - destruct x as [s|s| |s m e].
    + rewrite Forall_app. split; [apply sign_chars|by repeat constructor].
    + rewrite Forall_app. split; [apply sign_chars|by repeat constructor].
    + by repeat constructor.
    + rewrite Forall_app. split; [apply sign_chars|].
      destruct (shortest_digits (Z.pos m) e) as [[digits exp]|] eqn:E; [|constructor].
      apply positional_chars. by apply shortest_from_digits in E.
Qed.

(** Two texts that end at their first [c] are equal when what follows is. *)
Lemma until_char (c : Z) a b x y :
  c ∉ a -> c ∉ b -> a ++ c :: x = b ++ c :: y -> a = b /\ x = y.
Proof.
  revert b. induction a as [|h a IH]; intros [|k b] Ha Hb; cbn.
  - by intros [= ->].
  - intros [= -> _]. destruct Hb. by left.
  - intros [= -> _]. destruct Ha. by left.
  - intros [= -> H]. apply not_elem_of_cons in Ha as [_ Ha], Hb as [_ Hb].
    apply IH in H as [-> ->]; done.
Qed.

Lemma not_float_char c t :
  float_char c = false -> Forall (fun c => float_char c = true) t -> c ∉ t.
Proof. intros Hc Ht Hin. eapply Forall_forall in Ht; [|done]. congruence. Qed.

Lemma complex_json_split v w x y :
  format_go_complex_result_json v ++ x = format_go_complex_result_json w ++ y ->
  format_go_float v.(cr_real) = format_go_float w.(cr_real)
  /\ format_go_float v.(cr_imag) = format_go_float w.(cr_imag) /\ x = y.
Proof.
  unfold format_go_complex_result_json. rewrite <- !app_assoc.
  intros H. apply app_inv_head in H. apply app_inv_head in H.
  assert (Hn : forall c f, float_char c = false -> c ∉ format_go_float f)
    by (intros; apply not_float_char; [done|apply go_float_chars]).
  apply until_char in H as [Hr H]; [|by apply Hn..]. apply app_inv_head in H.
  apply until_char in H as [Hi H]; [|by apply Hn..]. done.
Qed.

Lemma push_pairs_rest {A} (write : string * A -> text) pairs l :
  pairs <> [] -> push_pairs write pairs l = pairs ++ flat_map (fun kv => [44] ++ write kv) l.
Proof.
  revert pairs. induction l as [|kv l IH]; intros pairs Hne; cbn [push_pairs flat_map].
  - by rewrite app_nil_r.
  - rewrite bool_decide_eq_false_2 by done. rewrite IH; [by rewrite <- !app_assoc|].
    by destruct pairs.
Qed.

(** Entries of a map whose keys need no escape. *)
Definition plain_key (id : string) : Prop := valid_utf8 id /\ 34 ∉ chars id.

Section pairs.
Context {A : Type} (write : A -> text) (same : A -> A -> Prop).
Hypothesis write_split : forall v w x y c d,
  float_char c = false -> float_char d = false ->
  write v ++ c :: x = write w ++ d :: y -> same v w /\ c :: x = d :: y.

Definition pair_text (kv : string * A) : text := [34] ++ chars kv.1 ++ [34; 58] ++ write kv.2.
Definition same_entry (a b : string * A) : Prop := a.1 = b.1 /\ same a.2 b.2.

Lemma pair_split a b c d x y :
  plain_key a.1 -> plain_key b.1 -> float_char c = false -> float_char d = false ->
  pair_text a ++ c :: x = pair_text b ++ d :: y -> same_entry a b /\ c :: x = d :: y.
Proof.
  intros [Ua Ha] [Ub Hb] Hc Hd. unfold pair_text. rewrite <- !app_assoc. intros H.
  apply app_inv_head in H. cbn [app] in H. apply until_char in H as [Hk H]; [|done..].
  injection H as H. apply write_split in H as [Hs H]; [|done..].
  split; [split; [by apply valid_utf8_inj|done]|done].
Qed.

Lemma rest_split l k x y :
  Forall (fun kv => plain_key kv.1) l -> Forall (fun kv => plain_key kv.1) k ->
  flat_map (fun kv => [44] ++ pair_text kv) l ++ 125 :: x
  = flat_map (fun kv => [44] ++ pair_text kv) k ++ 125 :: y ->
  Forall2 same_entry l k /\ x = y.
Proof.
  intros Hl. revert k. induction Hl as [|a l Ha _ IH]; intros [|b k] Hk; cbn [flat_map].
  - intros [= ->]. by split.
  - rewrite <- !app_assoc. by intros [=].
  - rewrite <- !app_assoc. by intros [=].
  - apply Forall_cons in Hk as [Hb Hk]. rewrite <- !app_assoc. intros H. apply app_inv_head in H.
    assert (Hhead : forall m z, exists c t, float_char c = false
      /\ flat_map (fun kv => [44] ++ pair_text kv) m ++ 125 :: z = c :: t).
    { intros [|e m] z; cbn; [by exists 125, z|]. by eexists 44, _. }
    destruct (Hhead l x) as (c & t & Hc & E1), (Hhead k y) as (d & u & Hd & E2).
    rewrite E1, E2 in H. apply pair_split in H as [Hs H]; [|done..].
    rewrite <- E1, <- E2 in H. apply IH in H as [? ->]; [|done]. split; [by constructor|done].
Qed.

Lemma pairs_split l k x y :
  Forall (fun kv => plain_key kv.1) l -> Forall (fun kv => plain_key kv.1) k ->
  push_pairs pair_text [] l ++ 125 :: x = push_pairs pair_text [] k ++ 125 :: y ->
  Forall2 same_entry l k /\ x = y.
Proof.
  intros Hl Hk. destruct l as [|a l], k as [|b k]; cbn [push_pairs].
  - intros [= ->]. by split.
  - rewrite bool_decide_eq_true_2 by done. rewrite push_pairs_rest by done. by intros [=].
  - rewrite bool_decide_eq_true_2 by done. rewrite push_pairs_rest by done. by intros [=].
  - rewrite bool_decide_eq_true_2 by done. rewrite !push_pairs_rest by done. intros H.
    apply (rest_split (a :: l) (b :: k)); [done..|]. cbn [flat_map].
    rewrite <- !app_assoc. f_equal. rewrite !app_assoc. exact H.
Qed.
End pairs.

(** Digits up to the first other character. *)
Lemma until_other (f : Z -> bool) a b c d x y :
  forallb f a = true -> forallb f b = true -> f c = false -> f d = false ->
  a ++ c :: x = b ++ d :: y -> a = b /\ c :: x = d :: y.
Proof.
  revert b. induction a as [|h a IH]; intros [|k b] Ha Hb Hc Hd; cbn; try done.
  - intros [= -> _]. cbn in Hb. rewrite Hc in Hb. done.
  - intros [= -> _]. cbn in Ha. rewrite Hd in Ha. done.
  - intros [= -> H]. cbn in Ha, Hb. apply andb_prop in Ha as [_ Ha], Hb as [_ Hb].
    apply IH in H as [-> H]; done.
Qed.

Definition same_complex (v w : ComplexResult) : Prop :=
  format_go_float v.(cr_real) = format_go_float w.(cr_real)
  /\ format_go_float v.(cr_imag) = format_go_float w.(cr_imag).

Lemma complex_write_split v w x y c d :
  float_char c = false -> float_char d = false ->
  format_go_complex_result_json v ++ c :: x = format_go_complex_result_json w ++ d :: y ->
  same_complex v w /\ c :: x = d :: y.
Proof. intros _ _ H. by apply complex_json_split in H as (? & ? & ?). Qed.

Lemma count_write_split (n m : Z) x y c d :
  float_char c = false -> float_char d = false ->
  dec_text (Z.abs n) ++ c :: x = dec_text (Z.abs m) ++ d :: y -> Z.abs n = Z.abs m /\ c :: x = d :: y.
Proof.
  intros Hc Hd H. apply orb_false_elim in Hc as [Hc _], Hd as [Hd _].
  apply (until_other is_digit_char) in H as [Hn H]; try apply dec_text_digits; try done; try lia.
  split; [|done]. apply (f_equal digits_value) in Hn. rewrite !dec_text_value in Hn by lia. done.
Qed.

Lemma push_pairs_ext {A} (write write' : string * A -> text) pairs l :
  Forall (fun kv => write kv = write' kv) l ->
  push_pairs write pairs l = push_pairs write' pairs l.
Proof. intros H. revert pairs. induction H as [|kv l Hkv _ IH]; intros pairs; cbn; [done|]. by rewrite Hkv, IH. Qed.

Definition sample_wf (v : SampleResult) : Prop :=
  Forall (fun kv => plain_key kv.1 /\ 0 <= kv.2) v.(counts) /\ 0 <= v.(sr_shots).

Lemma count_pairs_abs l :
  Forall (fun kv : string * Z => plain_key kv.1 /\ 0 <= kv.2) l ->
  push_pairs count_pair [] l = push_pairs (pair_text (fun n => dec_text (Z.abs n))) [] l.
Proof.
  intros H. apply push_pairs_ext. eapply Forall_impl; [exact H|]. intros [k n] [_ Hn].
  unfold count_pair, pair_text. cbn in *. by rewrite Z.abs_eq.
Qed.

Lemma same_counts l k :
  Forall (fun kv : string * Z => plain_key kv.1 /\ 0 <= kv.2) l ->
  Forall (fun kv : string * Z => plain_key kv.1 /\ 0 <= kv.2) k ->
  Forall2 (same_entry (fun n m => Z.abs n = Z.abs m)) l k -> l = k.
Proof.
  intros Hl Hk H. induction H as [|[a n] [b m] l k [Hab Hnm] _ IH]; [done|].
  apply Forall_cons in Hl as [[_ Hn] Hl], Hk as [[_ Hm] Hk]. cbn in *. subst.
  rewrite IH by done. do 2 f_equal. lia.
Qed.

(** ** Theorems *)

(** The texts that are hashed determine the results: two expectation results
    whose observable ids need no escaping, and that have the same text, have the
    same ids in the same order with the same texts of both parts of every value,
    and two sample results with the same text are equal, counts and shots. *)
Theorem result_json_injective :
  (forall v w : ExpectationResult,
     Forall (fun kv => plain_key kv.1) v.(values) -> Forall (fun kv => plain_key kv.1) w.(values) ->
     format_go_expectation_result_json v = format_go_expectation_result_json w ->
     Forall2 (same_entry same_complex) v.(values) w.(values)) /\
  (forall v w : SampleResult, sample_wf v -> sample_wf w ->
     format_go_sample_result_json v = format_go_sample_result_json w -> v = w).
Proof.
  split.
  - intros v w Hv Hw H. unfold format_go_expectation_result_json in H.
    do 3 apply app_inv_head in H.
    apply (pairs_split format_go_complex_result_json same_complex) in H as [? _]; try done.
    intros ? ? ? ? ? ? ? ?. by apply complex_write_split.
  - intros [l n] [k m] [Hl Hn] [Hk Hm] H. unfold format_go_sample_result_json in H.
    cbn [counts sr_shots] in *. do 3 apply app_inv_head in H.
    rewrite !count_pairs_abs in H by done.
    apply (pairs_split (fun n => dec_text (Z.abs n)) (fun n m => Z.abs n = Z.abs m)) in H
      as [Hc H].
    + injection H as H. apply (until_other is_digit_char) in H as [Hd _];
        try apply dec_text_digits; try done.
      apply (f_equal digits_value) in Hd. rewrite !dec_text_value in Hd by done.
      f_equal; [by apply same_counts|done].
    + intros ? ? ? ? ? ? ? ?. by apply count_write_split.
    + eapply Forall_impl; [exact Hl|]. by intros ? [].
    + eapply Forall_impl; [exact Hk|]. by intros ? [].
Qed.

Definition quote : string := of_bytes [Byte.x22].
Definition zero_result : ComplexResult := mkComplexResult f64_zero f64_zero.

(** Ids are not escaped: an id that holds a quote can stand for two entries,
    so two different expectation results have one text. *)
Theorem unescaped_id_is_ambiguous :
  let id := ("a" +:+ quote +:+ ":{" +:+ quote +:+ "real" +:+ quote +:+ ":0.0," +:+ quote +:+ "imag"
    +:+ quote +:+ ":0.0}," +:+ quote +:+ "b")%string in
  format_go_expectation_result_json (mkExpectationResult [(id, zero_result)])
  = format_go_expectation_result_json
      (mkExpectationResult [("a", zero_result); ("b", zero_result)]).
Proof. vm_compute. reflexivity. Qed.
