(* ===== verification/ResultOutbox.v ===== *)
(** * The result outbox ([src/application/result_outbox.rs],
      [src/transport/p2p/result_sink.rs])

    The result of a sub-task is written to the outbox before it is sent and
    deleted once it was sent; a loop sends what is left.  A delivered proof is
    handed to the PCS outbox.  Functions return the state and the effects, as in
    [PcsOutbox]; what a stream does is an argument. *)

From S2P Require Import Prelude Bytes F64 FloatText Models MemoryBudget GoJson Wire WorkLedger Pcs.
From S2P Require Import Table Storage CoreClient Config State Stream Cas SampleJson PcsOutbox.
From S2P Require Import ResultJson.

Inductive DeliverError :=
| WireBodyFailed (e : WireBodyError)
| NotStored (e : StorageError)
| NotDelivered (e : StreamError)
| NotDeleted (e : StorageError).

Section outbox.
Context (config : NodeConfig).
Context (json_string : string -> text) (proof_json : Proof -> text) (report_json : WorkReport -> text).
Context (job_to_json : PendingPcsJob -> option bytes) (job_from_json : bytes -> option PendingPcsJob).
Context (task_from_json : string -> option ComputeTask).
Context (value_from_json : bytes -> option value) (proof_from_value : value -> option Proof).

Abbreviation retain := (retain_after_result job_to_json job_from_json).

(** [update_status] is only logged when it fails. *)
Definition set_task_status (pubkey task_id status : string) (s : AppState) : AppState :=
  (on_store (update_status pubkey task_id status) s).2.

Definition terminal_status (payload : TaskResultPayload) : string :=
  if bool_decide (payload.(pl_status) = "error") then "failed" else "completed".

Definition try_deliver_pending (io : StreamIo) (s : AppState) (pubkey sub_task_id : string)
  (wire_body : bytes) (payload : TaskResultPayload) (task : ComputeTask)
  : result DeliverError unit * AppState * list effect :=
  match send_result_wire config s io wire_body with
  | (Err e, w) => (Err (NotDelivered e), s, map ESend w)
  | (Ok _, w) =>
    match on_store (delete_pending_result pubkey sub_task_id) s with
    | (Err e, s) => (Err (NotDeleted e), s, map ESend w)
    | (Ok _, s) =>
      match bool_decide (payload.(pl_status) = "success"), payload.(pl_proof) with
      | true, Some proof =>
        let '(s, es) := retain s task proof in (Ok tt, s, map ESend w ++ es)
      | _, _ => (Ok tt, s, map ESend w)
      end
    end
  end.

Definition deliver_result (io : StreamIo) (s : AppState) (task : ComputeTask)
  (payload : TaskResultPayload) : result DeliverError unit * AppState * list effect :=
  let sub_task_id := task.(request).(task_id) in
  let pubkey := task.(orchestrator_pubkey) in
  match build_result_wire_body json_string proof_json report_json task payload config.(peer_id) with
  | Err e => (Err (WireBodyFailed e), s, [])
  | Ok wire_body =>
    match on_store (upsert_pending_result pubkey sub_task_id wire_body) s with
    | (Err e, s) => (Err (NotStored e), s, [])
    | (Ok _, s) =>
      let s := set_task_status pubkey sub_task_id (terminal_status payload) s in
      try_deliver_pending io s pubkey sub_task_id wire_body payload task
    end
  end.

(** [Err]: the wire body does not parse, or its proof does not. *)
Definition extract_proof_from_result_wire (wire_body : bytes) : result unit (option Proof) :=
  match value_from_json wire_body with
  | None => Err tt
  | Some v =>
    if bool_decide (is_Some (value_get "error" v ≫= as_str)) then Ok None
    else
      match value_get "proof" v with
      | None | Some VNull => Ok None
      | Some p => match proof_from_value p with Some proof => Ok (Some proof) | None => Err tt end
      end
  end.

(** The proof of a result that a retry delivered. *)
Definition retain_delivered (s : AppState) (entry : PendingResult) : AppState * list effect :=
  match on_store (load_task task_from_json entry.(prs_orchestrator_pubkey)
          entry.(prs_sub_task_id)) s with
  | (Ok (Some task), s) =>
    match extract_proof_from_result_wire entry.(prs_wire_body) with
    | Ok (Some proof) => retain s task proof
    | _ => (s, [])
    end
  | (_, s) => (s, [])
  end.

Definition retry_result (io : StreamIo) (s : AppState) (entry : PendingResult)
  : AppState * list effect :=
  match send_result_wire config s io entry.(prs_wire_body) with
  | (Ok _, w) =>
    let s := (on_store (delete_pending_result entry.(prs_orchestrator_pubkey)
                entry.(prs_sub_task_id)) s).2 in
    let '(s, es) := retain_delivered s entry in (s, map ESend w ++ es)
  | (Err _, w) =>
    ((on_store (increment_pending_result_attempts entry.(prs_id)) s).2, map ESend w)
  end.

Fixpoint retry_results (io : PendingResult -> StreamIo) (s : AppState)
  (entries : list PendingResult) : AppState * list effect :=
  match entries with
  | [] => (s, [])
  | e :: entries =>
    let '(s, es) := retry_result (io e) s e in
    let '(s, es') := retry_results io s entries in (s, es ++ es')
  end.

(** One turn of the retry loop. *)
Definition retry_results_pass (io : PendingResult -> StreamIo) (s : AppState)
  : AppState * list effect :=
  match on_store list_pending_results s with
  | (Err _, s) => (s, [])
  | (Ok entries, s) => retry_results io s entries
  end.
End outbox.

(** ** Lemmas *)

Definition stored_result (s : AppState) (k : key) : option (result_data * Z) :=
  a_results (abs s.(store).(db)) !! k.
Definition task_row (s : AppState) (k : key) : option (task_data * Z) :=
  a_tasks (abs s.(store).(db)) !! k.

(** A statement whose success and failure are known. *)
Lemma on_store_run o s r s' :
  db_wf s.(store).(db) -> op_pre o s.(store).(db) -> on_store (run_op o) s = (r, s') ->
  db_wf s'.(store).(db) /\
  (r = Ok tt /\ abs s'.(store).(db) = abs_op o s.(store).(clock) (abs s.(store).(db))
   \/ (exists e, r = Err e) /\ s'.(store).(db) = s.(store).(db)).
Proof.
  intros Hwf Hpre H. apply on_store_op in H as (? & _ & _ & H); [|done..].
  split; [done|]. destruct r as [[]|e]; eauto.
Qed.

(** On a database that never fails a statement succeeds. *)
Lemma on_store_ok o s :
  db_wf s.(store).(db) -> op_pre o s.(store).(db) -> s.(store).(faults) = [] ->
  (forall k j, o <> OpInsertTask k j) ->
  exists s', on_store (run_op o) s = (Ok tt, s') /\ s' = with_store s'.(store) s
  /\ s'.(store).(faults) = []
  /\ s'.(store).(clock) = s.(store).(clock) /\ db_wf s'.(store).(db)
  /\ abs s'.(store).(db) = abs_op o s.(store).(clock) (abs s.(store).(db)).
Proof.
  intros Hwf Hpre Hf Ho. destruct (on_store (run_op o) s) as [r s'] eqn:E.
  pose proof E as [Hwf' H]%on_store_run; [|done..].
  assert (Hr : r = Ok tt /\ s' = with_store s'.(store) s /\ s'.(store).(faults) = []
    /\ s'.(store).(clock) = s.(store).(clock)).
  { revert E. unfold on_store.
    destruct o as [k j| | | | | | | | |]; [by destruct (Ho k j)|..];
      cbn [run_op]; unfold update_status, prune_terminal_tasks, upsert_pending_result,
      delete_pending_result, increment_pending_result_attempts, upsert_pending_pcs,
      delete_pending_pcs, delete_pending_pcs_by_id, increment_pending_pcs_attempts, exec, stmt;
      rewrite Hf; by intros [= <- <-]. }
  destruct Hr as (-> & ? & ? & ?). exists s'. destruct H as [[_ H]|[[e He] _]]; [|done].
  by split_and!.
Qed.

Lemma retain_tables job_to_json job_from_json s task proof s' es :
  db_wf s.(store).(db) -> retain_after_result job_to_json job_from_json s task proof = (s', es) ->
  db_wf s'.(store).(db) /\ a_results (abs s'.(store).(db)) = a_results (abs s.(store).(db))
  /\ a_tasks (abs s'.(store).(db)) = a_tasks (abs s.(store).(db))
  /\ (forall e, e ∈ es -> exists p i j, e = ESpawn p i j).
Proof.
  intros Hwf. unfold retain_after_result.
  destruct (on_store (get_pending_pcs _ _) s) as [r s1] eqn:E.
  apply on_store_eq in E as (st & E & ->). apply query_db in E as Hdb.
  set (job := merge_existing _ _ _).
  destruct (job_to_json job) as [j|] eqn:Hj.
  2: { unfold upsert_pending_pcs. rewrite Hj. unfold on_store. intros [= <- <-]. cbn. rewrite Hdb.
       split_and!; try done. by intros e He%not_elem_of_nil. }
  rewrite (upsert_is_op _ _ _ _ j Hj).
  destruct (on_store (run_op _) _) as [r2 s2] eqn:E2. apply on_store_run in E2 as [Hwf2 H2];
    cbn [with_store store]; rewrite ?Hdb; [|done..]. cbn [with_store store] in H2. rewrite Hdb in H2.
  destruct H2 as [[-> Ha]|[[e ->] Ha]].
  - intros [= <- <-]. rewrite Ha. split_and!; try done. intros e He. destruct (job_requested job).
    + apply list_elem_of_singleton in He. eauto.
    + by apply not_elem_of_nil in He.
  - intros [= <- <-]. rewrite Ha. split_and!; try done. by intros e' He%not_elem_of_nil.
Qed.

(** A result goes out when the stream is up and takes it. *)
Definition delivered (config : NodeConfig) (io : StreamIo) (s : AppState) : Prop :=
  is_Some config.(orchestrator_peer_id) /\ s.(stream_ready) = true
  /\ io.(opens) = true /\ io.(writes) = true /\ io.(closes) = true.

Lemma send_result_iff config s io b r w :
  send_result_wire config s io b = (r, w) ->
  match r with
  | Ok _ => delivered config io s /\ w = [Sent PROTOCOL_RESULT b]
  | Err _ => ~ delivered config io s
  end.
Proof.
  unfold send_result_wire, delivered, write_outbound_stream.
  destruct (orchestrator_peer_id config); [|intros [= <- <-]; by intros [[? [=]] _]].
  destruct (stream_ready s); [|intros [= <- <-]; by intros (_ & ? & _)].
  destruct (opens io); cbn; [|intros [= <- <-]; by intros (_ & _ & ? & _)].
  destruct (writes io); cbn; [|intros [= <- <-]; by intros (_ & _ & _ & ? & _)].
  destruct (closes io); cbn; intros [= <- <-]; [split; [|done]; split_and!; [by eexists|done..]|].
  by intros (_ & _ & _ & _ & ?).
Qed.

Section deliver.
Context (config : NodeConfig).
Context (json_string : string -> text) (proof_json : Proof -> text) (report_json : WorkReport -> text).
Context (job_to_json : PendingPcsJob -> option bytes) (job_from_json : bytes -> option PendingPcsJob).

Abbreviation deliver := (deliver_result config json_string proof_json report_json job_to_json
  job_from_json).
Abbreviation body := (build_result_wire_body json_string proof_json report_json).

(** Where a result is after an attempt, by what the attempt returned. *)
Definition deliver_outcome (io : StreamIo) (task : ComputeTask) (payload : TaskResultPayload)
  (s s' : AppState) (es : list effect) (r : result DeliverError unit) : Prop :=
  let k := task_key task in
  let kept w := stored_result s' k = Some (mkResultData w 0, s.(store).(clock)) in
  match r with
  | Err (WireBodyFailed e) => body task payload config.(peer_id) = Err e /\ s' = s /\ es = []
  | Err (NotStored _) => s'.(store).(db) = s.(store).(db) /\ es = []
  | Err (NotDelivered _) =>
      exists w, body task payload config.(peer_id) = Ok w /\ kept w /\ ~ delivered config io s
  | Err (NotDeleted _) =>
      exists w, body task payload config.(peer_id) = Ok w /\ kept w /\ delivered config io s
      /\ es = [ESend (Sent PROTOCOL_RESULT w)]
  | Ok _ =>
      exists w, body task payload config.(peer_id) = Ok w /\ stored_result s' k = None
      /\ delivered config io s /\ head es = Some (ESend (Sent PROTOCOL_RESULT w))
  end.

Lemma set_status_results pubkey id st s :
  db_wf s.(store).(db) ->
  let s' := set_task_status pubkey id st s in
  db_wf s'.(store).(db) /\ a_results (abs s'.(store).(db)) = a_results (abs s.(store).(db))
  /\ a_pcs (abs s'.(store).(db)) = a_pcs (abs s.(store).(db))
  /\ s'.(stream_ready) = s.(stream_ready) /\ s'.(pending_tasks) = s.(pending_tasks)
  /\ s'.(work_ledger) = s.(work_ledger).
Proof.
  intros Hwf. cbv zeta. unfold set_task_status.
  destruct (on_store _ s) as [r s1] eqn:E. pose proof E as (sto & _ & ->)%on_store_eq.
  apply (on_store_run (OpSetStatus (pubkey, id) st)) in E as [Hwf1 H]; [|done..].
  cbn [snd]. destruct H as [[_ Ha]|[_ Ha]]; rewrite Ha; done.
Qed.

Lemma deliver_spec io s task payload r s' es :
  db_wf s.(store).(db) -> deliver io s task payload = (r, s', es) ->
  db_wf s'.(store).(db) /\ deliver_outcome io task payload s s' es r.
Proof.
  intros Hwf. unfold deliver_result.
  destruct (body task payload (peer_id config)) as [w|e] eqn:Hbody; [|by intros [= <- <- <-]].
  destruct (on_store _ s) as [r1 s1] eqn:E1. pose proof E1 as (st & _ & Hs1)%on_store_eq.
  apply (on_store_run (OpUpsertResult (task_key task) w)) in E1 as [Hwf1 H1]; [|done..].
  destruct H1 as [[-> Ha1]|[[e ->] Hd1]]; [|by intros [= <- <- <-]].
  set (s2 := set_task_status _ _ _ s1).
  destruct (set_status_results (orchestrator_pubkey task) (task_id (request task))
    (terminal_status payload) s1 Hwf1) as (Hwf2 & Hr2 & _ & Hready & _). fold s2 in Hwf2, Hr2, Hready.
  assert (Hkept : stored_result s2 (task_key task) = Some (mkResultData w 0, clock (store s))).
  { unfold stored_result. rewrite Hr2, Ha1. apply lookup_insert_eq. }
  assert (Hdel : delivered config io s2 <-> delivered config io s).
  { unfold delivered. by rewrite Hready, Hs1. }
  unfold try_deliver_pending. destruct (send_result_wire config s2 io w) as [r3 w3] eqn:E3.
  apply send_result_iff in E3. destruct r3 as [[]|e3].
  2: { intros [= <- <- <-]. split; [done|]. exists w. by rewrite <- Hdel. }
  destruct E3 as [E3 ->]. rewrite Hdel in E3.
  destruct (on_store _ s2) as [r4 s4] eqn:E4.
  apply (on_store_run (OpDeleteResult (task_key task))) in E4 as [Hwf4 H4]; [|done..].
  destruct H4 as [[-> Ha4]|[[e ->] Hd4]].
  2: { intros [= <- <- <-]. split; [done|]. exists w. unfold stored_result. rewrite Hd4. done. }
  assert (Hgone : stored_result s4 (task_key task) = None).
  { unfold stored_result. rewrite Ha4. apply lookup_delete_eq. }
  destruct (bool_decide _); [destruct (pl_proof payload) as [p|]|];
    [|by intros [= <- <- <-]; split; [done|]; exists w..].
  destruct (retain_after_result _ _ _ _ _) as [s5 es5] eqn:E5.
  apply retain_tables in E5 as (Hwf5 & Hr5 & _); [|done]. intros [= <- <- <-].
  split; [done|]. exists w. unfold stored_result. rewrite Hr5. done.
Qed.
End deliver.

(** *** The retry pass *)

Lemma update_where_dom {D} (P : Row D -> bool) f (t : Table D) k :
  (forall r, (f r).(row_id) = r.(row_id) /\ (f r).(row_key) = r.(row_key)) ->
  table_wf t -> is_Some (view t !! k) -> is_Some (view (update_where P f t) !! k).
Proof.
  intros Hf Hwf [[d c] H]. apply view_lookup in H as (r & Hin & Hk & _); [|done].
  set (r' := if P r then f r else r). exists (row_data r', row_created r'). apply view_lookup.
  - by apply update_where_wf.
  - exists r'. split_and!; try done.
    + cbn. apply list_elem_of_fmap. eauto.
    + unfold r'. destruct (P r); [|done]. by rewrite (proj2 (Hf r)).
Qed.

Definition result_key (e : PendingResult) : key := (e.(prs_orchestrator_pubkey), e.(prs_sub_task_id)).

Section retry.
Context (config : NodeConfig).
Context (job_to_json : PendingPcsJob -> option bytes) (job_from_json : bytes -> option PendingPcsJob).
Context (task_from_json : string -> option ComputeTask).
Context (value_from_json : bytes -> option value) (proof_from_value : value -> option Proof).

Abbreviation one := (retry_result config job_to_json job_from_json task_from_json value_from_json
  proof_from_value).
Abbreviation all := (retry_results config job_to_json job_from_json task_from_json value_from_json
  proof_from_value).

Lemma retain_delivered_results s entry s' es :
  db_wf s.(store).(db) ->
  retain_delivered job_to_json job_from_json task_from_json value_from_json proof_from_value s entry
  = (s', es) ->
  db_wf s'.(store).(db) /\ a_results (abs s'.(store).(db)) = a_results (abs s.(store).(db)).
Proof.
  intros Hwf. unfold retain_delivered. destruct (on_store _ s) as [r s1] eqn:E.
  assert (Hdb : s1.(store).(db) = s.(store).(db)).
  { apply on_store_eq in E as (st & E & ->). unfold load_task, decoding in E.
    destruct (query _ _) as [q st1] eqn:Eq. apply query_db in Eq. cbn.
    destruct q; by simplify_eq. }
  destruct r as [[task|]|e]; [|intros [= <- <-]; by rewrite Hdb..].
  destruct (extract_proof_from_result_wire _ _ _) as [[p|]|]; [|intros [= <- <-]; by rewrite Hdb..].
  intros H. apply retain_tables in H as (? & Hr & _); [|by rewrite Hdb]. by rewrite Hr, Hdb.
Qed.

Lemma retry_result_spec io s entry s' es :
  db_wf s.(store).(db) -> one io s entry = (s', es) ->
  db_wf s'.(store).(db) /\
  forall k, is_Some (stored_result s k) -> stored_result s' k = None ->
  k = result_key entry /\ ESend (Sent PROTOCOL_RESULT entry.(prs_wire_body)) ∈ es.
Proof.
  intros Hwf. unfold retry_result. destruct (send_result_wire _ _ _ _) as [r w] eqn:Es.
  destruct r as [[]|e].
  - apply send_result_Ok in Es as ->. destruct (on_store _ s) as [r1 s1] eqn:E1.
    apply (on_store_run (OpDeleteResult (result_key entry))) in E1 as [Hwf1 H1]; [|done..].
    cbn [snd]. destruct (retain_delivered _ _ _ _ _ _ _) as [s2 es2] eqn:E2. intros [= <- <-].
    apply retain_delivered_results in E2 as [Hwf2 Hr2]; [|done]. split; [done|].
    intros k Hk Hn. split; [|by left]. unfold stored_result in *. rewrite Hr2 in Hn.
    destruct H1 as [[_ Ha]|[_ Ha]]; rewrite Ha in Hn.
    + cbn in Hn. destruct (decide (k = result_key entry)) as [|Hne]; [done|].
      rewrite lookup_delete_ne in Hn by done. cbn in Hk. rewrite Hn in Hk. by destruct Hk.
    + rewrite Hn in Hk. by destruct Hk.
  - destruct (on_store _ s) as [r1 s1] eqn:E1. intros [= <- <-]. cbn [snd].
    apply on_store_eq in E1 as (st & E1 & ->). destruct r1 as [[]|e1].
    2: { apply exec_Err in E1. unfold stored_result. cbn. rewrite E1. split; [done|].
         intros k Hk Hn. rewrite Hn in Hk. by destruct Hk. }
    apply exec_Ok in E1. destruct Hwf as [Ht Hr Hp]. split.
    + cbn. rewrite E1. split; cbn; try done. by apply update_where_wf.
    + intros k Hk Hn.
      destruct (update_where_dom (has_id (prs_id entry)) bump_result (pending_results (db (store s)))
        k) as [v Hv]; [done|done|exact Hk|].
      unfold stored_result in Hn. cbn [with_store store] in Hn. rewrite E1 in Hn.
      change (view (update_where (has_id (prs_id entry)) bump_result
        (pending_results (db (store s)))) !! k = None) in Hn. congruence.
Qed.

Lemma retry_results_spec io entries s s' es :
  db_wf s.(store).(db) -> all io s entries = (s', es) ->
  db_wf s'.(store).(db) /\
  forall k, is_Some (stored_result s k) -> stored_result s' k = None ->
  exists e, e ∈ entries /\ k = result_key e /\ ESend (Sent PROTOCOL_RESULT e.(prs_wire_body)) ∈ es.
Proof.
  revert s es. induction entries as [|e entries IH]; intros s es Hwf; cbn [retry_results].
  { intros [= <- <-]. split; [done|]. intros k Hk Hn. rewrite Hn in Hk. by destruct Hk. }
  destruct (one (io e) s e) as [s1 es1] eqn:E1. destruct (all io s1 entries) as [s2 es2] eqn:E2.
  intros [= <- <-]. apply retry_result_spec in E1 as [Hwf1 H1]; [|done].
  apply IH in E2 as [Hwf2 H2]; [|done]. split; [done|]. intros k Hk Hn.
  destruct (stored_result s1 k) as [v|] eqn:Hv.
  - destruct (H2 k) as (e' & ? & ? & ?); [by rewrite Hv; eexists|done|].
    exists e'. split_and!; [by right|done|]. apply elem_of_app. by right.
  - destruct (H1 k Hk Hv) as [-> ?]. exists e. split_and!; [by left|done|].
    apply elem_of_app. by left.
Qed.
End retry.

(** *** Draining *)

Definition calm (s s' : AppState) : Prop :=
  (s.(store).(faults) = [] -> s'.(store).(faults) = []) /\ s'.(stream_ready) = s.(stream_ready).

Lemma calm_trans s t u : calm s t -> calm t u -> calm s u.
Proof. intros [H1 H2] [H3 H4]. split; [auto|congruence]. Qed.

Lemma stmt_calm {A} (f : Db -> Z -> result StorageError (Db * A)) s r s' :
  on_store (stmt f) s = (r, s') -> calm s s'.
Proof.
  intros (st & H & ->)%on_store_eq. split; [|done]. cbn. intros Hf. unfold stmt in H.
  rewrite Hf in H. destruct (f _ _) as [[]|]; by simplify_eq.
Qed.

Lemma decoding_calm {A B} (f : Db -> Z -> A) (g : A -> result StorageError B) s r s' :
  on_store (decoding (query f) g) s = (r, s') -> calm s s'.
Proof.
  intros (st & H & ->)%on_store_eq. unfold decoding in H.
  destruct (query f (store s)) as [q st1] eqn:E.
  assert (st1 = st) as -> by (destruct q; by simplify_eq).
  apply (stmt_calm (fun d now => Ok (d, f d now)) s q). unfold on_store.
  change (stmt _ (store s)) with (query f (store s)). by rewrite E.
Qed.

Lemma upsert_pcs_calm tj p i job s r s' :
  on_store (upsert_pending_pcs tj p i job) s = (r, s') -> calm s s'.
Proof.
  unfold upsert_pending_pcs. destruct (tj job); [apply stmt_calm|].
  intros (st & [= _ <-] & ->)%on_store_eq. done.
Qed.

Lemma retain_calm tj fj s task proof :
  calm s (retain_after_result tj fj s task proof).1.
Proof.
  unfold retain_after_result. destruct (on_store (get_pending_pcs _ _) s) as [r s1] eqn:E1.
  apply stmt_calm in E1. destruct (on_store (upsert_pending_pcs _ _ _ _) s1) as [r2 s2] eqn:E2.
  apply upsert_pcs_calm in E2. destruct r2; by eapply calm_trans.
Qed.

Section drain.
Context (config : NodeConfig).
Context (job_to_json : PendingPcsJob -> option bytes) (job_from_json : bytes -> option PendingPcsJob).
Context (task_from_json : string -> option ComputeTask).
Context (value_from_json : bytes -> option value) (proof_from_value : value -> option Proof).

Lemma retain_delivered_calm s entry :
  calm s (retain_delivered job_to_json job_from_json task_from_json value_from_json
    proof_from_value s entry).1.
Proof.
  unfold retain_delivered. destruct (on_store _ s) as [r s1] eqn:E. apply decoding_calm in E.
  destruct r as [[task|]|e]; [|done..].
  destruct (extract_proof_from_result_wire _ _ _) as [[p|]|]; [|done..].
  eapply calm_trans; [exact E|apply retain_calm].
Qed.

Lemma retry_result_drains io s entry s' es :
  db_wf s.(store).(db) -> s.(store).(faults) = [] -> delivered config io s ->
  retry_result config job_to_json job_from_json task_from_json value_from_json proof_from_value
    io s entry = (s', es) ->
  db_wf s'.(store).(db) /\ calm s s'
  /\ forall k, stored_result s' k = if decide (k = result_key entry) then None else stored_result s k.
Proof.
  intros Hwf Hf Hd. unfold retry_result. destruct (send_result_wire _ _ _ _) as [r w] eqn:Es.
  apply send_result_iff in Es. destruct r as [[]|]; [|done].
  destruct (on_store_ok (OpDeleteResult (result_key entry)) s Hwf I Hf) as
    (s1 & E1 & Hs1 & Hf1 & _ & Hwf1 & Ha); [done|].
  cbn [run_op] in E1. cbn [fst snd result_key] in E1. rewrite E1. cbn [snd].
  destruct (retain_delivered _ _ _ _ _ _ _) as [s2 es2] eqn:E2. intros [= <- <-].
  pose proof (retain_delivered_calm s1 entry) as Hcalm. rewrite E2 in Hcalm. cbn [fst] in Hcalm.
  apply retain_delivered_results in E2 as [Hwf2 Hr]; [|done]. split_and!; [done| |].
  - eapply calm_trans; [|exact Hcalm]. split; [done|by rewrite Hs1].
  - intros k. unfold stored_result. rewrite Hr, Ha. cbn. case_decide as Hk.
    + subst. apply lookup_delete_eq.
    + by apply lookup_delete_ne.
Qed.

Lemma retry_results_drains io entries s s' es :
  db_wf s.(store).(db) -> s.(store).(faults) = [] -> (forall e, delivered config (io e) s) ->
  retry_results config job_to_json job_from_json task_from_json value_from_json proof_from_value
    io s entries = (s', es) ->
  forall k, is_Some (stored_result s' k) ->
  is_Some (stored_result s k) /\ k ∉ (result_key <$> entries).
Proof.
  revert s es. induction entries as [|e entries IH]; intros s es Hwf Hf Hd; cbn [retry_results].
  { intros [= <- <-] k Hk. split; [done|apply not_elem_of_nil]. }
  destruct (retry_result _ _ _ _ _ _ _ _ _) as [s1 es1] eqn:E1.
  destruct (retry_results _ _ _ _ _ _ _ s1 entries) as [s2 es2] eqn:E2. intros [= <- <-] k Hk.
  apply retry_result_drains in E1 as (Hwf1 & [Hf1 Hr1] & H1); [|done..].
  eapply (IH s1) in E2 as [Hk1 Hn]; [|done|by apply Hf1| |exact Hk].
  2: { intros e'. unfold delivered. rewrite Hr1. apply Hd. }
  rewrite H1 in Hk1. case_decide as Hke; [by destruct Hk1|]. split; [done|].
  cbn. by apply not_elem_of_cons.
Qed.
End drain.

(** ** Theorems *)

(** C3. A computed result is sent or kept: whatever statements fail and whatever
    the stream does, an attempt that gets as far as storing the wire body leaves
    it in the outbox with no attempts counted, unless it was written to the
    orchestrator first; and the outbox row is deleted only after that. *)
Theorem result_is_sent_or_kept config js pj rj tj fj io s task payload r s' es :
  db_wf s.(store).(db) ->
  deliver_result config js pj rj tj fj io s task payload = (r, s', es) ->
  db_wf s'.(store).(db) /\ deliver_outcome config js pj rj io task payload s s' es r.
Proof. apply deliver_spec. Qed.

(** The rows a pass lists. *)
Lemma listed_result s st r :
  db_wf s.(store).(db) -> list_pending_results s.(store) = (r, st) ->
  st.(db) = s.(store).(db) /\
  forall entries, r = Ok entries -> forall k,
  (k ∈ (result_key <$> entries) <-> is_Some (stored_result s k))
  /\ forall e, e ∈ entries -> result_key e = k ->
     exists d c, stored_result s k = Some (d, c) /\ d.(wire_body) = e.(prs_wire_body).
Proof.
  intros [_ Hr _] H. split; [by apply query_db in H|]. intros entries ->.
  apply query_Ok in H as ->. intros k. set (t := pending_results (db (store s))) in *.
  assert (Hperm : ordered (rows t) ≡ₚ rows t) by (by apply merge_sort_Permutation).
  assert (Hkey : forall row, result_key (to_pending_result row) = row.(row_key)).
  { intros row. unfold result_key. cbn. by rewrite <- surjective_pairing. }
  assert (Hrow : forall row, row ∈ rows t ->
    stored_result s (row_key row) = Some (row_data row, row_created row)).
  { intros row Hin. unfold stored_result. cbn. apply view_lookup; eauto 6. }
  split; [split|].
  - intros (e & -> & (row & -> & Hin)%list_elem_of_fmap)%list_elem_of_fmap.
    rewrite Hkey, Hrow by (by rewrite <- Hperm). by eexists.
  - intros [[d c] Hk]. apply view_lookup in Hk as (row & Hin & <- & _); [|done].
    apply list_elem_of_fmap. exists (to_pending_result row). split; [by rewrite Hkey|].
    apply list_elem_of_fmap. exists row. split; [done|by rewrite Hperm].
  - intros e (row & -> & Hin)%list_elem_of_fmap <-. rewrite Hkey.
    exists (row_data row), (row_created row). split; [|done]. apply Hrow. by rewrite <- Hperm.
Qed.

(** C8. The retry loop loses nothing and finishes: in every pass a result that
    leaves the outbox had its stored bytes written to the orchestrator, whatever
    statements failed; and a pass in which the orchestrator can be reached and no
    statement fails leaves the outbox empty. *)
Theorem retry_pass_drains_outbox config tj fj task_fj vj pv io s s' es :
  db_wf s.(store).(db) ->
  retry_results_pass config tj fj task_fj vj pv io s = (s', es) ->
  (forall k d c, stored_result s k = Some (d, c) -> stored_result s' k = None ->
     ESend (Sent PROTOCOL_RESULT d.(wire_body)) ∈ es) /\
  (s.(store).(faults) = [] -> (forall e, delivered config (io e) s) ->
     forall k, stored_result s' k = None).
Proof.
  intros Hwf. unfold retry_results_pass.
  destruct (on_store list_pending_results s) as [r s1] eqn:E.
  pose proof E as [Hf1 Hready]%stmt_calm. apply on_store_eq in E as (st & E & Hs1).
  pose proof (listed_result s st r Hwf E) as [Hdb Hlist].
  assert (Hst : forall k, stored_result s1 k = stored_result s k).
  { intros k. unfold stored_result. by rewrite Hs1; cbn; rewrite Hdb. }
  assert (Hwf1 : db_wf s1.(store).(db)) by (rewrite Hs1; cbn; by rewrite Hdb).
  destruct r as [entries|e].
  2: { intros [= <- <-]. split; [intros k d c Hk Hn; rewrite Hst in Hn; congruence|].
       intros Hf. unfold list_pending_results, query, stmt in E. rewrite Hf in E. discriminate E. }
  specialize (Hlist _ eq_refl). intros H. split.
  - intros k d c Hk Hn. apply retry_results_spec in H as [_ H]; [|done].
    destruct (H k) as (e & Hin & -> & Hsent); [by rewrite Hst, Hk|done|].
    destruct (Hlist (result_key e)) as [_ Hbody].
    destruct (Hbody e Hin eq_refl) as (d' & c' & Hk' & Hw). rewrite Hk in Hk'. simplify_eq.
    by rewrite Hw.
  - intros Hf Hd k. destruct (stored_result s' k) as [v|] eqn:Ek; [|done]. exfalso.
    eapply (retry_results_drains config _ _ _ _ _ io entries s1 s' es) with (k := k) in H;
      [|done|by apply Hf1| |by rewrite Ek; eexists].
    + destruct H as [Hk Hn]. rewrite Hst in Hk. destruct Hn. by apply Hlist.
    + intros e. unfold delivered. rewrite Hready. apply Hd.
Qed.

(** *** Witnesses *)

Definition demo_payload : TaskResultPayload :=
  mkTaskResultPayload "t1" "success" "" (Some zero_result) None None (Some sample_proof) None
    (Some 5) None.
Abbreviation demo_deliver up := (deliver_result demo_config lit (fun _ => lit "{}") (fun _ => lit "{}")
  sample_encode sample_decode (demo_io up) initial_state demo_task demo_payload).

Lemma result_is_sent_or_kept_witness :
  (demo_deliver false).1.1 = Err (NotDelivered OpenFailed)
  /\ exists w, stored_result (demo_deliver false).1.2 ("orch", "t1") = Some (mkResultData w 0, 0).
Proof.
  split; [vm_compute; reflexivity|].
  destruct (result_is_sent_or_kept demo_config lit (fun _ => lit "{}") (fun _ => lit "{}")
    sample_encode sample_decode (demo_io false) initial_state demo_task demo_payload
    (Err (NotDelivered OpenFailed)) (demo_deliver false).1.2 (demo_deliver false).2 empty_db_wf)
    as (_ & w & _ & Hw & _); [vm_compute; reflexivity|].
  exists w. exact Hw.
Defined.

Abbreviation demo_retry s := (retry_results_pass demo_config sample_encode sample_decode
  (fun _ => Some demo_task) demo_value (fun _ => Some sample_proof) (fun _ => demo_io true) s).

Lemma retry_pass_drains_outbox_witness :
  stored_result (demo_retry (demo_deliver false).1.2).1 ("orch", "t1") = None.
Proof.
  apply (retry_pass_drains_outbox demo_config sample_encode sample_decode
    (fun _ => Some demo_task) demo_value (fun _ => Some sample_proof) (fun _ => demo_io true)
    (demo_deliver false).1.2 (demo_retry (demo_deliver false).1.2).1
    (demo_retry (demo_deliver false).1.2).2).
  - destruct (demo_deliver false) as [[r s'] es] eqn:E.
    apply (deliver_spec demo_config) in E as [? _]; [done|apply empty_db_wf].
  - vm_compute. reflexivity.
  - vm_compute. reflexivity.
  - intros e. split_and!; [by eexists|vm_compute; reflexivity..].
Defined.
