(* ===== verification/Ports.v ===== *)
(** * The ports ([src/application/ports.rs])

    [ResultSink] is what the worker needs to get its results to the orchestrator;
    [P2pResultSink] ([src/transport/p2p/result_sink.rs]) is the sink the node runs
    with: the result outbox.  [ResultSinkLaws] is what the worker's theorems rely
    on. *)

From S2P Require Import Prelude Bytes F64 FloatText Models MemoryBudget GoJson Wire WorkLedger Pcs.
From S2P Require Import Table Storage CoreClient Config State Stream Cas SampleJson PcsOutbox.
From S2P Require Import ResultJson ResultOutbox.

(** ** The interface *)

Class ResultSink := mkResultSink {
  sink_error : Type;
  send_result : StreamIo -> AppState -> ComputeTask -> TaskResultPayload ->
    result sink_error unit * AppState * list effect
}.

(** What running and delivering a task leaves alone. *)
Definition shared_kept (s s' : AppState) : Prop :=
  s'.(work_ledger) = s.(work_ledger) /\ s'.(pending_tasks) = s.(pending_tasks)
  /\ s'.(queue) = s.(queue) /\ s'.(receiver_alive) = s.(receiver_alive)
  /\ s'.(stream_ready) = s.(stream_ready) /\ s'.(open_call_cache) = s.(open_call_cache)
  /\ s'.(in_flight) = s.(in_flight) /\ s'.(at_work) = s.(at_work).

Lemma shared_kept_refl s : shared_kept s s.
Proof. by split_and!. Qed.
Lemma shared_kept_trans s t u : shared_kept s t -> shared_kept t u -> shared_kept s u.
Proof. unfold shared_kept. intros H K. decompose [and] H. decompose [and] K. split_and!; congruence. Qed.

Lemma on_store_shared {A} (m : St A) s : shared_kept s (on_store m s).2.
Proof. unfold on_store. by destruct (m (store s)). Qed.

(** A payload that claims success carries the result and the proof. *)
Definition sendable (p : TaskResultPayload) : Prop :=
  p.(pl_status) = "success" -> is_Some p.(pl_complex_result) /\ is_Some p.(pl_proof).

(** The result left on the stream or is stored for the retry loop. *)
Definition sent_or_stored (task : ComputeTask) (s : AppState) (es : list effect) : Prop :=
  (exists w, ESend (Sent PROTOCOL_RESULT w) ∈ es)
  \/ exists w at_, stored_result s (task_key task) = Some (mkResultData w 0, at_).

(** A sink leaves the worker's own state alone, does not talk to wqc-core, and, on a
    database that works, settles the task and sends or stores the result. *)
Class ResultSinkLaws `{ResultSink} : Prop := {
  sink_shared io s task p : shared_kept s (send_result io s task p).1.2;
  sink_no_core io s task p : Forall no_core (send_result io s task p).2;
  sink_delivers io s task p data created r s' es :
    db_wf s.(store).(db) -> s.(store).(faults) = [] -> sendable p ->
    task_row s (task_key task) = Some (data, created) ->
    send_result io s task p = (r, s', es) ->
    task_row s' (task_key task) = Some (mkTaskData data.(payload) (terminal_status p), created)
    /\ sent_or_stored task s' es
}.

(** ** The result outbox as a sink *)

Section p2p.
Context (config : NodeConfig).
Context (json_string : string -> text) (proof_json : Proof -> text) (report_json : WorkReport -> text).
Context (job_to_json : PendingPcsJob -> option bytes) (job_from_json : bytes -> option PendingPcsJob).

Abbreviation deliver := (deliver_result config json_string proof_json report_json job_to_json
  job_from_json).

(** [P2pResultSink]; what it logs of a failure is not modelled. *)
Definition p2p_result_sink : ResultSink := mkResultSink DeliverError deliver.

(** *** Lemmas *)

Lemma retain_shared s task proof :
  shared_kept s (retain_after_result job_to_json job_from_json s task proof).1.
Proof.
  unfold retain_after_result.
  pose proof (on_store_shared (get_pending_pcs (orchestrator_pubkey task) (task_id (request task))) s)
    as H1.
  destruct (on_store (get_pending_pcs _ _) s) as [r s1]. cbn [snd] in H1.
  set (job := merge_existing _ _ _).
  pose proof (on_store_shared (upsert_pending_pcs job_to_json (orchestrator_pubkey task)
    (task_id (request task)) job) s1) as H2.
  destruct (on_store (upsert_pending_pcs _ _ _ _) s1) as [r2 s2]. cbn [snd] in H2.
  destruct r2; by eapply shared_kept_trans.
Qed.

Lemma try_deliver_shared io s pubkey id w payload task :
  shared_kept s (try_deliver_pending config job_to_json job_from_json io s pubkey id w payload
    task).1.2.
Proof.
  unfold try_deliver_pending.
  destruct (send_result_wire config s io w) as [[u|e] es]; [|apply shared_kept_refl].
  pose proof (on_store_shared (delete_pending_result pubkey id) s) as H1.
  destruct (on_store (delete_pending_result _ _) s) as [[u'|e] s1]; cbn [snd] in H1; [|done].
  destruct (bool_decide _); [destruct (pl_proof payload) as [p|]|]; [|done..].
  pose proof (retain_shared s1 task p) as H2.
  destruct (retain_after_result _ _ _ _ _) as [s2 es2]. by eapply shared_kept_trans.
Qed.

Lemma deliver_shared io s task payload : shared_kept s (deliver io s task payload).1.2.
Proof.
  unfold deliver_result.
  destruct (build_result_wire_body _ _ _ _ _ _) as [w|e]; [|apply shared_kept_refl].
  pose proof (on_store_shared (upsert_pending_result (orchestrator_pubkey task)
    (task_id (request task)) w) s) as H1.
  destruct (on_store (upsert_pending_result _ _ _) s) as [[u|e] s1]; cbn [snd] in H1; [|done].
  pose proof (on_store_shared (update_status (orchestrator_pubkey task) (task_id (request task))
    (terminal_status payload)) s1) as H2. unfold set_task_status.
  eapply shared_kept_trans; [exact H1|]. eapply shared_kept_trans; [exact H2|].
  apply try_deliver_shared.
Qed.

Lemma retain_no_core s task proof :
  Forall no_core (retain_after_result job_to_json job_from_json s task proof).2.
Proof.
  unfold retain_after_result. destruct (on_store (get_pending_pcs _ _) s) as [r s1].
  destruct (on_store (upsert_pending_pcs _ _ _ _) s1) as [[[]|e] s2]; [|constructor].
  cbn [snd]. case_match; by repeat constructor.
Qed.

Lemma deliver_no_core io s task payload : Forall no_core (deliver io s task payload).2.
Proof.
  unfold deliver_result. destruct (build_result_wire_body _ _ _ _ _ _) as [w|e]; [|constructor].
  destruct (on_store _ s) as [[[]|e] s1]; [|constructor]. unfold try_deliver_pending.
  assert (Hs : forall l, Forall no_core (map ESend l))
    by (intros; apply List.Forall_map, Forall_true; done).
  destruct (send_result_wire _ _ _ _) as [[[]|e] w2]; [|apply Hs].
  destruct (on_store _ _) as [[[]|e] s3]; [|apply Hs].
  destruct (bool_decide _); [destruct (pl_proof payload) as [p|]|]; [|apply Hs..].
  pose proof (retain_no_core s3 task p) as Hr.
  destruct (retain_after_result _ _ _ _ _) as [s4 es4]. cbn [snd] in *. apply Forall_app.
  split; [apply Hs|done].
Qed.

(** Delivery on a database that never fails: the row is terminal, and the wire
    body is stored before anything is sent. *)
Lemma deliver_no_faults io s task pl w r s' es data created :
  db_wf s.(store).(db) -> s.(store).(faults) = [] ->
  build_result_wire_body json_string proof_json report_json task pl config.(peer_id) = Ok w ->
  task_row s (task_key task) = Some (data, created) ->
  deliver io s task pl = (r, s', es) ->
  task_row s' (task_key task) = Some (mkTaskData data.(payload) (terminal_status pl), created)
  /\ (forall e, r <> Err (NotStored e)).
Proof.
  intros Hwf Hf Hbody Hrow. unfold deliver_result. rewrite Hbody.
  destruct (on_store_ok (OpUpsertResult (task_key task) w) s) as
    (t1 & F1 & _ & Hf1 & _ & Hwf1 & Ha1); [done..|].
  cbn [run_op task_key fst snd] in F1. rewrite F1.
  destruct (on_store_ok (OpSetStatus (task_key task) (terminal_status pl)) t1) as
    (t2 & F2 & _ & Hf2 & _ & Hwf2 & Ha2); [done..|].
  unfold set_task_status. cbn [run_op task_key fst snd] in F2. rewrite F2. cbn [snd].
  assert (Hr : task_row t2 (task_key task)
    = Some (mkTaskData data.(payload) (terminal_status pl), created)).
  { unfold task_row in *. rewrite Ha2. cbn [abs_op a_tasks]. rewrite lookup_alter_eq, Ha1.
    cbn [abs_op a_tasks]. by rewrite Hrow. }
  unfold try_deliver_pending. destruct (send_result_wire _ _ _ _) as [[[]|e] w2].
  2: { by intros [= <- <- <-]. }
  destruct (on_store_ok (OpDeleteResult (task_key task)) t2) as
    (t3 & F3 & _ & _ & _ & Hwf3 & Ha3); [done..|].
  cbn [run_op task_key fst snd] in F3. rewrite F3.
  assert (Hr3 : task_row t3 (task_key task)
    = Some (mkTaskData data.(payload) (terminal_status pl), created)).
  { unfold task_row in *. by rewrite Ha3. }
  destruct (bool_decide _); [destruct (pl_proof pl) as [p|]|]; [|by intros [= <- <- <-]..].
  destruct (retain_after_result _ _ _ _ _) as [t4 es4] eqn:F4.
  apply retain_tables in F4 as (_ & _ & Ha4 & _); [|done]. intros [= <- <- <-].
  unfold task_row in *. by rewrite Ha4.
Qed.

Lemma sendable_body task p :
  sendable p ->
  exists w, build_result_wire_body json_string proof_json report_json task p config.(peer_id) = Ok w.
Proof.
  unfold sendable, build_result_wire_body. intros H. case_bool_decide as Hs; cbn [negb]; [|eauto].
  destruct (H Hs) as [[r ->] [q ->]]. eauto.
Qed.

Lemma deliver_delivers io s task p data created r s' es :
  db_wf s.(store).(db) -> s.(store).(faults) = [] -> sendable p ->
  task_row s (task_key task) = Some (data, created) -> deliver io s task p = (r, s', es) ->
  task_row s' (task_key task) = Some (mkTaskData data.(payload) (terminal_status p), created)
  /\ sent_or_stored task s' es.
Proof.
  intros Hwf Hf [w Hw]%(sendable_body task) Hrow H.
  pose proof H as [_ Ho]%deliver_spec; [|done].
  eapply deliver_no_faults in H as [Hrow' Hns]; [|done..]. split; [done|].
  destruct r as [[]|[e|e|e|e]]; cbn in Ho.
  - destruct Ho as (w' & _ & _ & _ & Hhead). left. exists w'. destruct es; simplify_eq/=. by left.
  - exfalso. destruct Ho as (Hbody & _). congruence.
  - by destruct (Hns e).
  - destruct Ho as (w' & _ & Hk & _). right. by exists w', (clock (store s)).
  - destruct Ho as (w' & _ & _ & _ & ->). left. exists w'. by left.
Qed.

#[export] Instance p2p_sink_laws : @ResultSinkLaws p2p_result_sink.
Proof.
  split; [apply deliver_shared|apply deliver_no_core|apply deliver_delivers].
Qed.
End p2p.
