(* ===== verification/Worker.v ===== *)
(** * The worker ([src/application/worker.rs])

    One loop takes the tasks off the queue and runs each: wqc-core computes it
    within what is left of its budget, the status is written, the result goes to
    the sink, and the task stops counting.  The clock, the exchanges with wqc-core
    and the stream are in [WorkEnv].  What holds for every sink that keeps the laws
    of [Ports.ResultSinkLaws] is proved first, then what holds for the one the node
    runs with. *)

From S2P Require Import Prelude Bytes F64 FloatText Models MemoryBudget GoJson Wire WorkLedger Pcs.
From S2P Require Import Table Storage CoreClient Config State Stream Cas SampleJson PcsOutbox.
From S2P Require Import ResultJson ResultOutbox Ports.

Record WorkEnv := mkWorkEnv {
  we_start : Z;                     (* Instant::now(), nanoseconds *)
  we_now_ms : Z;                    (* unix_now_ms() *)
  we_t0 : Z; we_t1 : Z; we_t2 : Z;  (* the clock during the call of wqc-core *)
  we_probe : HttpOutcome unit;
  we_post : HttpOutcome ComputeResponse;
  we_elapsed_ms : Z;                (* start_time.elapsed() *)
  we_send : StreamIo
}.

Section worker.
Context (config : NodeConfig) (core_cfg : CoreConfig).
Context (describe : HttpError -> string) (status_text : Z -> string) (parse_text : string).
Context {Sink : ResultSink}.

(** [format!("{err:#}")] of an error of [dispatch_task]. *)
Definition dispatch_text (e : CoreError) : string :=
  match e with
  | SendFailed e => "Failed to send request to wqc-core: " +:+ describe e
  | ParseFailed => "Failed to parse success response body: " +:+ parse_text
  | ErrorStatus st text =>
      "wqc-core returned error status: " +:+ status_text st +:+ " - " +:+ text
  | _ => leaf_pcs_text describe status_text parse_text e
  end.

Definition failure_reason (e : WorkError) : string :=
  match e with
  | ComputeFailed e => dispatch_text e
  | DeadlinePassed secs =>
      "deadline passed after " +:+ of_chars (dec_text secs) +:+ "s in the node queue"
  end.

Definition execute_compute (env : WorkEnv) (s : AppState) (req : ComputeRequest) (timeout : Z)
  : result WorkError TaskResultData * AppState * list effect :=
  let '(h, xs, r) := dispatch_task core_cfg s.(core) req timeout env.(we_t0) env.(we_t1)
    env.(we_t2) env.(we_probe) env.(we_post) in
  let s := with_core h s in
  match r with
  | Err e => (Err (ComputeFailed e), s, map ECore xs)
  | Ok res =>
    (Ok (mkTaskResultData
           (if bool_decide (res.(resp_result_type) = "") then "statevector_scalar"
            else res.(resp_result_type))
           res.(resp_complex_result) res.(resp_sample_result) res.(resp_expectation_result)
           res.(resp_proof) (as_u64 env.(we_elapsed_ms)) res.(resp_work_report)),
     s, map ECore xs)
  end.

(** How long the task has been in the node, in nanoseconds. *)
Definition waited (env : WorkEnv) (task : ComputeTask) : Z :=
  if task.(accepted_at_ms) =? 0 then 0
  else u64_sat_sub env.(we_now_ms) task.(accepted_at_ms) * 1000000.

Definition run_task (env : WorkEnv) (s : AppState) (task : ComputeTask)
  : result WorkError TaskResultData * AppState * list effect :=
  match compute_timeout config.(compute_timeout_secs) task.(budget) (waited env task) with
  | Some timeout => execute_compute env s task.(request) timeout
  | None => (Err (DeadlinePassed (waited env task / SEC)), s, [])
  end.

Definition payload_of (task_id : string) (outcome : result WorkError TaskResultData)
  : TaskResultPayload :=
  match outcome with
  | Ok d => mkTaskResultPayload task_id "success" d.(td_result_type) (Some d.(td_complex_result))
      d.(td_sample_result) d.(td_expectation_result) (Some d.(td_proof)) None
      (Some d.(td_execution_time_ms)) d.(td_work_report)
  | Err e => mkTaskResultPayload task_id "error" "" None None None None
      (Some (failure_reason e)) None None
  end.

Definition process_task (env : WorkEnv) (s : AppState) (task : ComputeTask)
  : AppState * list effect :=
  let id := task.(request).(task_id) in
  let s := with_ledger (fun l => start l id env.(we_start)) s in
  let '(outcome, s, es) := run_task env s task in
  let payload := payload_of id outcome in
  let s := set_task_status task.(orchestrator_pubkey) id (terminal_status payload) s in
  let '(_, s, es') := send_result env.(we_send) s task payload in
  let s := add_pending (-1) s in
  (with_ledger (fun l => release l id) s, es ++ es').

(** One turn of [start_worker]'s loop. *)
Definition work_turn (env : WorkEnv) (s : AppState) : option (AppState * list effect) :=
  match s.(queue) with
  | [] => None
  | task :: rest =>
    Some (process_task env
      (mkAppState s.(store) s.(work_ledger) s.(pending_tasks) rest s.(receiver_alive) s.(core)
         s.(stream_ready) s.(open_call_cache) s.(in_flight) s.(at_work)) task)
  end.

(** ** Lemmas *)

Lemma run_task_shared env s task r s' es :
  run_task env s task = (r, s', es) -> shared_kept s s' /\ s'.(store) = s.(store).
Proof.
  unfold run_task, execute_compute. destruct (compute_timeout _ _ _); [|by intros [= <- <- <-]].
  destruct (dispatch_task _ _ _ _ _ _ _ _ _) as [[h xs] r0].
  destruct r0; by intros [= <- <- <-].
Qed.
End worker.

Lemma start_release l id now :
  release (start l id now) id = mkWorkLedger l.(announced) l.(reserved) (delete id l.(held)).
Proof.
  unfold release, start. cbn. f_equal. apply map_eq. intros k. destruct (decide (k = id)) as [->|Hk].
  - by rewrite !lookup_delete_eq.
  - by rewrite !lookup_delete_ne, lookup_alter_ne by done.
Qed.

Lemma payload_sendable id outcome d st p : sendable (payload_of d st p id outcome).
Proof. destruct outcome as [r|e]; intros H; [by split; eexists|done]. Qed.

Lemma payload_body js pj rj task id outcome node d st p :
  exists w, build_result_wire_body js pj rj task (payload_of d st p id outcome) node = Ok w.
Proof. by destruct outcome as [r|e]; eexists. Qed.

(** ** The worker against the interface of its sink *)

Section client.
Context (config : NodeConfig) (core_cfg : CoreConfig).
Context (describe : HttpError -> string) (status_text : Z -> string) (parse_text : string).
Context {Sink : ResultSink} {Laws : ResultSinkLaws}.

Abbreviation process := (process_task config core_cfg describe status_text parse_text).

Lemma process_unfold env s task :
  exists outcome s2 es2 r3 s3 es3,
    run_task config core_cfg env
      (with_ledger (fun l => start l task.(request).(task_id) env.(we_start)) s) task
    = (outcome, s2, es2)
    /\ send_result env.(we_send)
        (set_task_status task.(orchestrator_pubkey) task.(request).(task_id)
           (terminal_status (payload_of describe status_text parse_text
              task.(request).(task_id) outcome)) s2) task
        (payload_of describe status_text parse_text task.(request).(task_id) outcome)
      = (r3, s3, es3)
    /\ process env s task
      = (with_ledger (fun l => release l task.(request).(task_id)) (add_pending (-1) s3), es2 ++ es3).
Proof.
  unfold process_task. destruct (run_task _ _ _ _ _) as [[outcome s2] es2] eqn:E1.
  destruct (send_result _ _ _ _) as [[r3 s3] es3] eqn:E2.
  by exists outcome, s2, es2, r3, s3, es3.
Qed.

(** The worker always finishes a task's accounting: whatever the sink and
    however wqc-core, the database and the stream behave, after a task is processed the count of
    pending tasks is one lower, the ledger no longer holds the task, and holds,
    announcements and reservations of other work, the queue, the claims and the
    open calls are as they were. *)
Theorem finished_task_is_released env s task :
  let s' := (process_task config core_cfg describe status_text parse_text env s task).1 in
  s'.(pending_tasks) = as_u64 (s.(pending_tasks) - 1)
  /\ s'.(work_ledger) = mkWorkLedger s.(work_ledger).(announced) s.(work_ledger).(reserved)
       (delete task.(request).(task_id) s.(work_ledger).(held))
  /\ s'.(queue) = s.(queue) /\ s'.(receiver_alive) = s.(receiver_alive)
  /\ s'.(stream_ready) = s.(stream_ready) /\ s'.(open_call_cache) = s.(open_call_cache)
  /\ s'.(in_flight) = s.(in_flight) /\ s'.(at_work) = s.(at_work).
Proof.
  cbv zeta. destruct (process_unfold env s task) as (o & s2 & es2 & r3 & s3 & es3 & E1 & E2 & ->).
  apply run_task_shared in E1 as [H1 _].
  set (st := terminal_status _) in E2.
  pose proof (on_store_shared (update_status (orchestrator_pubkey task) (task_id (request task)) st)
    s2) as H2.
  pose proof (sink_shared (we_send env) (set_task_status (orchestrator_pubkey task) (task_id (request task)) st s2) task
    (payload_of describe status_text parse_text (task_id (request task)) o)) as H3.
  rewrite E2 in H3. cbn [fst snd] in H3.
  pose proof (shared_kept_trans _ _ _ H1 (shared_kept_trans _ _ _ H2 H3))
    as (Hl & Hp & ? & ? & ? & ? & ? & ?).
  cbn in *. split_and!; try done; [by rewrite Hp|]. rewrite Hl. apply start_release.
Qed.

Lemma process_core env s task timeout req :
  ECore (PostCompute timeout req) ∈ (process env s task).2 ->
  exists t, compute_timeout config.(compute_timeout_secs) task.(budget) (waited env task) = Some t
  /\ req = task.(request) /\ timeout = Z.min t core_cfg.(core_compute_timeout).
Proof.
  intros Hin.
  destruct (process_unfold env s task) as (o & s2 & es2 & r3 & s3 & es3 & E1 & E2 & Hp).
  rewrite Hp in Hin. cbn [snd] in Hin. apply elem_of_app in Hin as [Hin|Hin].
  2: { pose proof (sink_no_core (we_send env) (set_task_status (orchestrator_pubkey task)
         (task_id (request task)) (terminal_status (payload_of describe status_text parse_text
           (task_id (request task)) o)) s2) task
         (payload_of describe status_text parse_text (task_id (request task)) o)) as Hn.
       rewrite E2 in Hn. cbn [snd] in Hn.
       eapply Forall_forall in Hn; [|exact Hin]. done. }
  unfold run_task in E1. destruct (compute_timeout _ _ _) as [t|] eqn:Ht.
  2: { injection E1 as _ _ <-. by apply not_elem_of_nil in Hin. }
  exists t. split; [done|].
  unfold execute_compute, dispatch_task, ensure_ready in E1. cbn [with_ledger core] in E1.
  destruct (is_in_backoff _ _).
  { simplify_eq. by apply not_elem_of_nil in Hin. }
  destruct (probe_health _) as [[]|].
  2: { simplify_eq. by apply list_elem_of_singleton in Hin. }
  cbn [app] in E1. repeat case_match; simplify_eq; cbn in Hin;
    repeat (apply elem_of_cons in Hin as [Hin|Hin]); simplify_eq; try done;
    by apply not_elem_of_nil in Hin.
Qed.

(** The row is terminal, and the result is sent or stored. *)
Lemma process_survives env s task s' es data created :
  db_wf s.(store).(db) -> s.(store).(faults) = [] ->
  task_row s (task_key task) = Some (data, created) ->
  process env s task = (s', es) ->
  (exists st, (st = "completed" \/ st = "failed")
     /\ task_row s' (task_key task) = Some (mkTaskData data.(payload) st, created))
  /\ sent_or_stored task s' es.
Proof.
  intros Hwf Hf Hrow Hp.
  destruct (process_unfold env s task) as (o & s2 & es2 & r3 & s3 & es3 & E1 & E2 & Hp').
  rewrite Hp in Hp'. injection Hp' as -> ->. apply run_task_shared in E1 as [_ Hst].
  set (pl := payload_of _ _ _ _ o) in *. cbn in Hst.
  set (st := terminal_status pl) in *.
  assert (Hterm : st = "completed" \/ st = "failed").
  { unfold st, terminal_status. case_bool_decide; auto. }
  destruct (on_store_ok (OpSetStatus (task_key task) st) s2) as
    (s2' & Eset & Hs2 & Hf2 & Hck & Hwf2 & Ha2); [by rewrite Hst..|done|].
  unfold set_task_status in E2. cbn [run_op task_key fst snd] in Eset. rewrite Eset in E2.
  cbn [snd] in E2. rewrite Hst in Ha2.
  assert (Hrow2 : task_row s2' (task_key task) = Some (mkTaskData data.(payload) st, created)).
  { unfold task_row in *. rewrite Ha2. cbn [abs_op a_tasks]. rewrite lookup_alter_eq.
    by rewrite Hrow. }
  eapply sink_delivers in E2 as [Hrow3 Hsent]; [|done|done|apply payload_sendable|exact Hrow2].
  split; [by exists st|]. destruct Hsent as [[w Hw]|Hw]; [left|by right].
  exists w. apply elem_of_app. by right.
Qed.
End client.

(** ** Theorems *)

Section theorems.
Context (config : NodeConfig) (core_cfg : CoreConfig).
Context (describe : HttpError -> string) (status_text : Z -> string) (parse_text : string).
Context (json_string : string -> text) (proof_json : Proof -> text) (report_json : WorkReport -> text).
Context (job_to_json : PendingPcsJob -> option bytes) (job_from_json : bytes -> option PendingPcsJob).

Abbreviation sink := (p2p_result_sink config json_string proof_json report_json job_to_json
  job_from_json).
Abbreviation process := (process_task (Sink := sink) config core_cfg describe status_text parse_text).

(** C26. Work past its deadline is not given to wqc-core: an exchange that posts a
    task posts this task, with a timeout no longer than the node's own, wqc-core's
    and what is left of the orchestrator's deadline; when nothing is left there is
    no exchange at all, and the failure is delivered as the task's result. *)
Theorem no_compute_past_deadline env s task :
  let es := (process env s task).2 in
  (forall timeout req, ECore (PostCompute timeout req) ∈ es ->
     req = task.(request) /\ timeout <= from_secs config.(compute_timeout_secs)
     /\ timeout <= core_cfg.(core_compute_timeout)
     /\ forall b, task.(budget) = Some b ->
         waited env task < from_secs b.(deadline_secs)
         /\ timeout <= from_secs b.(deadline_secs) - waited env task) /\
  (forall b, task.(budget) = Some b -> from_secs b.(deadline_secs) <= waited env task ->
     Forall no_core es
     /\ exists t, es = (deliver_result config json_string proof_json report_json job_to_json
          job_from_json env.(we_send) t task (payload_of describe status_text parse_text
            task.(request).(task_id) (Err (DeadlinePassed (waited env task / SEC))))).2).
Proof.
  cbv zeta. split.
  - intros timeout req Hin.
    apply (process_core (Sink := sink) config core_cfg describe status_text parse_text) in Hin
      as (t & Ht & -> & ->). unfold compute_timeout in Ht.
    destruct (budget task) as [b|].
    + destruct (Z.ltb_spec (from_secs (deadline_secs b)) (waited env task)); [done|].
      destruct (Z.eqb_spec (from_secs (deadline_secs b) - waited env task) 0); [done|].
      injection Ht as <-. split_and!; [done|lia|lia|]. intros b' [= <-]. lia.
    + injection Ht as <-. split_and!; [done|lia|lia|done].
  - intros b Hb Hlate.
    destruct (process_unfold (Sink := sink) config core_cfg describe status_text parse_text env s
      task) as (o & s2 & es2 & r3 & s3 & es3 & E1 & E2 & ->).
    assert (Ht : compute_timeout (compute_timeout_secs config) (budget task) (waited env task) = None).
    { unfold compute_timeout. rewrite Hb. destruct (Z.ltb_spec (from_secs (deadline_secs b))
        (waited env task)); [done|]. destruct (Z.eqb_spec (from_secs (deadline_secs b)
        - waited env task) 0); [done|lia]. }
    unfold run_task in E1. rewrite Ht in E1. injection E1 as <- <- <-. cbn [snd app]. split.
    + replace es3 with (r3, s3, es3).2 by done. rewrite <- E2. apply sink_no_core.
    + eexists. cbn [send_result p2p_result_sink] in E2. by rewrite E2.
Qed.

(** C5. A computed or failed task leaves a trace: when no statement fails, after
    a task is processed its row is terminal and its result was either written to
    the orchestrator or waits in the outbox. *)
Theorem processed_result_survives env s task s' es data created :
  db_wf s.(store).(db) -> s.(store).(faults) = [] ->
  task_row s (task_key task) = Some (data, created) ->
  process env s task = (s', es) ->
  (exists st, (st = "completed" \/ st = "failed")
     /\ task_row s' (task_key task) = Some (mkTaskData data.(payload) st, created)) /\
  ((exists w, ESend (Sent PROTOCOL_RESULT w) ∈ es)
   \/ exists w at_, stored_result s' (task_key task) = Some (mkResultData w 0, at_)).
Proof. apply (process_survives (Sink := sink) config core_cfg describe status_text parse_text). Qed.

(** The worker writes the terminal status before the outbox row: when the
    outbox write fails (or the process dies between the two), the task is already
    terminal, nothing was sent and nothing is kept, so no restart and no retry
    brings the result back. *)
Theorem result_lost_after_status env s task s' es data created :
  db_wf s.(store).(db) -> s.(store).(faults) = [false; true] ->
  task_row s (task_key task) = Some (data, created) ->
  process env s task = (s', es) ->
  (exists st, (st = "completed" \/ st = "failed")
     /\ task_row s' (task_key task) = Some (mkTaskData data.(payload) st, created))
  /\ a_results (abs s'.(store).(db)) = a_results (abs s.(store).(db))
  /\ a_pcs (abs s'.(store).(db)) = a_pcs (abs s.(store).(db))
  /\ forall x, ESend x ∉ es.
Proof.
  intros Hwf Hf Hrow Hp.
  destruct (process_unfold (Sink := sink) config core_cfg describe status_text parse_text env s task) as (o & s2 & es2 & r3 & s3 & es3 & E1 & E2 & Hp').
  rewrite Hp in Hp'. injection Hp' as -> ->.
  assert (Hes2 : forall x, ESend x ∉ es2).
  { intros x Hx. unfold run_task, execute_compute in E1. repeat case_match; simplify_eq;
      try by apply not_elem_of_nil in Hx. all: apply list_elem_of_fmap in Hx as (? & [=] & _). }
  apply run_task_shared in E1 as [_ Hst]. cbn in Hst.
  set (pl := payload_of _ _ _ _ o) in *. set (st := terminal_status pl) in *.
  destruct (on_store (run_op (OpSetStatus (task_key task) st)) s2) as [r s2'] eqn:Eset.
  assert (Hf2 : r = Ok tt /\ s2'.(store).(faults) = [true]).
  { revert Eset. unfold on_store, run_op, update_status, exec, stmt. rewrite Hst, Hf.
    by intros [= <- <-]. }
  destruct Hf2 as [-> Hf2].
  pose proof Eset as [Hwf2 [[_ Ha2]|[[e [=]] _]]]%on_store_run; [|by rewrite Hst|done].
  unfold set_task_status in E2. cbn [run_op task_key fst snd] in Eset. rewrite Eset in E2.
  cbn [snd] in E2. rewrite Hst in Ha2.
  cbn [send_result p2p_result_sink] in E2. unfold deliver_result in E2.
  destruct (payload_body json_string proof_json report_json task (task_id (request task)) o
    (peer_id config) describe status_text parse_text) as [w Hw]. fold pl in Hw. rewrite Hw in E2.
  unfold on_store, upsert_pending_result, exec, stmt in E2. rewrite Hf2 in E2.
  injection E2 as _ <- <-. rewrite app_nil_r. split_and!; [| | |done].
  - exists st. split; [unfold st, terminal_status; case_bool_decide; auto|].
    unfold task_row in *. cbn [with_ledger add_pending with_store store db]. rewrite Ha2.
    cbn [abs_op a_tasks]. rewrite lookup_alter_eq. by rewrite Hrow.
  - cbn [with_ledger add_pending with_store store db]. by rewrite Ha2.
  - cbn [with_ledger add_pending with_store store db]. by rewrite Ha2.
Qed.
End theorems.

(** *** Witnesses *)

Definition demo_response : ComputeResponse :=
  mkComputeResponse "t1" "ok" "" zero_result None None sample_proof None.
Definition demo_work (up : bool) : WorkEnv :=
  mkWorkEnv 5 2000 0 0 0 (Response 200 None "") (Response 200 (Some demo_response) "") 7 (demo_io up).
Definition demo_running (fs : list bool) : AppState :=
  with_store (mkStore (run_all [OpInsertTask ("orch", "t1") "t1"] (mkStore empty_db [] 100)).(db)
    fs 100) initial_state.
Abbreviation demo_sink := (p2p_result_sink demo_config lit (fun _ => lit "{}") (fun _ => lit "{}")
  sample_encode sample_decode).
Abbreviation demo_process up fs := (process_task (Sink := demo_sink) demo_config demo_core
  (fun _ => "") (fun _ => "") "" (demo_work up) (demo_running fs) demo_task).
Lemma demo_running_wf fs : db_wf (demo_running fs).(store).(db).
Proof.
  change (db_wf (run_op (OpInsertTask ("orch", "t1") "t1") (mkStore empty_db [] 100)).2.(db)).
  by apply run_op_wf; [apply empty_db_wf|].
Qed.

Definition late_task : ComputeTask :=
  mkComputeTask demo_task.(request) "orch" (Some (mkBudget 1 f64_zero)) 1000.
Lemma no_compute_past_deadline_witness :
  ECore (PostCompute 300 demo_task.(request)) ∈ (demo_process true []).2 /\ 300 <= from_secs 300
  /\ Forall no_core (process_task (Sink := demo_sink) demo_config demo_core (fun _ => "")
       (fun _ => "") "" (demo_work true) (demo_running []) late_task).2.
Proof.
  assert (H : ECore (PostCompute 300 demo_task.(request)) ∈ (demo_process true []).2)
    by (vm_compute; right; left).
  split; [exact H|]. split.
  - exact (proj1 (proj2 (proj1 (no_compute_past_deadline demo_config demo_core (fun _ => "")
      (fun _ => "") "" lit (fun _ => lit "{}") (fun _ => lit "{}") sample_encode sample_decode
      (demo_work true) (demo_running []) demo_task) 300 demo_task.(request) H))).
  - eapply (proj2 (no_compute_past_deadline demo_config demo_core (fun _ => "")
      (fun _ => "") "" lit (fun _ => lit "{}") (fun _ => lit "{}") sample_encode sample_decode
      (demo_work true) (demo_running []) late_task)); [reflexivity|by vm_compute].
Defined.

Lemma processed_result_survives_witness :
  exists st, (st = "completed" \/ st = "failed")
  /\ task_row (demo_process false []).1 ("orch", "t1") = Some (mkTaskData "t1" st, 100).
Proof.
  apply (processed_result_survives demo_config demo_core (fun _ => "") (fun _ => "")
    "" lit (fun _ => lit "{}") (fun _ => lit "{}") sample_encode sample_decode (demo_work false)
    (demo_running []) demo_task (demo_process false []).1 (demo_process false []).2
    (mkTaskData "t1" "pending") 100 (demo_running_wf []));
    [reflexivity|vm_compute; reflexivity|apply surjective_pairing].
Defined.

Lemma result_lost_after_status_witness :
  task_row (demo_process true [false; true]).1 ("orch", "t1") = Some (mkTaskData "t1" "completed", 100)
  /\ a_results (abs (demo_process true [false; true]).1.(store).(db)) = ∅.
Proof.
  split; [vm_compute; reflexivity|].
  destruct (result_lost_after_status demo_config demo_core (fun _ => "") (fun _ => "")
    "" lit (fun _ => lit "{}") (fun _ => lit "{}") sample_encode sample_decode (demo_work true)
    (demo_running [false; true]) demo_task (demo_process true [false; true]).1
    (demo_process true [false; true]).2 (mkTaskData "t1" "pending") 100
    (demo_running_wf [false; true])) as (_ & H & _);
    [reflexivity|vm_compute; reflexivity|apply surjective_pairing|exact H].
Defined.
