(* ===== verification/Env.v ===== *)
(** * The environment ([NodeConfig::from_env] of [src/config.rs] and the settings the
      background loops and the client of wqc-core read)

    Every setting is a variable of the process's environment; a variable that is
    not set or not Unicode reads as [None].  Base64, libp2p's identities, BigInt
    and the hashes of the operator key are parameters. *)

From Stdlib Require Import Floats.SpecFloat.
From S2P Require Import Prelude Bytes F64 FloatText Token MemoryBudget Models Wire WorkLedger Pcs.
From S2P Require Import CoreClient Config Operator Table Storage State Stream Cas SampleJson PcsOutbox.

(** ** Numbers ([str::parse]) *)

Definition CH_PLUS : Z := 43.

Definition strip_plus (t : text) : text :=
  match t with c :: rest => if c =? CH_PLUS then rest else t | [] => t end.

(** [parse::<uN>()] for a type of [w] bits *)
Definition uint_from_str (w : Z) (s : string) : option Z :=
  let body := strip_plus (chars s) in
  if bool_decide (body = []) then None
  else if forallb is_digit_char body then
    if digits_value body <? 2 ^ w then Some (digits_value body) else None
  else None.
Definition u64_from_str : string -> option Z := uint_from_str 64.
Definition u32_from_str : string -> option Z := uint_from_str 32.
Definition u16_from_str : string -> option Z := uint_from_str 16.

(** [parse::<i64>()] *)
Definition i64_from_str (s : string) : option Z :=
  match chars s with
  | c :: rest =>
    if c =? CH_MINUS then
      if bool_decide (rest = []) || negb (forallb is_digit_char rest) then None
      else if I64_MIN <=? - digits_value rest then Some (- digits_value rest) else None
    else n ← uint_from_str 63 s; Some n
  | [] => None
  end.

(** The number nearest to [d * 10^p], ties to even. *)
Definition f64_of_decimal (negative : bool) (d p : Z) : f64 :=
  if d =? 0 then S754_zero negative
  else
    let '(m, e, l) :=
      if 0 <=? p then SFdiv_core_binary F64_PREC F64_EMAX (d * 10 ^ p) 0 1 0
      else SFdiv_core_binary F64_PREC F64_EMAX d 0 (10 ^ (- p)) 0 in
    binary_round_aux F64_PREC F64_EMAX negative m e l.

(** The longest prefix of digits, and the rest. *)
Fixpoint take_digits (t : text) : text * text :=
  match t with
  | c :: rest =>
    if is_digit_char c then let '(a, b) := take_digits rest in (c :: a, b) else ([], t)
  | [] => ([], [])
  end.

Definition exponent_value (t : text) : option Z :=
  match t with
  | [] => Some 0
  | c :: rest =>
    if (c =? 101) || (c =? 69) then
      let '(negative, digits) :=
        match rest with
        | s :: r => if s =? CH_MINUS then (true, r) else if s =? CH_PLUS then (false, r) else (false, rest)
        | [] => (false, rest)
        end in
      if bool_decide (digits = []) || negb (forallb is_digit_char digits) then None
      else Some (if negative : bool then - digits_value digits else digits_value digits)
    else None
  end.

(** [Digit+ | Digit+ '.' Digit* | Digit* '.' Digit+], and an exponent. *)
Definition f64_number (negative : bool) (t : text) : option f64 :=
  let '(whole, rest) := take_digits t in
  let '(frac, rest) :=
    match rest with
    | c :: r => if c =? CH_DOT then take_digits r else ([], rest)
    | [] => ([], rest)
    end in
  if bool_decide (whole ++ frac = []) then None
  else
    e ← exponent_value rest;
    Some (f64_of_decimal negative (digits_value (whole ++ frac)) (e - Z.of_nat (length frac))).

(** [parse::<f64>()] *)
Definition f64_from_str (s : string) : option f64 :=
  let t := chars s in
  let '(negative, body) :=
    match t with
    | c :: r => if c =? CH_MINUS then (true, r) else if c =? CH_PLUS then (false, r) else (false, t)
    | [] => (false, t)
    end in
  let word := map lower_char body in
  if bool_decide (word = lit "inf") || bool_decide (word = lit "infinity") then
    Some (S754_infinity negative)
  else if bool_decide (word = lit "nan") then Some S754_nan
  else f64_number negative body.

Example floats_read :
  map f64_from_str ["0.5"; "5"; "+.25"; "-2."; "1e-1"; "1E400"; "-Inf"; "nan"; "."; "e1"; "1e"; ""; " 1"]
  = [Some (f64_dec 5 1); Some (f64_of_Z 5); Some (f64_dec 25 2); Some (f64_of_Z (-2));
     Some (f64_dec 1 1); Some f64_infinity; Some (S754_infinity true); Some f64_nan;
     None; None; None; None; None].
Proof. by vm_compute. Qed.
Example tiny_floats_read :
  map f64_from_str ["5e-324"; "2e-324"; "9007199254740993"; "123456789012345678901234567890e-20"]
  = [Some (S754_finite false 1 (-1074)); Some f64_zero; Some (f64_of_Z 9007199254740992);
     Some (S754_finite false 5178153039816375 (-22))].
Proof. by vm_compute. Qed.

(** ** The node's configuration *)

Inductive ConfigError :=
| NotSet (name : string)                  (* {name} is required *)
| NotNumber (name : string)               (* {name} must be a number, an integer, a port *)
| OutOfRange (name : string) (value : f64)
| KeyNotBase64
| KeyNot32Bytes
| NoKeypair                               (* failed to derive libp2p keypair *)
| NoBootstrapUrl
| BadStake (e : TokenError)
| BadOperatorKey (e : OperatorError).

Definition env_or (env : string -> option string) (name default_value : string) : string :=
  default default_value (env name).

(** [raw.split(',').map(trim).filter(not empty)] *)
Definition COMMA : byte := Byte.x2c.
Definition comma_list (raw : string) : list string :=
  List.filter (fun s => negb (bool_decide (s = "")))
    (map (fun part => trim (of_bytes part)) (split_bytes COMMA (as_bytes raw))).

Section config.
Context (env : string -> option string).
Context (b64_decode : string -> option bytes) (peer_id_of_key : bytes -> option string).
Context (bigint_from_str : bytes -> option Z).
Context (hmac : bytes -> bytes -> bytes) (sha256 : bytes -> bytes) (hex_encode : bytes -> string).
Context (verifying_key : bytes -> bytes).

Definition parse_requested_memory_gib : result ConfigError (option f64) :=
  match env "WQC_MAX_MEMORY_GB" with
  | None => Ok None
  | Some s =>
    if decide (trim s = "") then Ok None
    else g ← ok_or (NotNumber "WQC_MAX_MEMORY_GB") (f64_from_str (trim s)); Ok (Some g)
  end.

Definition load_signing_key_from_env : result ConfigError bytes :=
  key_b64 ← ok_or (NotSet "WQC_NODE_PRIVATE_KEY") (env "WQC_NODE_PRIVATE_KEY");
  key_bytes ← ok_or KeyNotBase64 (b64_decode (trim key_b64));
  if decide (length key_bytes = 32%nat) then Ok key_bytes else Err KeyNot32Bytes.

(** A number from a variable or its default. *)
Definition number_var {A} (parse : string -> option A) (name default_value : string)
  : result ConfigError A :=
  ok_or (NotNumber name) (parse (env_or env name default_value)).

(** The same with a check. *)
Definition checked_f64 (ok : f64 -> bool) (name default_value : string) : result ConfigError f64 :=
  x ← number_var f64_from_str name default_value;
  if ok x then Ok x else Err (OutOfRange name x).

Definition in_unit_interval (x : f64) : bool := f64_gtb x f64_zero && f64_leb x (f64_of_Z 1).
Definition is_share (x : f64) : bool := f64_geb x f64_zero && f64_is_finite x.

Definition operator_from_env : result ConfigError (option (string * bytes)) :=
  match env "WQC_TESTNET_NODE_KEY" with
  | Some node_key =>
    if decide (trim node_key = "") then Ok None
    else
      k ← map_err BadOperatorKey
            (derive_operator_keypair hmac sha256 hex_encode verifying_key (trim node_key));
      Ok (Some k)
  | None => Ok None
  end.

Definition from_env (host_total_memory_bytes : Z) : result ConfigError NodeConfig :=
  let core_url := env_or env "WQC_CORE_URL" "http://localhost:3000" in
  requested_memory_gib ← parse_requested_memory_gib;
  let '(max_qubits, max_mps_qubits, max_memory_gib) :=
    resolve_max_qubits_from_memory_gb requested_memory_gib host_total_memory_bytes in
  compute_timeout_secs ← number_var u64_from_str "WQC_COMPUTE_TIMEOUT_SECS" "300";
  work_budget_margin ← checked_f64 in_unit_interval "WQC_WORK_BUDGET_MARGIN" "0.5";
  work_overhead_secs ← checked_f64 is_share "WQC_WORK_OVERHEAD_SECS" "5";
  work_unknown_secs ← checked_f64 is_share "WQC_WORK_UNKNOWN_SECS" "30";
  pcs_timeout_secs ← number_var u64_from_str "WQC_PCS_TIMEOUT_SECS" "7200";
  signing_key ← load_signing_key_from_env;
  peer_id ← ok_or NoKeypair (peer_id_of_key signing_key);
  raw_urls ← ok_or (NotSet "WQC_BOOTSTRAP_URLS") (env "WQC_BOOTSTRAP_URLS");
  let bootstrap_urls := comma_list raw_urls in
  if decide (bootstrap_urls = []) then Err NoBootstrapUrl
  else
    p2p_listen_port ← number_var u16_from_str "WQC_P2P_LISTEN_PORT" "4002";
    p2p_idle_timeout_secs ← number_var u64_from_str "WQC_P2P_IDLE_TIMEOUT_SECS" "60";
    http_port ← number_var u16_from_str "WQC_HTTP_PORT" "8080";
    let database_url := env_or env "WQC_DATABASE_URL" "sqlite:wqc-node.db" in
    let stake_wqc := env_or env "WQC_NODE_STAKE_WQC" "0.05" in
    stake_amount ← map_err BadStake (parse_wqc_to_planck bigint_from_str stake_wqc);
    operator ← operator_from_env;
    Ok (mkNodeConfig peer_id core_url max_qubits max_mps_qubits max_memory_gib
          requested_memory_gib host_total_memory_bytes Ram None compute_timeout_secs None
          work_budget_margin work_overhead_secs work_unknown_secs pcs_timeout_secs signing_key
          bootstrap_urls None [] p2p_listen_port p2p_idle_timeout_secs http_port database_url
          stake_amount None None (fst <$> operator) (snd <$> operator)).
End config.

(** ** Settings of the loops and of the client of wqc-core

    A value that does not parse counts as one that is not set. *)

Section settings.
Context (env : string -> option string).

Definition setting {A} (parse : string -> option A) (name : string) (default_value : A) : A :=
  default default_value (env name ≫= parse).

(** [WqcCoreClient::new] *)
Definition core_config_from_env (compute_timeout pcs_timeout : Z) : CoreConfig :=
  mkCoreConfig compute_timeout pcs_timeout
    (setting u32_from_str "WQC_CORE_HEALTH_FAIL_THRESHOLD" DEFAULT_FAIL_THRESHOLD)
    (from_secs (setting u64_from_str "WQC_CORE_HEALTH_BACKOFF_SECS" DEFAULT_BACKOFF_SECS)).

(** Seconds between two turns of [result_outbox::spawn_retry_loop]. *)
Definition result_retry_interval : Z := setting u64_from_str "WQC_RESULT_RETRY_INTERVAL_SECS" 5.

(** The interval of [pcs_outbox::spawn_retry_loop] and the time to live of a job
    nobody asked for. *)
Definition pcs_retry_settings : Z * Z :=
  (setting u64_from_str "WQC_PCS_RETRY_INTERVAL_SECS" 30,
   setting i64_from_str "WQC_PCS_UNREQUESTED_TTL_SECS" DEFAULT_UNREQUESTED_TTL_SECS).

(** [spawn_prune_loop]: the retention and the interval, or no loop at all. *)
Definition DEFAULT_RETENTION_SECS : Z := 86400.
Definition DEFAULT_PRUNE_INTERVAL_SECS : Z := 3600.
Definition prune_settings : option (Z * Z) :=
  let retention_secs := setting u64_from_str "WQC_TASK_RETENTION_SECS" DEFAULT_RETENTION_SECS in
  if retention_secs =? 0 then None
  else Some (retention_secs,
    Z.max (setting u64_from_str "WQC_TASK_PRUNE_INTERVAL_SECS" DEFAULT_PRUNE_INTERVAL_SECS) 1).
End settings.

(** ** A sound configuration *)

Record config_wf (c : NodeConfig) : Prop := {
  cw_policy : check_work_budget c.(work_budget_margin) c.(work_overhead_secs)
                c.(work_unknown_secs) = true;
  cw_timeouts : in_u64 c.(compute_timeout_secs) /\ in_u64 c.(pcs_timeout_secs)
                /\ in_u64 c.(p2p_idle_timeout_secs);
  cw_ports : 0 <= c.(p2p_listen_port) < 2 ^ 16 /\ 0 <= c.(http_port) < 2 ^ 16;
  cw_key : length c.(signing_key) = 32%nat;
  cw_urls : c.(bootstrap_urls) <> [] /\ Forall (fun u => u <> "") c.(bootstrap_urls);
  (* the widths of a bid fit in 32 bits *)
  cw_widths : 0 <= c.(max_qubits) <= 62 /\ 0 <= c.(max_mps_qubits) <= U32_MAX;
  cw_operator : is_Some c.(operator_id) <-> is_Some c.(operator_signing_key);
  (* the orchestrator is known with its key and addresses, or not at all *)
  cw_orchestrator : (is_Some c.(orchestrator_peer_id) <-> is_Some c.(orchestrator_public_key))
                    /\ (is_Some c.(orchestrator_peer_id) <-> c.(bootstrap_peers) <> [])
}.

(** What the README says of a variable: its value when it is set, the default when it
    is not. *)
Definition documented {A} (env : string -> option string) (parse : string -> option A)
  (name : string) (default_value x : A) : Prop :=
  match env name with Some v => parse v = Some x | None => x = default_value end.
(** The loops and the client of wqc-core take a value that does not parse for none. *)
Definition documented_or_ignored {A} (env : string -> option string) (parse : string -> option A)
  (name : string) (default_value x : A) : Prop :=
  match env name with
  | Some v => x = match parse v with Some y => y | None => default_value end
  | None => x = default_value
  end.

(** GiB of a host of so many bytes that the node uses on its own: all but one, from
    16 on all but two, at least one. *)
Definition host_less_reserve (host : Z) : Z :=
  let gib := host / 2 ^ 30 in Z.max 1 (gib - (if gib <? 16 then 1 else 2)).

Record documented_config (env : string -> option string) (bigint : bytes -> option Z) (host : Z)
  (c : NodeConfig) : Prop := {
  dc_core : documented env Some "WQC_CORE_URL" "http://localhost:3000" c.(core_url);
  dc_stake : documented env
    (fun v => match parse_wqc_to_planck bigint v with Ok n => Some n | Err _ => None end)
    "WQC_NODE_STAKE_WQC" (5 * 10 ^ 16) c.(stake_amount);
  dc_operator : env "WQC_TESTNET_NODE_KEY" = None ->
    c.(operator_id) = None /\ c.(operator_signing_key) = None;
  dc_memory :
    let v := trim (default "" (env "WQC_MAX_MEMORY_GB")) in
    if decide (v = "") then
      c.(requested_memory_gib) = None
      /\ c.(max_qubits) = 26 + Z.log2 (host_less_reserve host)
      /\ c.(max_mps_qubits) = Z.min (host_less_reserve host * 2048) U32_MAX
    else exists g, f64_from_str v = Some g /\ c.(requested_memory_gib) = Some g;
  dc_compute : documented env u64_from_str "WQC_COMPUTE_TIMEOUT_SECS" 300 c.(compute_timeout_secs);
  dc_margin : documented env f64_from_str "WQC_WORK_BUDGET_MARGIN" (f64_dec 5 1) c.(work_budget_margin);
  dc_overhead : documented env f64_from_str "WQC_WORK_OVERHEAD_SECS" (f64_of_Z 5) c.(work_overhead_secs);
  dc_unknown : documented env f64_from_str "WQC_WORK_UNKNOWN_SECS" (f64_of_Z 30) c.(work_unknown_secs);
  dc_pcs : documented env u64_from_str "WQC_PCS_TIMEOUT_SECS" 7200 c.(pcs_timeout_secs);
  dc_p2p : documented env u16_from_str "WQC_P2P_LISTEN_PORT" 4002 c.(p2p_listen_port);
  dc_idle : documented env u64_from_str "WQC_P2P_IDLE_TIMEOUT_SECS" 60 c.(p2p_idle_timeout_secs);
  dc_http : documented env u16_from_str "WQC_HTTP_PORT" 8080 c.(http_port);
  dc_database : documented env Some "WQC_DATABASE_URL" "sqlite:wqc-node.db" c.(database_url)
}.

Record documented_loops (env : string -> option string) : Prop := {
  dl_threshold : forall ct pt, documented_or_ignored env u32_from_str "WQC_CORE_HEALTH_FAIL_THRESHOLD" 3
    (core_config_from_env env ct pt).(fail_threshold);
  dl_backoff : forall ct pt, exists secs, documented_or_ignored env u64_from_str
    "WQC_CORE_HEALTH_BACKOFF_SECS" 30 secs
    /\ (core_config_from_env env ct pt).(backoff) = secs * 1000000000;
  dl_results : documented_or_ignored env u64_from_str "WQC_RESULT_RETRY_INTERVAL_SECS" 5
    (result_retry_interval env);
  dl_jobs : documented_or_ignored env u64_from_str "WQC_PCS_RETRY_INTERVAL_SECS" 30
    (pcs_retry_settings env).1;
  dl_ttl : documented_or_ignored env i64_from_str "WQC_PCS_UNREQUESTED_TTL_SECS" 21600
    (pcs_retry_settings env).2;
  dl_prune : exists retention interval,
    documented_or_ignored env u64_from_str "WQC_TASK_RETENTION_SECS" 86400 retention
    /\ documented_or_ignored env u64_from_str "WQC_TASK_PRUNE_INTERVAL_SECS" 3600 interval
    /\ prune_settings env = if retention =? 0 then None else Some (retention, Z.max interval 1)
}.

(** ** Lemmas *)

Lemma digits_value_nonneg t : forallb is_digit_char t = true -> 0 <= digits_value t.
Proof.
  intros Ht. unfold digits_value.
  assert (H : forall a, 0 <= a -> 0 <= fold_left (fun a c => a * 10 + (c - CH_0)) t a); [|by apply H].
  induction t as [|c t IH]; intros a Ha; cbn [fold_left]; [done|].
  cbn in Ht. apply andb_prop in Ht as [Hc%digit_char_range Ht]. apply IH; [done|].
  unfold CH_0. lia.
Qed.

Lemma uint_from_str_range w s n : uint_from_str w s = Some n -> 0 <= n < 2 ^ w.
Proof.
  unfold uint_from_str. set (t := strip_plus (chars s)). case_bool_decide; [done|].
  destruct (forallb is_digit_char t) eqn:Hd; [|done].
  destruct (Z.ltb_spec (digits_value t) (2 ^ w)); [|done]. intros [= <-].
  split; [by apply digits_value_nonneg|done].
Qed.

Lemma number_var_ok {A} env (parse : string -> option A) name d x :
  number_var env parse name d = Ok x -> parse (env_or env name d) = Some x.
Proof. unfold number_var. destruct (parse _); [by intros [= ->]|done]. Qed.

Lemma checked_f64_ok env ok name d x :
  checked_f64 env ok name d = Ok x -> ok x = true.
Proof.
  unfold checked_f64. destruct (number_var _ _ _ _) as [y|]; cbn; [|done].
  destruct (ok y) eqn:E; [by intros [= <-]|done].
Qed.

Lemma comma_list_nonempty raw : Forall (fun u => u <> "") (comma_list raw).
Proof.
  apply Forall_forall. intros u Hu%list_elem_of_In. unfold comma_list in Hu.
  apply List.filter_In in Hu as [_ Hu]. by case_bool_decide.
Qed.

Lemma dense_loop_le fuel n b : n <= 63 -> dense_loop fuel n b <= 63.
Proof.
  revert n. induction fuel as [|fuel IH]; intros n Hn; cbn [dense_loop]; [done|].
  destruct (Z.ltb_spec n 63); cbn [andb]; [|done]. case_match; [|done]. apply IH. lia.
Qed.

Lemma widths_bounded b :
  0 <= max_qubits_from_dense_memory_budget b <= 62
  /\ 0 <= max_qubits_from_mps_memory_budget b <= U32_MAX.
Proof.
  unfold max_qubits_from_dense_memory_budget, max_qubits_from_mps_memory_budget, u64_sat_sub.
  pose proof (dense_loop_le dense_fuel 0 b ltac:(done)).
  change (u64_sat_mul _ MPS_SITE_FACTOR_BYTES) with 524288. change (524288 =? 0) with false.
  cbn [orb]. split; [destruct (b <? DENSE_AMPLITUDE_BYTES); lia|].
  destruct (Z.ltb_spec b 524288); [done|]. pose proof (Z.div_pos b 524288). unfold U32_MAX in *. lia.
Qed.

Section config_lemmas.
Context (env : string -> option string).
Context (b64_decode : string -> option bytes) (peer_id_of_key : bytes -> option string).
Context (bigint_from_str : bytes -> option Z).
Context (hmac : bytes -> bytes -> bytes) (sha256 : bytes -> bytes) (hex_encode : bytes -> string).
Context (verifying_key : bytes -> bytes).
Abbreviation load := (from_env env b64_decode peer_id_of_key bigint_from_str hmac sha256 hex_encode
  verifying_key).

Lemma from_env_wf host c : load host = Ok c -> config_wf c.
Proof.
  unfold from_env. intros H. apply result_bind_Ok in H as (req & _ & H).
  unfold resolve_max_qubits_from_memory_gb in H. set (bytes := effective_memory_bytes _ _) in H.
  apply result_bind_Ok in H as (ct & E1 & H). apply result_bind_Ok in H as (margin & E2 & H).
  apply result_bind_Ok in H as (oh & E3 & H). apply result_bind_Ok in H as (un & E4 & H).
  apply result_bind_Ok in H as (pt & E5 & H). apply result_bind_Ok in H as (key & E6 & H).
  apply result_bind_Ok in H as (peer & _ & H). apply result_bind_Ok in H as (raw & _ & H).
  case_decide as Hurls; [done|].
  apply result_bind_Ok in H as (port & E7 & H). apply result_bind_Ok in H as (idle & E8 & H).
  apply result_bind_Ok in H as (http & E9 & H). apply result_bind_Ok in H as (stake & _ & H).
  apply result_bind_Ok in H as (op & _ & H). injection H as <-.
  apply number_var_ok, uint_from_str_range in E1, E5, E7, E8, E9.
  apply checked_f64_ok in E2, E3, E4.
  destruct (widths_bounded bytes). split; cbn; try done.
  - unfold check_work_budget. unfold in_unit_interval in E2. unfold is_share in E3, E4.
    by rewrite E2, E3, E4.
  - unfold load_signing_key_from_env in E6. apply result_bind_Ok in E6 as (k & _ & E6).
    apply result_bind_Ok in E6 as (bs & _ & E6). case_decide; [by simplify_eq|done].
  - split; [done|apply comma_list_nonempty].
  - by rewrite !fmap_is_Some.
Qed.
End config_lemmas.

Lemma apply_core_sysinfo_wf c info : config_wf c -> config_wf (apply_core_sysinfo c info).
Proof.
  intros [H1 H2 H3 H4 H5 H6 H7 H8]. unfold apply_core_sysinfo.
  set (vram := if eq_ignore_ascii_case _ _ then _ else None).
  unfold resolve_max_qubits_with_optional_vram.
  destruct (vram_envelope _ vram) as [bytes source]. destruct (widths_bounded bytes). by split.
Qed.

Lemma apply_bootstrap_wf c b c' :
  config_wf c -> apply_orchestrator_bootstrap c b = Ok c' ->
  config_wf c' /\ c'.(orchestrator_peer_id) = Some b.(ob_peer_id)
  /\ c'.(orchestrator_public_key) = Some b.(ob_public_key_b64)
  /\ c'.(bootstrap_peers) = b.(multiaddrs).
Proof.
  intros [H1 H2 H3 H4 H5 H6 H7 H8]. unfold apply_orchestrator_bootstrap.
  case_decide as Hne; [done|]. intros [= <-]. split; [|done]. split; cbn; try done.
Qed.

Lemma uint_from_str_decimal w n :
  0 <= n -> uint_from_str w (of_chars (dec_text n)) = if n <? 2 ^ w then Some n else None.
Proof.
  intros Hn. pose proof (dec_text_digits n Hn) as Hd. unfold uint_from_str.
  rewrite chars_of_chars by (by apply digits_scalars).
  assert (Hp : strip_plus (dec_text n) = dec_text n).
  { unfold strip_plus. destruct (dec_text n) as [|c t]; [done|]. cbn in Hd.
    apply andb_prop in Hd as [Hc%digit_char_range _]. unfold CH_PLUS. by destruct (Z.eqb_spec c 43); [lia|]. }
  rewrite Hp, bool_decide_eq_false_2 by (by apply dec_text_nonempty).
  by rewrite Hd, dec_text_value.
Qed.

(** *** Defaults *)

Lemma number_var_documented {A} env (parse : string -> option A) name d dv x :
  parse d = Some dv -> number_var env parse name d = Ok x -> documented env parse name dv x.
Proof.
  intros Hd H%number_var_ok. unfold env_or, documented in *. destruct (env name); cbn in H; congruence.
Qed.

Lemma checked_documented env ok name d dv x :
  f64_from_str d = Some dv -> checked_f64 env ok name d = Ok x -> documented env f64_from_str name dv x.
Proof.
  intros Hd H. unfold checked_f64 in H. apply result_bind_Ok in H as (y & H & Hy).
  assert (y = x) as -> by (by destruct (ok y); simplify_eq). by eapply number_var_documented.
Qed.

Lemma stake_default bigint :
  bigint_from_str_spec bigint -> parse_wqc_to_planck bigint "0.05" = Ok (5 * 10 ^ 16).
Proof.
  intros Hbig. change "0.05" with (of_bytes ([Byte.x30] ++ DOT :: [Byte.x30; Byte.x35])).
  rewrite (parse_digits bigint Hbig) by (reflexivity || (cbn; lia)). reflexivity.
Qed.

Lemma unset_widths host :
  in_u64 host ->
  max_qubits_from_dense_memory_budget (effective_memory_bytes None host)
    = 26 + Z.log2 (host_less_reserve host)
  /\ max_qubits_from_mps_memory_budget (effective_memory_bytes None host)
     = Z.min (host_less_reserve host * 2048) U32_MAX.
Proof.
  intros Hhost. cbn [effective_memory_bytes]. unfold max_wqc_memory_bytes_from_total.
  change GIB_U64 with (2 ^ 30). set (g := host / 2 ^ 30).
  assert (Hg : 0 <= g < 2 ^ 34).
  { unfold in_u64 in Hhost. split; [apply Z.div_pos; lia|apply Z.div_lt_upper_bound; lia]. }
  assert (Hr : max_wqc_memory_gib_from_total g = host_less_reserve host).
  { unfold max_wqc_memory_gib_from_total, host_less_reserve, host_memory_reserve_gib, u64_sat_sub,
      HOST_MEMORY_RESERVE_THRESHOLD_GIB, HOST_MEMORY_RESERVE_LARGE_GIB, HOST_MEMORY_RESERVE_SMALL_GIB.
    fold g. cbv zeta. destruct (Z.eqb_spec g 0) as [->|]; [done|].
    destruct (Z.leb_spec 16 g), (Z.ltb_spec g 16); lia. }
  rewrite Hr. set (n := host_less_reserve host).
  assert (Hn : 1 <= n < 2 ^ 34).
  { unfold n, host_less_reserve. fold g. cbv zeta. destruct (g <? 16) eqn:E; lia. }
  assert (Hb : u64_sat_mul n (2 ^ 30) = n * 2 ^ 30).
  { unfold u64_sat_mul, U64_MAX. lia. }
  rewrite Hb. split.
  - rewrite (proj1 (dense_log2 (n * 2 ^ 30) ltac:(unfold U64_MAX; lia))).
    replace (n * 2 ^ 30 / 16) with (n * 2 ^ 26).
    + rewrite Z.log2_mul_pow2 by lia. lia.
    + replace (n * 2 ^ 30) with (n * 2 ^ 26 * 16) by lia. by rewrite Z.div_mul.
  - unfold max_qubits_from_mps_memory_budget. change (u64_sat_mul _ MPS_SITE_FACTOR_BYTES) with 524288.
    change (524288 =? 0) with false. cbn [orb]. rewrite (proj2 (Z.ltb_ge _ _)) by lia.
    replace (n * 2 ^ 30) with (n * 2048 * 524288) by lia. by rewrite Z.div_mul.
Qed.

Lemma config_documented env decode peer_of bigint hmac sha hex vk host c :
  bigint_from_str_spec bigint -> in_u64 host ->
  from_env env decode peer_of bigint hmac sha hex vk host = Ok c ->
  documented_config env bigint host c.
Proof.
  intros Hbig Hhost H. unfold from_env in H. apply result_bind_Ok in H as (req & Hreq & H).
  unfold resolve_max_qubits_from_memory_gb in H.
  apply result_bind_Ok in H as (ct & E1 & H). apply result_bind_Ok in H as (margin & E2 & H).
  apply result_bind_Ok in H as (oh & E3 & H). apply result_bind_Ok in H as (un & E4 & H).
  apply result_bind_Ok in H as (pt & E5 & H). apply result_bind_Ok in H as (key & _ & H).
  apply result_bind_Ok in H as (peer & _ & H). apply result_bind_Ok in H as (raw & _ & H).
  case_decide as Hurls; [done|].
  apply result_bind_Ok in H as (port & E7 & H). apply result_bind_Ok in H as (idle & E8 & H).
  apply result_bind_Ok in H as (http & E9 & H). apply result_bind_Ok in H as (stake & E10 & H).
  apply result_bind_Ok in H as (op & E11 & H). injection H as <-.
  split; cbn [core_url stake_amount operator_id operator_signing_key requested_memory_gib max_qubits
    max_mps_qubits compute_timeout_secs work_budget_margin work_overhead_secs work_unknown_secs
    pcs_timeout_secs p2p_listen_port p2p_idle_timeout_secs http_port database_url];
    try (eapply number_var_documented; [|eassumption]; by vm_compute);
    try (eapply checked_documented; [|eassumption]; by vm_compute).
  - unfold documented, env_or. by destruct (env _).
  - unfold documented, env_or in *. destruct (env "WQC_NODE_STAKE_WQC"); cbn [default] in E10.
    + destruct (parse_wqc_to_planck _ _); cbn in E10; by simplify_eq.
    + rewrite stake_default in E10 by done. cbn in E10. by simplify_eq.
  - intros Hop. unfold operator_from_env in E11. rewrite Hop in E11. by simplify_eq.
  - pose proof (unset_widths host Hhost) as [? ?]. unfold parse_requested_memory_gib in Hreq.
    cbv zeta. destruct (env "WQC_MAX_MEMORY_GB") as [v|]; cbn [default from_option id].
    + destruct (decide (trim v = "")); [by simplify_eq|].
      destruct (f64_from_str (trim v)) as [g|]; [|done]. cbn in Hreq. simplify_eq. by exists g.
    + rewrite decide_True by done. by simplify_eq.
  - unfold documented, env_or. by destruct (env _).
Qed.

Lemma setting_documented {A} env (parse : string -> option A) name d :
  documented_or_ignored env parse name d (setting env parse name d).
Proof. unfold documented_or_ignored, setting. destruct (env name) as [v|]; [|done]. cbn. by destruct (parse v). Qed.

Lemma loops_documented env : documented_loops env.
Proof.
  split; [intros ct pt; apply setting_documented| |apply setting_documented..|].
  - intros ct pt. eexists. split; [apply setting_documented|]. unfold core_config_from_env, from_secs.
    cbn [backoff]. done.
  - do 2 eexists. split_and!; [apply setting_documented..|done].
Qed.

Lemma minimal_loads env decode peer_of bigint hmac sha hex vk host key seed peer urls :
  bigint_from_str_spec bigint ->
  (forall name, name <> "WQC_NODE_PRIVATE_KEY" -> name <> "WQC_BOOTSTRAP_URLS" -> env name = None) ->
  env "WQC_NODE_PRIVATE_KEY" = Some key -> decode (trim key) = Some seed ->
  length seed = 32%nat -> peer_of seed = Some peer ->
  env "WQC_BOOTSTRAP_URLS" = Some urls -> comma_list urls <> [] ->
  is_ok (from_env env decode peer_of bigint hmac sha hex vk host) = true.
Proof.
  intros Hbig Hnone Hkey Hdec Hlen Hpeer Hurls Hne.
  assert (Hd : forall name d, name <> "WQC_NODE_PRIVATE_KEY" -> name <> "WQC_BOOTSTRAP_URLS" ->
    env_or env name d = d) by (intros; unfold env_or; by rewrite Hnone).
  unfold from_env, parse_requested_memory_gib, load_signing_key_from_env, operator_from_env,
    checked_f64, number_var.
  rewrite Hkey, Hurls. rewrite !Hnone, !Hd, stake_default by done.
  cbn [mbind result_bind ok_or]. destruct (resolve_max_qubits_from_memory_gb None host) as [[q m] g].
  rewrite Hdec. cbn [mbind result_bind ok_or].
  rewrite (decide_True (P := length seed = 32%nat)) by done.
  change (u64_from_str "300") with (Some 300). change (u64_from_str "7200") with (Some 7200).
  change (u16_from_str "4002") with (Some 4002). change (u64_from_str "60") with (Some 60).
  change (u16_from_str "8080") with (Some 8080).
  change (f64_from_str "0.5") with (Some (f64_dec 5 1)).
  change (f64_from_str "5") with (Some (f64_of_Z 5)).
  change (f64_from_str "30") with (Some (f64_of_Z 30)).
  cbn [mbind result_bind ok_or]. change (in_unit_interval (f64_dec 5 1)) with true.
  change (is_share (f64_of_Z 5)) with true. change (is_share (f64_of_Z 30)) with true.
  cbn [mbind result_bind ok_or]. rewrite Hpeer. cbn [mbind result_bind ok_or map_err].
  by rewrite (decide_False (P := comma_list urls = [])).
Qed.

(** ** Theorems *)

(** C14. The configuration is well-formed at every stage: whatever the environment
    holds, a configuration that loads passes the checks of the work budget, has its
    integers in their widths, a key of 32 bytes, a bootstrap URL that is not blank
    and an operator identity complete or absent; what wqc-core reports of its
    memory keeps that, and so does the bootstrap, after which the orchestrator is
    known with its key and its addresses. *)
Theorem configuration_is_wellformed env decode peer_of bigint hmac sha hex vk host c info b c' :
  from_env env decode peer_of bigint hmac sha hex vk host = Ok c ->
  apply_orchestrator_bootstrap (apply_core_sysinfo c info) b = Ok c' ->
  config_wf c /\ config_wf (apply_core_sysinfo c info) /\ config_wf c'
  /\ c'.(orchestrator_peer_id) = Some b.(ob_peer_id)
  /\ c'.(orchestrator_public_key) = Some b.(ob_public_key_b64)
  /\ c'.(bootstrap_peers) = b.(multiaddrs).
Proof.
  intros H%from_env_wf Hb. pose proof (apply_core_sysinfo_wf _ info H) as Hi.
  split_and!; [done|done|by apply (apply_bootstrap_wf _ _ _ Hi Hb)..].
Qed.


(** Integer settings are read exactly: the decimal text of a number gives it back
    when it fits the type and is refused otherwise; and what is read always fits. *)
Theorem integer_settings_exact w s n :
  0 <= n -> uint_from_str w (of_chars (dec_text n)) = (if n <? 2 ^ w then Some n else None)
  /\ (uint_from_str w s = Some n -> n < 2 ^ w).
Proof.
  intros Hn. split; [by apply uint_from_str_decimal|]. intros H%uint_from_str_range. lia.
Qed.

(** *** Witnesses *)

Definition minimal_env (name : string) : option string :=
  if decide (name = "WQC_NODE_PRIVATE_KEY") then Some " key "
  else if decide (name = "WQC_BOOTSTRAP_URLS") then Some "http://a, ,http://b" else None.
Definition toy_seed (s : string) : option bytes := Some (replicate 32 Byte.x61).
Definition loaded (e : string -> option string) : result ConfigError NodeConfig :=
  from_env e toy_seed (fun _ => Some "peer") sample_bigint toy_hmac (fun b => b) of_bytes
    (fun b => b) (8 * GIB_U64).

(** Everything unset on a host of 32 GiB; and one variable set. *)
Definition big_host : Z := 32 * GIB_U64 + 12345.
Definition one_set (name : string) : option string :=
  if decide (name = "WQC_HTTP_PORT") then Some "9090" else minimal_env name.
Definition loaded_on (e : string -> option string) : result ConfigError NodeConfig :=
  from_env e toy_seed (fun _ => Some "peer") sample_bigint toy_hmac (fun b => b) of_bytes
    (fun b => b) big_host.


Lemma integer_settings_exact_witness : uint_from_str 16 (of_chars (dec_text 65536)) = None.
Proof. exact (proj1 (integer_settings_exact 16 "" 65536 ltac:(lia))). Defined.

Definition sample_bootstrap : OrchestratorBootstrap :=
  mkOrchestratorBootstrap "http://a" "orch" "key" ["/p2p/orch"].
Definition loaded_config : NodeConfig :=
  match loaded minimal_env with Ok c => c | Err _ => sample_config end.

Lemma configuration_is_wellformed_witness : config_wf loaded_config.
Proof.
  destruct (apply_orchestrator_bootstrap (apply_core_sysinfo loaded_config sample_info)
    sample_bootstrap) as [c'|e] eqn:Hb; [|by vm_compute in Hb].
  apply (configuration_is_wellformed minimal_env toy_seed (fun _ => Some "peer") sample_bigint
    toy_hmac (fun b => b) of_bytes (fun b => b) (8 * GIB_U64) loaded_config sample_info
    sample_bootstrap c'); [by vm_compute|done].
Defined.

(** The messages ask for a positive integer; zero is taken. *)
Example zero_timeout_is_taken :
  match loaded (fun name => if decide (name = "WQC_COMPUTE_TIMEOUT_SECS") then Some "0"
                            else minimal_env name) with
  | Ok c => c.(compute_timeout_secs) = 0
  | Err _ => False
  end.
Proof. by vm_compute. Qed.
