(* ===== verification/Frame.v ===== *)
(** * What the bids and the PCS tasks leave alone

    The handlers of announcements, of open calls and of PCS requests and the PCS
    retry loop share the database and the process state with the worker.  They
    keep to their own part of it: the rows of the tasks, the worker's queue and the
    count of pending tasks are as they found them, up to what other tasks do while
    they wait. *)

From S2P Require Import Prelude Bytes F64 Models MemoryBudget Wire WorkLedger Pcs Table Storage.
From S2P Require Import CoreClient Config State Stream Cas SampleJson PcsOutbox PcsHandlers.
From S2P Require Import FloatText AcceptTask ResultJson ResultOutbox Ports Operator Geo Bid Host Worker.

Definition tasks_of (s : AppState) : gmap key (task_data * Z) := a_tasks (abs s.(store).(db)).

Create HintDb frame.

(** [s'] differs from [s] only outside the tasks. *)
Definition elsewhere (s s' : AppState) : Prop :=
  (db_wf s.(store).(db) -> db_wf s'.(store).(db) /\ tasks_of s' = tasks_of s)
  /\ s'.(queue) = s.(queue) /\ s'.(pending_tasks) = s.(pending_tasks)
  /\ s'.(receiver_alive) = s.(receiver_alive) /\ s'.(at_work) = s.(at_work)
  /\ (ledger_ok s.(work_ledger) -> ledger_ok s'.(work_ledger)).

#[export] Instance elsewhere_preorder : PreOrder elsewhere.
Proof.
  unfold elsewhere. split; [intros s; by split_and!|].
  intros s t u (H & ? & ? & ? & ? & L1) (K & ? & ? & ? & ? & L2).
  split_and!; try congruence; [|by intros ?%L1%L2]. intros [Ht Et]%H. destruct (K Ht) as [Hu Eu]. split; congruence.
Qed.

Lemma elsewhere_same_db s s' :
  s'.(store).(db) = s.(store).(db) -> s'.(queue) = s.(queue) ->
  s'.(pending_tasks) = s.(pending_tasks) -> s'.(receiver_alive) = s.(receiver_alive) ->
  s'.(at_work) = s.(at_work) -> s'.(work_ledger) = s.(work_ledger) -> elsewhere s s'.
Proof. intros Hdb ? ? ? ? Hl. unfold elsewhere, tasks_of. by rewrite Hdb, Hl. Qed.

(** The statements on the outboxes. *)
Definition op_elsewhere (o : op) : Prop :=
  match o with OpInsertTask _ _ | OpSetStatus _ _ | OpPrune _ => False | _ => True end.

Lemma elsewhere_op o s r s' :
  op_elsewhere o -> (db_wf s.(store).(db) -> op_pre o s.(store).(db)) ->
  on_store (run_op o) s = (r, s') -> elsewhere s s'.
Proof.
  intros Ho Hpre H. pose proof H as (st & _ & Hst)%on_store_eq. split; [|by subst].
  intros Hwf. apply on_store_op in H as (Hwf' & _ & _ & H); [|done|by apply Hpre].
  split; [done|]. unfold tasks_of. destruct r as [[]|e]; rewrite H; [|done]. by destruct o.
Qed.

Lemma elsewhere_query {A} (m : St A) s r s' :
  (forall st r st', m st = (r, st') -> st'.(db) = st.(db)) ->
  on_store m s = (r, s') -> elsewhere s s'.
Proof. intros Hm (st & H%Hm & ->)%on_store_eq. by apply elsewhere_same_db. Qed.

Lemma get_pcs_elsewhere pubkey id s r s' :
  on_store (get_pending_pcs pubkey id) s = (r, s') -> elsewhere s s'.
Proof. apply elsewhere_query. intros st r0 st'. apply query_db. Qed.

Lemma list_pcs_elsewhere s r s' : on_store list_pending_pcs s = (r, s') -> elsewhere s s'.
Proof. apply elsewhere_query. intros st r0 st'. apply query_db. Qed.

Lemma upsert_pcs_elsewhere tj pubkey id job s r s' :
  on_store (upsert_pending_pcs tj pubkey id job) s = (r, s') -> elsewhere s s'.
Proof.
  destruct (tj job) as [j|] eqn:Hj.
  - rewrite (upsert_is_op _ _ _ _ j Hj). by apply elsewhere_op.
  - unfold on_store, upsert_pending_pcs. rewrite Hj. intros [= _ <-]. by apply elsewhere_same_db.
Qed.

Lemma delete_pcs_elsewhere pubkey id s r s' :
  on_store (delete_pending_pcs pubkey id) s = (r, s') -> elsewhere s s'.
Proof. by apply (elsewhere_op (OpDeletePcs (pubkey, id))). Qed.

Lemma delete_pcs_id_elsewhere id s r s' :
  on_store (delete_pending_pcs_by_id id) s = (r, s') -> elsewhere s s'.
Proof.
  intros (st & H & ->)%on_store_eq. split_and!; try done. intros Hwf. unfold tasks_of.
  cbn [with_store store]. destruct r as [[]|e]; [apply exec_Ok in H|apply exec_Err in H]; rewrite H;
    [|done]. destruct Hwf. split; [|done]. split; cbn; try done. by apply delete_where_wf.
Qed.

Lemma bump_pcs_elsewhere id s r s' :
  on_store (increment_pending_pcs_attempts id) s = (r, s') -> elsewhere s s'.
Proof.
  intros (st & H & ->)%on_store_eq. split_and!; try done. intros Hwf. unfold tasks_of.
  cbn [with_store store]. destruct r as [[]|e]; [apply exec_Ok in H|apply exec_Err in H]; rewrite H;
    [|done]. destruct Hwf. split; [|done]. split; cbn; try done. by apply update_where_wf.
Qed.

#[export] Hint Resolve get_pcs_elsewhere list_pcs_elsewhere upsert_pcs_elsewhere
  delete_pcs_elsewhere delete_pcs_id_elsewhere bump_pcs_elsewhere : frame.

(** ** The PCS outbox

    [I] is what the node relies on about the rest of the state; the tasks that run
    while a build or a send waits keep it. *)

Section keeps.
Context (I : AppState -> Prop).
Hypothesis HI : forall s s', elsewhere s s' -> I s -> I s'.

Definition kept_by (h : AppState -> AppState) : Prop := forall s, I s -> I (h s).
Definition kept_by_env (env : BuildEnv) : Prop :=
  kept_by env.(be_during_build) /\ kept_by env.(be_during_send).

Lemma core_kept h s : I s -> I (with_core h s).
Proof. apply HI. by apply elsewhere_same_db. Qed.
Lemma open_calls_kept f s : I s -> I (with_open_calls f s).
Proof. apply HI. by apply elsewhere_same_db. Qed.
Lemma in_flight_kept f s : I s -> I (with_in_flight f s).
Proof. apply HI. by apply elsewhere_same_db. Qed.
Hint Resolve core_kept open_calls_kept in_flight_kept : frame.

Context (config : NodeConfig) (core_cfg : CoreConfig).
Context (describe : HttpError -> string) (status_text : Z -> string) (parse_text : string).
Context (sha256 : bytes -> bytes) (hex_encode : bytes -> string) (b64_encode : bytes -> string).
Context (tj : PendingPcsJob -> option bytes) (fj : bytes -> option PendingPcsJob).
Context (message_to_json : PcsMessage -> option bytes) (vj : bytes -> option value).

Lemma send_and_delete_kept env s pubkey id wire after o r s' es :
  kept_by_env env -> kept_by after ->
  send_and_delete config vj env s pubkey id wire after o = (r, s', es) -> I s -> I s'.
Proof.
  intros [_ Hs] Ha H HIs. unfold send_and_delete in H. destruct wire as [wire|]; [|by simplify_eq].
  destruct (send_pcs_wire _ _ _ _ _) as [r1 w]. apply Hs in HIs.
  destruct r1 as [u|e]; [|by simplify_eq].
  destruct (on_store _ _) as [r2 s2] eqn:E. apply delete_pcs_elsewhere, HI in E; [|done].
  destruct r2; simplify_eq; auto.
Qed.

Lemma run_build_kept env s id job r s' es :
  run_build config core_cfg sha256 hex_encode b64_encode env s id job = (r, s', es) -> I s -> I s'.
Proof.
  intros H. enough (s' = s \/ exists h, s' = with_core h s) as [->|[h ->]] by auto with frame.
  unfold run_build, build_open_call_leaf_pcs, call_core in H.
  repeat case_match; simplify_eq; eauto.
Qed.

Lemma try_build_kept env s pubkey id job r s' es :
  kept_by_env env ->
  try_build_and_deliver config core_cfg describe status_text parse_text sha256 hex_encode b64_encode
    tj message_to_json vj env s pubkey id job = (r, s', es) -> I s -> I s'.
Proof.
  intros He H HIs. unfold try_build_and_deliver in H.
  destruct (claim_inflight id s) as [c s1] eqn:E1. unfold claim_inflight in E1.
  assert (I s1) as HI1 by (injection E1 as _ <-; auto with frame). clear E1 HIs.
  destruct c; [|by simplify_eq].
  destruct (build_and_deliver _ _ _ _ _ _ _ _ _ _ _ env s1 pubkey id job) as [[r2 s2] es2] eqn:E2.
  simplify_eq. apply in_flight_kept. clear s. unfold build_and_deliver in E2.
  assert (Hclear : forall b : bool, kept_by (fun s => if b then clear_cached_open_call id s else s))
    by (intros []; [intros s; apply open_calls_kept|by intros s]).
  destruct (job_leaf_pcs_b64 job) as [cached|].
  { by eapply send_and_delete_kept in E2. }
  destruct (is_in_backoff _ _); [by simplify_eq|].
  destruct (run_build _ _ _ _ _ _ _ _ _) as [[r3 s3] es3] eqn:E3. apply run_build_kept in E3; [|done].
  apply (proj1 He) in E3. destruct r3 as [pcs|e].
  - destruct (on_store _ _) as [r4 s4] eqn:E4. apply upsert_pcs_elsewhere, HI in E4; [|done].
    destruct r4 as [[]|e]; [|by simplify_eq].
    destruct (deliver_bundle _ _ _ _ _ _ _ _ _) as [[r5 s5] es5] eqn:E5. simplify_eq.
    by eapply send_and_delete_kept in E5.
  - destruct (is_core_down_error _); [by simplify_eq|].
    destruct (is_permanent _ _); [|by simplify_eq].
    destruct (report_permanent_refusal _ _ _ _ _ _ _ _) as [[r5 s5] es5] eqn:E5. simplify_eq.
    eapply send_and_delete_kept in E5; [done|done| |done]. intros t. apply open_calls_kept.
Qed.

Lemma retry_entry_kept env now ttl s e s' es :
  kept_by_env env ->
  retry_entry config core_cfg describe status_text parse_text sha256 hex_encode b64_encode tj fj
    message_to_json vj env now ttl s e = (s', es) -> I s -> I s'.
Proof.
  intros He H HIs. unfold retry_entry in H. destruct (fj _) as [job|]; [|by simplify_eq].
  destruct (negb _).
  - destruct (_ <=? _); [|by simplify_eq].
    destruct (on_store _ s) as [r s1] eqn:E. simplify_eq. cbn. eauto with frame.
  - destruct (try_build_and_deliver _ _ _ _ _ _ _ _ _ _ _ _ _ _ _ _) as [[r1 s1] es1] eqn:E1.
    apply try_build_kept in E1; [|done..]. destruct r1 as [o|x]; [by simplify_eq|].
    destruct (on_store _ s1) as [r s2] eqn:E. simplify_eq. cbn. eauto with frame.
Qed.

Lemma retry_pass_kept env now ttl s s' es :
  (forall e, kept_by_env (env e)) ->
  retry_pass config core_cfg describe status_text parse_text sha256 hex_encode b64_encode tj fj
    message_to_json vj env now ttl s = (s', es) -> I s -> I s'.
Proof.
  intros He H HIs. unfold retry_pass in H. destruct (on_store _ s) as [r s1] eqn:E.
  apply list_pcs_elsewhere, HI in E; [|done]. destruct r as [entries|e]; [|by simplify_eq].
  clear HIs. revert s1 s' es E H. induction entries as [|e entries IH]; intros s1 s' es HI1;
    cbn [retry_entries]; [by intros [= <- _]|].
  destruct (retry_entry _ _ _ _ _ _ _ _ _ _ _ _ _ _ _ _ e) as [s2 es2] eqn:E2.
  destruct (retry_entries _ _ _ _ _ _ _ _ _ _ _ _ _ _ _ _ entries) as [s3 es3] eqn:E3.
  intros [= <- _]. apply retry_entry_kept in E2; [|done..]. by eapply IH.
Qed.

(** ** PCS requests and open calls *)

Lemma lookup_kept n during s pubkey id o s' :
  kept_by during -> lookup_retained fj n during s pubkey id = (o, s') -> I s -> I s'.
Proof.
  intros Hd. revert s. induction n as [|n IH]; intros s; cbn [lookup_retained];
    [by intros [= _ <-]|].
  destruct (on_store _ s) as [r s1] eqn:E. intros H HIs.
  apply get_pcs_elsewhere, HI in E; [|done]. destruct r as [[e|]|x]; [by simplify_eq| |by simplify_eq].
  destruct n as [|n]; [by simplify_eq|]. by apply (IH (during s1)); auto.
Qed.

Lemma pcs_request_kept during s pubkey r s' es :
  kept_by during -> handle_pcs_request config tj fj during s pubkey r = (s', es) -> I s -> I s'.
Proof.
  intros Hd H HIs. unfold handle_pcs_request, handle_open_call_pcs_request in H.
  destruct (request_is_open_call r).
  - destruct (decide _); [by simplify_eq|]. destruct (cached_open_call _ _ _); [|by simplify_eq].
    destruct (on_store _ s) as [r1 s1] eqn:E. apply upsert_pcs_elsewhere, HI in E; [|done].
    destruct r1; by simplify_eq.
  - destruct (lookup_retained _ _ _ _ _ _) as [o s1] eqn:E. apply lookup_kept in E; [|done..].
    destruct o as [job|]; [|by simplify_eq]. destruct (job_requested job); [by simplify_eq|].
    destruct (on_store _ s1) as [r2 s2] eqn:E2. apply upsert_pcs_elsewhere, HI in E2; [|done].
    destruct r2; by simplify_eq.
Qed.

Context {sig vk : Type}.
Context (decode : string -> option bytes) (from_slice : bytes -> option sig).
Context (key_of : bytes -> option vk) (verify : vk -> bytes -> sig -> bool).
Context (sign_pcs : bytes -> bytes) (pcs_bid_to_json : PcsBidMessage -> option bytes).
Context (open_from_json : bytes -> option PcsOpenCallMessage).
Context (request_from_json : bytes -> option PcsRequestMessage).

Lemma request_stream_kept orch peer during payload s r s' es :
  kept_by during ->
  on_pcs_request_stream config decode from_slice key_of verify request_from_json tj fj orch peer
    during payload s = (r, s', es) -> I s -> I s'.
Proof.
  intros Hd H HIs. unfold on_pcs_request_stream, handle_pcs_request_stream in H.
  repeat case_match; simplify_eq; try done. by eapply pcs_request_kept.
Qed.

Lemma open_stream_kept orch peer payload sysinfo now ios s r s' w :
  on_pcs_open_stream config decode from_slice key_of verify sign_pcs b64_encode pcs_bid_to_json
    open_from_json orch peer payload sysinfo now ios s = (r, s', w) -> I s -> I s'.
Proof.
  intros H HIs. unfold on_pcs_open_stream, handle_pcs_open_stream in H.
  repeat case_match; simplify_eq; try done; by apply open_calls_kept.
Qed.

(** ** Bids *)

Lemma bid_kept_elsewhere s s' :
  bid_kept s s' -> (ledger_ok s.(work_ledger) -> ledger_ok s'.(work_ledger)) -> elsewhere s s'.
Proof.
  intros (Ht & Hr & Hp & ? & ? & ? & _ & _ & _ & _ & ?) Hl. split_and!; try done. intros [Wt Wr Wp].
  unfold tasks_of, abs. cbn. rewrite Ht. split; [|done]. split; by rewrite ?Ht, ?Hr, ?Hp.
Qed.

(** What the node relies on when it bids: the walk over a map, the checks of the
    configuration, and messages whose numbers are in the range of their types. *)
Record bid_assumptions (values : forall A : Type, gmap string A -> list A)
  (mfj : bytes -> option TaskAnnouncementMessage) : Prop := {
  ba_values : forall A (m : gmap string A), values A m ≡ₚ snd <$> map_to_list m;
  ba_policy : forall r, config.(tn_rates) = Some r ->
    policy_wf (bid_policy config r) /\ margin_ok config.(work_budget_margin);
  ba_message : forall b m, mfj b = Some m -> announcement_wf m.(announcement)
}.

Lemma announcement_elsewhere gates values sha sign_bid bigint_text bid_json mfj env payload s r s' w :
  bid_assumptions values mfj ->
  handle_announcement config gates values sha sign_bid bigint_text bid_json vj decode from_slice key_of
    verify mfj env payload s = (r, s', w) -> elsewhere s s'.
Proof.
  intros [Hv Hp Hm] H. apply bid_kept_elsewhere; [by eapply announcement_kept|].
  apply announcement_ledger in H as [Hl|(m & wk & rates & Hpay & Hwk & Hr & Hl)]; rewrite Hl; [done|].
  destruct (Hp _ Hr) as [Hpol Hmar]. destruct (Hm _ _ Hpay) as [_ _ _ _ _ Hd Hw].
  rewrite Hwk in Hw. intros Hl0. apply decide_work_ok; try done.
  - unfold work_wf, in_u64 in *. lia.
  - destruct (an_deadline_secs _); [done|]. unfold in_u32. cbn. lia.
Qed.

Lemma announce_kept gates values sha sign_bid bigint_text bid_json mfj orch peer env payload s r s' w :
  bid_assumptions values mfj ->
  on_announce_stream config gates values sha sign_bid bigint_text bid_json vj decode from_slice key_of verify mfj
    orch peer env payload s = (r, s', w) -> I s -> I s'.
Proof.
  unfold on_announce_stream. intros Ha. case_decide; [|by intros [= <- <- <-]].
  intros Hb. eapply HI, announcement_elsewhere; [exact Ha|exact Hb].
Qed.
End keeps.

(** ** The worker and the result outbox

    They change the row of the task they work on, its status only. *)

(** No row of [k] is pending. *)
Definition settled_at (k : key) (m : gmap key (task_data * Z)) : Prop :=
  forall d c, m !! k = Some (d, c) -> d.(status) <> "pending".

(** The rows of other keys are kept; the row of [k] keeps payload and date, and
    is not made pending. *)
Definition rows_follow (k : key) (m m' : gmap key (task_data * Z)) : Prop :=
  (forall k', k' <> k -> m' !! k' = m !! k') /\
  (fun v => (v.1.(payload), v.2)) <$> m' !! k = (fun v => (v.1.(payload), v.2)) <$> m !! k /\
  (settled_at k m -> settled_at k m').

Lemma rows_follow_refl k m : rows_follow k m m.
Proof. by split_and!. Qed.
Lemma rows_follow_trans k m m1 m2 : rows_follow k m m1 -> rows_follow k m1 m2 -> rows_follow k m m2.
Proof.
  intros (H1 & H2 & H5) (H3 & H4 & H6). split_and!; [|congruence|auto].
  intros k' Hk. rewrite H3 by done. by apply H1.
Qed.

(** Every row reads back as the task it is the key of, with a budget the ledger can
    hold. *)
Definition coherent (task_from_json : string -> option ComputeTask)
  (m : gmap key (task_data * Z)) : Prop :=
  map_Forall (fun k v => exists t, task_from_json v.1.(payload) = Some t /\ task_key t = k
    /\ budget_nonneg t.(budget)) m.

Lemma rows_follow_coherent fj k m m' : rows_follow k m m' -> coherent fj m -> coherent fj m'.
Proof.
  intros (Hne & Hk & _) Hm k' v Hv. destruct (decide (k' = k)) as [->|Hk'].
  - rewrite Hv in Hk. destruct (m !! k) as [w|] eqn:Hw; [|done]. cbn in Hk.
    injection Hk as Hp _. rewrite Hp. by apply (Hm k w).
  - rewrite Hne in Hv by done. by apply (Hm k' v).
Qed.

(** A row whose status is written is settled, unless it is made pending. *)
Lemma settled_alter k st m :
  st <> "pending" -> settled_at k (alter (fun v => (mkTaskData v.1.(payload) st, v.2)) k m).
Proof.
  intros Hst d c. rewrite lookup_alter_eq. destruct (m !! k) as [v|]; [|done]. by intros [= <- _].
Qed.

(** A statement takes one entry of the list of faults. *)
Lemma exec_outcome f s r s' :
  on_store (exec f) s = (r, s') ->
  s'.(store).(faults) = tl s.(store).(faults)
  /\ (head s.(store).(faults) <> Some true -> is_ok r = true).
Proof.
  unfold on_store, exec, stmt. cbn. destruct (faults (store s)) as [|[] ?]; by intros [= <- <-].
Qed.

Lemma set_status_faults pubkey id st s :
  (set_task_status pubkey id st s).(store).(faults) = tl s.(store).(faults).
Proof.
  unfold set_task_status. destruct (on_store _ s) as [r s1] eqn:E. by apply exec_outcome in E as [? _].
Qed.

Lemma set_status_settles pubkey id st s :
  st <> "pending" -> db_wf s.(store).(db) -> head s.(store).(faults) <> Some true ->
  settled_at (pubkey, id) (tasks_of (set_task_status pubkey id st s)).
Proof.
  intros Hst Hwf Hf. unfold set_task_status. destruct (on_store _ s) as [r s1] eqn:E. cbn [snd].
  pose proof E as [_ Hr]%exec_outcome. specialize (Hr Hf).
  apply (on_store_run (OpSetStatus (pubkey, id) st)) in E as [_ [[_ Ha]|[[e ->] _]]]; [|done..].
  unfold tasks_of. rewrite Ha. by apply settled_alter.
Qed.

Lemma set_status_follows pubkey id st s :
  st <> "pending" -> db_wf s.(store).(db) ->
  db_wf (set_task_status pubkey id st s).(store).(db)
  /\ rows_follow (pubkey, id) (tasks_of s) (tasks_of (set_task_status pubkey id st s)).
Proof.
  intros Hst Hwf. unfold set_task_status. destruct (on_store _ s) as [r s1] eqn:E.
  apply (on_store_run (OpSetStatus (pubkey, id) st)) in E as [Hwf1 H]; [|done..]. cbn [snd].
  split; [done|]. unfold tasks_of. destruct H as [[_ ->]|[_ ->]]; [|apply rows_follow_refl].
  cbn [abs_op a_tasks]. split_and!.
  - intros k' Hk. by apply lookup_alter_ne.
  - rewrite lookup_alter_eq. by destruct (a_tasks _ !! _) as [[]|].
  - intros _. by apply settled_alter.
Qed.

Lemma terminal_not_pending pl : terminal_status pl <> "pending".
Proof. unfold terminal_status. by case_bool_decide. Qed.
#[export] Hint Resolve terminal_not_pending : frame.

Section deliver_rows.
Context (config : NodeConfig).
Context (json_string : string -> text) (proof_json : Proof -> text) (report_json : WorkReport -> text).
Context (job_to_json : PendingPcsJob -> option bytes) (job_from_json : bytes -> option PendingPcsJob).

Lemma try_deliver_tasks io s pubkey id w payload task r s' es :
  db_wf s.(store).(db) ->
  try_deliver_pending config job_to_json job_from_json io s pubkey id w payload task = (r, s', es) ->
  db_wf s'.(store).(db) /\ tasks_of s' = tasks_of s.
Proof.
  intros Hwf H. unfold try_deliver_pending in H.
  destruct (send_result_wire config s io w) as [[[]|e] w2]; [|by simplify_eq].
  destruct (on_store (delete_pending_result _ _) s) as [r3 s3] eqn:E3.
  apply (on_store_run (OpDeleteResult (pubkey, id))) in E3 as [Hwf3 H3]; [|done..].
  assert (T3 : tasks_of s3 = tasks_of s) by (unfold tasks_of; by destruct H3 as [[_ ->]|[_ ->]]).
  destruct r3 as [[]|e]; [|by simplify_eq].
  destruct (bool_decide _); [destruct (pl_proof payload) as [p|]|]; [|by simplify_eq..].
  destruct (retain_after_result _ _ _ _ _) as [s4 es4] eqn:E4.
  apply retain_tables in E4 as (? & _ & T4 & _); [|done]. simplify_eq. split; [done|].
  unfold tasks_of at 1. by rewrite T4.
Qed.
End deliver_rows.

Section retry_tasks.
Context (config : NodeConfig).
Context (tj : PendingPcsJob -> option bytes) (fj : bytes -> option PendingPcsJob).
Context (tfj : string -> option ComputeTask).
Context (vj : bytes -> option value) (pv : value -> option Proof).

Definition tasks_kept (s s' : AppState) : Prop := tasks_of s' = tasks_of s /\ shared_kept s s'.

Lemma tasks_kept_trans s t u : tasks_kept s t -> tasks_kept t u -> tasks_kept s u.
Proof. intros [H1 H2] [H3 H4]. split; [congruence|by eapply shared_kept_trans]. Qed.

Lemma retain_delivered_tasks s entry :
  db_wf s.(store).(db) -> tasks_kept s (retain_delivered tj fj tfj vj pv s entry).1.
Proof.
  intros Hwf. unfold retain_delivered.
  pose proof (on_store_shared (load_task tfj (prs_orchestrator_pubkey entry)
    (prs_sub_task_id entry)) s) as Hsh.
  destruct (on_store (load_task _ _ _) s) as [r u] eqn:E. cbn [snd] in Hsh.
  apply on_load_spec in E as [Hsame _]. apply same_db in Hsame.
  assert (Hu : tasks_kept s u) by (split; [unfold tasks_of; by rewrite Hsame|done]).
  destruct r as [[task|]|]; [|done..].
  destruct (extract_proof_from_result_wire _ _ _) as [[p|]|]; [|done..].
  eapply tasks_kept_trans; [exact Hu|]. split; [|apply retain_shared].
  destruct (retain_after_result _ _ _ _ _) as [u2 es2] eqn:E2. cbn [fst].
  apply retain_tables in E2 as (_ & _ & T & _); [done|by rewrite Hsame].
Qed.

Lemma retry_result_tasks io s e s' es :
  db_wf s.(store).(db) -> retry_result config tj fj tfj vj pv io s e = (s', es) ->
  tasks_kept s s'.
Proof.
  intros Hwf H. unfold retry_result in H. destruct (send_result_wire _ _ _ _) as [[[]|x] w].
  - pose proof (on_store_shared (delete_pending_result (prs_orchestrator_pubkey e)
      (prs_sub_task_id e)) s) as Hsh.
    destruct (on_store _ s) as [r0 s0] eqn:E0. cbn [snd] in Hsh, H.
    apply (on_store_run (OpDeleteResult (result_key e))) in E0 as [Hwf0 H0]; [|done..].
    pose proof (retain_delivered_tasks s0 e Hwf0) as Hr.
    destruct (retain_delivered _ _ _ _ _ _ _) as [s1 es1]. simplify_eq. cbn [fst] in Hr.
    eapply tasks_kept_trans; [|exact Hr]. split; [|done].
    unfold tasks_of. by destruct H0 as [[_ ->]|[_ ->]].
  - pose proof (on_store_shared (increment_pending_result_attempts (prs_id e)) s) as Hsh.
    destruct (on_store _ s) as [r0 s0] eqn:E0. cbn [snd] in Hsh, H. simplify_eq. split; [|done].
    apply on_store_eq in E0 as (st0 & E0 & ->). unfold tasks_of. cbn [with_store store].
    destruct r0 as [[]|]; [apply exec_Ok in E0|apply exec_Err in E0]; by rewrite E0.
Qed.

Lemma retry_results_tasks io entries s s' es :
  db_wf s.(store).(db) -> retry_results config tj fj tfj vj pv io s entries = (s', es) ->
  db_wf s'.(store).(db) /\ tasks_kept s s'.
Proof.
  revert s s' es. induction entries as [|e entries IH]; intros s s' es Hwf; cbn [retry_results].
  { intros [= <- <-]. split; [done|]. split; [done|apply shared_kept_refl]. }
  destruct (retry_result _ _ _ _ _ _ _ s e) as [s1 es1] eqn:E1.
  destruct (retry_results _ _ _ _ _ _ _ s1 entries) as [s2 es2] eqn:E2. intros [= <- <-].
  pose proof E1 as [Hwf1 _]%retry_result_spec; [|done].
  apply retry_result_tasks in E1; [|done]. apply IH in E2 as [? H2]; [|done].
  split; [done|by eapply tasks_kept_trans].
Qed.

Lemma retry_pass_tasks io s s' es :
  db_wf s.(store).(db) -> retry_results_pass config tj fj tfj vj pv io s = (s', es) ->
  db_wf s'.(store).(db) /\ tasks_kept s s'.
Proof.
  intros Hwf. unfold retry_results_pass.
  pose proof (on_store_shared list_pending_results s) as Hs.
  destruct (on_store list_pending_results s) as [r s1] eqn:E. cbn [snd] in Hs.
  apply on_store_eq in E as (st & E & ->). apply query_db in E as Hdb.
  assert (Hwf1 : db_wf (with_store st s).(store).(db)) by (cbn; by rewrite Hdb).
  assert (H1 : tasks_kept s (with_store st s))
    by (split; [unfold tasks_of; cbn [with_store store]; by rewrite Hdb|done]).
  destruct r as [entries|e]; [|by intros [= <- <-]].
  intros [? ?]%retry_results_tasks; [|done]. split; [done|by eapply tasks_kept_trans].
Qed.
End retry_tasks.

