(* ===== verification/Turn.v ===== *)
(** * The worker's turn in steps ([src/application/worker.rs])

    [Worker.work_turn] is a turn of the loop as if nothing else ran.  The loop waits
    twice in a turn, for wqc-core and for the result stream, and other tasks run
    meanwhile.  Here are its three parts, what each does to the rows of the tasks,
    and that they make up the turn. *)

From S2P Require Import Prelude Bytes F64 FloatText Models Wire WorkLedger Pcs Table Storage.
From S2P Require Import CoreClient Config State Stream PcsOutbox ResultJson ResultOutbox Ports Worker.
From S2P Require Import Frame.

(** [recv] *)
Definition receive (rest : list ComputeTask) (s : AppState) : AppState :=
  mkAppState s.(store) s.(work_ledger) s.(pending_tasks) rest s.(receiver_alive) s.(core)
    s.(stream_ready) s.(open_call_cache) s.(in_flight) s.(at_work).

(** What follows [send_result], whatever it answered. *)
Definition end_work (task : ComputeTask) (s : AppState) : AppState :=
  let s := add_pending (-1) s in
  with_work None (with_ledger (fun l => release l task.(request).(task_id)) s).

Section turn.
Context (config : NodeConfig) (core_cfg : CoreConfig).
Context (describe : HttpError -> string) (status_text : Z -> string) (parse_text : string).
Context (json_string : string -> text) (proof_json : Proof -> text) (report_json : WorkReport -> text).
Context (job_to_json : PendingPcsJob -> option bytes) (job_from_json : bytes -> option PendingPcsJob).

(** From [recv] to the answer of wqc-core. *)
Definition begin_work (env : WorkEnv) (s : AppState) : option (AppState * list effect) :=
  match s.(queue) with
  | [] => None
  | task :: rest =>
    let id := task.(request).(task_id) in
    let s := with_ledger (fun l => start l id env.(we_start)) (receive rest s) in
    let '(outcome, s, es) := run_task config core_cfg env s task in
    Some (with_work (Some (Computed task outcome)) s, es)
  end.

(** From there to the stream of the result. *)
Definition report_work (s : AppState) : option AppState :=
  match s.(at_work) with
  | Some (Computed task outcome) =>
    let pubkey := task.(orchestrator_pubkey) in
    let id := task.(request).(task_id) in
    let payload := payload_of describe status_text parse_text id outcome in
    let s := set_task_status pubkey id (terminal_status payload) s in
    Some
      match build_result_wire_body json_string proof_json report_json task payload
              config.(peer_id) with
      | Err _ => end_work task s
      | Ok wire_body =>
        match on_store (upsert_pending_result pubkey id wire_body) s with
        | (Err _, s) => end_work task s
        | (Ok _, s) =>
          with_work (Some (Reporting task payload wire_body))
            (set_task_status pubkey id (terminal_status payload) s)
        end
      end
  | _ => None
  end.

(** From the end of the stream to the end of the turn. *)
Definition conclude_work (io : StreamIo) (s : AppState) : option (AppState * list effect) :=
  match s.(at_work) with
  | Some (Reporting task payload wire_body) =>
    let '(_, s, es) := try_deliver_pending config job_to_json job_from_json io s
      task.(orchestrator_pubkey) task.(request).(task_id) wire_body payload task in
    Some (end_work task s, es)
  | _ => None
  end.

(** The three in a row. *)
Definition turn_alone (env : WorkEnv) (s : AppState) : option (AppState * list effect) :=
  match begin_work env s with
  | None => None
  | Some (s, es) =>
    match report_work s with
    | None => None
    | Some s =>
      match conclude_work env.(we_send) s with
      | Some (s, es') => Some (s, es ++ es')
      | None => Some (s, es)
      end
    end
  end.
End turn.

(** ** Lemmas *)

(** *** The worker's place does not matter to the others *)

Lemma on_store_work {A} (m : St A) w s :
  on_store m (with_work w s) = ((on_store m s).1, with_work w (on_store m s).2).
Proof. unfold on_store. cbn. by destruct (m (store s)). Qed.

Lemma set_status_work p id st w s :
  set_task_status p id st (with_work w s) = with_work w (set_task_status p id st s).
Proof. unfold set_task_status. by rewrite on_store_work. Qed.

Lemma end_work_work task w s : end_work task (with_work w s) = end_work task s.
Proof. done. Qed.

Lemma retain_work tj fj w s task proof :
  retain_after_result tj fj (with_work w s) task proof
  = (with_work w (retain_after_result tj fj s task proof).1,
     (retain_after_result tj fj s task proof).2).
Proof.
  unfold retain_after_result. rewrite on_store_work.
  destruct (on_store (get_pending_pcs _ _) s) as [r s1]. cbn [fst snd]. rewrite on_store_work.
  by destruct (on_store (upsert_pending_pcs _ _ _ _) s1) as [[] s2].
Qed.

Section turn_lemmas.
Context (config : NodeConfig) (core_cfg : CoreConfig).
Context (describe : HttpError -> string) (status_text : Z -> string) (parse_text : string).
Context (json_string : string -> text) (proof_json : Proof -> text) (report_json : WorkReport -> text).
Context (job_to_json : PendingPcsJob -> option bytes) (job_from_json : bytes -> option PendingPcsJob).

Abbreviation begin := (begin_work config core_cfg).
Abbreviation report := (report_work config describe status_text parse_text
  json_string proof_json report_json).
Abbreviation conclude := (conclude_work config job_to_json job_from_json).

Lemma try_deliver_work w io s pubkey id wire payload task :
  try_deliver_pending config job_to_json job_from_json io (with_work w s) pubkey id wire payload task
  = let '(r, s', es) := try_deliver_pending config job_to_json job_from_json io s pubkey id wire
      payload task in (r, with_work w s', es).
Proof.
  unfold try_deliver_pending.
  change (send_result_wire config (with_work w s) io wire) with (send_result_wire config s io wire).
  destruct (send_result_wire config s io wire) as [[u|e] es]; [|done].
  rewrite on_store_work. destruct (on_store (delete_pending_result _ _) s) as [[u'|e] s1]; [|done].
  cbn [fst snd]. destruct (bool_decide _); [|done]. destruct (pl_proof payload) as [p|]; [|done].
  rewrite retain_work. by destruct (retain_after_result _ _ s1 _ _).
Qed.

(** *** What the steps do *)

Definition ledger_follows (s s' : AppState) : Prop :=
  ledger_ok s.(work_ledger) -> ledger_ok s'.(work_ledger).

Lemma begin_spec env s s' es :
  begin env s = Some (s', es) ->
  exists task rest outcome, s.(queue) = task :: rest
  /\ s'.(at_work) = Some (Computed task outcome) /\ s'.(queue) = rest
  /\ s'.(store) = s.(store) /\ s'.(pending_tasks) = s.(pending_tasks)
  /\ s'.(receiver_alive) = s.(receiver_alive) /\ ledger_follows s s'.
Proof.
  unfold begin_work. destruct (queue s) as [|task rest]; [done|].
  destruct (run_task _ _ _ _ _) as [[o s1] es1] eqn:E. intros [= <- <-].
  apply run_task_shared in E as [(Hl & Hp & Hq & Ha & _) Hs]. cbn in *.
  exists task, rest, o. split_and!; try done. unfold ledger_follows. cbn. rewrite Hl. apply start_ok.
Qed.

(** What [report_work] leaves when it goes on to the stream, and when it does not. *)
Definition reported (task : ComputeTask) (s s' : AppState) : Prop :=
  db_wf s'.(store).(db) /\ rows_follow (task_key task) (tasks_of s) (tasks_of s')
  /\ s'.(queue) = s.(queue) /\ s'.(receiver_alive) = s.(receiver_alive)
  /\ ((exists payload w, s'.(at_work) = Some (Reporting task payload w)
         /\ s'.(pending_tasks) = s.(pending_tasks))
      \/ s'.(at_work) = None /\ s'.(pending_tasks) = as_u64 (s.(pending_tasks) + -1))
  /\ ledger_follows s s'.

Lemma set_status_shared p id st s : shared_kept s (set_task_status p id st s).
Proof. apply on_store_shared. Qed.

Lemma end_work_reported task s t :
  shared_kept s t -> db_wf t.(store).(db) ->
  rows_follow (task_key task) (tasks_of s) (tasks_of t) -> reported task s (end_work task t).
Proof.
  intros (Hl & Hp & Hq & Ha & _) Ht Hf. unfold reported, ledger_follows. cbn.
  rewrite Hl, Hp, Hq, Ha. split_and!; auto. apply release_ok.
Qed.

Lemma report_spec s s' task outcome :
  db_wf s.(store).(db) -> s.(at_work) = Some (Computed task outcome) -> report s = Some s' ->
  reported task s s'.
Proof.
  intros Hwf Hw. unfold report_work. rewrite Hw. intros [= <-].
  set (payload := payload_of _ _ _ _ outcome). set (st := terminal_status payload).
  pose proof (terminal_not_pending payload : st <> "pending") as Hst.
  pose proof (set_status_follows (orchestrator_pubkey task) (task_id (request task)) st s Hst Hwf)
    as [Hwf1 F1].
  pose proof (set_status_shared (orchestrator_pubkey task) (task_id (request task)) st s) as Hs1.
  set (s1 := set_task_status _ _ _ s) in *.
  destruct (build_result_wire_body _ _ _ _ _ _) as [w|e]; [|by apply end_work_reported].
  destruct (on_store (upsert_pending_result _ _ _) s1) as [r s2] eqn:E.
  pose proof (on_store_shared (upsert_pending_result (orchestrator_pubkey task)
    (task_id (request task)) w) s1) as Hs2. rewrite E in Hs2. cbn [snd] in Hs2.
  apply (on_store_run (OpUpsertResult (task_key task) w)) in E as [Hwf2 H2]; [|done..].
  assert (T2 : tasks_of s2 = tasks_of s1) by (unfold tasks_of; by destruct H2 as [[_ ->]|[_ ->]]).
  pose proof (shared_kept_trans _ _ _ Hs1 Hs2) as Hs.
  destruct r as [u|e]; [|apply end_work_reported; by rewrite ?T2].
  pose proof (set_status_follows (orchestrator_pubkey task) (task_id (request task)) st s2 Hst Hwf2)
    as [Hwf3 F3]. rewrite T2 in F3.
  pose proof (shared_kept_trans _ _ _ Hs (set_status_shared (orchestrator_pubkey task)
    (task_id (request task)) st s2)) as (Hl & Hp & Hq & Ha & _).
  split_and!; [done|by eapply rows_follow_trans|done..|left; by exists payload, w|].
  unfold ledger_follows. cbn [with_work work_ledger]. by rewrite Hl.
Qed.

(** The worker writes the status twice, before the outbox row and after it: the
    task stays pending only when the first write fails and so does the second or
    the statement before it. *)
Definition status_survives (faults : list bool) : bool :=
  match faults with
  | true :: true :: _ | true :: false :: true :: _ => false
  | _ => true
  end.

Lemma report_settles s s' task outcome :
  db_wf s.(store).(db) -> s.(at_work) = Some (Computed task outcome) ->
  status_survives s.(store).(faults) = true -> report s = Some s' ->
  settled_at (task_key task) (tasks_of s').
Proof.
  intros Hwf Hw Hf. unfold report_work. rewrite Hw. intros [= <-].
  destruct (payload_body json_string proof_json report_json task (task_id (request task)) outcome
    (peer_id config) describe status_text parse_text) as [w ->].
  set (payload := payload_of _ _ _ _ outcome). set (st := terminal_status payload).
  pose proof (terminal_not_pending payload : st <> "pending") as Hst.
  pose proof (set_status_follows (orchestrator_pubkey task) (task_id (request task)) st s Hst Hwf)
    as [Hwf1 _].
  pose proof (set_status_settles (orchestrator_pubkey task) (task_id (request task)) st s Hst Hwf)
    as H1.
  pose proof (set_status_faults (orchestrator_pubkey task) (task_id (request task)) st s) as Hf1.
  set (s1 := set_task_status _ _ _ s) in *.
  destruct (on_store (upsert_pending_result _ _ _) s1) as [r s2] eqn:E.
  pose proof E as [Hf2 Hr]%exec_outcome.
  apply (on_store_run (OpUpsertResult (task_key task) w)) in E as [Hwf2 H2]; [|done..].
  assert (T2 : tasks_of s2 = tasks_of s1) by (unfold tasks_of; by destruct H2 as [[_ ->]|[_ ->]]).
  pose proof (set_status_follows (orchestrator_pubkey task) (task_id (request task)) st s2 Hst Hwf2)
    as (_ & _ & _ & Hs).
  pose proof (set_status_settles (orchestrator_pubkey task) (task_id (request task)) st s2 Hst Hwf2)
    as H3.
  rewrite T2 in Hs. rewrite Hf2, Hf1 in H3. rewrite Hf1 in Hr.
  destruct (decide (head s.(store).(faults) = Some true)) as [Ht|Ht].
  - destruct (faults (store s)) as [|[] [|[] fs]]; try done; cbn in Hr; specialize (Hr ltac:(done));
      (destruct r as [u|]; [|done]); apply H3; cbn; [done|]. by destruct fs as [|[] ?].
  - specialize (H1 Ht). destruct r; [by apply Hs|].
    change (settled_at (task_key task) (tasks_of s2)). by rewrite T2.
Qed.

Lemma conclude_spec io s s' es task payload w :
  db_wf s.(store).(db) -> s.(at_work) = Some (Reporting task payload w) ->
  conclude io s = Some (s', es) ->
  db_wf s'.(store).(db) /\ tasks_of s' = tasks_of s /\ s'.(at_work) = None
  /\ s'.(queue) = s.(queue) /\ s'.(receiver_alive) = s.(receiver_alive)
  /\ s'.(pending_tasks) = as_u64 (s.(pending_tasks) + -1) /\ ledger_follows s s'.
Proof.
  intros Hwf Hw. unfold conclude_work. rewrite Hw.
  pose proof (try_deliver_shared config job_to_json job_from_json io s (orchestrator_pubkey task)
    (task_id (request task)) w payload task) as Hs.
  destruct (try_deliver_pending _ _ _ _ _ _ _ _ _ _) as [[r s1] es1] eqn:E. intros [= <- <-].
  apply try_deliver_tasks in E as [Hwf1 Ht]; [|done]. destruct Hs as (Hl & Hp & Hq & Ha & _).
  cbn [fst snd] in *. unfold ledger_follows. cbn. rewrite Hp, Hl. split_and!; try done.
  apply release_ok.
Qed.

Lemma with_work_id s : s.(at_work) = None -> with_work None s = s.
Proof. destruct s. cbn. by intros ->. Qed.
End turn_lemmas.

(** ** Theorems *)

(** The three steps are the turn: run one after the other from a state in which
    the worker is free they do what a turn of the loop does, and nothing is left of
    them. *)
Theorem turn_in_steps config core_cfg describe status_text parse_text json_string proof_json
  report_json job_to_json job_from_json env s :
  s.(at_work) = None ->
  turn_alone config core_cfg describe status_text parse_text json_string proof_json report_json
    job_to_json job_from_json env s
  = work_turn (Sink := p2p_result_sink config json_string proof_json report_json job_to_json
      job_from_json) config core_cfg describe status_text parse_text env s.
Proof.
  intros Hfree. unfold turn_alone, work_turn, begin_work.
  destruct (queue s) as [|task rest]; [done|]. unfold process_task.
  fold (receive rest s). set (s0 := with_ledger _ (receive rest s)).
  assert (H0 : s0.(at_work) = None) by done. clearbody s0.
  destruct (run_task config core_cfg env s0 task) as [[o s1] es] eqn:E.
  apply run_task_shared in E as [(_ & _ & _ & _ & _ & _ & _ & H1) _]. rewrite H0 in H1. clear H0.
  unfold report_work. cbn [at_work with_work]. rewrite set_status_work.
  set (payload := payload_of _ _ _ _ o). set (st := terminal_status payload).
  pose proof (set_status_shared (orchestrator_pubkey task) (task_id (request task)) st s1)
    as (_ & _ & _ & _ & _ & _ & _ & H2). rewrite H1 in H2.
  set (s2 := set_task_status _ _ st s1) in *. cbn [send_result p2p_result_sink]. unfold deliver_result.
  assert (Hend : forall s, s.(at_work) = None -> end_work task s
    = with_ledger (fun l => release l (task_id (request task))) (add_pending (-1) s)).
  { intros t Ht. by apply with_work_id. }
  destruct (build_result_wire_body _ _ _ _ _ _) as [w|e].
  2: { cbn [conclude_work end_work with_work at_work]. unfold conclude_work. cbn.
       by rewrite app_nil_r, <- Hend. }
  rewrite on_store_work.
  pose proof (on_store_shared (upsert_pending_result (orchestrator_pubkey task)
    (task_id (request task)) w) s2) as (_ & _ & _ & _ & _ & _ & _ & H3). rewrite H2 in H3.
  destruct (on_store (upsert_pending_result _ _ _) s2) as [[u|e] s3]; cbn [fst snd] in *.
  2: { unfold conclude_work. cbn. by rewrite app_nil_r, <- Hend. }
  rewrite set_status_work. unfold conclude_work. cbn [at_work with_work].
  pose proof (set_status_shared (orchestrator_pubkey task) (task_id (request task)) st s3)
    as (_ & _ & _ & _ & _ & _ & _ & H4). rewrite H3 in H4. fold st.
  set (s4 := set_task_status _ _ st s3) in *.
  rewrite !try_deliver_work.
  pose proof (try_deliver_shared config job_to_json job_from_json (we_send env) s4
    (orchestrator_pubkey task) (task_id (request task)) w payload task)
    as (_ & _ & _ & _ & _ & _ & _ & H5).
  destruct (try_deliver_pending _ _ _ _ s4 _ _ _ _ _) as [[r s5] es5]. cbn [fst snd] in H5.
  rewrite <- Hend; [done|congruence].
Qed.
