(* ===== verification/Stages.v ===== *)
(** * The waiting tasks in steps ([src/application/pcs_outbox.rs],
      [result_outbox.rs], [accept_task.rs])

    A build waits twice, for wqc-core and for the peer; a PCS request sleeps between
    its lookups; a retried result waits for its stream; a dispatch gives way between
    its lookup and its insertion.  [PcsOutbox], [ResultOutbox] and [AcceptTask] have
    them as functions with what happens meanwhile as an argument.  Here each is cut
    at its waits, with what the task holds in its locals as data, and the parts in a
    row are shown to be the whole. *)

From S2P Require Import Prelude Bytes F64 FloatText Models MemoryBudget Features Validation GoJson.
From S2P Require Import Wire WorkLedger Pcs Table Storage CoreClient Config State AcceptTask Stream.
From S2P Require Import Cas PcsOutbox PcsHandlers ResultJson ResultOutbox.

(** ** Builds *)

(** Where a build waits: wqc-core has answered, or the peer has; [clears] when the
    cached open call goes with the job. *)
Inductive BuildStage :=
| Proving (job : PendingPcsJob) (answer : result BuildError LeafPcsResponse)
| Delivering (answer : result StreamError unit) (clears : bool) (outcome : DeliverOutcome).

Inductive progress := Waits (stage : BuildStage) | Ended (r : result PcsError DeliverOutcome).

Section builds.
Context (config : NodeConfig) (core_cfg : CoreConfig).
Context (describe : HttpError -> string) (status_text : Z -> string) (parse_text : string).
Context (sha256 : bytes -> bytes) (hex_encode : bytes -> string) (b64_encode : bytes -> string).
Context (job_to_json : PendingPcsJob -> option bytes).
Context (message_to_json : PcsMessage -> option bytes) (value_from_json : bytes -> option value).

(** [send_pcs_wire(..)] up to its await. *)
Definition put_on_wire (env : BuildEnv) (s : AppState) (wire : option bytes) (clears : bool)
  (outcome : DeliverOutcome) : progress * AppState * list effect :=
  match wire with
  | None => (Ended (Err EncodeFailed), s, [])
  | Some wire =>
    let '(r, w) := send_pcs_wire value_from_json config s env.(be_send) wire in
    (Waits (Delivering r clears outcome), s, map ESend w)
  end.
Definition put_bundle (env : BuildEnv) (s : AppState) (sub_task_id : string) (job : PendingPcsJob)
  (bundle : string) : progress * AppState * list effect :=
  put_on_wire env s (build_pcs_wire_body message_to_json sub_task_id config.(peer_id) bundle)
    (job_is_open_call job) Delivered.

(** From the claim to the call of wqc-core, or to the stream of a cached bundle. *)
Definition ask_core (env : BuildEnv) (s : AppState) (sub_task_id : string) (job : PendingPcsJob)
  : progress * AppState * list effect :=
  match job.(job_leaf_pcs_b64) with
  | Some cached => put_bundle env s sub_task_id job cached
  | None =>
    if is_in_backoff s.(core) env.(be_check) then (Ended (Ok SkippedCoreDown), s, [])
    else
      let '(r, s, es) := run_build config core_cfg sha256 hex_encode b64_encode env s
        sub_task_id job in
      (Waits (Proving job r), s, es)
  end.

(** From the answer of wqc-core to the stream. *)
Definition after_core (env : BuildEnv) (s : AppState) (pubkey sub_task_id : string)
  (job : PendingPcsJob) (answer : result BuildError LeafPcsResponse)
  : progress * AppState * list effect :=
  match answer with
  | Err e =>
    let msg := build_text describe status_text parse_text e in
    if is_core_down_error msg then (Ended (Ok SkippedCoreDown), s, [])
    else if is_permanent job msg then
      put_on_wire env s (build_pcs_refusal_wire_body message_to_json sub_task_id config.(peer_id)
        (pcs_refuse_reason msg)) true RefusedPermanent
    else (Ended (Err (BuildFailed e)), s, [])
  | Ok pcs =>
    let job := with_bundle pcs job in
    match on_store (upsert_pending_pcs job_to_json pubkey sub_task_id job) s with
    | (Err e, s) => (Ended (Err (StoreFailed e)), s, [])
    | (Ok _, s) => put_bundle env s sub_task_id job pcs.(leaf_pcs_b64)
    end
  end.

(** From the answer of the peer to the end. *)
Definition after_send (s : AppState) (pubkey sub_task_id : string)
  (answer : result StreamError unit) (clears : bool) (outcome : DeliverOutcome)
  : result PcsError DeliverOutcome * AppState :=
  match answer with
  | Err e => (Err (NotSent e), s)
  | Ok _ =>
    match on_store (delete_pending_pcs pubkey sub_task_id) s with
    | (Err e, s) => (Err (StoreFailed e), s)
    | (Ok _, s) => (Ok outcome, if clears then clear_cached_open_call sub_task_id s else s)
    end
  end.

(** A build that ends gives its claim back. *)
Definition settle (sub_task_id : string) (x : progress * AppState * list effect)
  : progress * AppState * list effect :=
  match x with
  | (Ended r, s, es) => (Ended r, release_inflight sub_task_id s, es)
  | x => x
  end.

(** [try_build_and_deliver] up to its first wait, and from each wait on. *)
Definition begin_build (env : BuildEnv) (s : AppState) (sub_task_id : string) (job : PendingPcsJob)
  : progress * AppState * list effect :=
  match claim_inflight sub_task_id s with
  | (false, s) => (Ended (Ok SkippedInFlight), s, [])
  | (true, s) => settle sub_task_id (ask_core env s sub_task_id job)
  end.
Definition resume_build (env : BuildEnv) (s : AppState) (pubkey sub_task_id : string)
  (stage : BuildStage) : progress * AppState * list effect :=
  settle sub_task_id
    match stage with
    | Proving job answer => after_core env s pubkey sub_task_id job answer
    | Delivering answer clears outcome =>
      let '(r, s) := after_send s pubkey sub_task_id answer clears outcome in (Ended r, s, [])
    end.

(** The parts in a row, with what other tasks do at each wait. *)
Definition meanwhile (env : BuildEnv) (stage : BuildStage) : AppState -> AppState :=
  match stage with Proving _ _ => env.(be_during_build) | Delivering _ _ _ => env.(be_during_send) end.
Fixpoint drive (waits : nat) (env : BuildEnv) (pubkey sub_task_id : string)
  (x : progress * AppState * list effect)
  : option (result PcsError DeliverOutcome * AppState * list effect) :=
  match x, waits with
  | (Ended r, s, es), _ => Some (r, s, es)
  | (Waits _, _, _), O => None
  | (Waits stage, s, es), S waits =>
    let '(p, s, es') := resume_build env (meanwhile env stage s) pubkey sub_task_id stage in
    drive waits env pubkey sub_task_id (p, s, es ++ es')
  end.
End builds.

(** ** Lookups *)

(** One lookup of [handle_pcs_request]: the job, the end, or a sleep with so many
    lookups left. *)
Inductive Lookup := Found (job : PendingPcsJob) | Missing | Sleeps (attempts : nat).

Section lookups.
Context (config : NodeConfig).
Context (job_to_json : PendingPcsJob -> option bytes) (job_from_json : bytes -> option PendingPcsJob).

Definition look (attempts : nat) (s : AppState) (pubkey sub_task_id : string) : Lookup * AppState :=
  match attempts with
  | O => (Missing, s)
  | S attempts =>
    match on_store (get_pending_pcs pubkey sub_task_id) s with
    | (Ok (Some entry), s) =>
      (match job_from_json entry.(pp_job_json) with Some job => Found job | None => Missing end, s)
    | (Err _, s) => (Missing, s)
    | (Ok None, s) => (match attempts with O => Missing | S _ => Sleeps attempts end, s)
    end
  end.

(** What follows the loop. *)
Definition start_requested (s : AppState) (pubkey sub_task_id : string) (job : PendingPcsJob)
  : AppState * list effect :=
  if job.(job_requested) then (s, [ESpawn pubkey sub_task_id job])
  else
    let job := mark_requested job in
    match on_store (upsert_pending_pcs job_to_json pubkey sub_task_id job) s with
    | (Err _, s) => (s, [])
    | (Ok _, s) => (s, [ESpawn pubkey sub_task_id job])
    end.

Definition resume_lookup (attempts : nat) (s : AppState) (pubkey sub_task_id : string)
  : option nat * AppState * list effect :=
  match look attempts s pubkey sub_task_id with
  | (Found job, s) => let '(s, es) := start_requested s pubkey sub_task_id job in (None, s, es)
  | (Missing, s) => (None, s, [])
  | (Sleeps n, s) => (Some n, s, [])
  end.

Fixpoint drive_lookup (fuel : nat) (during : AppState -> AppState) (pubkey sub_task_id : string)
  (x : option nat * AppState * list effect) : option (AppState * list effect) :=
  match x, fuel with
  | (None, s, es), _ => Some (s, es)
  | (Some _, _, _), O => None
  | (Some n, s, es), S fuel =>
    let '(o, s, es') := resume_lookup n (during s) pubkey sub_task_id in
    drive_lookup fuel during pubkey sub_task_id (o, s, es ++ es')
  end.
End lookups.

(** ** Retried results *)

Section resends.
Context (config : NodeConfig).
Context (job_to_json : PendingPcsJob -> option bytes) (job_from_json : bytes -> option PendingPcsJob).
Context (task_from_json : string -> option ComputeTask).
Context (value_from_json : bytes -> option value) (proof_from_value : value -> option Proof).

Definition begin_resend (io : StreamIo) (s : AppState) (entry : PendingResult)
  : result StreamError unit * list effect :=
  let '(r, w) := send_result_wire config s io entry.(prs_wire_body) in (r, map ESend w).

Definition after_resend (s : AppState) (entry : PendingResult) (answer : result StreamError unit)
  : AppState * list effect :=
  match answer with
  | Ok _ =>
    let s := (on_store (delete_pending_result entry.(prs_orchestrator_pubkey)
                entry.(prs_sub_task_id)) s).2 in
    retain_delivered job_to_json job_from_json task_from_json value_from_json proof_from_value
      s entry
  | Err _ => ((on_store (increment_pending_result_attempts entry.(prs_id)) s).2, [])
  end.
End resends.

(** ** Dispatches *)

Section dispatches.
Context (config : NodeConfig) (supported_gates : list string).
Context (request_to_json : ComputeRequest -> option bytes).
Context (task_from_json : string -> option ComputeTask).
Context (format_finite : f64 -> text) (tree_json : ContractionTreeWire -> option bytes).
Context {signature verifying_key : Type}.
Context (b64_decode : string -> option bytes) (signature_from_slice : bytes -> option signature).
Context (key_from_bytes : bytes -> option verifying_key).
Context (verify : verifying_key -> bytes -> signature -> bool).
Context (dispatch_from_json : bytes -> option TaskDispatchMessage).

(** [accept_compute_task] up to its lookup: the task to insert when there is none. *)
Definition find_no_task (s : AppState) (req : ComputeRequest) (pubkey : string)
  (bud : option Budget) (now_ms : Z) : option ComputeTask * AppState :=
  if compact_qubit_limit req.(output_mode) config.(max_qubits) config.(max_mps_qubits)
     <? req.(qubit_count)
  then (None, s)
  else
    match validate_circuit_logic req.(circuit) req.(qubit_count) supported_gates with
    | Err _ => (None, s)
    | Ok _ =>
      let task := task_of config req pubkey bud now_ms in
      match on_store (load_task task_from_json pubkey task.(request).(task_id)) s with
      | (Ok None, s) => (Some task, s)
      | (_, s) => (None, s)
      end
    end.

(** A stream up to there. *)
Definition begin_dispatch (orchestrator_peer_id peer_id : string) (payload : bytes)
  (now_ms : Z) (s : AppState) : option ComputeTask * AppState :=
  if decide (peer_id = orchestrator_peer_id) then
    match dispatch_from_json payload, config.(orchestrator_public_key) with
    | Some message, Some key =>
      match verify_dispatch_signature format_finite tree_json b64_decode signature_from_slice
              key_from_bytes verify message.(sub_task) message.(dispatch_signature) key with
      | Err _ => (None, s)
      | Ok _ =>
        find_no_task s (into_compute_request message.(sub_task) config.(Config.peer_id)) key
          (budget_of s.(work_ledger) message.(sub_task).(st_parent_task_id)) now_ms
      end
    | _, _ => (None, s)
    end
  else (None, s).
End dispatches.

(** ** Lemmas *)

(** *** The parts are the whole *)

Section wholes.
Context (config : NodeConfig) (core_cfg : CoreConfig).
Context (describe : HttpError -> string) (status_text : Z -> string) (parse_text : string).
Context (sha256 : bytes -> bytes) (hex_encode : bytes -> string) (b64_encode : bytes -> string).
Context (tj : PendingPcsJob -> option bytes) (fj : bytes -> option PendingPcsJob).
Context (message_to_json : PcsMessage -> option bytes) (vj : bytes -> option value).

Abbreviation steps := (drive config describe status_text parse_text tj message_to_json vj).

Lemma drive_ended n env pubkey id r s es : steps n env pubkey id (Ended r, s, es) = Some (r, s, es).
Proof. by destruct n. Qed.

Lemma drive_waits n env pubkey id stage s es :
  steps (S n) env pubkey id (Waits stage, s, es)
  = let '(p, s, es') := resume_build config describe status_text parse_text tj message_to_json vj
      env (meanwhile env stage s) pubkey id stage in
    steps n env pubkey id (p, s, es ++ es').
Proof. done. Qed.

Lemma settle_effects id p s es es' :
  settle id (p, s, es ++ es') = let '(p, s, es') := settle id (p, s, es') in (p, s, es ++ es').
Proof. by destruct p. Qed.

(** What a wait for the peer comes to. *)
Lemma drive_put n env pubkey id s es wire clears outcome p s' es' :
  put_on_wire config vj env s wire clears outcome = (p, s', es') ->
  steps (S n) env pubkey id (settle id (p, s', es ++ es'))
  = let '(r, s, es') := send_and_delete config vj env s pubkey id wire
      (fun s => if clears then clear_cached_open_call id s else s) outcome in
    Some (r, release_inflight id s, es ++ es').
Proof.
  unfold put_on_wire, send_and_delete. destruct wire as [wire|]; [|by intros [= <- <- <-]].
  destruct (send_pcs_wire vj config s (be_send env) wire) as [r w]. intros [= <- <- <-].
  cbn [settle drive meanwhile]. unfold resume_build, after_send. destruct r as [u|e]; cbn [settle].
  - destruct (on_store _ _) as [[u'|e] s1]; cbn [settle]; by rewrite drive_ended, app_nil_r.
  - by rewrite drive_ended, app_nil_r.
Qed.

(** A build from its claim to its end: the parts in a row are
    [try_build_and_deliver], and two waits are enough. *)
Lemma drive_build env s pubkey id job :
  steps 2 env pubkey id (begin_build config core_cfg sha256 hex_encode b64_encode message_to_json vj
    env s id job)
  = Some (try_build_and_deliver config core_cfg describe status_text parse_text sha256 hex_encode
      b64_encode tj message_to_json vj env s pubkey id job).
Proof.
  unfold begin_build, try_build_and_deliver. destruct (claim_inflight id s) as [[] s1]; [|done].
  unfold ask_core, build_and_deliver, deliver_bundle, report_permanent_refusal, put_bundle.
  destruct (job_leaf_pcs_b64 job) as [cached|].
  { destruct (put_on_wire _ _ _ _ _ _ _) as [[p s2] es2] eqn:E.
    apply (drive_put 1 env pubkey id s1 []) in E. cbn [app] in E. rewrite E.
    by destruct (send_and_delete _ _ _ _ _ _ _ _ _) as [[r3 s3] es3]. }
  destruct (is_in_backoff _ _); [done|].
  destruct (run_build _ _ _ _ _ _ _ _ _) as [[a s2] es2]. cbn [settle].
  rewrite drive_waits. cbn [meanwhile].
  set (s3 := be_during_build env s2). unfold resume_build, after_core. destruct a as [pcs|e].
  - destruct (on_store _ s3) as [[u|e] s4]; [|cbn; by rewrite app_nil_r].
    unfold put_bundle. destruct (put_on_wire _ _ _ _ _ _ _) as [[p s5] es5] eqn:E.
    apply (drive_put 0 env pubkey id s4 es2) in E. rewrite settle_effects in E.
    destruct (settle id (p, s5, es5)) as [[p' s6] es6]. rewrite E.
    by destruct (send_and_delete _ _ _ _ _ _ _ _ _) as [[r7 s7] es7].
  - destruct (is_core_down_error _); [cbn; by rewrite app_nil_r|].
    destruct (is_permanent _ _); [|cbn; by rewrite app_nil_r].
    destruct (put_on_wire _ _ _ _ _ _ _) as [[p s5] es5] eqn:E.
    apply (drive_put 0 env pubkey id s3 es2) in E. rewrite settle_effects in E.
    destruct (settle id (p, s5, es5)) as [[p' s6] es6]. rewrite E.
    by destruct (send_and_delete _ _ _ _ _ _ _ _ _) as [[r7 s7] es7].
Qed.

Lemma drive_lookup_is n fuel during pubkey id s es :
  (n <= fuel)%nat ->
  drive_lookup tj fj fuel during pubkey id
    (let '(o, s, es') := resume_lookup tj fj n s pubkey id in (o, s, es ++ es'))
  = let '(o, s) := lookup_retained fj n during s pubkey id in
    let '(s, es') := match o with
      | Some job => start_requested tj s pubkey id job | None => (s, []) end in
    Some (s, es ++ es').
Proof.
  revert fuel s es. induction n as [|n IH]; intros fuel s es Hn; [by destruct fuel|].
  unfold resume_lookup. cbn [look lookup_retained].
  destruct (on_store _ s) as [[[e|]|x] s1]; [| |by destruct fuel].
  - destruct (fj _) as [job|]; [|by destruct fuel].
    destruct (start_requested tj s1 pubkey id job) as [s2 es2]. by destruct fuel.
  - destruct n as [|n]; [by destruct fuel|]. destruct fuel as [|fuel]; [lia|].
    cbn [drive_lookup]. rewrite app_nil_r.
    rewrite <- (IH fuel (during s1) es) by lia.
    by destruct (resume_lookup _ _ (S n) _ _ _) as [[o s2] es2].
Qed.

(** A PCS request from its first lookup to the start of the build. *)
Lemma drive_request during s pubkey r :
  request_is_open_call r = false ->
  drive_lookup tj fj RETAINED_PROOF_LOOKUP_ATTEMPTS during pubkey r.(pr_sub_task_id)
    (resume_lookup tj fj RETAINED_PROOF_LOOKUP_ATTEMPTS s pubkey r.(pr_sub_task_id))
  = Some (handle_pcs_request config tj fj during s pubkey r).
Proof.
  intros Hr. unfold handle_pcs_request. rewrite Hr.
  pose proof (drive_lookup_is RETAINED_PROOF_LOOKUP_ATTEMPTS RETAINED_PROOF_LOOKUP_ATTEMPTS during
    pubkey (pr_sub_task_id r) s [] ltac:(done)) as H.
  destruct (resume_lookup _ _ _ s pubkey _) as [[o s1] es1]. cbn [app] in H. rewrite H.
  destruct (lookup_retained _ _ _ _ _ _) as [[job|] s2]; [|done].
  unfold start_requested. destruct (job_requested job); [done|].
  by destruct (on_store _ s2) as [[u|e] s3].
Qed.

Context (task_from_json : string -> option ComputeTask) (proof_from_value : value -> option Proof).

Lemma resend_is io s entry :
  retry_result config tj fj task_from_json vj proof_from_value io s entry
  = let '(r, es) := begin_resend config io s entry in
    let '(s, es') := after_resend tj fj task_from_json vj proof_from_value s entry r in
    (s, es ++ es').
Proof.
  unfold retry_result, begin_resend, after_resend.
  destruct (send_result_wire config s io _) as [[u|e] w].
  - by destruct (retain_delivered _ _ _ _ _ _ _) as [s1 es1].
  - by rewrite app_nil_r.
Qed.

Context (supported_gates : list string) (request_to_json : ComputeRequest -> option bytes).
Context (task_to_json : ComputeTask -> option string).
Context (format_finite : f64 -> text) (tree_json : ContractionTreeWire -> option bytes).
Context {sig vk : Type} (decode : string -> option bytes) (from_slice : bytes -> option sig).
Context (key_of : bytes -> option vk) (verify : vk -> bytes -> sig -> bool).
Context (dispatch_from_json : bytes -> option TaskDispatchMessage).

Lemma dispatch_is others orch peer payload now_ms s :
  (on_dispatch_stream config supported_gates request_to_json task_to_json task_from_json others
     format_finite tree_json decode from_slice key_of verify dispatch_from_json orch peer payload
     now_ms s).2
  = match begin_dispatch config supported_gates task_from_json format_finite tree_json decode
      from_slice key_of verify dispatch_from_json orch peer payload now_ms s with
    | (Some task, s1) =>
        (save_new_task request_to_json task_to_json task_from_json task (others s1)).2
    | (None, s1) => s1
    end.
Proof.
  unfold on_dispatch_stream, handle_dispatch_stream, begin_dispatch, find_no_task,
    accept_compute_task.
  destruct (decide _); [|done]. destruct (dispatch_from_json payload) as [m|]; [|done].
  destruct (orchestrator_public_key config) as [key|]; [|done].
  destruct (verify_dispatch_signature _ _ _ _ _ _ _ _ _); [|done].
  destruct (_ <? _); [done|]. destruct (validate_circuit_logic _ _ _); [|done].
  destruct (on_store _ s) as [[[t|]|] s1]; [by destruct (dispatch_payload_matches _ _ _)| |done].
  by destruct (save_new_task _ _ _ _ (others s1)).
Qed.
End wholes.

(** *** Claims *)

Section claims.
Context (config : NodeConfig) (core_cfg : CoreConfig).
Context (describe : HttpError -> string) (status_text : Z -> string) (parse_text : string).
Context (sha256 : bytes -> bytes) (hex_encode : bytes -> string) (b64_encode : bytes -> string).
Context (tj : PendingPcsJob -> option bytes).
Context (message_to_json : PcsMessage -> option bytes) (vj : bytes -> option value).

(** A part of a build does with the claims what it comes to. *)
Definition claims_follow (id : string) (p : progress) (f f' : gset string) : Prop :=
  match p with Waits _ => f' = f | Ended _ => f' = (f ∖ {[id]}) end.

Lemma run_build_core env s id job r s' es :
  run_build config core_cfg sha256 hex_encode b64_encode env s id job = (r, s', es) ->
  exists h, s' = with_core h s.
Proof.
  intros H. unfold run_build, build_open_call_leaf_pcs, call_core in H.
  assert (Hs : s = with_core s.(core) s) by (by destruct s).
  repeat case_match; simplify_eq; eauto.
Qed.

Lemma put_on_wire_state env s wire clears o p s' es :
  put_on_wire config vj env s wire clears o = (p, s', es) -> s' = s.
Proof.
  unfold put_on_wire. destruct wire; [|by intros [= _ <- _]].
  destruct (send_pcs_wire _ _ _ _ _). by intros [= _ <- _].
Qed.

Lemma settle_claims id p s es p' s' es' :
  settle id (p, s, es) = (p', s', es') -> p' = p /\ claims_follow id p s.(in_flight) s'.(in_flight).
Proof. destruct p; intros [= <- <- <-]; by split. Qed.

Lemma begin_build_claims env s id job p s' es :
  begin_build config core_cfg sha256 hex_encode b64_encode message_to_json vj env s id job
    = (p, s', es) ->
  match p with
  | Waits _ => (id ∉ s.(in_flight)) /\ s'.(in_flight) = {[id]} ∪ s.(in_flight)
  | Ended _ => s'.(in_flight) = s.(in_flight)
  end.
Proof.
  clear tj. unfold begin_build, claim_inflight. destruct (decide (id ∈ in_flight s)) as [Hin|Hin].
  { rewrite bool_decide_eq_false_2 by set_solver. intros [= <- <- _]. cbn. set_solver. }
  rewrite bool_decide_eq_true_2 by done. set (s1 := with_in_flight _ s).
  destruct (ask_core _ _ _ _ _ _ _ _ _ _ _) as [[p2 s2] es2] eqn:E.
  assert (H2 : s2.(in_flight) = s1.(in_flight)).
  { unfold ask_core, put_bundle in E. destruct (job_leaf_pcs_b64 job).
    { by apply put_on_wire_state in E as ->. }
    destruct (is_in_backoff _ _); [by simplify_eq|].
    destruct (run_build _ _ _ _ _ _ _ _ _) as [[a s3] es3] eqn:E3.
    apply run_build_core in E3 as [h ->]. by simplify_eq. }
  intros [-> H]%settle_claims. rewrite H2 in H. destruct p2; cbn in H; [done|]. set_solver.
Qed.

Lemma resume_build_claims env s pubkey id stage p s' es :
  resume_build config describe status_text parse_text tj message_to_json vj env s pubkey id stage
    = (p, s', es) ->
  claims_follow id p s.(in_flight) s'.(in_flight).
Proof.
  unfold resume_build.
  set (part := match stage with Proving _ _ => _ | _ => _ end).
  destruct part as [[p1 s1] es1] eqn:E; subst part.
  assert (H1 : s1.(in_flight) = s.(in_flight)).
  { destruct stage as [job a|a c o].
    - unfold after_core, put_bundle in E. destruct a as [pcs|e].
      + destruct (on_store _ s) as [[u|e] s2] eqn:E2; apply on_store_flight in E2; [|by simplify_eq].
        by apply put_on_wire_state in E as ->.
      + destruct (is_core_down_error _); [by simplify_eq|].
        destruct (is_permanent _ _); [|by simplify_eq]. by apply put_on_wire_state in E as ->.
    - unfold after_send in E. destruct a as [u|e]; [|by simplify_eq].
      destruct (on_store _ s) as [[u'|e] s2] eqn:E2; apply on_store_flight in E2; [|by simplify_eq].
      by destruct c; simplify_eq. }
  intros [-> H]%settle_claims. by rewrite H1 in H.
Qed.
End claims.
