(* ===== verification/Node.v ===== *)
(** * The node ([src/main.rs], [src/application/task_prune.rs],
      [src/transport/http/handlers.rs])

    What happens once at startup (capabilities, the tasks left from the last run),
    the pruning of old rows and the status the node reports. *)

From S2P Require Import Prelude Bytes F64 FloatText Models Features MemoryBudget Validation GoJson.
From S2P Require Import Wire WorkLedger Pcs Table Storage CoreClient Config State AcceptTask.
From S2P Require Import Stream Cas SampleJson PcsOutbox ResultJson ResultOutbox Ports Worker Frame.

(** ** Capabilities *)

Definition default_gates : list string := ["H"; "X"; "Y"; "Z"; "CNOT"].

Definition sync_core_capabilities (out : HttpOutcome (list string)) : list string :=
  match get_json out with Ok gates => gates | Err _ => default_gates end.


(** ** Pruning *)

(** [retention_secs as i64] wraps; the subtraction saturates. *)
Definition prune_cutoff (now retention_secs : Z) : Z := i64_clamp (now - as_i64 retention_secs).

Definition run_prune (now retention_secs : Z) (s : AppState) : AppState :=
  (on_store (prune_terminal_tasks (prune_cutoff now retention_secs)) s).2.

(** ** Status *)

Record NodeStatus := mkNodeStatus {
  ns_pending_tasks : Z;
  ns_outbox_pending : Z;
  ns_max_qubits : Z;
  ns_max_mps_qubits : Z;
  ns_max_memory_gib : f64;
  ns_memory_cap_source : MemoryCapSource;
  ns_vram_budget_gib : option f64;
  ns_system_memory_used_kb : Z;
  ns_system_memory_total_kb : Z;
  ns_cpu_usage_percent : f64;
  ns_supported_gates : list string
}.

Definition collect_node_status (config : NodeConfig) (supported_gates : list string)
  (sysinfo : HttpOutcome CoreSystemInfo) (s : AppState) : NodeStatus * AppState :=
  let '(r, s) := on_store count_pending_results s in
  let outbox_pending := match r with Ok n => n | Err _ => 0 end in
  let '(used, total, cpu) :=
    match get_json sysinfo with
    | Ok data => (data.(system_memory_used_kb), data.(system_memory_total_kb),
                  data.(cpu_usage_percent))
    | Err _ => (0, 0, f64_zero)
    end in
  (mkNodeStatus s.(pending_tasks) outbox_pending config.(max_qubits) config.(max_mps_qubits)
     config.(max_memory_gib) config.(memory_cap_source) config.(vram_budget_gib) used total cpu
     supported_gates, s).

(** ** Restart *)

(** [mpsc::channel(100)] *)
Definition QUEUE_CAPACITY : nat := 100.

Inductive startup :=
| NotStarted (e : StorageError)
| Blocked            (* a [send] waits for room, and nothing receives yet *)
| Running (s : AppState).

(** The loop over the restored tasks: nothing reads the channel before the worker
    is spawned, so a send that finds it full never returns. *)
Fixpoint restore (tasks : list ComputeTask) (s : AppState) : option AppState :=
  match tasks with
  | [] => Some s
  | task :: tasks =>
    let s := with_ledger (fun l => hold l task.(request).(task_id)
               task.(request).(parent_task_id) task.(budget)) s in
    if (length s.(queue) <? QUEUE_CAPACITY)%nat then restore tasks (enqueue task s).2 else None
  end.

Definition start_node (task_from_json : string -> option ComputeTask) (health : CoreHealth)
  (st : Store) : startup :=
  match get_pending_tasks task_from_json st with
  | (Err e, _) => NotStarted e
  | (Ok tasks, st) =>
    let st := (count_pending_results st).2 in     (* for the banner *)
    let s := mkAppState st empty_ledger (as_u64 (Z.of_nat (length tasks))) [] true health false
               ∅ ∅ None in
    match restore tasks s with Some s => Running s | None => Blocked end
  end.

(** ** Lemmas *)

(** *** Restart *)

Lemma decode_all_Forall2 fj payloads tasks :
  decode_all fj payloads = Ok tasks -> Forall2 (fun p t => fj p = Some t) payloads tasks.
Proof.
  revert tasks. induction payloads as [|p l IH]; intros tasks; cbn [decode_all].
  - intros [= <-]. constructor.
  - destruct (fj p) as [t|] eqn:Ht; [|done]. destruct (decode_all fj l) as [ts|]; [|done].
    intros [= <-]. constructor; [done|by apply IH].
Qed.

Lemma count_results_db st : (count_pending_results st).2.(db) = st.(db).
Proof.
  destruct (count_pending_results st) as [r st'] eqn:E. by apply query_db in E.
Qed.

(** The rows a restart reads, in order. *)
Definition pending_rows (d : Db) : list (Row task_data) :=
  ordered (List.filter (has_status "pending") d.(tasks).(rows)).

Lemma get_pending_spec fj st r st' :
  get_pending_tasks fj st = (r, st') ->
  st'.(db) = st.(db) /\
  forall ts, r = Ok ts -> Forall2 (fun row t => fj row.(row_data).(payload) = Some t)
    (pending_rows st.(db)) ts.
Proof.
  unfold get_pending_tasks, decoding. destruct (query _ st) as [q st1] eqn:E. intros H.
  pose proof (query_db _ _ _ _ E) as Hdb. destruct q as [ps|e]; simplify_eq; [|done].
  split; [done|]. intros ts Hts. apply query_Ok in E as ->. apply decode_all_Forall2 in Hts.
  by apply Forall2_fmap_l in Hts.
Qed.

Lemma pending_rows_perm d :
  pending_rows d ≡ₚ List.filter (has_status "pending") d.(tasks).(rows).
Proof. apply merge_sort_Permutation. Qed.

Lemma restore_spec tasks s :
  s.(receiver_alive) = true ->
  match restore tasks s with
  | Some s' => (length s.(queue) + length tasks <= Nat.max QUEUE_CAPACITY (length s.(queue)))%nat
      /\ s'.(queue) = s.(queue) ++ tasks /\ s'.(store) = s.(store)
      /\ s'.(pending_tasks) = s.(pending_tasks) /\ s'.(receiver_alive) = true
      /\ forall t, t ∈ tasks -> is_Some (s'.(work_ledger).(held) !! t.(request).(task_id))
  | None => (QUEUE_CAPACITY < length s.(queue) + length tasks)%nat
  end /\
  forall s' id, restore tasks s = Some s' -> is_Some (s.(work_ledger).(held) !! id) ->
    is_Some (s'.(work_ledger).(held) !! id).
Proof.
  revert s. induction tasks as [|t ts IH]; intros s Hal; cbn [restore].
  { split; [|by intros s' id [= <-]]. cbn. rewrite app_nil_r. split_and!; try done; [lia|].
    by intros t ?%not_elem_of_nil. }
  cbn [with_ledger queue]. destruct (Nat.ltb_spec (length (queue s)) QUEUE_CAPACITY) as [Hlt|Hge].
  2: { split; [cbn; lia|done]. }
  unfold enqueue. cbn [with_ledger receiver_alive]. rewrite Hal. cbn [snd].
  set (s1 := mkAppState _ _ _ _ _ _ _ _ _ _).
  assert (Hheld : forall id, is_Some (s.(work_ledger).(held) !! id) \/ id = t.(request).(task_id) ->
    is_Some (s1.(work_ledger).(held) !! id)).
  { intros id [H|H]; cbn.
    - destruct (decide (id = task_id (request t))) as [->|Hne].
      + rewrite lookup_insert_eq. by eexists.
      + by rewrite lookup_insert_ne.
    - subst. rewrite lookup_insert_eq. by eexists. }
  destruct (IH s1) as [H1 H2]; [done|]. split.
  - destruct (restore ts s1) as [s'|] eqn:E.
    + destruct H1 as (Hlen & Hq & Hst & Hp & Ha & Hall). cbn [s1 queue store pending_tasks] in *.
      rewrite length_app in Hlen. cbn in Hlen |- *.
      split_and!; [lia|by rewrite Hq, <- app_assoc|done..|].
      intros t' [->|Ht']%elem_of_cons; [|by apply Hall]. apply (H2 s'); [done|]. apply Hheld. by right.
    + cbn [s1 queue] in H1. rewrite length_app in H1. cbn in H1 |- *. lia.
  - intros s' id Hs' Hid. apply (H2 s'); [done|]. apply Hheld. by left.
Qed.

Lemma pending_row_facts fj d row t :
  db_wf d -> coherent fj (a_tasks (abs d)) -> row ∈ pending_rows d ->
  fj row.(row_data).(payload) = Some t ->
  a_tasks (abs d) !! row.(row_key) = Some (row.(row_data), row.(row_created))
  /\ task_key t = row.(row_key) /\ row.(row_data).(status) = "pending"
  /\ budget_nonneg t.(budget).
Proof.
  intros [Ht _ _] Hc Hin Hfj. rewrite pending_rows_perm in Hin.
  apply list_elem_of_In, filter_In in Hin as [Hin%list_elem_of_In Hst%bool_decide_eq_true].
  assert (Hv : a_tasks (abs d) !! row.(row_key) = Some (row.(row_data), row.(row_created)))
    by (apply view_lookup; eauto 6).
  destruct (Hc _ _ Hv) as (t' & Ht' & Hk & Hb). cbn in Ht'.
  assert (t' = t) as -> by congruence. by split_and!.
Qed.

Lemma Forall2_in_l {A B} (R : A -> B -> Prop) l k :
  Forall2 R l k -> Forall2 (fun x y => x ∈ l /\ R x y) l k.
Proof.
  induction 1 as [|x y l k Hxy _ IH]; constructor; [split; [by left|done]|].
  eapply Forall2_impl; [exact IH|]. intros x' y' [? ?]. split; [by right|done].
Qed.

Lemma restore_ledger tasks s s' :
  restore tasks s = Some s' -> Forall (fun t => budget_nonneg t.(budget)) tasks ->
  ledger_ok s.(work_ledger) -> ledger_ok s'.(work_ledger).
Proof.
  revert s. induction tasks as [|t ts IH]; intros s; cbn [restore]; [by intros [= ->]|].
  destruct (Nat.ltb _ _); [|done]. intros H [Ht Hts]%Forall_cons Hl. apply (IH _ H Hts).
  unfold enqueue. destruct (receiver_alive _); by apply hold_ok.
Qed.

Lemma restore_work tasks s s' : restore tasks s = Some s' -> s'.(at_work) = s.(at_work).
Proof.
  revert s. induction tasks as [|t ts IH]; intros s; cbn [restore]; [by intros [= ->]|].
  destruct (Nat.ltb _ _); [|done]. intros ->%IH. unfold enqueue. by destruct (receiver_alive _).
Qed.

(** ** Theorems *)

(** C32. What a restart brings back: with at most a hundred pending rows that
    read back, every one of them is queued again, in the order of their dates,
    held in the ledger and counted; with more, the restart never finishes,
    because the tasks are sent to the bounded channel before its receiver is
    spawned. *)
Theorem restart_requeues_or_blocks fj health st :
  db_wf st.(db) -> coherent fj (a_tasks (abs st.(db))) -> st.(faults) = [] ->
  exists ts, Forall2 (fun row t => fj row.(row_data).(payload) = Some t) (pending_rows st.(db)) ts /\
  if (length (pending_rows st.(db)) <=? QUEUE_CAPACITY)%nat then
    exists s, start_node fj health st = Running s /\ s.(queue) = ts
    /\ s.(store).(db) = st.(db) /\ s.(pending_tasks) = Z.of_nat (length ts)
    /\ forall t, t ∈ ts -> is_Some (s.(work_ledger).(held) !! t.(request).(task_id))
  else start_node fj health st = Blocked.
Proof.
  intros Hwf Hc Hf.
  assert (Hdec : exists ts, decode_all fj (map (fun r => r.(row_data).(payload)) (pending_rows st.(db)))
    = Ok ts).
  { assert (Hall : Forall (fun row => is_Some (fj row.(row_data).(payload))) (pending_rows st.(db))).
    { apply Forall_forall. intros row Hin. rewrite pending_rows_perm in Hin.
      apply list_elem_of_In, filter_In in Hin as [Hin%list_elem_of_In _].
      destruct (Hc row.(row_key) (row.(row_data), row.(row_created))) as (t & Ht & _); [|by eexists].
      apply view_lookup; [apply Hwf|eauto 6]. }
    induction Hall as [|row l [t Ht] _ [ts IH]]; [by exists []|].
    exists (t :: ts). cbn. by rewrite Ht, IH. }
  destruct Hdec as [ts Hdec]. exists ts.
  assert (Hts : Forall2 (fun row t => fj row.(row_data).(payload) = Some t) (pending_rows st.(db)) ts)
    by (apply decode_all_Forall2 in Hdec; by apply Forall2_fmap_l in Hdec).
  split; [done|]. pose proof (Forall2_length _ _ _ Hts) as Hlen. rewrite Hlen.
  unfold start_node, get_pending_tasks, decoding, query, stmt. rewrite Hf. cbn [tl].
  fold (pending_rows st.(db)). rewrite Hdec.
  set (s0 := mkAppState _ _ _ _ _ _ _ _ _ _). destruct (restore_spec ts s0 eq_refl) as [H _].
  destruct (restore ts s0) as [s|]; destruct (Nat.leb_spec (length ts) QUEUE_CAPACITY) as [Hle|Hgt].
  - destruct H as (_ & Hq & Hst & Hp & _ & Hheld). exists s. rewrite Hst, Hp. cbn.
    split_and!; try done. apply as_u64_id. unfold QUEUE_CAPACITY, in_u64 in *. lia.
  - destruct H as (Hmax & _). cbn [s0 queue length] in Hmax. lia.
  - cbn [s0 queue length] in H. lia.
  - done.
Qed.

(** The retention is read as [u64] and cast to [i64]: from [2^63] on it is
    negative, the cutoff lies in the future, and every settled task goes at once
    instead of never. *)
Theorem huge_retention_prunes_at_once now retention s k d created :
  db_wf s.(store).(db) -> s.(store).(faults) = [] ->
  2 ^ 63 <= retention < 2 ^ 64 -> 0 <= now < I64_MAX ->
  tasks_of s !! k = Some (d, created) -> (d.(status) = "completed" \/ d.(status) = "failed") ->
  created <= now -> stored_result s k = None ->
  tasks_of (run_prune now retention s) !! k = None.
Proof.
  intros Hwf Hf Hret Hnow Hk Hst Hc Hres. unfold run_prune.
  destruct (on_store_ok (OpPrune (prune_cutoff now retention)) s Hwf I Hf) as
    (s' & E & _ & _ & _ & _ & Ha); [done|].
  assert (E' : (on_store (prune_terminal_tasks (prune_cutoff now retention)) s).2 = s').
  { revert E. unfold on_store. cbn [run_op].
    destruct (prune_terminal_tasks _ _) as [r st]. by intros [= _ <-]. }
  rewrite E'. unfold tasks_of. rewrite Ha. cbn [abs_op a_tasks]. apply map_lookup_filter_None.
  right. intros v Hv. unfold tasks_of in Hk. rewrite Hk in Hv. injection Hv as <-.
  intros Hkept. apply Hkept. cbn. split_and!; [done| |done].
  unfold prune_cutoff, i64_clamp, as_i64, I64_MAX, I64_MIN in *.
  assert (Hm : (retention + 2 ^ 63) mod 2 ^ 64 = retention - 2 ^ 63).
  { symmetry. apply Z.mod_unique with (q := 1); lia. }
  rewrite Hm. lia.
Qed.

(** *** Witnesses *)

(** A database with one more pending task than the channel holds. *)
Definition numbered (n : nat) : string := of_chars (dec_text (Z.of_nat n)).
Definition crowded (n : nat) : Store :=
  mkStore (run_all (map (fun i => OpInsertTask ("orch", numbered i) (numbered i)) (seq 0 n))
    (mkStore empty_db [] 100)).(db) [] 100.

Lemma run_all_wf ops s :
  db_wf s.(db) -> Forall (fun o => forall d, op_pre o d) ops -> db_wf (run_all ops s).(db).
Proof.
  revert s. induction ops as [|o ops IH]; intros s Hwf Hall; [done|].
  apply Forall_cons in Hall as [Ho Hall]. apply IH; [by apply run_op_wf|done].
Qed.
Lemma crowded_wf n : db_wf (crowded n).(db).
Proof.
  apply run_all_wf; [apply empty_db_wf|]. apply Forall_fmap, Forall_true. intros i d. exact I.
Qed.

(** Tasks read back from their ids. *)
Definition numbered_from_json (j : string) : option ComputeTask := Some (sample_task j).

Lemma crowded_coherent n : coherent numbered_from_json (a_tasks (abs (crowded n).(db))).
Proof.
  unfold crowded. cbn [db].
  assert (Hall : forall ops s, Forall (fun o => exists i, o = OpInsertTask ("orch", i) i) ops ->
    coherent numbered_from_json (a_tasks (abs s.(db))) -> db_wf s.(db) ->
    coherent numbered_from_json (a_tasks (abs (run_all ops s).(db)))).
  { induction ops as [|o ops IH]; intros s Hops Hs Hwf; [done|].
    apply Forall_cons in Hops as [[i ->] Hops]. cbn [run_all foldl]. apply IH; [done| |].
    - destruct (run_op (OpInsertTask ("orch", i) i) s) as [[[]|e] s'] eqn:E; cbn [snd].
      + apply run_op_Ok in E as [_ ->]; [|done..]. cbn [abs_op a_tasks].
        apply map_Forall_insert_2; [|done]. exists (sample_task i). by split_and!.
      + by apply run_op_Err in E as ->.
    - by apply run_op_wf. }
  apply Hall; [|apply map_Forall_empty|apply empty_db_wf].
  apply Forall_fmap, Forall_true. intros i. by eexists.
Qed.

Lemma restart_requeues_or_blocks_witness :
  start_node numbered_from_json initial_health (crowded 101) = Blocked.
Proof.
  destruct (restart_requeues_or_blocks numbered_from_json initial_health (crowded 101)
    (crowded_wf 101) (crowded_coherent 101) eq_refl) as (ts & _ & H).
  assert (Hlen : (length (pending_rows (crowded 101).(db)) <=? QUEUE_CAPACITY)%nat = false)
    by (vm_compute; reflexivity).
  rewrite Hlen in H. exact H.
Defined.

Definition settled : AppState :=
  with_store (mkStore (run_all [OpInsertTask ("orch", "t1") "t1";
    OpSetStatus ("orch", "t1") "completed"] (mkStore empty_db [] 100)).(db) [] 100) initial_state.

Lemma huge_retention_prunes_at_once_witness :
  tasks_of (run_prune 100 (2 ^ 64 - 1) settled) !! ("orch", "t1") = None.
Proof.
  apply (huge_retention_prunes_at_once 100 (2 ^ 64 - 1) settled ("orch", "t1")
    (mkTaskData "t1" "completed") 100).
  - apply (run_all_wf [OpInsertTask ("orch", "t1") "t1"; OpSetStatus ("orch", "t1") "completed"]
      (mkStore empty_db [] 100)); [apply empty_db_wf|]. by repeat constructor.
  - reflexivity.
  - lia.
  - vm_compute. done.
  - vm_compute. reflexivity.
  - by left.
  - lia.
  - vm_compute. reflexivity.
Defined.
