(* ===== verification/Startup.v ===== *)
(** * The client of wqc-core and the HTTP server ([src/infra/core_client.rs],
    [src/main.rs], [src/infra/metrics.rs])

    What [main] sets up besides the node's state: where wqc-core is reached, and
    what the admin port answers.  [reqwest], [axum] and [prometheus] are third-party
    code: whether a client builds and what encoding the metrics gives are
    parameters. *)

From S2P Require Import Prelude Bytes F64 Models MemoryBudget Wire WorkLedger Pcs Table Storage.
From S2P Require Import CoreClient Config State Env Metrics Node.

(** ** [WqcCoreClient::new] *)

(** [s.strip_prefix(p)] *)
Fixpoint strip_prefix (p s : string) : option string :=
  match p, s with
  | EmptyString, _ => Some s
  | String a p', String b s' => if decide (a = b) then strip_prefix p' s' else None
  | String _ _, EmptyString => None
  end.

(** [s.trim_start_matches(p)] for a non-empty [p]: as often as it is there. *)
Fixpoint trim_start_fuel (fuel : nat) (p s : string) : string :=
  match fuel with
  | O => s
  | S fuel => match strip_prefix p s with Some s' => trim_start_fuel fuel p s' | None => s end
  end.
Definition trim_start_matches (p s : string) : string := trim_start_fuel (String.length s) p s.

(** [s.trim_end_matches('/')] *)
Definition SLASH : byte := Byte.x2f.
Definition is_slash (b : byte) : bool := bool_decide (b = SLASH).
Definition trim_end_slashes (s : string) : string :=
  of_bytes (reverse (drop_while is_slash (reverse (as_bytes s)))).

Inductive Transport := UnixSocket (path : string) | Tcp.

Record WqcCoreClient := mkWqcCoreClient {
  transport : Transport;
  base_url : string;
  client_config : CoreConfig;
  client_health : CoreHealth
}.

(** On a Unix system.  [None]: the builder failed, which panics. *)
Definition WqcCoreClient_new (env : string -> option string) (builds : Transport -> bool)
  (core_url : string) (compute_timeout pcs_timeout : Z) : option WqcCoreClient :=
  let cfg := core_config_from_env env compute_timeout pcs_timeout in
  let '(transport, base_url) :=
    match strip_prefix "unix:" core_url with
    | Some _ => (UnixSocket (trim_start_matches "unix:" core_url), "http://localhost")
    | None => (Tcp, trim_end_slashes core_url)
    end in
  if builds transport then Some (mkWqcCoreClient transport base_url cfg initial_health) else None.

(** The URL of each exchange: [format!("{}/..", self.base_url)]. *)
Definition exchange_path (e : exchange) : string :=
  match e with
  | GetHealth => "/health"
  | PostCompute _ _ => "/compute"
  | PostLeafPcs _ _ => "/leaf_pcs"
  | GetGates => "/gates"
  | GetSysinfo => "/sysinfo"
  end.
Definition exchange_url (c : WqcCoreClient) (e : exchange) : string :=
  String.append c.(base_url) (exchange_path e).

(** ** The admin port *)

Inductive HttpBody := JsonStatus (n : NodeStatus) | JsonUp | MetricsText (b : bytes) | ErrorText (s : string).
Record HttpReply := mkHttpReply { reply_status : Z; content_type : string; reply_body : HttpBody }.

Section http.
Context (config : NodeConfig) (supported_gates : list string).
(** What [TextEncoder] makes of the registry, or its error. *)
Context (encode_registry : result string bytes).

(** [encode_with_state] and [metrics_handler].  [None]: the metrics are read before
    [init], which panics. *)
Definition encode_with_state (now : Z) (s : AppState) (m : Statics)
  : option (result string bytes * AppState * list metric_call) :=
  match refresh_gauges now s m with
  | Some (s, calls) => Some (encode_registry, s, calls)
  | None => None
  end.

Definition METRICS_TYPE : string := "text/plain; version=0.0.4; charset=utf-8".
Definition metrics_handler (now : Z) (s : AppState) (m : Statics)
  : option (HttpReply * AppState * list metric_call) :=
  match encode_with_state now s m with
  | Some (Ok body, s, calls) => Some (mkHttpReply 200 METRICS_TYPE (MetricsText body), s, calls)
  | Some (Err e, s, calls) =>
    Some (mkHttpReply 500 "text/plain; charset=utf-8"
            (ErrorText (String.append "metrics encode failed: " e)), s, calls)
  | None => None
  end.

(** [spawn_collector]: a tick every 15 seconds, the first at once; ticks that were
    missed are skipped. *)
Definition COLLECT_EVERY : Z := 15 * SEC.
Fixpoint collect (ticks : list Z) (s : AppState) (m : Statics) : option (AppState * list metric_call) :=
  match ticks with
  | [] => Some (s, [])
  | now :: ticks =>
    match refresh_gauges now s m with
    | Some (s, calls) =>
      match collect ticks s m with
      | Some (s, calls') => Some (s, calls ++ calls')
      | None => None
      end
    | None => None
    end
  end.

Inductive route := StatusRoute | MetricsRoute | HealthRoute.
Definition router (path : string) : option route :=
  if decide (path = "/status") then Some StatusRoute
  else if decide (path = "/metrics") then Some MetricsRoute
  else if decide (path = "/health") then Some HealthRoute
  else None.

(** What a route answers to a [GET]; other paths are [axum]'s to answer. *)
Definition serve (r : route) (sysinfo : HttpOutcome CoreSystemInfo) (now : Z) (s : AppState)
  (m : Statics) : option (HttpReply * AppState) :=
  match r with
  | StatusRoute =>
    let '(n, s) := collect_node_status config supported_gates sysinfo s in
    Some (mkHttpReply 200 "application/json" (JsonStatus n), s)
  | MetricsRoute => (fun '(r, s, _) => (r, s)) <$> metrics_handler now s m
  | HealthRoute => Some (mkHttpReply 200 "application/json" JsonUp, s)
  end.
End http.

(** ** Lemmas *)

Lemma strip_prefix_Some p s r : strip_prefix p s = Some r <-> s = String.append p r.
Proof.
  revert s. induction p as [|a p IH]; intros s; cbn.
  { split; [by intros [= ->]|by intros ->]. }
  destruct s as [|b s]; [done|]. destruct (decide (a = b)) as [->|Hab].
  - rewrite IH. split; [by intros ->|by intros [= ->]].
  - split; [done|]. by intros [= -> _].
Qed.

Lemma string_length_append s t :
  String.length (String.append s t) = (String.length s + String.length t)%nat.
Proof.
  induction s as [|a s IH]; [done|].
  change (S (String.length (String.append s t)) = S (String.length s + String.length t)%nat).
  by rewrite IH.
Qed.

(** Enough fuel: nothing of the prefix is left. *)
Lemma trim_start_done p s : p <> EmptyString -> strip_prefix p (trim_start_matches p s) = None.
Proof.
  intros Hp. unfold trim_start_matches.
  assert (H : forall fuel s, (String.length s <= fuel)%nat -> strip_prefix p (trim_start_fuel fuel p s) = None).
  { clear s. induction fuel as [|fuel IH]; intros s Hs; cbn.
    - destruct p; [done|]. by destruct s; [|cbn in Hs; lia].
    - destruct (strip_prefix p s) as [r|] eqn:E; [|done]. apply IH.
      apply strip_prefix_Some in E. subst s. rewrite string_length_append in Hs.
      destruct p; [done|]. cbn in Hs. lia. }
  by apply H.
Qed.

Lemma trim_start_once p s r :
  strip_prefix p s = Some r -> strip_prefix p r = None -> trim_start_matches p s = r.
Proof.
  intros Hs Hr. unfold trim_start_matches. destruct (String.length s) as [|n] eqn:E.
  - destruct s; [|done]. by destruct p; [injection Hs as <-|].
  - cbn [trim_start_fuel]. rewrite Hs. destruct n; cbn [trim_start_fuel]; by rewrite ?Hr.
Qed.

(** Reading the database changes only its faults. *)
Lemma on_query_same {A} (f : Db -> Z -> A) s r s' :
  on_store (query f) s = (r, s') -> same_but_faults s s'.
Proof.
  intros (st & E & ->)%on_store_eq. pose proof (query_db _ _ _ _ E) as Hdb.
  pose proof (query_clock _ _ _ _ E) as Hck. by split_and!.
Qed.

(** [n] slashes more at the end. *)
Fixpoint slashed (n : nat) (s : string) : string :=
  match n with O => s | S n => String.append (slashed n s) "/" end.

Lemma trim_end_app s t :
  Forall (fun b => is_slash b = true) (as_bytes t) ->
  trim_end_slashes (String.append s t) = trim_end_slashes s.
Proof.
  intros H. unfold trim_end_slashes. rewrite as_bytes_app, reverse_app. do 2 f_equal.
  apply Forall_reverse in H. induction H as [|b l Hb _ IH]; [done|]. cbn. by rewrite Hb.
Qed.

Lemma trim_end_id s : last (as_bytes s) <> Some SLASH -> trim_end_slashes s = s.
Proof.
  intros H. unfold trim_end_slashes.
  assert (Hd : drop_while is_slash (reverse (as_bytes s)) = reverse (as_bytes s)).
  { rewrite <- (reverse_involutive (as_bytes s)), last_reverse in H.
    destruct (reverse (as_bytes s)) as [|b l]; [done|]. cbn in *.
    unfold is_slash. by rewrite bool_decide_eq_false_2 by congruence. }
  by rewrite Hd, reverse_involutive, of_bytes_as_bytes.
Qed.

Lemma slashed_append n s : exists t, slashed n s = String.append s t
  /\ Forall (fun b => is_slash b = true) (as_bytes t).
Proof.
  induction n as [|n (t & Hs & Ht)].
  { exists EmptyString. split; [|constructor]. apply as_bytes_inj.
    by rewrite as_bytes_app, app_nil_r. }
  exists (String.append t "/"). cbn [slashed]. rewrite Hs. split.
  - apply as_bytes_inj. by rewrite !as_bytes_app, app_assoc.
  - rewrite as_bytes_app. apply Forall_app. by split; [|repeat constructor].
Qed.

(** ** Theorems *)

(** Where wqc-core is reached: any number of slashes at the end of a configured
    HTTP address gives the same URLs, each with one slash before its path; and a
    [unix:] address is the socket of the path behind it, over which the URLs are
    those of [localhost]. *)
Theorem core_urls env builds url n ct pt :
  (last (as_bytes url) <> Some SLASH -> strip_prefix "unix:" (slashed n url) = None ->
   builds Tcp = true ->
   exists c, WqcCoreClient_new env builds (slashed n url) ct pt = Some c
     /\ c.(transport) = Tcp /\ (forall e, exchange_url c e = String.append url (exchange_path e)))
  /\ (strip_prefix "unix:" url = None -> builds (UnixSocket url) = true ->
   exists c, WqcCoreClient_new env builds (String.append "unix:" url) ct pt = Some c
     /\ c.(transport) = UnixSocket url
     /\ (forall e, exchange_url c e = String.append "http://localhost" (exchange_path e))).
Proof.
  split.
  - intros Hlast Hnone Hb. unfold WqcCoreClient_new. rewrite Hnone, Hb.
    eexists. split_and!; [done|done|]. intros e. unfold exchange_url. cbn [base_url].
    destruct (slashed_append n url) as (t & -> & Ht). by rewrite trim_end_app, trim_end_id.
  - intros Hnone Hb. unfold WqcCoreClient_new.
    assert (Hp : strip_prefix "unix:" (String.append "unix:" url) = Some url)
      by by apply strip_prefix_Some.
    pose proof (trim_start_once _ _ _ Hp Hnone) as Ht.
    rewrite Hp, Ht, Hb. eexists. by split_and!.
Qed.

(** Looking at the node changes nothing: whatever the admin port answers and
    however often the metrics are collected, the state afterwards is the one before
    but for the faults the reads met. *)
Theorem observing_is_read_only config gates enc r sysinfo now ticks s m :
  (forall reply s', serve config gates enc r sysinfo now s m = Some (reply, s') -> same_but_faults s s')
  /\ (forall s' calls, collect ticks s m = Some (s', calls) -> same_but_faults s s').
Proof.
  assert (Hrefresh : forall now s s' calls,
    refresh_gauges now s m = Some (s', calls) -> same_but_faults s s').
  { clear. intros now s s' calls. unfold refresh_gauges. destruct (metrics_ready m); [|done].
    destruct (on_store count_pending_results s) as [r1 s1] eqn:E1.
    destruct (on_store count_tasks_by_status s1) as [r2 s2] eqn:E2.
    intros H. assert (s' = s2) as -> by (destruct r2 as [[[p c] f]|e]; congruence).
    transitivity s1; by eapply on_query_same. }
  split.
  - intros reply s'. destruct r; cbn [serve].
    + unfold collect_node_status. destruct (on_store count_pending_results s) as [q s1] eqn:E.
      destruct (match get_json sysinfo with Ok _ => _ | Err _ => _ end) as [[used total] cpu].
      intros [= _ <-]. by eapply on_query_same.
    + unfold metrics_handler, encode_with_state.
      destruct (refresh_gauges now s m) as [[s1 calls]|] eqn:E; [|done].
      apply Hrefresh in E. by destruct enc; intros [= _ <-].
    + by intros [= _ <-].
  - revert s. induction ticks as [|t ticks IH]; intros s s' calls; cbn; [by intros [= <- _]|].
    destruct (refresh_gauges t s m) as [[s1 c1]|] eqn:E; [|done].
    destruct (collect ticks s1 m) as [[s2 c2]|] eqn:E2; [|done]. intros [= <- _].
    transitivity s1; [by eapply Hrefresh|by eapply IH].
Qed.
