(* ===== verification/Messages.v ===== *)
(** * The JSON of the messages

    What the streams, the HTTP calls and the database carry besides tasks: the
    derived (de)serialisers of [src/domain/p2p.rs], [pcs.rs], [bid.rs], [geo.rs],
    [src/infra/core_client.rs], [orchestrator.rs] and [metrics.rs], and the two
    structs of [models.rs] with [f32]s.  The text of a JSON document and base64 are
    [serde_json]'s and [base64]'s, hence parameters. *)

From S2P Require Import Prelude Bytes F64 Models MemoryBudget Serde Codec Wire Pcs Storage CoreClient.
From S2P Require Import Config Geo Bid Node.


#[local] Set Warnings "-register-all".
#[local] Open Scope fields_scope.

(** ** Announcements and dispatches *)

Definition work_codec : codec Work :=
  struct_codec (plain "traffic_bytes" u64_codec #: plain "flops" u64_codec #: FNil)
    (fun w => << w.(traffic_bytes), w.(flops) >>)
    (fun '<< t, f >> => mkWork t f).
#[export] Instance work_laws : Laws work_codec.
Proof. struct_laws. Qed.

Definition task_announcement_codec : codec TaskAnnouncement :=
  struct_codec (plain "task_id" string_codec #: plain "global_qubit_count" u32_codec
      #: plain "required_features" u32_codec #: plain "bid_difficulty" u32_codec
      #: plain "required_votes" u32_codec #: plain "nonce" u64_codec
      #: defaulted "deadline_secs" (option_codec u32_codec) None
      #: defaulted "work" (option_codec work_codec) None #: FNil)
    (fun a => << a.(an_task_id), a.(global_qubit_count), a.(required_features),
      a.(bid_difficulty), a.(an_required_votes), a.(nonce), a.(an_deadline_secs), a.(work) >>)
    (fun '<< a, b, c, d, e, f, g, h >> => mkTaskAnnouncement a b c d e f g h).
#[export] Instance task_announcement_laws : Laws task_announcement_codec.
Proof. struct_laws. Qed.

Definition task_announcement_message_codec : codec TaskAnnouncementMessage :=
  struct_codec (plain "announcement" task_announcement_codec #: plain "signature" string_codec
      #: defaulted "signature_v2" (option_codec string_codec) None #: FNil)
    (fun m => << m.(announcement), m.(an_signature), m.(signature_v2) >>)
    (fun '<< a, s, v >> => mkTaskAnnouncementMessage a s v).
#[export] Instance task_announcement_message_laws : Laws task_announcement_message_codec.
Proof. struct_laws. Qed.

Definition sub_task_codec : codec SubTask :=
  struct_codec (plain "task_id" string_codec #: plain "parent_task_id" string_codec
      #: plain "circuit_id" string_codec #: plain "qubit_count" u32_codec
      #: plain "original_qubit_count" u32_codec #: plain "slice_id" string_codec
      #: defaulted "slice_assignments" (vec_codec slice_assignment_codec) []
      #: defaulted "circuit" (vec_codec gate_codec) []
      #: plain "required_votes" u32_codec
      #: defaulted "mps_max_bond_dim" u32_codec 0
      #: defaulted "mps_site_order" (vec_codec u32_codec) []
      #: defaulted "mps_time_split" u32_codec 0
      #: defaulted "contraction_tree" (option_codec contraction_tree_codec) None
      #: defaulted "output_mode" string_codec ""
      #: defaulted "classical_bit_count" u32_codec 0
      #: defaulted "shots" u64_codec 0
      #: defaulted "sample_seed" u64_codec 0
      #: defaulted "observables" (vec_codec observable_spec_codec) []
      #: defaulted "noise_model" (option_codec noise_model_codec) None
      #: defaulted "security_level" string_codec "" #: FNil)
    (fun t => << t.(st_task_id), t.(st_parent_task_id), t.(st_circuit_id), t.(st_qubit_count),
      t.(st_original_qubit_count), t.(st_slice_id), t.(st_slice_assignments), t.(st_circuit),
      t.(st_required_votes), t.(st_mps_max_bond_dim), t.(st_mps_site_order),
      t.(st_mps_time_split), t.(st_contraction_tree), t.(st_output_mode),
      t.(st_classical_bit_count), t.(st_shots), t.(st_sample_seed), t.(st_observables),
      t.(st_noise_model), t.(st_security_level) >>)
    (fun '<< a, b, c, d, e, f, g, h, i, j, k, l, m, n, o, p, q, r, s, t >> =>
      mkSubTask a b c d e f g h i j k l m n o p q r s t).
#[export] Instance sub_task_laws : Laws sub_task_codec.
Proof. struct_laws. Qed.

Definition task_dispatch_message_codec : codec TaskDispatchMessage :=
  struct_codec (plain "sub_task" sub_task_codec #: plain "signature" string_codec #: FNil)
    (fun m => << m.(sub_task), m.(dispatch_signature) >>)
    (fun '<< t, s >> => mkTaskDispatchMessage t s).
#[export] Instance task_dispatch_message_laws : Laws task_dispatch_message_codec.
Proof. struct_laws. Qed.

(** ** PCS *)

Definition pcs_message_codec : codec PcsMessage :=
  struct_codec (plain "sub_task_id" string_codec #: plain "node_id" string_codec
      #: skip_empty "leaf_pcs_b64" #: skipped "refused" bool_codec false negb
      #: skip_none "refuse_reason" string_codec #: FNil)
    (fun m => << m.(pm_sub_task_id), m.(pm_node_id), m.(pm_leaf_pcs_b64), m.(pm_refused),
      m.(pm_refuse_reason) >>)
    (fun '<< a, b, c, d, e >> => mkPcsMessage a b c d e).
#[export] Instance pcs_message_laws : Laws pcs_message_codec.
Proof. struct_laws. Qed.

Definition pcs_request_codec : codec PcsRequest :=
  struct_codec (plain "sub_task_id" string_codec #: defaulted "parent_task_id" string_codec ""
      #: defaulted "slice_id" string_codec "" #: defaulted "node_id" string_codec ""
      #: defaulted "issued_at_unix" i64_codec 0 #: defaulted "request_kind" string_codec ""
      #: defaulted "leaf_proof_hash" string_codec "" #: FNil)
    (fun r => << r.(pr_sub_task_id), r.(pr_parent_task_id), r.(pr_slice_id), r.(pr_node_id),
      r.(pr_issued_at_unix), r.(pr_request_kind), r.(pr_leaf_proof_hash) >>)
    (fun '<< a, b, c, d, e, f, g >> => mkPcsRequest a b c d e f g).
#[export] Instance pcs_request_laws : Laws pcs_request_codec.
Proof. struct_laws. Qed.

Definition pcs_request_message_codec : codec PcsRequestMessage :=
  struct_codec (plain "request" pcs_request_codec #: plain "signature" string_codec #: FNil)
    (fun m => << m.(prm_request), m.(prm_signature) >>)
    (fun '<< r, s >> => mkPcsRequestMessage r s).
#[export] Instance pcs_request_message_laws : Laws pcs_request_message_codec.
Proof. struct_laws. Qed.

Definition pcs_open_call_codec : codec PcsOpenCall :=
  struct_codec (plain "parent_task_id" string_codec #: plain "sub_task_id" string_codec
      #: plain "slice_id" string_codec #: plain "leaf_proof_hash" string_codec
      #: plain "leaf_proof_bytes" u64_codec #: plain "cas_presigned_url" string_codec
      #: plain "r_pcs_planck" string_codec #: plain "deadline_unix" i64_codec
      #: plain "issued_at_unix" i64_codec
      #: skipped "refused_builders" (vec_codec string_codec) [] is_nil #: FNil)
    (fun c => << c.(oc_parent_task_id), c.(oc_sub_task_id), c.(oc_slice_id),
      c.(oc_leaf_proof_hash), c.(oc_leaf_proof_bytes), c.(oc_cas_presigned_url),
      c.(oc_r_pcs_planck), c.(oc_deadline_unix), c.(oc_issued_at_unix),
      c.(oc_refused_builders) >>)
    (fun '<< a, b, c, d, e, f, g, h, i, j >> => mkPcsOpenCall a b c d e f g h i j).
#[export] Instance pcs_open_call_laws : Laws pcs_open_call_codec.
Proof. struct_laws. Qed.

Definition pcs_open_call_message_codec : codec PcsOpenCallMessage :=
  struct_codec (plain "open_call" pcs_open_call_codec #: plain "signature" string_codec #: FNil)
    (fun m => << m.(ocm_call), m.(ocm_signature) >>)
    (fun '<< c, s >> => mkPcsOpenCallMessage c s).
#[export] Instance pcs_open_call_message_laws : Laws pcs_open_call_message_codec.
Proof. struct_laws. Qed.

Definition pcs_bid_codec : codec PcsBid :=
  struct_codec (plain "sub_task_id" string_codec #: plain "node_id" string_codec
      #: plain "leaf_proof_hash" string_codec #: plain "pcs_memory_policy" string_codec
      #: plain "issued_at_unix" i64_codec #: FNil)
    (fun b => << b.(pb_sub_task_id), b.(pb_node_id), b.(pb_leaf_proof_hash),
      b.(pb_pcs_memory_policy), b.(pb_issued_at_unix) >>)
    (fun '<< a, b, c, d, e >> => mkPcsBid a b c d e).
#[export] Instance pcs_bid_laws : Laws pcs_bid_codec.
Proof. struct_laws. Qed.

Definition pcs_bid_message_codec : codec PcsBidMessage :=
  struct_codec (plain "bid" pcs_bid_codec #: plain "signature" string_codec #: FNil)
    (fun m => << m.(pbm_bid), m.(pbm_signature) >>)
    (fun '<< b, s >> => mkPcsBidMessage b s).
#[export] Instance pcs_bid_message_laws : Laws pcs_bid_message_codec.
Proof. struct_laws. Qed.

Definition open_call_pcs_source_codec : codec OpenCallPcsSource :=
  struct_codec (plain "leaf_proof_hash" string_codec #: plain "cas_presigned_url" string_codec
      #: defaulted "leaf_proof_bytes" u64_codec 0 #: defaulted "slice_id" string_codec "" #: FNil)
    (fun s => << s.(src_leaf_proof_hash), s.(src_cas_presigned_url), s.(src_leaf_proof_bytes),
      s.(src_slice_id) >>)
    (fun '<< a, b, c, d >> => mkOpenCallPcsSource a b c d).
#[export] Instance open_call_pcs_source_laws : Laws open_call_pcs_source_codec.
Proof. struct_laws. Qed.

Definition pending_pcs_job_codec : codec PendingPcsJob :=
  struct_codec (plain "sub_task_id" string_codec #: plain "proof" proof_codec
      #: defaulted "requested" bool_codec false
      #: skip_none "leaf_pcs_b64" string_codec #: skip_none "leaf_pcs_bytes" u64_codec
      #: skip_none "open_call" open_call_pcs_source_codec #: FNil)
    (fun j => << j.(job_sub_task_id), j.(job_proof), j.(job_requested), j.(job_leaf_pcs_b64),
      j.(job_leaf_pcs_bytes), j.(job_open_call) >>)
    (fun '<< a, b, c, d, e, f >> => mkPendingPcsJob a b c d e f).
#[export] Instance pending_pcs_job_laws : Laws pending_pcs_job_codec.
Proof. struct_laws. Qed.

(** ** HTTP *)

Definition leaf_pcs_response_codec : codec LeafPcsResponse :=
  struct_codec (plain "leaf_pcs_b64" string_codec #: plain "bytes" u64_codec #: FNil)
    (fun r => << r.(leaf_pcs_b64), r.(leaf_bytes) >>)
    (fun '<< l, b >> => mkLeafPcsResponse l b).
#[export] Instance leaf_pcs_response_laws : Laws leaf_pcs_response_codec.
Proof. struct_laws. Qed.

(** [LeafPcsRequest] *)
Definition leaf_pcs_request_codec : codec Proof :=
  struct_codec (plain "proof" proof_codec #: FNil) (fun p => << p >>) (fun '<< p >> => p).
#[export] Instance leaf_pcs_request_laws : Laws leaf_pcs_request_codec.
Proof. struct_laws. Qed.

Definition bootstrap_response_codec : codec BootstrapResponse :=
  struct_codec (plain "peer_id" string_codec #: plain "public_key_b64" string_codec
      #: plain "multiaddrs" (vec_codec string_codec) #: FNil)
    (fun r => << r.(br_peer_id), r.(br_public_key_b64), r.(br_multiaddrs) >>)
    (fun '<< p, k, m >> => mkBootstrapResponse p k m).
#[export] Instance bootstrap_response_laws : Laws bootstrap_response_codec.
Proof. struct_laws. Qed.

Definition geo_info_codec : codec GeoInfo :=
  struct_codec (plain "latitude" f64_codec #: plain "longitude" f64_codec
      #: plain "country" string_codec #: plain "city" string_codec #: FNil)
    (fun g => << g.(latitude), g.(longitude), g.(country), g.(city) >>)
    (fun '<< a, b, c, d >> => mkGeoInfo a b c d).
#[export] Instance geo_info_laws : Laws geo_info_codec.
Proof. struct_laws. Qed.

Definition ip_api_json_codec : codec IpApiJsonResponse :=
  struct_codec (plain "lat" f64_codec #: plain "lon" f64_codec #: plain "country" string_codec
      #: plain "city" string_codec #: plain "status" string_codec #: FNil)
    (fun r => << r.(ij_lat), r.(ij_lon), r.(ij_country), r.(ij_city), r.(ij_status) >>)
    (fun '<< a, b, c, d, e >> => mkIpApiJson a b c d e).
#[export] Instance ip_api_json_laws : Laws ip_api_json_codec.
Proof. struct_laws. Qed.

(** [#[serde(rename = ..)]] on the two names *)
Definition free_ip_api_codec : codec FreeIpApiResponse :=
  struct_codec (plain "latitude" f64_codec #: plain "longitude" f64_codec
      #: plain "countryName" string_codec #: plain "cityName" string_codec #: FNil)
    (fun r => << r.(fi_latitude), r.(fi_longitude), r.(fi_country_name), r.(fi_city_name) >>)
    (fun '<< a, b, c, d >> => mkFreeIpApi a b c d).
#[export] Instance free_ip_api_laws : Laws free_ip_api_codec.
Proof. struct_laws. Qed.

Definition ip_api_co_codec : codec IpApiCoResponse :=
  struct_codec (plain "latitude" f64_codec #: plain "longitude" f64_codec
      #: plain "country_name" string_codec #: plain "city" string_codec #: FNil)
    (fun r => << r.(ic_latitude), r.(ic_longitude), r.(ic_country_name), r.(ic_city) >>)
    (fun '<< a, b, c, d >> => mkIpApiCo a b c d).
#[export] Instance ip_api_co_laws : Laws ip_api_co_codec.
Proof. struct_laws. Qed.

(** *** [f32] *)

Definition F32_PREC : Z := 24.
Definition F32_EMAX : Z := 128.
(** [x as f32], as the binary64 number it is. *)
Definition f32_of_f64 (x : f64) : f64 :=
  match x with
  | SpecFloat.S754_finite s m e =>
    SpecFloat.binary_normalize F32_PREC F32_EMAX (SpecFloat.cond_Zopp s (Zpos m)) e s
  | _ => x
  end.

(** A number out of the range of [f32] is an error ([float_roundtrip]); between
    two [f32]s the text is rounded once, a [value] twice. *)
Definition f32_from_value (v : value) : option f64 :=
  match v with
  | VNumber n =>
    x ← number_as_f64 n;
    if f64_is_finite (f32_of_f64 x) then Some (f32_of_f64 x) else None
  | _ => None
  end.
Definition f32_codec : codec f64 :=
  mkCodec f64_codec.(enc) f32_from_value None
    (fun _ f => f64_is_finite f && bool_decide (f32_of_f64 f = f)) 0.

Definition default_pcs_memory_policy : string := PCS_MEMORY_POLICY_REFUSE.

Definition core_system_info_codec : codec CoreSystemInfo :=
  struct_codec (plain "system_memory_used_kb" u64_codec
      #: plain "system_memory_total_kb" u64_codec #: plain "cpu_usage_percent" f32_codec
      #: defaulted "tn_backend_requested" string_codec ""
      #: defaulted "tn_backend_active" string_codec ""
      #: defaulted "tn_backend_note" (option_codec string_codec) None
      #: defaulted "mps_max_bond_dim" usize_codec 0
      #: defaulted "pcs_memory_policy" string_codec default_pcs_memory_policy
      #: defaulted "vram_budget_bytes" (option_codec u64_codec) None
      #: defaulted "tn_seconds_per_byte" (option_codec f64_codec) None
      #: defaulted "tn_seconds_per_flop" (option_codec f64_codec) None #: FNil)
    (fun i => << i.(system_memory_used_kb), i.(system_memory_total_kb), i.(cpu_usage_percent),
      i.(tn_backend_requested), i.(tn_backend_active), i.(tn_backend_note),
      i.(info_mps_max_bond_dim), i.(info_pcs_memory_policy), i.(vram_budget_bytes),
      i.(tn_seconds_per_byte), i.(tn_seconds_per_flop) >>)
    (fun '<< a, b, c, d, e, f, g, h, i, j, k >> => mkCoreSystemInfo a b c d e f g h i j k).

(** ** What is only written *)

Definition metrics_summary_codec : codec MetricsSummary :=
  struct_codec (plain "pending_tasks" u64_codec #: plain "outbox_pending" u64_codec
      #: plain "p2p_connected_peers" u64_codec #: plain "p2p_orchestrator_connected" u8_codec
      #: plain "core_timeouts_total" u64_codec #: plain "uptime_seconds" u64_codec #: FNil)
    (fun m => << m.(ms_pending_tasks), m.(ms_outbox_pending), m.(ms_p2p_connected_peers),
      m.(ms_p2p_orchestrator_connected), m.(ms_core_timeouts_total), m.(ms_uptime_seconds) >>)
    (fun '<< a, b, c, d, e, f >> => mkMetricsSummary a b c d e f).
#[export] Instance metrics_summary_laws : Laws metrics_summary_codec.
Proof. struct_laws. Qed.

Section written.
Context (b64_encode : bytes -> string) (bigint_text : Z -> string).

(** [serialize_bytes_as_base64], [serialize_optional_bytes_as_base64] and
    [serialize_stake_as_string] *)
Definition serialize_bytes_as_base64 (b : bytes) : value := VString (b64_encode b).
Definition serialize_optional_bytes_as_base64 (o : option bytes) : value :=
  match o with Some b => VString (b64_encode b) | None => VNull end.
Definition serialize_stake_as_string (stake : Z) : value := VString (bigint_text stake).
Definition is_zero_u32 (n : Z) : bool := n =? 0.

Definition entry_if (keep : bool) (key : string) (v : value) : list (string * value) :=
  if keep then [(key, v)] else [].

Definition bid_json (b : Bid) : value :=
  VObject (
    [("task_id", VString b.(bid_task_id)); ("node_id", VString b.(bid_node_id));
     ("max_qubit_capability", u32_codec.(enc) b.(max_qubit_capability))]
    ++ entry_if (negb (is_zero_u32 b.(bid_max_mps_qubits))) "max_mps_qubits"
         (u32_codec.(enc) b.(bid_max_mps_qubits))
    ++ [("current_load_factors", u32_codec.(enc) b.(current_load_factors));
        ("timestamp", i64_codec.(enc) b.(timestamp));
        ("lottery_attempt", u64_codec.(enc) b.(lottery_attempt));
        ("signature", serialize_bytes_as_base64 b.(bid_signature));
        ("lottery_proof", serialize_bytes_as_base64 b.(lottery_proof));
        ("stake_amount", serialize_stake_as_string b.(bid_stake_amount));
        ("supported_features", u32_codec.(enc) b.(supported_features))]
    ++ entry_if (negb (is_none b.(location))) "location"
         ((option_codec geo_info_codec).(enc) b.(location))
    ++ entry_if (negb (is_none b.(bid_operator_id))) "operator_id"
         ((option_codec string_codec).(enc) b.(bid_operator_id))
    ++ entry_if (negb (is_none b.(operator_sig))) "operator_sig"
         (serialize_optional_bytes_as_base64 b.(operator_sig))
    ++ entry_if (negb (is_none b.(metrics_summary))) "metrics_summary"
         ((option_codec metrics_summary_codec).(enc) b.(metrics_summary))).
End written.

(** [NodeStatus] as [axum::Json] writes it; how an [f32] is written is [ryu]'s. *)
Definition node_status_json (f32_json : f64 -> value) (n : NodeStatus) : value :=
  VObject (
    [("pending_tasks", usize_codec.(enc) n.(ns_pending_tasks));
     ("outbox_pending", usize_codec.(enc) n.(ns_outbox_pending));
     ("max_qubits", usize_codec.(enc) n.(ns_max_qubits));
     ("max_mps_qubits", usize_codec.(enc) n.(ns_max_mps_qubits));
     ("max_memory_gib", f64_codec.(enc) n.(ns_max_memory_gib));
     ("memory_cap_source", VString (MemoryCapSource_as_str n.(ns_memory_cap_source)))]
    ++ entry_if (negb (is_none n.(ns_vram_budget_gib))) "vram_budget_gib"
         ((option_codec f64_codec).(enc) n.(ns_vram_budget_gib))
    ++ [("system_memory_used_kb", u64_codec.(enc) n.(ns_system_memory_used_kb));
        ("system_memory_total_kb", u64_codec.(enc) n.(ns_system_memory_total_kb));
        ("cpu_usage_percent", f32_json n.(ns_cpu_usage_percent));
        ("supported_gates", (vec_codec string_codec).(enc) n.(ns_supported_gates))]).

(** ** Rows of other versions *)

(** C39. A database is read across versions.  A task's row written before tasks had a
    budget and an acceptance time, and a PCS job's row written before jobs kept
    whether they were requested, a prebuilt leaf or the open call they came from,
    still read, with those fields empty; and a row with keys a later version added
    reads as if they were not there. *)
Theorem rows_of_other_versions_read m extra :
  (forall t, compute_task_codec.(dec) (VObject m) = Some t ->
     compute_task_codec.(dec) (VObject (without ["budget"; "accepted_at_ms"] m))
     = Some (mkComputeTask t.(request) t.(orchestrator_pubkey) None 0))
  /\ (forall j, pending_pcs_job_codec.(dec) (VObject m) = Some j ->
     pending_pcs_job_codec.(dec)
       (VObject (without ["requested"; "leaf_pcs_b64"; "leaf_pcs_bytes"; "open_call"] m))
     = Some (mkPendingPcsJob j.(job_sub_task_id) j.(job_proof) false None None None))
  /\ (Forall (fun kv => kv.1 ∉ ["request"; "orchestrator_pubkey"; "budget"; "accepted_at_ms"]) extra ->
     compute_task_codec.(dec) (VObject (m ++ extra)) = compute_task_codec.(dec) (VObject m))
  /\ (Forall (fun kv => kv.1 ∉ ["sub_task_id"; "proof"; "requested"; "leaf_pcs_b64";
                                "leaf_pcs_bytes"; "open_call"]) extra ->
     pending_pcs_job_codec.(dec) (VObject (m ++ extra)) = pending_pcs_job_codec.(dec) (VObject m)).
Proof.
  split_and!.
  - intros t (u & Hu & ->)%fmap_Some. cbn [compute_task_codec struct_codec dec].
    erewrite dec_struct_without by first [exact Hu|vm_compute; reflexivity].
    by destruct u as (r & o & b & a & []).
  - intros j (u & Hu & ->)%fmap_Some. cbn [pending_pcs_job_codec struct_codec dec].
    erewrite dec_struct_without by first [exact Hu|vm_compute; reflexivity].
    by destruct u as (? & ? & ? & ? & ? & ? & []).
  - intros H. cbn [compute_task_codec struct_codec dec]. by rewrite dec_struct_unknown.
  - intros H. cbn [pending_pcs_job_codec struct_codec dec]. by rewrite dec_struct_unknown.
Qed.

(** A job of today, and the row of an older version: only its name and its proof. *)
Definition sample_job : PendingPcsJob :=
  mkPendingPcsJob "s1" (mkProof (mkPublicInputs "c" "s1" "n" "0" "h" "" "") "AAAA") true
    (Some "cGNz") (Some 3) (Some (mkOpenCallPcsSource "h" "http://cas/p" 7 "0")).
Definition sample_job_row : list (string * value) :=
  match pending_pcs_job_codec.(enc) sample_job with VObject m => m | _ => [] end.
Definition older_job_row : list (string * value) :=
  [("sub_task_id", VString "s1"); ("proof", proof_codec.(enc) sample_job.(job_proof))].

Lemma rows_of_other_versions_read_witness :
  pending_pcs_job_codec.(dec) (VObject older_job_row)
    = Some (mkPendingPcsJob "s1" sample_job.(job_proof) false None None None)
  /\ pending_pcs_job_codec.(dec) (VObject (sample_job_row ++ [("later", VBool true)]))
     = Some sample_job.
Proof.
  split.
  - apply (proj1 (proj2 (rows_of_other_versions_read sample_job_row [])) sample_job).
    vm_compute. reflexivity.
  - rewrite (proj2 (proj2 (proj2 (rows_of_other_versions_read sample_job_row
      [("later", VBool true)])))); [vm_compute; reflexivity|].
    repeat constructor. by vm_compute; intros H; repeat (apply elem_of_cons in H as [H|H]; [done|]); apply elem_of_nil in H.
Defined.
