(* ===== verification/Intake.v ===== *)
(** * What is stored reads back

    A dispatch arrives as JSON, becomes a request, a task and a row of JSON again.
    With the codecs of [Codec] and [Messages] and [serde_json]'s documented
    behaviour on texts, the row reads back as the task. *)

From S2P Require Import Prelude Bytes F64 Models Serde Codec Validation Wire WorkLedger Config State.
From S2P Require Import AcceptTask SampleJson Messages.

#[local] Set Warnings "-register-all".

(** ** Normalisation keeps documents *)

Lemma json_ok_mono d v : json_ok d v = true -> json_ok (S d) v = true.
Proof.
  revert d. induction v as [|b|n|s|l IH|m IH] using value_rect_nested; intros [|d]; try done;
    cbn; rewrite !forallb_Forall; intros H.
  - induction IH as [|x l Hx _ IHl]; [by apply Forall_nil|].
    apply Forall_cons in H as [H1 H2]. constructor; [by apply Hx|by apply IHl].
  - induction IH as [|[k x] l Hx _ IHl]; [by apply Forall_nil|].
    apply Forall_cons in H as [[H0 H1]%andb_true_iff H2]. constructor; [|by apply IHl].
    cbn [fst snd] in *. by rewrite H0, Hx.
Qed.

Lemma update_json_ok d key f m :
  json_ok (S d) (VObject m) = true ->
  (forall v, obj_get key m = Some v -> json_ok d v = true -> json_ok d (f v) = true) ->
  json_ok (S d) (VObject (obj_update key f m)) = true.
Proof.
  cbn. rewrite !forallb_Forall. intros H Hf.
  induction m as [|[k v] m IH]; cbn; [done|]. apply Forall_cons in H as [[H0 H1]%andb_true_iff H2].
  cbn in Hf, H0, H1. revert Hf. case_decide as Hk; intros Hf; constructor; cbn; rewrite ?H0; try done.
  - by apply Hf.
  - by apply IH.
Qed.

Lemma normalize_json_ok d v : json_ok d v = true -> json_ok d (normalize_gate_value v) = true.
Proof.
  assert (H : forall size v d, (value_size v <= size)%nat -> json_ok d v = true ->
    json_ok d (normalize_gate_value v) = true).
  { clear. induction size as [|size IH]; intros v d Hs Hv; [pose proof (value_size_pos v); lia|].
    destruct v as [| | | |[|x [|y items]]|obj]; try done.
    - destruct d as [|d]; [done|]. cbn in Hv. apply andb_true_iff in Hv as [Hx _].
      by apply json_ok_mono.
    - destruct d as [|d]; [done|]. cbn [normalize_gate_value]. apply update_json_ok; [done|].
      intros v Hget Hok. destruct v as [| | | | |o]; try done.
      destruct d as [|d]; [done|]. apply update_json_ok; [done|].
      intros p Hp Hpok. apply IH; [|done]. apply obj_get_size in Hget, Hp. lia. }
  by apply (H (value_size v)).
Qed.

(** ** From the dispatch to the task *)

Lemma gate_ok_normalize d g : gate_codec.(ok) d g = true -> gate_codec.(ok) d (normalize_gate g) = true.
Proof.
  destruct d as [|d]; [done|]. cbn. rewrite !andb_true_iff. intros (Ht & [Hp Hn] & _).
  by rewrite normalize_json_ok, normalize_is_normal.
Qed.

Lemma circuit_ok_normalize d c :
  (vec_codec gate_codec).(ok) d c = true ->
  (vec_codec gate_codec).(ok) d (normalize_gate_params c) = true.
Proof.
  destruct d as [|d]; [done|]. cbn [ok vec_codec]. rewrite !forallb_Forall.
  unfold normalize_gate_params. rewrite Forall_map. intros H. eapply Forall_impl; [exact H|].
  intros g. apply gate_ok_normalize.
Qed.

Lemma u32_is_u64 d n : u32_codec.(ok) d n = true -> u64_codec.(ok) d n = true.
Proof. cbn. unfold U32_MAX, U64_MAX. rewrite !andb_true_iff. lia. Qed.

Lemma positive_ok (c : codec Z) d n :
  c.(ok) d n = true -> (option_codec c).(ok) d (positive n) = true.
Proof. unfold positive. by destruct (0 <? n). Qed.

Lemma site_order_ok d l :
  (vec_codec u32_codec).(ok) d l = true ->
  (option_codec (vec_codec usize_codec)).(ok) d (match l with [] => None | order => Some order end)
    = true.
Proof.
  destruct d as [|d]; [done|]. cbn [ok vec_codec option_codec]. rewrite forallb_Forall.
  destruct l as [|z l]; [done|]. intros H. apply forallb_Forall. eapply Forall_impl; [exact H|].
  intros n. apply u32_is_u64.
Qed.

Lemma request_ok d t peer :
  sub_task_codec.(ok) d t = true -> valid_utf8_chars peer = true ->
  compute_request_codec.(ok) d (into_compute_request t peer) = true.
Proof.
  destruct d as [|n]; [done|]. intros H Hpeer. destruct t.
  cbn -[vec_codec option_codec string_codec uint_codec contraction_tree_codec observable_spec_codec
    noise_model_codec slice_assignment_codec gate_codec] in H |- *.
  rewrite !andb_true_iff in H |- *. destruct_and! H.
  split_and!; try done; auto using u32_is_u64, positive_ok.
  - by apply site_order_ok in H9; destruct st_mps_site_order.
  - by apply andb_true_iff.
Qed.

(** [request.circuit = c] and [request.node_id = n] *)
Lemma with_circuit_ok d c r :
  compute_request_codec.(ok) (S d) r = true -> (vec_codec gate_codec).(ok) d c = true ->
  compute_request_codec.(ok) (S d) (with_circuit c r) = true.
Proof.
  intros H Hc. destruct r.
  cbn -[vec_codec option_codec string_codec uint_codec contraction_tree_codec observable_spec_codec
    noise_model_codec slice_assignment_codec gate_codec] in H |- *.
  rewrite !andb_true_iff in H |- *. destruct_and! H. by split_and!.
Qed.
Lemma with_node_id_ok d s r :
  compute_request_codec.(ok) (S d) r = true -> valid_utf8_chars s = true ->
  compute_request_codec.(ok) (S d) (with_node_id (Some s) r) = true.
Proof.
  intros H Hc. destruct r.
  cbn -[vec_codec option_codec string_codec uint_codec contraction_tree_codec observable_spec_codec
    noise_model_codec slice_assignment_codec gate_codec] in H |- *.
  rewrite !andb_true_iff in H |- *. destruct_and! H. by split_and!.
Qed.
Lemma request_circuit_ok d r :
  compute_request_codec.(ok) (S d) r = true -> (vec_codec gate_codec).(ok) d r.(circuit) = true.
Proof.
  intros H. destruct r.
  cbn -[vec_codec option_codec string_codec uint_codec contraction_tree_codec observable_spec_codec
    noise_model_codec slice_assignment_codec gate_codec] in H |- *.
  rewrite !andb_true_iff in H. by destruct_and! H.
Qed.

(** The budget of a ledger that is [ledger_ok] can be stored. *)
Definition bud_fine (bud : option Budget) : Prop :=
  match bud with Some b => budget_fine b | None => True end.

Lemma budget_ok d b : budget_fine b -> budget_codec.(ok) (S d) b = true.
Proof.
  intros (Hd & _ & Hf). cbn. unfold in_u32, U32_MAX, U64_MAX in *.
  rewrite !andb_true_iff. split_and!; try done; lia.
Qed.

Lemma task_ok config d t key bud now_ms :
  sub_task_codec.(ok) (S d) t = true -> valid_utf8_chars config.(peer_id) = true ->
  valid_utf8_chars key = true -> bud_fine bud -> in_u64 now_ms ->
  compute_task_codec.(ok) (S (S d))
    (task_of config (into_compute_request t config.(peer_id)) key bud now_ms) = true.
Proof.
  intros Ht Hpeer Hkey Hbud Hnow. apply (request_ok _ _ config.(peer_id)) in Ht; [|done].
  unfold task_of. set (r := into_compute_request _ _) in *. clearbody r.
  apply andb_true_iff. split.
  { apply with_node_id_ok; [|done]. apply with_circuit_ok; [done|].
    by apply circuit_ok_normalize, request_circuit_ok. }
  apply andb_true_iff. split; [done|]. apply andb_true_iff. split.
  { destruct bud as [b|]; [|done]. by apply budget_ok. }
  apply andb_true_iff. split; [|done]. cbn. unfold in_u64, U64_MAX in *.
  rewrite !andb_true_iff. lia.
Qed.

(** What a well-formed message says of its parts. *)
Lemma dispatch_sub_task_ok d m :
  task_dispatch_message_codec.(ok) (S d) m = true -> sub_task_codec.(ok) d m.(sub_task) = true.
Proof. by intros [H _]%andb_true_iff. Qed.

Lemma announcement_ok_wf d m :
  task_announcement_message_codec.(ok) d m = true -> announcement_wf m.(announcement).
Proof.
  destruct d as [|d]; [done|]. intros [H _]%andb_true_iff. destruct d as [|d]; [done|].
  destruct (announcement m). cbn -[Z.leb] in H. rewrite !andb_true_iff in H. destruct_and! H.
  unfold U32_MAX, U64_MAX in *. split; cbn; unfold in_u32, in_u64 in *; try lia.
  - destruct an_deadline_secs; [|done]. lia.
  - destruct work as [w|]; [|done]. destruct d as [|d]; [done|]. destruct w. cbn in *.
    rewrite !andb_true_iff in *. lia.
Qed.

(** ** Theorems *)

(** C19. What the node stores it can read again: whatever bytes a dispatch came as, the
    task made of it is written as a row that reads back as exactly that task, so a
    restart finds the tasks it accepted (only the configuration's strings, the
    ledger's numbers and the clock have to be what they are). *)
Theorem stored_dispatch_reads_back print parse config payload m key bud now_ms :
  json_text_spec print parse ->
  valid_utf8_chars config.(peer_id) = true -> valid_utf8_chars key = true ->
  bud_fine bud -> in_u64 now_ms ->
  from_slice parse task_dispatch_message_codec payload = Some m ->
  let task := task_of config (into_compute_request m.(sub_task) config.(peer_id)) key bud now_ms in
  to_string print compute_task_codec task ≫= from_str parse compute_task_codec = Some task.
Proof.
  intros Htext Hpeer Hkey Hbud Hnow Hm task.
  apply (from_slice_ok print parse Htext) in Hm; [|apply _|vm_compute; lia].
  apply dispatch_sub_task_ok in Hm.
  refine (from_to_string print parse Htext compute_task_codec task _ _ eq_refl).
  unfold JSON_DEPTH. by apply task_ok.
Qed.

(** The sample sub-task as it travels. *)
Definition sample_dispatch : bytes :=
  sample_print (task_dispatch_message_codec.(enc)
    (mkTaskDispatchMessage sample_sub_task "signature")).

Lemma stored_dispatch_reads_back_witness :
  from_slice sample_parse task_dispatch_message_codec sample_dispatch
    = Some (mkTaskDispatchMessage sample_sub_task "signature") /\
  let task := task_of signing_config (into_compute_request sample_sub_task "peer") "key"
    (Some (mkBudget 20 (f64_dec 25 1))) 1000 in
  to_string sample_print compute_task_codec task ≫= from_str sample_parse compute_task_codec
    = Some task.
Proof.
  assert (Hread : from_slice sample_parse task_dispatch_message_codec sample_dispatch
    = Some (mkTaskDispatchMessage sample_sub_task "signature")) by (vm_compute; reflexivity).
  split; [exact Hread|].
  refine (stored_dispatch_reads_back sample_print sample_parse signing_config sample_dispatch
    (mkTaskDispatchMessage sample_sub_task "signature") "key" (Some (mkBudget 20 (f64_dec 25 1))) 1000
    sample_text_spec eq_refl eq_refl _ _ Hread).
  - vm_compute. by split_and!.
  - vm_compute. by split.
Defined.
