(* ===== verification/Program.v ===== *)
(** * The program on its surroundings

    The handlers of the other files applied to what the program takes from outside:
    the configuration, the texts of JSON documents, hashes, signatures and the texts
    of errors.  The JSON of every message and row is that of [Codec] and
    [Messages]. *)

From S2P Require Import Prelude Bytes F64 FloatText Models Serde Codec Features MemoryBudget GoJson.
From S2P Require Import Validation Wire WorkLedger Pcs Table Storage CoreClient Config State AcceptTask.
From S2P Require Import Stream Cas PcsOutbox PcsHandlers ResultJson ResultOutbox Ports.
From S2P Require Import Operator Geo Bid Host Worker Turn Node Messages.

(** ** What the program takes from outside

    Its configuration, what wqc-core supports, the texts of JSON documents, the
    hashes and signatures, and the texts of third-party errors. *)

Record Outside := mkOutside {
  o_config : NodeConfig;
  o_core : CoreConfig;
  o_gates : list string;
  o_values : forall A : Type, gmap string A -> list A;
  (* serde_json *)
  o_print : value -> bytes;
  o_parse : bytes -> option value;
  (* texts *)
  o_describe : HttpError -> string;
  o_status_text : Z -> string;
  o_parse_text : string;
  o_bigint_text : Z -> string;
  o_format_finite : f64 -> text;
  (* cryptography and encodings *)
  o_sha256 : bytes -> bytes;
  o_hex : bytes -> string;
  o_b64_encode : bytes -> string;
  o_b64_decode : string -> option bytes;
  o_sign : bytes -> bytes -> bytes;
  o_signature : Type;
  o_verifying_key : Type;
  o_signature_from_slice : bytes -> option o_signature;
  o_key_from_bytes : bytes -> option o_verifying_key;
  o_verify : o_verifying_key -> bytes -> o_signature -> bool;
  o_valid_multiaddr : string -> bool
}.

(** ** JSON

    What each handler reads and writes: the codec of its type, and the texts of
    [serde_json]. *)

Section json.
Context (W : Outside).

Definition write_json {A} (c : codec A) : A -> option bytes := to_vec W.(o_print) c.
Definition read_json {A} (c : codec A) : bytes -> option A := from_slice W.(o_parse) c.

Definition task_to_json : ComputeTask -> option string := to_string W.(o_print) compute_task_codec.
Definition task_from_json : string -> option ComputeTask := from_str W.(o_parse) compute_task_codec.
Definition request_to_json := write_json compute_request_codec.
Definition job_to_json := write_json pending_pcs_job_codec.
Definition job_from_json := read_json pending_pcs_job_codec.
Definition value_from_json := read_json value_codec.
Definition proof_from_value (v : value) : option Proof := proof_codec.(dec) v.
Definition bid_to_json (b : Bid) : option bytes :=
  Some (W.(o_print) (bid_json W.(o_b64_encode) W.(o_bigint_text) b)).
Definition pcs_bid_to_json := write_json pcs_bid_message_codec.
Definition pcs_to_json := write_json pcs_message_codec.
Definition dispatch_from_json := read_json task_dispatch_message_codec.
Definition announcement_from_json := read_json task_announcement_message_codec.
Definition open_from_json := read_json pcs_open_call_message_codec.
Definition pcs_request_from_json := read_json pcs_request_message_codec.
Definition tree_json := write_json contraction_tree_codec.

(** [serde_json::to_string] on a string, a proof and a report, as characters. *)
Definition text_of {A} (c : codec A) (a : A) : text := utf8_decode (W.(o_print) (c.(enc) a)).
Definition json_string := text_of string_codec.
Definition proof_json := text_of proof_codec.
Definition report_json := text_of work_report_codec.
End json.

(** ** Handlers *)

Section handlers.
Context (W : Outside).
Let config := W.(o_config).

Definition on_dispatch (others : AppState -> AppState) :=
  on_dispatch_stream config W.(o_gates) (request_to_json W) (task_to_json W)
    (task_from_json W) others W.(o_format_finite) (tree_json W) W.(o_b64_decode)
    W.(o_signature_from_slice) W.(o_key_from_bytes) W.(o_verify) (dispatch_from_json W).
Definition on_announcement :=
  on_announce_stream config W.(o_gates) W.(o_values) W.(o_sha256) W.(o_sign) W.(o_bigint_text)
    (bid_to_json W)
    (value_from_json W) W.(o_b64_decode) W.(o_signature_from_slice) W.(o_key_from_bytes)
    W.(o_verify) (announcement_from_json W).
Definition on_gossip :=
  handle_announcement config W.(o_gates) W.(o_values) W.(o_sha256) W.(o_sign) W.(o_bigint_text)
    (bid_to_json W)
    (value_from_json W) W.(o_b64_decode) W.(o_signature_from_slice) W.(o_key_from_bytes)
    W.(o_verify) (announcement_from_json W).
Definition on_open_call :=
  on_pcs_open_stream config W.(o_b64_decode) W.(o_signature_from_slice) W.(o_key_from_bytes)
    W.(o_verify) (W.(o_sign) config.(signing_key)) W.(o_b64_encode) (pcs_bid_to_json W)
    (open_from_json W).
Definition on_pcs_request :=
  on_pcs_request_stream config W.(o_b64_decode) W.(o_signature_from_slice) W.(o_key_from_bytes)
    W.(o_verify) (pcs_request_from_json W) (job_to_json W) (job_from_json W).
Definition insert (task : ComputeTask) :=
  save_new_task (request_to_json W) (task_to_json W) (task_from_json W) task.
Definition begin := begin_work config W.(o_core).
Definition report :=
  report_work config W.(o_describe) W.(o_status_text) W.(o_parse_text) (json_string W)
    (proof_json W) (report_json W).
Definition conclude := conclude_work config (job_to_json W) (job_from_json W).
Definition retry_one :=
  retry_result config (job_to_json W) (job_from_json W) (task_from_json W)
    (value_from_json W) proof_from_value.
Definition results_pass :=
  retry_results_pass config (job_to_json W) (job_from_json W) (task_from_json W)
    (value_from_json W) proof_from_value.
Definition pcs_task :=
  try_build_and_deliver config W.(o_core) W.(o_describe) W.(o_status_text) W.(o_parse_text)
    W.(o_sha256) W.(o_hex) W.(o_b64_encode) (job_to_json W) (pcs_to_json W)
    (value_from_json W).
Definition pcs_pass :=
  retry_pass config W.(o_core) W.(o_describe) W.(o_status_text) W.(o_parse_text)
    W.(o_sha256) W.(o_hex) W.(o_b64_encode) (job_to_json W) (job_from_json W)
    (pcs_to_json W) (value_from_json W).
End handlers.
