(* ===== verification/System.v ===== *)
(** * The system: all handlers over the shared state

    The node as a transition system: every incoming stream, the three steps of the
    worker's turn, the background loops, statement failures, crashes and restarts,
    in any order.  A handler that waits (a dispatch between its lookup and its
    insertion, a PCS task while it builds, sends or looks for a proof) lets other
    steps run in the meantime.  A crash in the middle of a step leaves the database
    of a step whose remaining statements fail, so failing statements and restarts
    cover it. *)

From S2P Require Import Prelude Bytes F64 FloatText Models Features MemoryBudget Validation GoJson.
From S2P Require Import Wire WorkLedger Pcs Table Storage CoreClient Config State AcceptTask.
From S2P Require Import Stream Cas SampleJson PcsOutbox PcsHandlers ResultJson ResultOutbox Ports.
From S2P Require Import Operator Geo Bid Host Worker Frame Turn Node Serde Codec Messages Intake Program.

(** ** Steps *)

Section system.
Context (W : Outside).

(** [h] is what the node may do while a handler waits. *)
Definition within (run : AppState -> AppState -> Prop) (h : AppState -> AppState) : Prop :=
  forall s, run s (h s).
Definition build_within (run : AppState -> AppState -> Prop) (env : BuildEnv) : Prop :=
  within run env.(be_during_build) /\ within run env.(be_during_send).

(** The steps that leave the tasks alone; [run] is what other tasks do while one
    waits. *)
Inductive aside (run : AppState -> AppState -> Prop)
  : AppState -> AppState -> Prop :=
| aside_announcement orch peer env payload s r s' w :
    on_announcement W orch peer env payload s = (r, s', w) -> aside run s s'
| aside_gossip env payload s r s' w :
    on_gossip W env payload s = (r, s', w) -> aside run s s'
| aside_open_call orch peer payload sysinfo now ios s r s' w :
    on_open_call W orch peer payload sysinfo now ios s = (r, s', w) -> aside run s s'
| aside_pcs_request orch peer during payload s r s' es :
    within run during ->
    on_pcs_request W orch peer during payload s = (r, s', es) -> aside run s s'
| aside_pcs_task env pubkey sub_task_id job s r s' es :
    build_within run env ->
    pcs_task W env s pubkey sub_task_id job = (r, s', es) -> aside run s s'
| aside_pcs_pass env now ttl s s' es :
    (forall e, build_within run (env e)) ->
    pcs_pass W env now ttl s = (s', es) -> aside run s s'
| aside_host s r s' acts :
    start_host W.(o_config) W.(o_valid_multiaddr) s = (r, s', acts) -> aside run s s'
| aside_world s fs now : aside run s (with_store (mkStore s.(store).(db) fs now) s).

(** The worker's write of the status survives the faults, or it need not
    ([lossy]). *)
Definition status_kept (lossy : bool) (s : AppState) : Prop :=
  lossy = true \/ status_survives s.(store).(faults) = true.

(** The task of a dispatch whose lookup found nothing, at whatever moment before: its
    budget is of the ledger of that moment, of which it is known what holds of every
    ledger of the node ([ni_ledger]). *)
Definition dispatched (task : ComputeTask) : Prop :=
  exists payload m key l now_ms,
    dispatch_from_json W payload = Some m /\ W.(o_config).(orchestrator_public_key) = Some key
    /\ ledger_ok l /\ in_u64 now_ms
    /\ task = task_of W.(o_config) (into_compute_request m.(sub_task) W.(o_config).(peer_id)) key
         (budget_of l m.(sub_task).(st_parent_task_id)) now_ms.

(** One step.  A crash at any time is followed by a restart from the database; the
    clock moves and statements may fail at any time ([aside_world]).  Whether the
    worker may end a task without writing its status is [lossy].  A dispatch is one
    step with what runs between its lookup and its insertion, or only the insertion,
    the lookup having found nothing at whatever moment before.  A pass of the retry
    loop over the results is a step per result, of whatever listing. *)
Inductive turn (lossy : bool) (run : AppState -> AppState -> Prop) : AppState -> AppState -> Prop :=
| turn_aside s s' : aside run s s' -> turn lossy run s s'
| turn_dispatch s others orch peer payload now_ms r s' :
    within run others -> in_u64 now_ms ->
    on_dispatch W others orch peer payload now_ms s = (r, s') -> turn lossy run s s'
| turn_insert s task r s' :
    dispatched task -> insert W task s = (r, s') -> turn lossy run s s'
| turn_begin s env s' es :
    s.(at_work) = None -> begin W env s = Some (s', es) -> turn lossy run s s'
| turn_report s s' : status_kept lossy s -> report W s = Some s' -> turn lossy run s s'
| turn_conclude s io s' es : conclude W io s = Some (s', es) -> turn lossy run s s'
| turn_retry s io entry s' es : retry_one W io s entry = (s', es) -> turn lossy run s s'
| turn_prune s now retention_secs : turn lossy run s (run_prune now retention_secs s)
| turn_restart s fs health s' :
    start_node (task_from_json W) health (mkStore s.(store).(db) fs s.(store).(clock))
      = Running s' -> turn lossy run s s'.

(** Steps with at most [depth] tasks waiting inside one another. *)
Fixpoint node_step (lossy : bool) (depth : nat) : AppState -> AppState -> Prop :=
  turn lossy (match depth with O => eq | S depth => rtc (node_step lossy depth) end).

(** Every state the node can be in; [lossy] when the worker may have ended a task
    without writing its status since the last restart. *)
Inductive reachable : bool -> AppState -> Prop :=
| reach_init lossy health s :
    start_node (task_from_json W) health (mkStore empty_db [] 0) = Running s ->
    reachable lossy s
| reach_step lossy depth s s' :
    reachable lossy s -> node_step lossy depth s s' -> reachable lossy s'
| reach_restart lossy s fs health s' :
    reachable true s ->
    start_node (task_from_json W) health (mkStore s.(store).(db) fs s.(store).(clock))
      = Running s' -> reachable lossy s'.
End system.

(** ** What the node relies on

    Of third-party code: the texts of JSON, and that [HashMap::values] walks over the
    entries.  Of the configuration: that its strings are UTF-8, its margin a binary64
    number, and what [from_env] checks of it ([Env.configuration_is_wellformed]). *)

Record outside_ok (W : Outside) : Prop := {
  oo_text : json_text_spec W.(o_print) W.(o_parse);
  oo_values : forall A (m : gmap string A), W.(o_values) A m ≡ₚ snd <$> map_to_list m;
  oo_peer : valid_utf8_chars W.(o_config).(peer_id) = true;
  oo_key : forall k, W.(o_config).(orchestrator_public_key) = Some k -> valid_utf8_chars k = true;
  oo_policy : forall r, W.(o_config).(tn_rates) = Some r ->
    policy_wf (bid_policy W.(o_config) r) /\ margin_ok W.(o_config).(work_budget_margin)
}.

(** ** Invariant *)

(** The task's row is there and pending. *)
Definition has_pending_row (s : AppState) (t : ComputeTask) : Prop :=
  exists d c, tasks_of s !! task_key t = Some (d, c) /\ d.(status) = "pending".

(** The tasks the node works on: the one wqc-core computed or computes, and those
    in the queue. *)
Definition in_work (s : AppState) : list ComputeTask :=
  match s.(at_work) with Some (Computed t _) => t :: s.(queue) | _ => s.(queue) end.
(** A task that is done and whose result is on its way still counts. *)
Definition on_its_way (s : AppState) : nat :=
  match s.(at_work) with Some (Reporting _ _ _) => 1 | _ => 0 end.

(** No pending row is without its task. *)
Definition nothing_forgotten (s : AppState) : Prop :=
  forall k d c, tasks_of s !! k = Some (d, c) -> d.(status) = "pending" ->
    k ∈ task_key <$> in_work s.

Record node_inv (lossy : bool) (task_from_json : string -> option ComputeTask) (s : AppState)
  : Prop := {
  ni_wf : db_wf s.(store).(db);
  ni_coherent : coherent task_from_json (tasks_of s);
  ni_once : NoDup (task_key <$> in_work s);
  ni_rows : Forall (has_pending_row s) (in_work s);
  ni_count : s.(pending_tasks) = as_u64 (Z.of_nat (length (in_work s) + on_its_way s));
  ni_alive : s.(receiver_alive) = true;
  ni_ledger : ledger_ok s.(work_ledger);
  ni_pending : lossy = true \/ nothing_forgotten s
}.

(** ** Lemmas *)

Lemma start_db fj health st s :
  start_node fj health st = Running s ->
  s.(store).(db) = st.(db) /\ s.(at_work) = None.
Proof.
  unfold start_node. destruct (get_pending_tasks _ _) as [[ts|e] st'] eqn:E; [|done].
  apply get_pending_spec in E as [Hdb _]. set (s0 := mkAppState _ _ _ _ _ _ _ _ _ _).
  pose proof (restore_spec ts s0 eq_refl) as [Hr _].
  destruct (restore ts s0) as [s1|] eqn:E1; [|done]. intros [= <-].
  destruct Hr as (_ & _ & -> & _). apply restore_work in E1 as ->.
  by rewrite <- Hdb, <- (count_results_db st').
Qed.

(** The queue a restart fills, row by row. *)
Lemma start_queue fj health st s :
  db_wf st.(db) -> coherent fj (a_tasks (abs st.(db))) ->
  start_node fj health st = Running s ->
  s.(store).(db) = st.(db) /\ s.(receiver_alive) = true /\ s.(at_work) = None /\
  s.(pending_tasks) = as_u64 (Z.of_nat (length s.(queue))) /\
  task_key <$> s.(queue) = row_key <$> pending_rows st.(db) /\
  Forall (has_pending_row s) s.(queue) /\ ledger_ok s.(work_ledger).
Proof.
  intros Hwf Hc Hs. pose proof (start_db fj health st s Hs) as [Hdb Hw]. revert Hs. unfold start_node.
  destruct (get_pending_tasks fj st) as [[ts|e] st'] eqn:E; [|done].
  apply get_pending_spec in E as [_ Hts]. specialize (Hts _ eq_refl).
  set (s1 := mkAppState _ _ _ _ _ _ _ _ _ _).
  destruct (restore_spec ts s1 eq_refl) as [H _].
  destruct (restore ts s1) as [s0|] eqn:Erest; [|done]. intros [= <-].
  destruct H as (_ & Hq & _ & Hp & Ha & _). cbn in Hq, Hp. rewrite Hq, Hp.
  assert (Hrows : Forall2 (fun row t => row_key row = task_key t /\ has_pending_row s0 t
    /\ budget_nonneg t.(budget)) (pending_rows st.(db)) ts).
  { eapply Forall2_impl; [by apply Forall2_in_l|]. intros row t [Hr Ht].
    destruct (pending_row_facts fj _ _ _ Hwf Hc Hr Ht) as (Hv & Hk & Hs & Hb).
    split_and!; [done| |done]. unfold has_pending_row, tasks_of. rewrite Hdb, Hk. eauto. }
  split_and!; [done..| | |].
  - clear -Hrows. induction Hrows as [|? ? ? ? [Hk _] _ IH]; [done|]. cbn. by rewrite Hk, IH.
  - clear -Hrows. induction Hrows as [|? ? ? ? (_ & Hk & _) _ IH]; by constructor.
  - apply restore_ledger in Erest; [done| |apply empty_ledger_ok].
    clear -Hrows. induction Hrows as [|? ? ? ? (_ & _ & Hk) _ IH]; by constructor.
Qed.

Lemma start_inv lossy fj health st s :
  db_wf st.(db) -> coherent fj (a_tasks (abs st.(db))) ->
  start_node fj health st = Running s -> node_inv lossy fj s.
Proof.
  intros Hwf Hc Hs.
  apply (start_queue fj) in Hs as (Hdb & Ha & Hw & Hp & Hk & Hrows & Hl); [|done..].
  split; unfold in_work, on_its_way, tasks_of; rewrite ?Hw, ?Hdb, ?Nat.add_0_r; auto.
  - rewrite Hk, pending_rows_perm. apply NoDup_fmap_filter. apply Hwf.
  - right. intros k d c. unfold tasks_of, in_work. rewrite Hw, Hdb, Hk, pending_rows_perm.
    intros (r & Hr & <- & <- & _)%view_lookup Hst; [|apply Hwf]. apply list_elem_of_fmap_2.
    apply list_elem_of_In, filter_In. split; [by apply list_elem_of_In|by apply bool_decide_eq_true].
Qed.

Lemma forgotten_mono lossy s s' :
  tasks_of s' ⊆ tasks_of s -> in_work s ⊆ in_work s' ->
  lossy = true \/ nothing_forgotten s -> lossy = true \/ nothing_forgotten s'.
Proof.
  intros Ht Hw [H|H]; [by left|right]. intros k d c Hk Hst.
  assert (k ∈ task_key <$> in_work s) as (t & -> & Hin)%list_elem_of_fmap
    by (eapply H; [by eapply lookup_weaken|done]).
  by apply list_elem_of_fmap_2, Hw.
Qed.

(** What changes neither the tasks' rows nor what is in work. *)
Lemma inv_same lossy fj s s' :
  db_wf s'.(store).(db) -> tasks_of s' = tasks_of s -> in_work s' = in_work s ->
  s'.(pending_tasks) = as_u64 (s.(pending_tasks) + Z.of_nat (on_its_way s') - Z.of_nat (on_its_way s)) ->
  s'.(receiver_alive) = s.(receiver_alive) ->
  (ledger_ok s.(work_ledger) -> ledger_ok s'.(work_ledger)) ->
  node_inv lossy fj s -> node_inv lossy fj s'.
Proof.
  intros Hwf Ht Hw Hp Ha Hl [H1 H2 H3 H4 H5 H6 HL H7].
  split; [..|apply (forgotten_mono _ s); by rewrite ?Ht, ?Hw];
    unfold has_pending_row in *; rewrite ?Ht, ?Hw, ?Ha; try done; [|by apply Hl].
  rewrite Hp, H5. unfold as_u64. rewrite <- Z.add_sub_assoc, Zplus_mod_idemp_l. f_equal. lia.
Qed.

Lemma inv_kept lossy fj s s' :
  db_wf s'.(store).(db) -> tasks_of s' = tasks_of s -> s'.(queue) = s.(queue) ->
  s'.(pending_tasks) = s.(pending_tasks) -> s'.(receiver_alive) = s.(receiver_alive) ->
  s'.(at_work) = s.(at_work) -> (ledger_ok s.(work_ledger) -> ledger_ok s'.(work_ledger)) ->
  node_inv lossy fj s -> node_inv lossy fj s'.
Proof.
  intros Hwf Ht Hq Hp Ha Hw Hl Hinv.
  apply (inv_same lossy fj s); unfold in_work, on_its_way; rewrite ?Hw, ?Hq; try done.
  rewrite Hp, (ni_count _ _ _ Hinv). unfold as_u64. rewrite <- Z.add_sub_assoc, Zplus_mod_idemp_l.
  f_equal. lia.
Qed.

Lemma taken_in_inv lossy tj fj task s s' :
  reads_back tj fj task -> budget_nonneg task.(budget) ->
  taken_in tj task s s' -> node_inv lossy fj s -> node_inv lossy fj s'.
Proof.
  intros Hjson Hbud ((j & Hj & Hn & Hwf & _ & Ha) & Hp & Hled & Hq & Hal & _ & _ & _ & _ & Hst)
    [H1 H2 H3 H4 H5 H6 HL H7].
  assert (Ht : tasks_of s' = <[task_key task := (mkTaskData j "pending", clock (store s))]> (tasks_of s))
    by (unfold tasks_of; by rewrite Ha).
  assert (Hw : in_work s' = in_work s ++ [task])
    by (unfold in_work; rewrite Hst, Hq; by destruct (at_work s) as [[]|]).
  assert (Hfresh : forall t, t ∈ in_work s -> task_key t <> task_key task).
  { intros t Hin Heq. eapply Forall_forall in H4 as (d & c & Hd & _); [|exact Hin].
    rewrite Heq in Hd. unfold tasks_of in Hd. congruence. }
  split.
  - done.
  - rewrite Ht. apply map_Forall_insert_2; [|done]. exists task.
    split_and!; [by apply Hjson|done..].
  - rewrite Hw, fmap_app. apply NoDup_app. split_and!; [done| |apply NoDup_singleton].
    intros k (t & -> & Hin)%list_elem_of_fmap Hk. apply list_elem_of_singleton in Hk.
    by apply (Hfresh t).
  - rewrite Hw. apply Forall_app. split.
    + apply Forall_forall. intros t Hin. pose proof (Hfresh t Hin) as Hne.
      eapply Forall_forall in H4 as (d & c & Hd & Hs); [|exact Hin]. exists d, c. split; [|done].
      by rewrite Ht, lookup_insert_ne by congruence.
    + constructor; [|constructor]. eexists _, _. rewrite Ht, lookup_insert_eq. by split.
  - rewrite Hp, H5, Hw, length_app. unfold on_its_way, as_u64. rewrite Hst, Zplus_mod_idemp_l.
    f_equal. cbn. lia.
  - by rewrite Hal.
  - rewrite Hled. by apply hold_ok.
  - destruct H7 as [H7|H7]; [by left|right]. intros k d c.
    rewrite Ht, Hw, fmap_app, elem_of_app. intros Hk Hs.
    destruct (decide (k = task_key task)) as [->|Hne]; [right; by left|left].
    rewrite lookup_insert_ne in Hk by congruence. by eapply H7.
Qed.

Lemma elsewhere_inv lossy fj s s' : elsewhere s s' -> node_inv lossy fj s -> node_inv lossy fj s'.
Proof.
  intros (H & ? & ? & ? & ? & ?) Hinv. destruct (H (ni_wf _ _ _ Hinv)). by apply (inv_kept lossy fj s).
Qed.

Lemma same_elsewhere s s' : same_but_faults s s' -> elsewhere s s'.
Proof. intros (Hd & _ & Hl & Hp & Hq & Ha & _ & _ & _ & _ & Hw). by apply elsewhere_same_db. Qed.

Lemma same_but_faults_inv lossy fj s s' :
  same_but_faults s s' -> node_inv lossy fj s -> node_inv lossy fj s'.
Proof. intros H%same_elsewhere. by apply elsewhere_inv. Qed.

Lemma prune_op z s r s' :
  on_store (prune_terminal_tasks z) s = (r, s') ->
  on_store (run_op (OpPrune z)) s = ((fun _ => tt) <$> r, s').
Proof. intros (st & E & ->)%on_store_eq. unfold on_store. cbn [run_op]. by rewrite E. Qed.

Lemma prune_inv lossy fj now retention s :
  node_inv lossy fj s -> node_inv lossy fj (run_prune now retention s).
Proof.
  intros Hinv. pose proof Hinv as [H1 H2 H3 H4 H5 H6 HL H7]. unfold run_prune.
  destruct (on_store _ s) as [r s1] eqn:E. cbn [snd]. set (z := prune_cutoff now retention) in *.
  apply on_store_eq in E as (st & E & ->). destruct r as [n|e].
  2: { apply stmt_Err in E as (Hd & _). eapply elsewhere_inv; [|done].
       by apply elsewhere_same_db. }
  assert (E' : run_op (OpPrune z) (store s) = (Ok tt, st)) by (cbn [run_op]; by rewrite E).
  apply run_op_Ok in E' as [Hwf Ha]; [|done..].
  assert (Ht : tasks_of (with_store st s)
    = filter (kept_by_prune z (abs (db (store s)))) (tasks_of s))
    by (unfold tasks_of; cbn [with_store store]; by rewrite Ha).
  split; [..|apply (forgotten_mono _ s); [rewrite Ht; apply map_filter_subseteq|done..]];
    try done.
  - rewrite Ht. by apply map_Forall_filter_sub.
  - eapply Forall_impl; [exact H4|]. intros t (d & c & Hd & Hs). exists d, c.
    split; [|done]. rewrite Ht. apply map_lookup_filter_Some. split; [done|].
    unfold kept_by_prune. cbn. rewrite Hs. by intros [[[=]|[=]] _].
Qed.

(** *** The worker's steps *)

Section worker_inv.
Context (config : NodeConfig) (core_cfg : CoreConfig).
Context (describe : HttpError -> string) (status_text : Z -> string) (parse_text : string).
Context (json_string : string -> text) (proof_json : Proof -> text) (report_json : WorkReport -> text).
Context (tj : PendingPcsJob -> option bytes) (fj : bytes -> option PendingPcsJob).
Context (lossy : bool) (tfj : string -> option ComputeTask).

Lemma begin_inv env s s' es :
  s.(at_work) = None -> begin_work config core_cfg env s = Some (s', es) ->
  node_inv lossy tfj s -> node_inv lossy tfj s'.
Proof.
  intros Hfree (task & rest & o & Hq & Hw & Hq' & Hst & Hp & Ha & Hl)%begin_spec Hinv.
  apply (inv_same lossy tfj s); unfold tasks_of, in_work, on_its_way;
    rewrite ?Hst, ?Hw, ?Hfree, ?Hq, ?Hq'; try done; [apply Hinv|].
  rewrite Hp, (ni_count _ _ _ Hinv). unfold on_its_way, as_u64. rewrite Hfree.
  rewrite <- Z.add_sub_assoc, Zplus_mod_idemp_l. f_equal. cbn. lia.
Qed.

Lemma report_inv s s' :
  status_kept lossy s ->
  report_work config describe status_text parse_text json_string proof_json report_json s = Some s' ->
  node_inv lossy tfj s -> node_inv lossy tfj s'.
Proof.
  intros Hk H Hinv. pose proof Hinv as [H1 H2 H3 H4 H5 H6 HL H7].
  destruct (at_work s) as [[task o|]|] eqn:Hw; [|unfold report_work in H; by rewrite Hw in H..].
  assert (Hset : lossy = true \/ settled_at (task_key task) (tasks_of s'))
    by (destruct Hk; [by left|right; by eapply report_settles]).
  apply (report_spec _ _ _ _ _ _ _ _ _ task o) in H as (Hwf & Hf & Hq & Ha & Hend & Hl); [|done..].
  assert (Hw' : in_work s' = s.(queue) /\ s'.(pending_tasks) = as_u64 (Z.of_nat
    (length s.(queue) + on_its_way s'))).
  { unfold in_work, on_its_way in *. rewrite Hw in H5.
    destruct Hend as [(p & w & -> & ->)|[-> ->]]; (split; [done|]); rewrite H5; unfold as_u64;
      [|rewrite Zplus_mod_idemp_l]; f_equal; cbn; lia. }
  destruct Hw' as [Hw' Hp']. unfold in_work in H3, H4. rewrite Hw in H3, H4. cbn in H3.
  apply NoDup_cons in H3 as [Hfresh H3]. apply Forall_cons in H4 as [_ H4].
  split; rewrite ?Hw', ?Ha; try done.
  - by eapply rows_follow_coherent.
  - apply Forall_forall. intros t Hin. eapply Forall_forall in H4 as (d & c & Hd & Hs); [|exact Hin].
    exists d, c. split; [|done]. rewrite (proj1 Hf); [done|]. intros Heq. apply Hfresh.
    rewrite <- Heq. by apply list_elem_of_fmap_2.
  - by apply Hl.
  - destruct H7 as [H7|H7]; [by left|]. destruct Hset as [Hset|Hset]; [by left|right].
    intros k d c Hkd Hs. destruct (decide (k = task_key task)) as [->|Hne].
    { by destruct (Hset d c Hkd). }
    rewrite (proj1 Hf) in Hkd by done. specialize (H7 k d c Hkd Hs). unfold in_work in H7.
    rewrite Hw in H7. rewrite Hw'. by apply elem_of_cons in H7 as [?|?].
Qed.

Lemma conclude_inv io s s' es :
  conclude_work config tj fj io s = Some (s', es) -> node_inv lossy tfj s -> node_inv lossy tfj s'.
Proof.
  intros H Hinv. destruct (at_work s) as [[|task p w]|] eqn:Hw;
    [unfold conclude_work in H; by rewrite Hw in H| |unfold conclude_work in H; by rewrite Hw in H].
  apply (conclude_spec _ _ _ _ _ _ _ task p w) in H as (Hwf & Ht & Hw' & Hq & Ha & Hp & Hl);
    [|apply Hinv|done].
  apply (inv_same lossy tfj s); unfold in_work, on_its_way; rewrite ?Hw, ?Hw', ?Hq; try done.
  rewrite Hp. f_equal. lia.
Qed.
End worker_inv.

(** What an incoming dispatch did to the state, whatever it answers. *)
Definition dispatch_path (W : Outside) (others : AppState -> AppState)
  (s s' : AppState) : Prop :=
  let tj := task_to_json W in
  same_but_faults s s' \/
  exists task s1, (ledger_ok s.(work_ledger) -> dispatched W task) /\ same_but_faults s s1 /\
    (same_but_faults (others s1) s' \/ taken_in tj task (others s1) s'
     \/ turned_away tj task (others s1) s').

Section system_lemmas.
Context (W : Outside).
Hypothesis Hout : outside_ok W.

Lemma dispatch_spec others orch peer payload now_ms s r s' :
  (forall s1, db_wf s1.(store).(db) -> db_wf (others s1).(store).(db)) ->
  db_wf s.(store).(db) -> in_u64 now_ms ->
  on_dispatch W others orch peer payload now_ms s = (r, s') -> dispatch_path W others s s'.
Proof.
  intros Hoth Hwf Hnow. unfold on_dispatch, on_dispatch_stream, handle_dispatch_stream.
  assert (Hid : forall e, (Err e, s) = (r, s') -> dispatch_path W others s s')
    by (intros e [= _ <-]; by left).
  destruct (decide _); [|apply Hid]. destruct (dispatch_from_json W payload) as [m|] eqn:Hm; [|apply Hid].
  destruct (orchestrator_public_key _) as [key|] eqn:Hk; [|apply Hid].
  destruct (verify_dispatch_signature _ _ _ _ _ _ _ _ _); [|apply Hid].
  destruct (accept_compute_task _ _ _ _ _ _ _ _ _ _ _) as [r0 s0] eqn:E. intros [= _ <-].
  apply accept_spec in E; [|done..]. set (task := task_of _ _ _ _ _) in E.
  assert (Ht : ledger_ok s.(work_ledger) -> dispatched W task)
    by (intros Hl; by exists payload, m, key, s.(work_ledger), now_ms).
  clearbody task. destruct r0 as [[]|[]]; cbn in E; unfold dispatch_path; naive_solver.
Qed.

(** What the messages are read as. *)
Lemma dispatched_storable task :
  dispatched W task -> reads_back (task_to_json W) (task_from_json W) task
  /\ budget_nonneg task.(budget).
Proof.
  intros (payload & m & key & l & now_ms & Hm & Hkey & Hl & Hnow & ->). destruct Hout.
  assert (Hbud : bud_fine (budget_of l m.(sub_task).(st_parent_task_id)))
    by (destruct (budget_of _ _) as [b|] eqn:Hb; [by eapply budget_of_fine|done]).
  split.
  - intros j Hj. eapply (from_to_string W.(o_print) W.(o_parse) oo_text0 compute_task_codec); [|exact Hj].
    apply (from_slice_ok W.(o_print) W.(o_parse) oo_text0) in Hm; [|apply _|by apply Nat.leb_le].
   
    apply dispatch_sub_task_ok in Hm. unfold JSON_DEPTH. apply task_ok; auto.
  - cbn. destruct (budget_of _ _) as [b|]; [|done]. by destruct Hbud as (_ & ? & _).
Qed.

Lemma bids_sound : bid_assumptions W.(o_config) W.(o_values) (announcement_from_json W).
Proof.
  destruct Hout. split; [done..|]. intros b m Hm.
  apply (from_slice_ok W.(o_print) W.(o_parse) oo_text0) in Hm; [|apply _|by apply Nat.leb_le].
   
  by eapply announcement_ok_wf.
Qed.

(** What no step outside the tasks can break, and the tasks that run in the
    meantime keep, such a step keeps. *)
Lemma aside_kept (I : AppState -> Prop) run s s' :
  (forall t t', elsewhere t t' -> I t -> I t') ->
  (forall t t', run t t' -> I t -> I t') -> aside W run s s' -> I s -> I s'.
Proof.
  intros HI Hrun. assert (Hh : forall h, within run h -> kept_by I h)
    by (intros h Hh t; apply Hrun, Hh).
  assert (He : forall env, build_within run env -> kept_by_env I env)
    by (intros env [? ?]; by split; apply Hh).
  destruct 1 as [orch peer env payload s r s' w H|env payload s r s' w H
    |orch peer payload si now ios s r s' w H|orch peer during payload s r s' es Hd H
    |env pubkey id job s r s' es Hd H|env now ttl s s' es Hd H|s r s' acts H|s fs now].
  - eapply (announce_kept I HI); [exact bids_sound|exact H].
  - eapply HI, announcement_elsewhere; [exact bids_sound|exact H].
  - eapply (open_stream_kept I HI). exact H.
  - eapply (request_stream_kept I HI); [by apply Hh|exact H].
  - eapply (try_build_kept I HI); [by apply He|exact H].
  - eapply (retry_pass_kept I HI); [intros e; by apply He|exact H].
  - apply HI. unfold start_host in H.
    destruct (orchestrator_peer_id _); simplify_eq; by apply elsewhere_same_db.
  - apply HI. by apply elsewhere_same_db.
Qed.

(** The database stays well-formed. *)
Definition node_wf (s : AppState) : Prop := db_wf s.(store).(db).

Lemma insert_spec task s r s' :
  node_wf s -> insert W task s = (r, s') ->
  same_but_faults s s' \/ taken_in (task_to_json W) task s s'
  \/ turned_away (task_to_json W) task s s'.
Proof.
  intros Hwf H. apply save_new_task_spec in H; [|done].
  destruct r as [u|[]]; naive_solver.
Qed.

Lemma retry_spec io entry s s' es :
  node_wf s -> retry_one W io s entry = (s', es) -> elsewhere s s'.
Proof.
  intros Hwf H. pose proof H as [Hwf' _]%retry_result_spec; [|done].
  apply retry_result_tasks in H as [Ht (Hl & ? & ? & ? & _ & _ & _ & ?)]; [|done].
  split_and!; try done. by rewrite Hl.
Qed.

Lemma turn_wf lossy run s s' :
  (forall t t', run t t' -> node_wf t -> node_wf t') -> turn W lossy run s s' ->
  node_wf s -> node_wf s'.
Proof.
  intros Hrun Hturn. unfold node_wf.
  destruct Hturn as [s s' H|s others orch peer payload now r s' Hoth Hnow H|s task r s' Hd H
    |s env s' es Hfree H|s s' _ H|s io s' es H|s io e s' es H|s now retention
    |s fs health s' H]; intros Hwf.
  - eapply (aside_kept node_wf); [intros t t' [He _] Ht; by apply He|exact Hrun|exact H|done].
  - assert (Ho : forall t, db_wf t.(store).(db) -> db_wf (others t).(store).(db))
      by (intros t; apply (Hrun _ _ (Hoth t))).
    apply dispatch_spec in H as [Hs|(task & s1 & _ & Hs1 & H)]; [by rewrite (same_db _ _ Hs)| |done..].
    rewrite <- (same_db _ _ Hs1) in Hwf. apply Ho in Hwf.
    destruct H as [Hs|[((j & _ & _ & ? & _) & _)|((j & _ & _ & ? & _) & _)]]; try done.
    by rewrite (same_db _ _ Hs).
  - apply insert_spec in H as [Hs|[((j & _ & _ & ? & _) & _)|((j & _ & _ & ? & _) & _)]]; try done.
    by rewrite (same_db _ _ Hs).
  - apply begin_spec in H as (_ & _ & _ & _ & _ & _ & -> & _). done.
  - destruct (at_work s) as [[task o|]|] eqn:Hw;
      [|unfold report, report_work in H; by rewrite Hw in H..].
    by eapply report_spec in H as (? & _).
  - destruct (at_work s) as [[|task p w]|] eqn:Hw;
      [unfold conclude, conclude_work in H; by rewrite Hw in H|
       |unfold conclude, conclude_work in H; by rewrite Hw in H].
    by eapply conclude_spec in H as (? & _).
  - apply retry_spec in H as [He _]; [|done]. by apply He.
  - unfold run_prune. destruct (on_store _ s) as [r s1] eqn:E. cbn [snd].
    by apply prune_op, on_store_run in E as [? _].
  - apply start_db in H as [-> _]. done.
Qed.

(** What every turn keeps if the steps inside it do, every step keeps. *)
Lemma step_kept lossy (P : AppState -> Prop) :
  (forall run s s', (forall t t', run t t' -> node_wf t -> node_wf t') ->
     (forall t t', run t t' -> P t -> P t') -> turn W lossy run s s' -> P s -> P s') ->
  forall depth s s', node_step W lossy depth s s' -> P s -> P s'.
Proof.
  intros HP.
  assert (Hrtc : forall (R : AppState -> AppState -> Prop) (Q : AppState -> Prop),
    (forall t t', R t t' -> Q t -> Q t') -> forall t t', rtc R t t' -> Q t -> Q t')
    by (intros R Q HR t t'; induction 1; eauto).
  induction depth as [|depth IH]; intros s s' H; cbn [node_step] in H.
  - by eapply HP; [| |exact H]; intros t t' <-.
  - eapply HP; [| |exact H]; apply Hrtc; [|done].
    clear IH H s s'. induction depth as [|depth IH]; intros s s' H; cbn [node_step] in H.
    + by eapply turn_wf; [|exact H]; intros t t' <-.
    + eapply turn_wf; [|exact H]. by apply Hrtc.
Qed.

Lemma turn_inv lossy run s s' :
  (forall t t', run t t' -> node_wf t -> node_wf t') ->
  let inv := node_inv lossy (task_from_json W) in
  (forall t t', run t t' -> inv t -> inv t') ->
  turn W lossy run s s' -> inv s -> inv s'.
Proof.
  intros Hwfs inv Hrun Hturn. subst inv.
  assert (Hnew : forall task t t', dispatched W task -> node_inv lossy (task_from_json W) t ->
    same_but_faults t t' \/ taken_in (task_to_json W) task t t'
    \/ turned_away (task_to_json W) task t t' -> node_inv lossy (task_from_json W) t').
  { intros task t t' [Hback Hbud]%dispatched_storable Hinv [Hs|[H|(_ & Hdead & _)]].
    - by eapply same_but_faults_inv.
    - by eapply taken_in_inv.
    - pose proof (ni_alive _ _ _ Hinv). congruence. }
  destruct Hturn as [s s' H|s others orch peer payload now r s' Hoth Hnow H|s task r s' Hd H
    |s env s' es Hfree H|s s' Hk H|s io s' es H|s io e s' es H|s now retention
    |s fs health s' H]; intros Hinv.
  - eapply (aside_kept (node_inv lossy (task_from_json W)));
      [intros t t'; apply elsewhere_inv|exact Hrun|exact H|done].
  - apply dispatch_spec in H as [Hs|(task & s1 & Hd & Hs1 & H)];
      [by eapply same_but_faults_inv| |intros t; apply (Hwfs _ _ (Hoth t))|apply Hinv|done].
    specialize (Hd (ni_ledger _ _ _ Hinv)).
    apply (same_but_faults_inv _ _ s s1) in Hinv; [|done]. apply (Hrun _ _ (Hoth s1)) in Hinv.
    by eapply Hnew.
  - apply insert_spec in H; [|apply Hinv]. by eapply Hnew.
  - by eapply begin_inv.
  - by eapply report_inv.
  - by eapply conclude_inv.
  - eapply elsewhere_inv; [|done]. eapply retry_spec; [apply Hinv|done].
  - by apply prune_inv.
  - destruct Hinv. by apply (start_inv _ _ health (mkStore s.(store).(db) fs s.(store).(clock))).
Qed.

(** A pass over the results is the listing, which only takes its turn of the
    faults, and a step per entry. *)
Lemma results_pass_in_steps lossy run io s s' es :
  results_pass W io s = (s', es) -> rtc (turn W lossy run) s s'.
Proof.
  unfold results_pass, retry_results_pass.
  destruct (on_store list_pending_results s) as [r s1] eqn:E.
  apply on_store_eq in E as (st & E & ->).
  pose proof (query_db _ _ _ _ E) as Hdb. pose proof (query_clock _ _ _ _ E) as Hck.
  assert (Hlist : turn W lossy run s (with_store st s)).
  { apply turn_aside. destruct st as [d fs now]. cbn in Hdb, Hck. subst. apply aside_world. }
  destruct r as [entries|e]; [|intros [= <- _]; by apply rtc_once].
  intros H. eapply rtc_l; [exact Hlist|]. revert H. generalize (with_store st s). clear.
  revert s' es. induction entries as [|e entries IH]; intros s' es s; cbn [retry_results].
  { intros [= <- _]. apply rtc_refl. }
  destruct (retry_result _ _ _ _ _ _ (io e) s e) as [s1 es1] eqn:E1.
  destruct (retry_results _ _ _ _ _ _ io s1 entries) as [s2 es2] eqn:E2. intros [= <- _].
  eapply rtc_l; [by eapply (turn_retry _ _ _ s (io e) e)|by eapply IH].
Qed.
End system_lemmas.

(** ** Theorems *)

(** C1. In every state the node can reach, over any interleaving of dispatches, bids,
    open calls, PCS requests and builds, the steps of the worker, retries, pruning,
    statement failures, crashes and restarts, and with other steps running while a
    handler waits: no sub-task is in the queue or computed twice, each of them has
    its row, still pending and reading back as a task of its key, and the count of
    pending tasks is the number of tasks in work and of results on their way.  And
    nothing is forgotten: as long as, since the last restart, one of the worker's
    two writes of each task's final status was carried out (whatever else failed),
    every pending row has its task in work. *)
Theorem reachable_tasks_are_accounted W lossy s :
  outside_ok W -> reachable W lossy s -> node_inv lossy (task_from_json W) s.
Proof.
  intros Hout.
  induction 1 as [lossy health s Hs|lossy depth s s' _ IH Hstep|lossy s fs health s' _ IH Hs].
  - apply (start_inv _ _ health (mkStore empty_db [] 0)); [apply empty_db_wf| |exact Hs].
    apply map_Forall_empty.
  - revert IH. eapply step_kept; [done| |exact Hstep]. intros run t t' Hw Hr. by eapply turn_inv.
  - by eapply start_inv in Hs; [|apply IH..].
Qed.

(** *** Witnesses *)

Definition signed_task : ComputeTask :=
  task_of signing_config (into_compute_request sample_sub_task "peer") toy_key None 1000.
Definition demo_outside : Outside :=
  mkOutside signing_config demo_core ["H"; "<b>"] map_values sample_print sample_parse
    (fun _ => "") (fun _ => "") "" decimal sample_format toy_tag (fun _ => "") (fun _ => "")
    toy_decode toy_sign bytes bytes Some Some toy_verify (fun _ => true).

Lemma demo_outside_ok : outside_ok demo_outside.
Proof.
  split.
  - exact sample_text_spec.
  - intros A m. done.
  - vm_compute. reflexivity.
  - intros k [= <-]. vm_compute. reflexivity.
  - intros r [=].
Qed.

(** The dispatch of the sample sub-task, signed over its own tree's JSON. *)
Definition signed_dispatch : bytes :=
  match serialize_dispatch_payload sample_format (tree_json demo_outside) sample_sub_task with
  | Ok p => default [] (write_json demo_outside task_dispatch_message_codec
      (mkTaskDispatchMessage sample_sub_task (of_bytes (toy_tag p))))
  | Err _ => []
  end.

Definition fresh_node : AppState :=
  mkAppState (mkStore empty_db [] 0) empty_ledger 0 [] true initial_health false ∅ ∅ None.
(** A dispatch, with a pruning between its lookup and its insertion. *)
Definition loaded_node : AppState :=
  (on_dispatch demo_outside (run_prune 1000 60) "orch" "orch" signed_dispatch 1000 fresh_node).2.

Lemma loaded_node_reachable : reachable demo_outside true loaded_node.
Proof.
  eapply (reach_step _ _ 1); [by apply (reach_init _ _ initial_health fresh_node)|].
  eapply (turn_dispatch _ _ _ fresh_node (run_prune 1000 60) "orch" "orch"
    signed_dispatch 1000); [|by vm_compute|apply surjective_pairing].
  intros s. apply rtc_once. apply (turn_prune demo_outside true eq s 1000 60).
Qed.

(** The worker takes the task; both writes of its status fail, and the node
    restarts. *)
Definition busy_node : option AppState :=
  fst <$> begin demo_outside (demo_work true) loaded_node.
Definition faulty (s : AppState) : AppState :=
  with_store (mkStore s.(store).(db) [true; false; true] 1000) s.
Definition stranded_node : option AppState := busy_node ≫= fun s => report demo_outside (faulty s).
Definition running (o : startup) : option AppState :=
  match o with Running s => Some s | _ => None end.
Definition restarted_node : option AppState :=
  stranded_node ≫= fun s =>
    running (start_node (task_from_json demo_outside) initial_health
      (mkStore s.(store).(db) [] s.(store).(clock))).

Lemma running_Some o s : running o = Some s -> o = Running s.
Proof. destruct o; by intros [= ->]. Qed.

Lemma stranded_node_reachable s : stranded_node = Some s -> reachable demo_outside true s.
Proof.
  unfold stranded_node, busy_node. intros (s1 & H1 & H2)%bind_Some.
  apply fmap_Some in H1 as ([s0 es] & H1 & ->). cbn [fst] in H2.
  eapply (reach_step _ _ 0); [eapply (reach_step _ _ 0); [eapply (reach_step _ _ 0)|]|].
  - apply loaded_node_reachable.
  - eapply turn_begin; [|exact H1]. by vm_compute.
  - apply turn_aside, (aside_world _ _ _ [true; false; true] 1000).
  - apply turn_report; [by left|exact H2].
Qed.

Lemma restarted_node_reachable s :
  restarted_node = Some s -> reachable demo_outside false s.
Proof.
  unfold restarted_node. intros (s1 & H1 & H2%running_Some)%bind_Some. revert H2.
  by apply reach_restart, stranded_node_reachable.
Qed.

Lemma reachable_tasks_are_accounted_witness :
  (fun s => (length (in_work s), on_its_way s)) <$> stranded_node = Some (0, 1)%nat /\
  (fun s => bool_decide (s.(queue) = [signed_task])) <$> restarted_node = Some true /\
  forall s, restarted_node = Some s -> node_inv false (task_from_json demo_outside) s.
Proof.
  do 2 (split; [vm_compute; reflexivity|]). intros s Hs.
  apply (reachable_tasks_are_accounted demo_outside false s demo_outside_ok).
  by apply restarted_node_reachable.
Defined.
