(* ===== verification/Overlap.v ===== *)
(** * The tasks of the node side by side

    [System] lets other steps run while a handler waits, one inside the other.  Here
    the waiting tasks are part of the state, each with what it holds: builds at
    wqc-core or at the peer, sleeping PCS requests, results on a stream, dispatches
    between lookup and insertion.  Any of them may go on next, so they overlap in any
    way, and a crash loses them all.  The handlers as whole functions, with what
    others do at their waits as an argument, are ways to take such turns. *)

From S2P Require Import Prelude Bytes F64 FloatText Models Features MemoryBudget Validation GoJson.
From S2P Require Import Wire WorkLedger Pcs Table Storage CoreClient Config State AcceptTask.
From S2P Require Import Stream Cas SampleJson PcsOutbox PcsHandlers ResultJson ResultOutbox Ports.
From S2P Require Import Operator Geo Bid Host Worker Frame Turn Node Serde Codec Messages Intake Program.
From S2P Require Import Stages System.

(** ** Waiting tasks *)

(** A pass of the loop over the jobs: when it started, the time to live, and the
    entries as listed that it has not come to. *)
Record Pass := mkPass { pass_now : Z; pass_ttl : Z; pass_rest : list PendingPcs }.

(** [next] is the row a build of the loop belongs to and what the loop goes on with. *)
Inductive Waiting :=
| AtBuild (pubkey sub_task_id : string) (next : option (Z * Pass)) (stage : BuildStage)
| AtPass (pass : Pass)
| AtLookup (pubkey sub_task_id : string) (attempts : nat)
| AtResults (rest : list PendingResult)
| AtResend (entry : PendingResult) (answer : result StreamError unit) (rest : list PendingResult)
| AtInsert (task : ComputeTask).

Definition Runtime : Type := AppState * list Waiting.

(** What is remembered of a run: what was asked of the outside, the replies that were
    taken for an acknowledgement, and what the retry loops listed. *)
Inductive event :=
| Did (e : effect)
| Replied (sub_task_id : string) (reply : bytes)
| ListedJob (entry : PendingPcs)
| ListedResult (entry : PendingResult).

(** The sub-tasks whose builds are under way. *)
Definition claims (ws : list Waiting) : list string :=
  omap (fun w => match w with AtBuild _ id _ _ => Some id | _ => None end) ws.

Definition waits_at (pubkey sub_task_id : string) (next : option (Z * Pass)) (p : progress)
  : list Waiting :=
  match p, next with
  | Waits stage, _ => [AtBuild pubkey sub_task_id next stage]
  | Ended _, Some (_, pass) => [AtPass pass]
  | Ended _, None => []
  end.
(** The retry loop counts the attempts that failed. *)
Definition counted (next : option (Z * Pass)) (p : progress) (s : AppState) : AppState :=
  match p, next with
  | Ended (Err _), Some (id, _) => (on_store (increment_pending_pcs_attempts id) s).2
  | _, _ => s
  end.

(** What a part of a build adds to it. *)
Definition told (env : BuildEnv) (sub_task_id : string) (p : progress) (es : list effect)
  : list event :=
  match p with
  | Waits (Delivering (Ok _) _ _) => option_list (Replied sub_task_id <$> env.(be_send).(reply))
  | _ => []
  end ++ map Did es.

Section overlap.
Context (W : Outside).
Let config := W.(o_config).

Definition build_begins :=
  begin_build config W.(o_core) W.(o_sha256) W.(o_hex) W.(o_b64_encode) (pcs_to_json W)
    (value_from_json W).
Definition build_resumes :=
  resume_build config W.(o_describe) W.(o_status_text) W.(o_parse_text) (job_to_json W)
    (pcs_to_json W) (value_from_json W).
Definition lookup_resumes := resume_lookup (job_to_json W) (job_from_json W).
Definition open_request := handle_open_call_pcs_request config (job_to_json W).
Definition resend_begins := begin_resend config.
Definition resend_resumes :=
  after_resend (job_to_json W) (job_from_json W) (task_from_json W) (value_from_json W)
    proof_from_value.
Definition dispatch_begins :=
  begin_dispatch config W.(o_gates) (task_from_json W) W.(o_format_finite) (tree_json W)
    W.(o_b64_decode) W.(o_signature_from_slice) W.(o_key_from_bytes) W.(o_verify)
    (dispatch_from_json W).

(** What the loop over the jobs does with an entry, which it takes as it was listed. *)
Definition pass_entry (env : BuildEnv) (s : AppState) (pass : Pass) (entry : PendingPcs)
  : list Waiting * AppState * list event :=
  match job_from_json W entry.(pp_job_json) with
  | None => ([AtPass pass], s, [])
  | Some job =>
    if negb job.(job_requested) then
      if pass.(pass_ttl) <=? pass.(pass_now) - entry.(pp_created_at) then
        ([AtPass pass], (on_store (delete_pending_pcs_by_id entry.(pp_id)) s).2, [])
      else ([AtPass pass], s, [])
    else
      let next := Some (entry.(pp_id), pass) in
      let '(p, s, es) := build_begins env s entry.(pp_sub_task_id) job in
      (waits_at entry.(pp_orchestrator_pubkey) entry.(pp_sub_task_id) next p, counted next p s,
       told env entry.(pp_sub_task_id) p es)
  end.

(** The steps of tasks that are not waiting, up to the next wait, with what they ask
    of the outside.  The worker's own waits are in [at_work].  A bid and an open call
    are one step each, although they wait too (for a location, for wqc-core, for
    their stream): they touch neither the claims nor the rows of the two outboxes. *)
Inductive atom (lossy : bool) : AppState -> list effect -> AppState -> Prop :=
| atom_announcement orch peer env payload s r s' w :
    on_announcement W orch peer env payload s = (r, s', w) -> atom lossy s (map ESend w) s'
| atom_gossip env payload s r s' w :
    on_gossip W env payload s = (r, s', w) -> atom lossy s (map ESend w) s'
| atom_open_call orch peer payload sysinfo now ios s r s' w :
    on_open_call W orch peer payload sysinfo now ios s = (r, s', w) -> atom lossy s (map ESend w) s'
| atom_open_request s pubkey r s' es : open_request s pubkey r = (s', es) -> atom lossy s es s'
| atom_host s r s' acts :
    start_host config W.(o_valid_multiaddr) s = (r, s', acts) -> atom lossy s [] s'
| atom_world s fs now : atom lossy s [] (with_store (mkStore s.(store).(db) fs now) s)
| atom_begin s env s' es : s.(at_work) = None -> begin W env s = Some (s', es) -> atom lossy s es s'
| atom_report s s' : status_kept lossy s -> report W s = Some s' -> atom lossy s [] s'
| atom_conclude s io s' es : conclude W io s = Some (s', es) -> atom lossy s es s'
| atom_prune s now retention_secs : atom lossy s [] (run_prune now retention_secs s).

(** A task starts and comes to its first wait or to its end.  A request is looked up
    and a job is built whoever asked: which requests get there is the handlers'
    matter. *)
Inductive starts : AppState -> list Waiting -> list event -> AppState -> Prop :=
| start_build env pubkey id job s p s' es :
    build_begins env s id job = (p, s', es) ->
    starts s (waits_at pubkey id None p) (told env id p es) (counted None p s')
| start_pass now ttl s entries s' :
    on_store list_pending_pcs s = (Ok entries, s') ->
    starts s [AtPass (mkPass now ttl entries)] (map ListedJob entries) s'
| start_lookup pubkey id s o s' es :
    lookup_resumes RETAINED_PROOF_LOOKUP_ATTEMPTS s pubkey id = (o, s', es) ->
    starts s (option_list (AtLookup pubkey id <$> o)) (map Did es) s'
| start_results s entries s' :
    on_store list_pending_results s = (Ok entries, s') ->
    starts s [AtResults entries] (map ListedResult entries) s'
| start_dispatch orch peer payload now_ms s o s' :
    in_u64 now_ms -> dispatch_begins orch peer payload now_ms s = (o, s') ->
    starts s (option_list (AtInsert <$> o)) [] s'.

(** A waiting task goes on to its next wait or to its end.  The retry loops give way
    before every entry. *)
Inductive resumes : Waiting -> AppState -> list Waiting -> list event -> AppState -> Prop :=
| resume_at_build env pubkey id next stage s p s' es :
    build_resumes env s pubkey id stage = (p, s', es) ->
    resumes (AtBuild pubkey id next stage) s (waits_at pubkey id next p) (told env id p es)
      (counted next p s')
| resume_at_pass env now ttl entry rest s out s' evs :
    pass_entry env s (mkPass now ttl rest) entry = (out, s', evs) ->
    resumes (AtPass (mkPass now ttl (entry :: rest))) s out evs s'
| resume_pass_ends now ttl s : resumes (AtPass (mkPass now ttl [])) s [] [] s
| resume_at_lookup pubkey id attempts s o s' es :
    lookup_resumes attempts s pubkey id = (o, s', es) ->
    resumes (AtLookup pubkey id attempts) s (option_list (AtLookup pubkey id <$> o)) (map Did es) s'
| resume_at_results io entry rest s answer es :
    resend_begins io s entry = (answer, es) ->
    resumes (AtResults (entry :: rest)) s [AtResend entry answer rest] (map Did es) s
| resume_results_end s : resumes (AtResults []) s [] [] s
| resume_at_resend entry answer rest s s' es :
    resend_resumes s entry answer = (s', es) ->
    resumes (AtResend entry answer rest) s [AtResults rest] (map Did es) s'
| resume_at_insert task s r s' : insert W task s = (r, s') -> resumes (AtInsert task) s [] [] s'.

Inductive step (lossy : bool) : Runtime -> list event -> Runtime -> Prop :=
| step_atom s es s' ws : atom lossy s es s' -> step lossy (s, ws) (map Did es) (s', ws)
| step_start s out evs s' ws : starts s out evs s' -> step lossy (s, ws) evs (s', out ++ ws)
| step_resume w s out evs s' ws1 ws2 :
    resumes w s out evs s' -> step lossy (s, ws1 ++ w :: ws2) evs (s', ws1 ++ out ++ ws2).
Definition moves (lossy : bool) (x y : Runtime) : Prop := exists evs, step lossy x evs y.

(** Every state of the process, with what is remembered until then; a crash ends the
    process at any step, and the next one starts from its database with no task
    waiting. *)
Inductive runs : bool -> list event -> Runtime -> Prop :=
| runs_init lossy health s :
    start_node (task_from_json W) health (mkStore empty_db [] 0) = Running s ->
    runs lossy [] (s, [])
| runs_step lossy past x evs y :
    runs lossy past x -> step lossy x evs y -> runs lossy (past ++ evs) y
| runs_restart lossy past x fs health s' :
    runs true past x ->
    start_node (task_from_json W) health (mkStore x.1.(store).(db) fs x.1.(store).(clock))
      = Running s' -> runs lossy past (s', []).

(** What a build sends: the bundle, or that there will be none. *)
Definition message_of (sub_task_id : string) (outcome : DeliverOutcome) (wire : bytes) : Prop :=
  match outcome with
  | RefusedPermanent => exists reason,
      build_pcs_refusal_wire_body (pcs_to_json W) sub_task_id config.(peer_id) reason = Some wire
  | _ => exists bundle,
      build_pcs_wire_body (pcs_to_json W) sub_task_id config.(peer_id) bundle = Some wire
  end.
(** [{"ok": true}] *)
Definition acknowledges (reply : bytes) : Prop :=
  exists ack, value_from_json W reply = Some ack /\ (value_get "ok" ack ≫= as_bool) = Some true.
(** An answer that counts as one: the message was sent and the peer said yes. *)
Definition was_sent (past : list event) (sub_task_id : string) (stage : BuildStage) : Prop :=
  match stage with
  | Delivering (Ok _) _ outcome => exists wire reply,
      message_of sub_task_id outcome wire /\ Did (ESend (Sent PROTOCOL_PCS wire)) ∈ past
      /\ acknowledges reply /\ Replied sub_task_id reply ∈ past
  | _ => True
  end.
(** The entries a loop has still to do were listed. *)
Definition pass_listed (past : list event) (pass : Pass) : Prop :=
  map ListedJob pass.(pass_rest) ⊆ past.
Definition waiting_ok (past : list event) (w : Waiting) : Prop :=
  match w with
  | AtBuild _ id next stage => was_sent past id stage
      /\ match next with Some (_, pass) => pass_listed past pass | None => True end
  | AtPass pass => pass_listed past pass
  | AtResults rest => map ListedResult rest ⊆ past
  | AtResend entry answer rest => map ListedResult (entry :: rest) ⊆ past
      /\ (is_ok answer = true -> Did (ESend (Sent PROTOCOL_RESULT entry.(prs_wire_body))) ∈ past)
  | AtInsert task => dispatched W task
  | AtLookup _ _ _ => True
  end.
End overlap.

(** ** Invariant *)

(** The node's invariant holds whoever waits; the sub-tasks in [in_flight] are those
    of the builds under way, each of which has one; and what waits is as it should. *)
Record runtime_inv (W : Outside) (lossy : bool) (past : list event) (x : Runtime) : Prop := {
  ri_node : node_inv lossy (task_from_json W) x.1;
  ri_claims : x.1.(in_flight) = list_to_set (claims x.2);
  ri_once : NoDup (claims x.2);
  ri_waiting : Forall (waiting_ok W past) x.2
}.

(** ** Lemmas *)

Lemma claims_app ws ws' : claims (ws ++ ws') = claims ws ++ claims ws'.
Proof. apply omap_app. Qed.

Lemma claims_waits pubkey id next p :
  claims (waits_at pubkey id next p) = match p with Waits _ => [id] | Ended _ => [] end.
Proof. by destruct p, next as [[]|]. Qed.

Lemma counted_flight row p s : (counted row p s).(in_flight) = s.(in_flight).
Proof.
  unfold counted. destruct p as [|[]]; [done..|]. destruct row as [[id pass]|]; [|done].
  unfold on_store. by destruct (increment_pending_pcs_attempts _ _).
Qed.

Lemma counted_elsewhere row p s : elsewhere s (counted row p s).
Proof.
  unfold counted. destruct p as [|[]]; [done..|]. destruct row as [[id pass]|]; [|done].
  destruct (on_store _ s) as [r s1] eqn:E. by apply bump_pcs_elsewhere in E.
Qed.

Lemma core_elsewhere h s : elsewhere s (with_core h s).
Proof. by apply elsewhere_same_db. Qed.
Lemma flight_elsewhere f s : elsewhere s (with_in_flight f s).
Proof. by apply elsewhere_same_db. Qed.
Lemma open_calls_elsewhere f s : elsewhere s (with_open_calls f s).
Proof. by apply elsewhere_same_db. Qed.

Section frames.
Context (W : Outside).

Lemma settle_elsewhere id p s es p' s' es' :
  settle id (p, s, es) = (p', s', es') -> elsewhere s s'.
Proof. destruct p; intros [= <- <- <-]; [done|apply flight_elsewhere]. Qed.

Lemma build_begins_elsewhere env s id job p s' es :
  build_begins W env s id job = (p, s', es) -> elsewhere s s'.
Proof.
  unfold build_begins, begin_build. destruct (claim_inflight id s) as [b s1] eqn:E1.
  assert (H1 : elsewhere s s1) by (injection E1 as _ <-; apply flight_elsewhere).
  destruct b; [|by intros [= _ <- _]].
  destruct (ask_core _ _ _ _ _ _ _ _ _ _ _) as [[p2 s2] es2] eqn:E.
  intros H%settle_elsewhere. etransitivity; [exact H1|]. etransitivity; [|exact H].
  unfold ask_core, put_bundle in E. destruct (job_leaf_pcs_b64 job).
  { by apply put_on_wire_state in E as ->. }
  destruct (is_in_backoff _ _); [by simplify_eq|].
  destruct (run_build _ _ _ _ _ _ _ _ _) as [[a s3] es3] eqn:E3.
  apply run_build_core in E3 as [h ->]. simplify_eq. apply core_elsewhere.
Qed.

Lemma build_resumes_elsewhere env s pubkey id stage p s' es :
  build_resumes W env s pubkey id stage = (p, s', es) -> elsewhere s s'.
Proof.
  unfold build_resumes, resume_build.
  set (part := match stage with Proving _ _ => _ | _ => _ end).
  destruct part as [[p1 s1] es1] eqn:E; subst part.
  intros H%settle_elsewhere. etransitivity; [|exact H]. destruct stage as [job a|a c o].
  - unfold after_core, put_bundle in E. destruct a as [pcs|e].
    + destruct (on_store _ s) as [[u|e] s2] eqn:E2; apply upsert_pcs_elsewhere in E2; [|by simplify_eq].
      by apply put_on_wire_state in E as ->.
    + destruct (is_core_down_error _); [by simplify_eq|].
      destruct (is_permanent _ _); [|by simplify_eq]. by apply put_on_wire_state in E as ->.
  - unfold after_send in E. destruct a as [u|e]; [|by simplify_eq].
    destruct (on_store _ s) as [[u'|e] s2] eqn:E2; apply delete_pcs_elsewhere in E2; [|by simplify_eq].
    destruct c; simplify_eq; [|done]. etransitivity; [exact E2|apply open_calls_elsewhere].
Qed.

(** Lookups and requests leave the tasks and the claims alone. *)
Definition claims_elsewhere (s s' : AppState) : Prop :=
  elsewhere s s' /\ s'.(in_flight) = s.(in_flight).

Lemma lookup_elsewhere n s pubkey id o s' es :
  lookup_resumes W n s pubkey id = (o, s', es) -> claims_elsewhere s s'.
Proof.
  unfold lookup_resumes, resume_lookup, claims_elsewhere.
  destruct n as [|n]; cbn [look]; [by intros [= _ <- _]|].
  destruct (on_store _ s) as [r s1] eqn:E. pose proof E as H1%get_pcs_elsewhere.
  apply on_store_flight in E. destruct r as [[e|]|x]; [|by destruct n; intros [= _ <- _]|by intros [= _ <- _]].
  destruct (job_from_json W _) as [job|]; [|by intros [= _ <- _]]. unfold start_requested.
  destruct (job_requested job); [by intros [= _ <- _]|].
  destruct (on_store _ s1) as [r2 s2] eqn:E2. pose proof E2 as H2%upsert_pcs_elsewhere.
  apply on_store_flight in E2.
  destruct r2; intros [= _ <- _]; (split; [by etransitivity|congruence]).
Qed.

Lemma open_request_elsewhere s pubkey r s' es :
  open_request W s pubkey r = (s', es) -> claims_elsewhere s s'.
Proof.
  unfold open_request, handle_open_call_pcs_request, claims_elsewhere.
  destruct (decide _); [by intros [= <- _]|]. destruct (cached_open_call _ _ _); [|by intros [= <- _]].
  destruct (on_store _ s) as [r1 s1] eqn:E. pose proof E as H1%upsert_pcs_elsewhere.
  apply on_store_flight in E. by destruct r1; intros [= <- _].
Qed.

Lemma kept_claims s s' :
  db_wf s'.(store).(db) -> tasks_kept s s' -> claims_elsewhere s s'.
Proof.
  intros Hwf [Ht (Hl & ? & ? & ? & _ & _ & ? & ?)]. split; [|done]. split_and!; try done.
  by rewrite Hl.
Qed.

Lemma bump_result_elsewhere id s r s' :
  on_store (increment_pending_result_attempts id) s = (r, s') -> elsewhere s s'.
Proof.
  intros (st & H & ->)%on_store_eq. split_and!; try done. intros Hwf. unfold tasks_of.
  cbn [with_store store]. destruct r as [[]|e]; [apply exec_Ok in H|apply exec_Err in H]; rewrite H;
    [|done]. destruct Hwf. split; [|done]. split; cbn; try done. by apply update_where_wf.
Qed.

Lemma resend_elsewhere s entry answer s' es :
  node_wf s -> resend_resumes W s entry answer = (s', es) -> claims_elsewhere s s'.
Proof.
  intros Hwf. unfold resend_resumes, after_resend. destruct answer as [u|e].
  - destruct (on_store _ s) as [r s1] eqn:E. cbn [snd]. pose proof E as HF%on_store_flight.
    apply (elsewhere_op (OpDeleteResult (result_key entry))) in E as H1; [|done..].
    destruct (proj1 H1 Hwf) as [Hwf1 _]. intros H.
    pose proof (retain_delivered_tasks (job_to_json W) (job_from_json W) (task_from_json W)
      (value_from_json W) proof_from_value s1 entry Hwf1) as H2.
    rewrite H in H2. cbn [fst] in H2.
    apply retain_delivered_results in H as [Hwf2 _]; [|done].
    apply kept_claims in H2 as [H2 HF2]; [|done]. split; [by etransitivity|congruence].
  - destruct (on_store _ s) as [r s1] eqn:E. cbn [snd]. intros [= <- _].
    split; [by eapply bump_result_elsewhere|by eapply on_store_flight].
Qed.

Lemma begin_dispatch_spec orch peer payload now_ms s o s' :
  in_u64 now_ms -> dispatch_begins W orch peer payload now_ms s = (o, s') ->
  same_but_faults s s'
  /\ forall task, o = Some task -> ledger_ok s.(work_ledger) -> dispatched W task.
Proof.
  intros Hnow. unfold dispatch_begins, begin_dispatch, find_no_task.
  assert (Hno : (None, s) = (o, s') -> same_but_faults s s'
    /\ forall task, o = Some task -> ledger_ok s.(work_ledger) -> dispatched W task)
    by (by intros [= <- <-]).
  destruct (decide _); [|done]. destruct (dispatch_from_json W payload) as [m|] eqn:Hm; [|done].
  destruct (orchestrator_public_key _) as [key|] eqn:Hk; [|done].
  destruct (verify_dispatch_signature _ _ _ _ _ _ _ _ _); [|done].
  destruct (_ <? _); [done|]. destruct (validate_circuit_logic _ _ _); [|done].
  destruct (on_store _ s) as [[[t|]|] s1] eqn:E; apply on_load_spec in E as [Hs _];
    intros [= <- <-]; (split; [done|]); [done| |done].
  intros task [= <-] Hl. by exists payload, m, key, s.(work_ledger), now_ms.
Qed.

Lemma insert_flight task s r s' :
  node_wf s -> insert W task s = (r, s') -> s'.(in_flight) = s.(in_flight).
Proof.
  intros Hwf [H|[(_ & _ & _ & _ & H)|(_ & _ & _ & _ & _ & H)]]%insert_spec; [| |..|done];
    [by destruct_and! H|by destruct_and! H..].
Qed.

Lemma report_flight s s' : report W s = Some s' -> s'.(in_flight) = s.(in_flight).
Proof.
  unfold report, report_work. destruct (at_work s) as [[task o|]|]; [|done..]. intros [= <-].
  assert (Hst : forall p id st t, (set_task_status p id st t).(in_flight) = t.(in_flight))
    by (intros p id st t; by destruct (set_status_shared p id st t) as (_ & _ & _ & _ & _ & _ & ? & _)).
  destruct (build_result_wire_body _ _ _ _ _ _); [|apply Hst].
  destruct (on_store _ _) as [[u|e] s2] eqn:E; apply on_store_flight in E; cbn [end_work with_work in_flight];
    cbn; rewrite ?Hst, E; apply Hst.
Qed.

Lemma atom_flight lossy s es s' : atom W lossy s es s' -> s'.(in_flight) = s.(in_flight).
Proof.
  destruct 1 as [orch peer env payload s r s' w H|env payload s r s' w H
    |orch peer payload si now ios s r s' w H|s pubkey r s' es H|s r s' acts H|s fs now
    |s env s' es _ H|s s' _ H|s io s' es H|s now ret].
  - unfold on_announcement, on_announce_stream in H. case_decide; [|by simplify_eq].
    by apply announcement_kept in H as (_ & _ & _ & _ & _ & _ & _ & _ & _ & ? & _).
  - by apply announcement_kept in H as (_ & _ & _ & _ & _ & _ & _ & _ & _ & ? & _).
  - unfold on_open_call, on_pcs_open_stream, handle_pcs_open_stream in H.
    repeat case_match; by simplify_eq.
  - by apply open_request_elsewhere in H as [_ ?].
  - unfold start_host in H. by destruct (orchestrator_peer_id _); simplify_eq.
  - done.
  - unfold begin, begin_work in H. destruct (queue s) as [|task rest]; [done|].
    destruct (run_task _ _ _ _ _) as [[o s1] es1] eqn:E. simplify_eq.
    by apply run_task_shared in E as [(_ & _ & _ & _ & _ & _ & ? & _) _].
  - by apply report_flight.
  - unfold conclude, conclude_work in H. destruct (at_work s) as [[|task p w]|]; [done| |done].
    pose proof (try_deliver_shared (o_config W) (job_to_json W) (job_from_json W) io s
      (orchestrator_pubkey task) (task_id (request task)) w p task)
      as (_ & _ & _ & _ & _ & _ & Hf & _).
    destruct (try_deliver_pending _ _ _ _ _ _ _ _ _ _) as [[r s1] es1]. by simplify_eq.
  - unfold run_prune. destruct (on_store _ s) as [r s1] eqn:E. by apply on_store_flight in E.
Qed.

(** An entry of a pass is left alone, dropped, or built. *)
Lemma pass_entry_cases env s pass entry out s' evs :
  pass_entry W env s pass entry = (out, s', evs) ->
  (out = [AtPass pass] /\ evs = [] /\ claims_elsewhere s s')
  \/ exists job p s1 es, build_begins W env s entry.(pp_sub_task_id) job = (p, s1, es)
     /\ evs = told env entry.(pp_sub_task_id) p es
     /\ s' = counted (Some (entry.(pp_id), pass)) p s1
     /\ out = waits_at entry.(pp_orchestrator_pubkey) entry.(pp_sub_task_id)
         (Some (entry.(pp_id), pass)) p.
Proof.
  unfold pass_entry. assert (Hrefl : claims_elsewhere s s) by done.
  destruct (job_from_json W _) as [job|]; [|intros [= <- <- <-]; by left].
  destruct (negb _).
  - destruct (_ <=? _); [|intros [= <- <- <-]; by left].
    destruct (on_store _ s) as [r s1] eqn:E. cbn [snd]. intros [= <- <- <-]. left.
    split_and!; [done..|]. split; [by eapply delete_pcs_id_elsewhere|by eapply on_store_flight].
  - destruct (build_begins W env s _ job) as [[p s1] es1] eqn:E. intros [= <- <- <-].
    right. by exists job, p, s1, es1.
Qed.

Lemma listed_elsewhere {A} (f : Db -> Z -> A) s r s' :
  on_store (query f) s = (r, s') -> claims_elsewhere s s'.
Proof.
  intros H. split; [|by eapply on_store_flight].
  eapply elsewhere_query; [|exact H]. intros st r0 st'. apply query_db.
Qed.
End frames.

Lemma restore_flight ts s s' : restore ts s = Some s' -> s'.(in_flight) = s.(in_flight).
Proof.
  revert s. induction ts as [|t ts IH]; intros s; cbn [restore]; [by intros [= ->]|].
  destruct (Nat.ltb _ _); [|done]. intros ->%IH. unfold enqueue. by destruct (receiver_alive _).
Qed.

Lemma start_flight fj health st s : start_node fj health st = Running s -> s.(in_flight) = ∅.
Proof.
  unfold start_node. destruct (get_pending_tasks _ _) as [[ts|e] st']; [|done].
  destruct (restore ts _) as [s1|] eqn:E; [|done]. intros [= <-]. by apply restore_flight in E.
Qed.

Lemma claims_list_to_set (ws1 ws2 : list string) id :
  NoDup (ws1 ++ id :: ws2) ->
  NoDup (ws1 ++ ws2) /\ (id ∉ ws1 ++ ws2)
  /\ ((list_to_set (ws1 ++ id :: ws2) : gset string) ∖ {[id]}) = list_to_set (ws1 ++ ws2).
Proof.
  intros H. apply (NoDup_Permutation_proper _ (id :: ws1 ++ ws2)), NoDup_cons in H as [H1 H2];
    [|by rewrite Permutation_middle].
  split_and!; [done..|]. rewrite !list_to_set_app_L. cbn. rewrite elem_of_app in H1. set_solver.
Qed.

(** *** What was sent *)

Section sent.
Context (W : Outside).

Lemma was_sent_mono past past' id stage :
  past ⊆ past' -> was_sent W past id stage -> was_sent W past' id stage.
Proof.
  intros Hsub. destruct stage as [|[u|e] c o]; cbn; [done| |done].
  intros (wire & reply & Hm & Hin & Ha & Hr). exists wire, reply. auto.
Qed.

Lemma waiting_ok_mono past past' w : past ⊆ past' -> waiting_ok W past w -> waiting_ok W past' w.
Proof.
  intros Hsub. destruct w as [pk id next stage|pass|pk id n|rest|e a rest|task]; cbn; try done.
  - intros [H1 H2]. split; [by eapply was_sent_mono|]. destruct next as [[i pass]|]; [|done].
    unfold pass_listed in *. by etransitivity.
  - unfold pass_listed. intros H. by etransitivity.
  - intros H. by etransitivity.
  - intros [H1 H2]. split; [by etransitivity|]. intros Ha. by apply Hsub, H2.
Qed.

(** A part of a build that comes to a wait for the peer has sent its message. *)
Definition progress_sent (env : BuildEnv) (id : string) (p : progress) (es : list effect) : Prop :=
  match p with Waits stage => was_sent W (told env id p es) id stage | Ended _ => True end.

Lemma waits_ok env pubkey id next p es past :
  progress_sent env id p es ->
  match next with Some (_, pass) => pass_listed past pass | None => True end ->
  Forall (waiting_ok W (past ++ told env id p es)) (waits_at pubkey id next p).
Proof.
  intros H Hn.
  assert (Hn' : match next with Some (_, pass) => pass_listed (past ++ told env id p es) pass
                | None => True end)
    by (destruct next as [[i pass]|]; [unfold pass_listed in *; set_solver|done]).
  destruct p as [stage|]; cbn [waits_at].
  - repeat constructor; [|done]. eapply was_sent_mono; [|exact H]. set_solver.
  - destruct next as [[i pass]|]; by repeat constructor.
Qed.

Lemma put_on_wire_sent env s id wire c o p s' es :
  (forall w, wire = Some w -> message_of W id o w) ->
  put_on_wire (o_config W) (value_from_json W) env s wire c o = (p, s', es) ->
  progress_sent env id p es.
Proof.
  intros Hm. unfold put_on_wire. destruct wire as [wire|]; [|by intros [= <- _ _]].
  destruct (send_pcs_wire _ _ _ _ _) as [r w] eqn:E. intros [= <- _ <-]. destruct r as [[]|e]; [|done].
  apply send_pcs_Ok in E as (-> & resp & ack & Hr & Ha). exists wire, resp. cbn. rewrite Hr. cbn.
  split_and!; [by apply Hm|by right; left|by exists ack|by left].
Qed.

Lemma put_bundle_sent env s id job bundle p s' es :
  put_bundle (o_config W) (pcs_to_json W) (value_from_json W) env s id job bundle = (p, s', es) ->
  progress_sent env id p es.
Proof. apply put_on_wire_sent. intros w Hw. by exists bundle. Qed.

Lemma settle_sent env id p s es p' s' es' :
  settle id (p, s, es) = (p', s', es') -> progress_sent env id p es -> progress_sent env id p' es'.
Proof. by destruct p; intros [= <- _ <-]. Qed.

Lemma build_begins_sent env s id job p s' es :
  build_begins W env s id job = (p, s', es) -> progress_sent env id p es.
Proof.
  unfold build_begins, begin_build. destruct (claim_inflight id s) as [[] s1]; [|by intros [= <- _ _]].
  destruct (ask_core _ _ _ _ _ _ _ _ _ _ _) as [[p2 s2] es2] eqn:E.
  intros H. eapply settle_sent; [exact H|]. unfold ask_core in E.
  destruct (job_leaf_pcs_b64 job); [by eapply put_bundle_sent|].
  destruct (is_in_backoff _ _); [by simplify_eq|].
  destruct (run_build _ _ _ _ _ _ _ _ _) as [[a s3] es3]. by simplify_eq.
Qed.

Lemma build_resumes_sent env s pubkey id stage p s' es :
  build_resumes W env s pubkey id stage = (p, s', es) -> progress_sent env id p es.
Proof.
  unfold build_resumes, resume_build.
  set (part := match stage with Proving _ _ => _ | _ => _ end).
  destruct part as [[p1 s1] es1] eqn:E; subst part.
  intros H. eapply settle_sent; [exact H|]. destruct stage as [job a|a c o].
  - unfold after_core in E. destruct a as [pcs|e].
    + destruct (on_store _ s) as [[u|e] s2]; [by eapply put_bundle_sent|by simplify_eq].
    + destruct (is_core_down_error _); [by simplify_eq|].
      destruct (is_permanent _ _); [|by simplify_eq]. eapply put_on_wire_sent, E.
      intros w Hw. by eexists.
  - destruct (after_send _ _ _ _ _ _) as [r s2]. by simplify_eq.
Qed.
End sent.

Section invariant.
Context (W : Outside).
Hypothesis Hout : outside_ok W.
Context (lossy : bool).
Let inv := node_inv lossy (task_from_json W).

Lemma atom_inv s es s' : atom W lossy s es s' -> inv s -> inv s'.
Proof.
  assert (Hturn : turn W lossy eq s s' -> inv s -> inv s').
  { intros H. eapply (turn_inv W Hout); [| |exact H]; by intros t t' <-. }
  intros H Hinv. destruct H;
    try (apply Hturn; [|done]; first [by econstructor; eauto|apply turn_aside; by econstructor; eauto]).
  eapply elsewhere_inv; [|done]. by eapply open_request_elsewhere.
Qed.

Lemma insert_inv task s r s' :
  dispatched W task -> insert W task s = (r, s') -> inv s -> inv s'.
Proof.
  intros Hd H Hinv. eapply (turn_inv W Hout lossy eq); [by intros t t' <-|by intros t t' <-| |done].
  by eapply turn_insert.
Qed.

(** What a part of a task's run does, for the invariant: [out] is where it waits. *)
Definition part_ok (past : list event) (s s' : AppState) (out : list Waiting) : Prop :=
  inv s' /\ Forall (waiting_ok W past) out /\ claims out = [] /\ s'.(in_flight) = s.(in_flight).

(** A part without a claim, before others or in the place of one without. *)
Lemma part_inv past evs s s' out ws :
  runtime_inv W lossy past (s, ws) -> part_ok (past ++ evs) s s' out ->
  runtime_inv W lossy (past ++ evs) (s', out ++ ws).
Proof.
  intros [Hinv Hf Hn Hi] (Hs & Ho & Hc & HF). cbn [fst snd] in *.
  split; cbn [fst snd]; rewrite ?claims_app, ?Hc, ?HF, ?Forall_app; try done.
  split; [done|]. eapply Forall_impl; [exact Hi|]. intros w. apply waiting_ok_mono. set_solver.
Qed.

(** A build that begins, and one that goes on. *)
Lemma begun_inv past env pubkey id next job s p s' es ws :
  build_begins W env s id job = (p, s', es) -> runtime_inv W lossy past (s, ws) ->
  match next with Some (_, pass) => pass_listed past pass | None => True end ->
  runtime_inv W lossy (past ++ told env id p es) (counted next p s', waits_at pubkey id next p ++ ws).
Proof.
  intros H [Hinv Hf Hn Hi] Hnext. cbn [fst snd] in *. pose proof H as HF%begin_build_claims.
  pose proof H as HS%build_begins_sent. apply build_begins_elsewhere in H.
  split; cbn [fst snd]; rewrite ?claims_app, ?claims_waits, ?counted_flight.
  - by eapply elsewhere_inv; [apply counted_elsewhere|eapply elsewhere_inv].
  - destruct p; cbn; [destruct HF as [_ ->]|rewrite HF]; by rewrite Hf.
  - destruct p; cbn; [|done]. constructor; [|done]. destruct HF as [HF _].
    rewrite Hf in HF. by rewrite elem_of_list_to_set in HF.
  - apply Forall_app. split; [by apply waits_ok|].
    eapply Forall_impl; [exact Hi|]. intros w. apply waiting_ok_mono. set_solver.
Qed.

Lemma resumed_inv past env pubkey id next stage s p s' es ws :
  build_resumes W env s pubkey id stage = (p, s', es) ->
  runtime_inv W lossy past (s, AtBuild pubkey id next stage :: ws) ->
  runtime_inv W lossy (past ++ told env id p es) (counted next p s', waits_at pubkey id next p ++ ws).
Proof.
  intros H [Hinv Hf Hn [Hw Hi]%Forall_cons]. cbn [fst snd] in *. pose proof H as HF%resume_build_claims.
  pose proof H as HS%build_resumes_sent. apply build_resumes_elsewhere in H.
  cbn in Hf, Hn. fold (claims ws) in Hf, Hn.
  destruct (claims_list_to_set [] (claims ws) id Hn) as (Hn' & _ & Hset).
  split; cbn [fst snd]; rewrite ?claims_app, ?claims_waits, ?counted_flight.
  - by eapply elsewhere_inv; [apply counted_elsewhere|eapply elsewhere_inv].
  - destruct p; cbn in HF |- *; rewrite HF, Hf; done.
  - by destruct p.
  - apply Forall_app. split; [apply waits_ok; [done|apply Hw]|].
    eapply Forall_impl; [exact Hi|]. intros w. apply waiting_ok_mono. set_solver.
Qed.

Lemma starts_inv past s out evs s' ws :
  starts W s out evs s' -> runtime_inv W lossy past (s, ws) ->
  runtime_inv W lossy (past ++ evs) (s', out ++ ws).
Proof.
  intros H Hx. assert (Hs := ri_node _ _ _ _ Hx). cbn in Hs.
  destruct H as [env pubkey id job s p s' es H|now ttl s entries s' H|pubkey id s o s' es H
    |s entries s' H|orch peer payload now s o s' Hnow H]; [by eapply begun_inv|..];
    (apply (part_inv _ _ s); [done|]).
  - apply listed_elsewhere in H as [H HF]. split_and!; [by eapply elsewhere_inv| |done..].
    repeat constructor. unfold waiting_ok, pass_listed. cbn. set_solver.
  - apply lookup_elsewhere in H as [H HF].
    split_and!; [by eapply elsewhere_inv| | |done]; destruct o; by repeat constructor.
  - apply listed_elsewhere in H as [H HF]. split_and!; [by eapply elsewhere_inv| |done..].
    repeat constructor. cbn. set_solver.
  - apply begin_dispatch_spec in H as [Hf Hd]; [|done].
    split_and!; [by eapply same_but_faults_inv| |by destruct o|by destruct_and! Hf].
    destruct o as [task|]; [|done]. constructor; [|done]. apply Hd; [done|]. by apply Hs.
Qed.

(** The order of the waiting tasks does not matter, and those without a claim may be
    forgotten. *)
Lemma runtime_perm past s ws ws' :
  ws ≡ₚ ws' -> runtime_inv W lossy past (s, ws) -> runtime_inv W lossy past (s, ws').
Proof.
  intros Hp [Hinv Hf Hn Hi]. cbn [fst snd] in *.
  assert (Hc : claims ws ≡ₚ claims ws') by (unfold claims; by rewrite Hp).
  split; cbn [fst snd]; [done| |by rewrite <- Hc|by rewrite <- Hp].
  rewrite Hf. by apply list_to_set_perm_L.
Qed.

Lemma runtime_drop past s w ws :
  claims [w] = [] -> runtime_inv W lossy past (s, w :: ws) -> runtime_inv W lossy past (s, ws).
Proof.
  intros Hw [Hinv Hf Hn [_ Hi]%Forall_cons]. cbn [fst snd] in *.
  change (w :: ws) with ([w] ++ ws) in Hf, Hn. rewrite claims_app, Hw in Hf, Hn. by split.
Qed.

Lemma resumes_inv_first past w s out evs s' ws :
  resumes W w s out evs s' -> runtime_inv W lossy past (s, w :: ws) ->
  runtime_inv W lossy (past ++ evs) (s', out ++ ws).
Proof.
  intros H Hx. assert (Hs := ri_node _ _ _ _ Hx). cbn in Hs.
  pose proof (ri_waiting _ _ _ _ Hx) as [Hw _]%Forall_cons.
  destruct H as [env pubkey id next stage s p s' es H|env now ttl entry rest s out s' evs H|now ttl s
    |pubkey id n s o s' es H|io entry rest s answer es H|s|entry answer rest s s' es H|task s r s' H];
    [by eapply resumed_inv|..]; (apply runtime_drop in Hx; [|done]).
  - assert (Hp : pass_listed past (mkPass now ttl rest))
      by (cbn in Hw; unfold pass_listed in *; cbn in *; set_solver).
    apply pass_entry_cases in H as [(-> & -> & He & HF)|(job & p & s1 & es & H & -> & -> & ->)];
      [|by eapply begun_inv].
    apply (part_inv _ _ s); [done|]. split_and!; [by eapply elsewhere_inv| |done..].
    rewrite app_nil_r. by repeat constructor.
  - by apply (part_inv _ _ s).
  - apply (part_inv _ _ s); [done|]. apply lookup_elsewhere in H as [H HF].
    split_and!; [by eapply elsewhere_inv| | |done]; destruct o; by repeat constructor.
  - apply (part_inv _ _ s); [done|]. split_and!; [done| |done..].
    repeat constructor; cbn in Hw |- *; [set_solver|].
    destruct answer as [[]|e]; [|done]. intros _. unfold resend_begins, begin_resend in H.
    destruct (send_result_wire _ s io _) as [r w] eqn:E. simplify_eq.
    apply send_result_Ok in E as ->. set_solver.
  - by apply (part_inv _ _ s).
  - apply (part_inv _ _ s); [done|]. apply resend_elsewhere in H as [H HF]; [|by apply Hs].
    split_and!; [by eapply elsewhere_inv| |done..]. destruct Hw as [Hw _].
    repeat constructor. cbn in Hw |- *. set_solver.
  - apply (part_inv _ _ s); [done|]. split_and!; [by eapply insert_inv|constructor|done|].
    eapply insert_flight; [by apply Hs|done].
Qed.

Lemma resumes_inv past w s out evs s' ws1 ws2 :
  resumes W w s out evs s' -> runtime_inv W lossy past (s, ws1 ++ w :: ws2) ->
  runtime_inv W lossy (past ++ evs) (s', ws1 ++ out ++ ws2).
Proof.
  intros H Hx. apply (runtime_perm _ _ (out ++ ws1 ++ ws2)).
  - by rewrite app_assoc, (Permutation_app_comm out ws1), <- app_assoc.
  - eapply resumes_inv_first; [exact H|]. eapply runtime_perm; [|exact Hx].
    by rewrite Permutation_middle.
Qed.

Lemma step_inv past x evs y :
  step W lossy x evs y -> runtime_inv W lossy past x -> runtime_inv W lossy (past ++ evs) y.
Proof.
  destruct 1 as [s es s' ws H|s out evs s' ws H|w s out evs s' ws1 ws2 H]; intros Hx.
  - destruct Hx as [Hinv Hf Hn Hi]. split; cbn [fst snd] in *; [by eapply atom_inv| |done|].
    + by rewrite (atom_flight _ _ _ _ _ H).
    + eapply Forall_impl; [exact Hi|]. intros w. apply waiting_ok_mono. set_solver.
  - by eapply starts_inv.
  - by eapply resumes_inv.
Qed.
End invariant.

Lemma started_inv W lossy past health st s :
  db_wf st.(db) -> coherent (task_from_json W) (a_tasks (abs st.(db))) ->
  start_node (task_from_json W) health st = Running s -> runtime_inv W lossy past (s, []).
Proof.
  intros Hwf Hc Hs. split; cbn; [by eapply start_inv|by eapply start_flight|constructor|constructor].
Qed.

Lemma runs_inv W lossy past x : outside_ok W -> runs W lossy past x -> runtime_inv W lossy past x.
Proof.
  intros Hout. induction 1 as [lossy health s Hs|lossy past x es y _ IH H|lossy past x fs health s' _ IH Hs].
  - eapply started_inv; [| |exact Hs]; [apply empty_db_wf|apply map_Forall_empty].
  - by eapply step_inv.
  - destruct (ri_node _ _ _ _ IH). by eapply started_inv in Hs.
Qed.

(** *** The whole handlers *)

Section simulation.
Context (W : Outside) (lossy : bool) (run : AppState -> AppState -> Prop).
Abbreviation go := (rtc (moves W lossy)).
Hypothesis Hrun : forall t t' ws, run t t' -> go (t, ws) (t', ws).

Lemma world_go s s' ws : same_but_faults s s' -> go (s, ws) (s', ws).
Proof.
  intros H. apply rtc_once. exists (map Did []). apply step_atom.
  replace s' with (with_store (mkStore s.(store).(db) s'.(store).(faults) s.(store).(clock)) s);
    [apply atom_world|].
  destruct s as [[]], s' as [[]]. unfold same_but_faults in H. cbn in *. destruct_and! H. by subst.
Qed.

Lemma atom_go s es s' ws : atom W lossy s es s' -> go (s, ws) (s', ws).
Proof. intros H. apply rtc_once. exists (map Did es). by apply step_atom. Qed.

Lemma start_go s out evs s' ws : starts W s out evs s' -> go (s, ws) (s', out ++ ws).
Proof. intros H. apply rtc_once. exists evs. by apply step_start. Qed.

Lemma resume_go w s out evs s' ws : resumes W w s out evs s' -> go (s, w :: ws) (s', out ++ ws).
Proof. intros H. apply rtc_once. exists evs. by apply (step_resume W lossy w s out evs s' []). Qed.

(** A task that goes on after what the others did. *)
Lemma wait_go w h s out evs s' ws :
  within run h -> resumes W w (h s) out evs s' -> go (s, w :: ws) (s', out ++ ws).
Proof. intros Hh H. etransitivity; [apply Hrun, Hh|by eapply resume_go]. Qed.

Lemma drive_go n env pubkey id next p s es r s' es' ws :
  build_within run env ->
  drive (o_config W) (o_describe W) (o_status_text W) (o_parse_text W) (job_to_json W)
    (pcs_to_json W) (value_from_json W) n env pubkey id (p, s, es) = Some (r, s', es') ->
  go (counted next p s, waits_at pubkey id next p ++ ws)
    (counted next (Ended r) s', waits_at pubkey id next (Ended r) ++ ws).
Proof.
  intros Henv. revert p s es. induction n as [|n IH]; intros p s es.
  { destruct p; [done|]. by intros [= <- <- _]. }
  destruct p as [stage|r0]; [|by intros [= <- <- _]]. rewrite drive_waits.
  destruct (resume_build _ _ _ _ _ _ _ _ _ _ _ _) as [[p1 s1] es1] eqn:E.
  intros H%IH. etransitivity; [|exact H].
  eapply (wait_go _ (meanwhile env stage)); [destruct Henv; by destruct stage|].
  by eapply resume_at_build.
Qed.

(** A build from its first part on, however it started. *)
Lemma built_go env pubkey id next job s r s' es p s1 es1 ws :
  build_within run env -> pcs_task W env s pubkey id job = (r, s', es) ->
  build_begins W env s id job = (p, s1, es1) ->
  go (counted next p s1, waits_at pubkey id next p ++ ws)
    (counted next (Ended r) s', waits_at pubkey id next (Ended r) ++ ws).
Proof.
  intros Henv H E. unfold pcs_task in H.
  pose proof (drive_build (o_config W) (o_core W) (o_describe W) (o_status_text W) (o_parse_text W)
    (o_sha256 W) (o_hex W) (o_b64_encode W) (job_to_json W) (pcs_to_json W) (value_from_json W)
    env s pubkey id job) as Hd.
  rewrite H in Hd. unfold build_begins in E. rewrite E in Hd. by eapply drive_go.
Qed.

Lemma build_go env pubkey id job s r s' es ws :
  build_within run env -> pcs_task W env s pubkey id job = (r, s', es) -> go (s, ws) (s', ws).
Proof.
  intros Henv H. destruct (build_begins W env s id job) as [[p s1] es1] eqn:E.
  etransitivity; [eapply start_go, (start_build W env pubkey id job), E|].
  pose proof (built_go env pubkey id None job s r s' es p s1 es1 ws Henv H E) as G. by destruct r.
Qed.

Lemma entry_go env now ttl s e rest s' es ws :
  build_within run env ->
  retry_entry (o_config W) (o_core W) (o_describe W) (o_status_text W) (o_parse_text W)
    (o_sha256 W) (o_hex W) (o_b64_encode W) (job_to_json W) (job_from_json W) (pcs_to_json W)
    (value_from_json W) env now ttl s e = (s', es) ->
  go (s, AtPass (mkPass now ttl (e :: rest)) :: ws) (s', AtPass (mkPass now ttl rest) :: ws).
Proof.
  intros Henv H. set (pass := mkPass now ttl rest).
  destruct (pass_entry W env s pass e) as [[out s1] es1] eqn:E.
  etransitivity; [eapply resume_go, (resume_at_pass W env now ttl e rest), E|].
  unfold retry_entry in H. unfold pass_entry in E.
  destruct (job_from_json W (pp_job_json e)) as [job|]; [|by simplify_eq].
  destruct (job_requested job); cbn [negb] in *.
  - fold (pcs_task W) in H. destruct (pcs_task W _ _ _ _ _) as [[r s2] es2] eqn:E2.
    destruct (build_begins W _ _ _ _) as [[p s3] es3] eqn:E3. injection E as <- <- _.
    pose proof (built_go _ _ _ (Some (pp_id e, pass)) _ _ _ _ _ _ _ _ ws Henv E2 E3) as G.
    destruct r; injection H as <- _; exact G.
  - cbn [pass_ttl pass_now pass] in E. destruct (_ <=? _); [|by simplify_eq].
    destruct (on_store _ s) as [r s2]. by simplify_eq.
Qed.

Lemma pass_go env now ttl s s' es ws :
  (forall e, build_within run (env e)) -> pcs_pass W env now ttl s = (s', es) -> go (s, ws) (s', ws).
Proof.
  intros Henv. unfold pcs_pass, retry_pass. destruct (on_store list_pending_pcs s) as [r s1] eqn:E.
  destruct r as [entries|x].
  2: { intros [= <- _]. apply on_store_eq in E as (st & E & ->). apply world_go, with_store_same;
         [by eapply query_db|by eapply query_clock]. }
  intros H. etransitivity; [eapply start_go, (start_pass W now ttl), E|]. cbn [app].
  clear E s. revert s1 s' es H. induction entries as [|e entries IH]; intros s s' es;
    cbn [retry_entries]; [intros [= <- _]; eapply (resume_go _ _ []), (resume_pass_ends W)|].
  destruct (retry_entry _ _ _ _ _ _ _ _ _ _ _ _ _ _ _ s e) as [s1 es1] eqn:E1.
  destruct (retry_entries _ _ _ _ _ _ _ _ _ _ _ _ _ _ _ s1 entries) as [s2 es2] eqn:E2.
  intros [= <- _]. etransitivity; [by eapply entry_go|by eapply IH].
Qed.

Lemma drive_lookup_go fuel during pubkey id o s es s' es' ws :
  within run during ->
  drive_lookup (job_to_json W) (job_from_json W) fuel during pubkey id (o, s, es) = Some (s', es') ->
  go (s, option_list (AtLookup pubkey id <$> o) ++ ws) (s', ws).
Proof.
  intros Hd. revert o s es. induction fuel as [|fuel IH]; intros [n|] s es; cbn [drive_lookup];
    try done; [by intros [= <- _]| |by intros [= <- _]].
  destruct (resume_lookup _ _ _ _ _ _) as [[o1 s1] es1] eqn:E. intros H%IH.
  etransitivity; [|exact H]. eapply (wait_go _ during); [done|]. by eapply resume_at_lookup.
Qed.

Lemma request_go during s pubkey r s' es ws :
  within run during ->
  handle_pcs_request (o_config W) (job_to_json W) (job_from_json W) during s pubkey r = (s', es) ->
  go (s, ws) (s', ws).
Proof.
  intros Hd H. destruct (request_is_open_call r) eqn:Hr.
  - unfold handle_pcs_request in H. rewrite Hr in H.
    by eapply atom_go, atom_open_request.
  - pose proof (drive_request (o_config W) (job_to_json W) (job_from_json W) during s pubkey r Hr)
      as Hdr. rewrite H in Hdr.
    destruct (resume_lookup _ _ _ _ _ _) as [[o s1] es1] eqn:E.
    etransitivity; [by eapply start_go, start_lookup|by eapply drive_lookup_go].
Qed.

Lemma aside_go s s' ws : aside W run s s' -> go (s, ws) (s', ws).
Proof.
  destruct 1 as [orch peer env payload s r s' w H|env payload s r s' w H
    |orch peer payload si now ios s r s' w H|orch peer during payload s r s' es Hd H
    |env pubkey id job s r s' es Hd H|env now ttl s s' es Hd H|s r s' acts H|s fs now].
  - by eapply atom_go, atom_announcement.
  - by eapply atom_go, atom_gossip.
  - by eapply atom_go, atom_open_call.
  - unfold on_pcs_request, on_pcs_request_stream, handle_pcs_request_stream in H.
    repeat case_match; simplify_eq; try done. by eapply request_go.
  - by eapply build_go.
  - by eapply pass_go.
  - by eapply atom_go, atom_host.
  - eapply atom_go, atom_world.
Qed.

Lemma dispatch_go others orch peer payload now_ms s r s' ws :
  within run others -> in_u64 now_ms ->
  on_dispatch W others orch peer payload now_ms s = (r, s') -> go (s, ws) (s', ws).
Proof.
  intros Hoth Hnow H.
  pose proof (dispatch_is (o_config W) (task_from_json W) (o_gates W) (request_to_json W)
    (task_to_json W) (o_format_finite W) (tree_json W) (o_b64_decode W) (o_signature_from_slice W)
    (o_key_from_bytes W) (o_verify W) (dispatch_from_json W) others orch peer payload now_ms s) as Hd.
  unfold on_dispatch in H. rewrite H in Hd. cbn [snd] in Hd.
  destruct (begin_dispatch _ _ _ _ _ _ _ _ _ _ _ _ _ _ s) as [o s1] eqn:E.
  etransitivity; [eapply start_go, (start_dispatch W orch peer payload now_ms); [done|exact E]|].
  destruct o as [task|]; [|by subst]. cbn [option_list fmap option_fmap option_map app].
  eapply (wait_go _ others s1 [] [] s'); [done|].
  destruct (save_new_task _ _ _ _ (others s1)) as [r1 s2] eqn:E2. cbn [snd] in Hd. subst s2.
  by eapply resume_at_insert.
Qed.

Lemma retry_go io s entry rest s' es ws :
  retry_one W io s entry = (s', es) ->
  go (s, AtResults (entry :: rest) :: ws) (s', AtResults rest :: ws).
Proof.
  unfold retry_one. rewrite resend_is. destruct (begin_resend _ _ _ _) as [a es0] eqn:E.
  destruct (after_resend _ _ _ _ _ _ _ _) as [s1 es1] eqn:E1. intros [= <- _].
  etransitivity; [by eapply resume_go, (resume_at_results W io entry)|].
  eapply resume_go with (out := [_]). by eapply resume_at_resend.
Qed.

Lemma results_go io s s' es ws : results_pass W io s = (s', es) -> go (s, ws) (s', ws).
Proof.
  unfold results_pass, retry_results_pass.
  destruct (on_store list_pending_results s) as [r s1] eqn:E. destruct r as [entries|x].
  2: { intros [= <- _]. apply on_store_eq in E as (st & E & ->). apply world_go, with_store_same;
         [by eapply query_db|by eapply query_clock]. }
  intros H. etransitivity; [eapply start_go, (start_results W), E|]. cbn [app].
  clear E s. revert s1 s' es H. induction entries as [|e entries IH]; intros s s' es;
    cbn [retry_results]; [intros [= <- _]; eapply (resume_go _ _ []), (resume_results_end W)|].
  destruct (retry_result _ _ _ _ _ _ (io e) s e) as [s1 es1] eqn:E1.
  destruct (retry_results _ _ _ _ _ _ io s1 entries) as [s2 es2] eqn:E2.
  intros [= <- _]. etransitivity; [by eapply retry_go|by eapply IH].
Qed.
End simulation.

(** What the node can come to whoever is waiting, and leaving them waiting. *)
Definition alone (W : Outside) (lossy : bool) (s s' : AppState) : Prop :=
  forall ws, rtc (moves W lossy) (s, ws) (s', ws).

(** Which starts of a build are turned away. *)
Lemma build_skipped W env s id job :
  (build_begins W env s id job).1.1 = Ended (Ok SkippedInFlight) <-> id ∈ s.(in_flight).
Proof.
  unfold build_begins, begin_build, claim_inflight. split.
  - destruct (decide (id ∈ in_flight s)) as [|Hin]; [done|]. rewrite bool_decide_eq_true_2 by done.
    intros H. exfalso. revert H. unfold ask_core, put_bundle, put_on_wire.
    by repeat (case_match; simplify_eq/=).
  - intros Hin. by rewrite bool_decide_eq_false_2 by set_solver.
Qed.

(** ** Theorems *)

(** However the tasks of the node take turns (dispatches, PCS requests and builds, the
    steps of the worker, retries, each up to its next wait, any number of them
    waiting at once; bids, open calls and pruning, a step each; with failing
    statements, crashes and restarts between any two): no sub-task is in the queue or computed twice,
    each of them has its row, still pending and reading back as a task of its key,
    and the count of pending tasks is the number of tasks in work and of results on
    their way.  And nothing is forgotten: as long as, since the last restart, one of
    the worker's two writes of each task's final status was carried out (whatever
    else failed), every pending row has its task in work. *)
Theorem tasks_are_accounted W lossy past s ws :
  outside_ok W -> runs W lossy past (s, ws) -> node_inv lossy (task_from_json W) s.
Proof. intros Hout H. by apply runs_inv in H as [? _ _ _]. Qed.

(** C24. One build of a sub-task at a time, and no claim is lost: however the tasks take
    turns, no two builds that wait are of one sub-task, the sub-tasks marked in
    flight are exactly those of the waiting builds, and so a start (of the retry
    loop, a request or a result) is turned away exactly when a build of its sub-task
    is under way. *)
Theorem builds_never_collide W lossy past s ws :
  outside_ok W -> runs W lossy past (s, ws) ->
  NoDup (claims ws) /\ s.(in_flight) = list_to_set (claims ws)
  /\ forall env id job, (build_begins W env s id job).1.1 = Ended (Ok SkippedInFlight)
      <-> id ∈ claims ws.
Proof.
  intros Hout H. apply runs_inv in H as [_ Hf Hn _]; [|done]. cbn in Hf, Hn.
  split_and!; [done..|]. intros env id job. by rewrite build_skipped, Hf, elem_of_list_to_set.
Qed.

(** The handlers as whole functions take what others do at their waits as an
    argument.  As long as that is something the node can come to meanwhile, so is what
    the handler does, from its first statement to its last: a stream, a request, a
    build, a pass of a retry loop and a dispatch are each a sequence of steps, cut at
    their waits, whoever else is waiting. *)
Theorem handlers_take_turns W lossy s s' :
  (aside W (alone W lossy) s s' -> alone W lossy s s')
  /\ (forall others orch peer payload now_ms r,
        within (alone W lossy) others -> in_u64 now_ms ->
        on_dispatch W others orch peer payload now_ms s = (r, s') -> alone W lossy s s')
  /\ (forall io es, results_pass W io s = (s', es) -> alone W lossy s s').
Proof.
  split_and!.
  - intros H ws. eapply aside_go; [|exact H]. intros t t' ws' Ht. apply Ht.
  - intros others orch peer payload now_ms r Hoth Hnow H ws.
    eapply dispatch_go; [|done..]. intros t t' ws' Ht. apply Ht.
  - intros io es H ws. by eapply results_go.
Qed.

(** *** Witnesses *)

Lemma fresh_runs : runs demo_outside false [] (fresh_node, []).
Proof. by apply (runs_init demo_outside false initial_health fresh_node). Qed.

(** Two streams bring the same dispatch and both find no task; both insert it. *)
Definition look_up (s : AppState) : option ComputeTask * AppState :=
  dispatch_begins demo_outside "orch" "orch" signed_dispatch 1000 s.
Definition put_in (s : AppState) : AppState := (insert demo_outside signed_task s).2.
Definition twice_dispatched : AppState := put_in (put_in (look_up (look_up fresh_node).2).2).

Lemma look_up_starts s :
  (look_up s).1 = Some signed_task -> starts demo_outside s [AtInsert signed_task] [] (look_up s).2.
Proof.
  intros H. destruct (look_up s) as [o s1] eqn:E. cbn [fst snd] in *. subst o.
  assert (Hnow : in_u64 1000) by (unfold in_u64; lia).
  exact (start_dispatch demo_outside "orch" "orch" signed_dispatch 1000 s (Some signed_task) s1
    Hnow E).
Qed.

Lemma put_in_resumes s : resumes demo_outside (AtInsert signed_task) s [] [] (put_in s).
Proof. eapply resume_at_insert. apply surjective_pairing. Qed.

Lemma twice_dispatched_runs : runs demo_outside false [] (twice_dispatched, []).
Proof.
  unfold twice_dispatched.
  assert (H1 : (look_up fresh_node).1 = Some signed_task) by (vm_compute; reflexivity).
  assert (H2 : (look_up (look_up fresh_node).2).1 = Some signed_task) by (vm_compute; reflexivity).
  apply look_up_starts in H1, H2. revert H1 H2.
  generalize (look_up fresh_node).2. intros s1. generalize (look_up s1).2. intros s2 H1 H2.
  assert (R1 : runs demo_outside false [] (s1, [AtInsert signed_task]))
    by exact (runs_step _ _ _ _ _ _ fresh_runs (step_start _ _ _ _ _ _ [] H1)).
  assert (R2 : runs demo_outside false [] (s2, [AtInsert signed_task; AtInsert signed_task]))
    by exact (runs_step _ _ _ _ _ _ R1 (step_start _ _ _ _ _ _ _ H2)).
  pose proof (runs_step _ _ _ _ _ _ R2
    (step_resume _ false _ _ _ _ _ [AtInsert signed_task] [] (put_in_resumes s2))) as R3.
  exact (runs_step _ _ _ _ _ _ R3 (step_resume _ false _ _ _ _ _ [] [] (put_in_resumes (put_in s2)))).
Qed.

Lemma tasks_are_accounted_witness :
  length twice_dispatched.(queue) = 1%nat
  /\ node_inv false (task_from_json demo_outside) twice_dispatched.
Proof.
  split; [vm_compute; reflexivity|].
  exact (tasks_are_accounted demo_outside false [] twice_dispatched [] demo_outside_ok
    twice_dispatched_runs).
Defined.

(** Two builds at wqc-core at once. *)
Definition build_of (id : string) (s : AppState) : progress * AppState * list effect :=
  build_begins demo_outside (demo_env built true) s id (SampleJson.sample_job true).
Definition one_build : AppState := (build_of "a" fresh_node).1.2.
Definition two_builds : Runtime :=
  ((build_of "b" one_build).1.2,
   waits_at "orch" "b" None (build_of "b" one_build).1.1
   ++ waits_at "orch" "a" None (build_of "a" fresh_node).1.1).

Lemma build_of_starts id s :
  (exists stage, (build_of id s).1.1 = Waits stage) ->
  starts demo_outside s (waits_at "orch" id None (build_of id s).1.1) (told (demo_env built true) id (build_of id s).1.1 (build_of id s).2)
    (build_of id s).1.2.
Proof.
  intros [stage H]. destruct (build_of id s) as [[p s1] es] eqn:E. cbn [fst snd] in *. subst p.
  exact (start_build demo_outside (demo_env built true) "orch" id (SampleJson.sample_job true)
    s (Waits stage) s1 es E).
Qed.

Lemma two_builds_runs : exists past, runs demo_outside false past two_builds.
Proof.
  unfold two_builds, one_build.
  assert (H1 : exists stage, (build_of "a" fresh_node).1.1 = Waits stage)
    by (eexists; vm_compute; reflexivity).
  assert (H2 : exists stage, (build_of "b" (build_of "a" fresh_node).1.2).1.1 = Waits stage)
    by (eexists; vm_compute; reflexivity).
  apply build_of_starts in H1, H2. revert H1 H2.
  generalize (build_of "a" fresh_node).1.1 as p. generalize (build_of "a" fresh_node).1.2 as s1.
  intros s1 p H1 H2. eexists. pose proof (runs_step _ _ _ _ _ _ fresh_runs (step_start _ _ _ _ _ _ [] H1)) as R1.
  rewrite app_nil_r in R1. exact (runs_step _ _ _ _ _ _ R1 (step_start _ _ _ _ _ _ _ H2)).
Qed.

Lemma builds_never_collide_witness :
  claims two_builds.2 = ["b"; "a"]
  /\ (build_of "a" two_builds.1).1.1 = Ended (Ok SkippedInFlight).
Proof.
  assert (Hc : claims two_builds.2 = ["b"; "a"]) by (vm_compute; reflexivity).
  split; [exact Hc|].
  assert (Ha : "a" ∈ claims two_builds.2) by (rewrite Hc; right; left).
  destruct two_builds_runs as [past Hruns].
  exact (proj2 (proj2 (proj2 (builds_never_collide demo_outside false past two_builds.1 two_builds.2
    demo_outside_ok Hruns)) (demo_env built true) "a" (SampleJson.sample_job true)) Ha).
Defined.

(** A dispatch that lets a pruning run between its lookup and its insertion. *)
Lemma handlers_take_turns_witness : alone demo_outside true fresh_node loaded_node.
Proof.
  refine (proj1 (proj2 (handlers_take_turns demo_outside true fresh_node loaded_node))
    (run_prune 1000 60) "orch" "orch" signed_dispatch 1000 _ _ _ (surjective_pairing _)).
  - intros s ws. apply rtc_once. exists (map Did []). apply step_atom, atom_prune.
  - by vm_compute.
Defined.
