(* ===== verification/Outboxes.v ===== *)
(** * What leaves the outboxes

    A result and a job for a bundle stay in the database until they are delivered.
    Here is what each statement and each step of [Overlap] takes out of the two
    tables, and why. *)

From S2P Require Import Prelude Bytes F64 FloatText Models Features MemoryBudget Validation GoJson.
From S2P Require Import Wire WorkLedger Pcs Table Storage CoreClient Config State AcceptTask.
From S2P Require Import Stream Cas SampleJson PcsOutbox PcsHandlers ResultJson ResultOutbox Ports.
From S2P Require Import Operator Geo Bid Host Worker Frame Turn Node Serde Codec Messages Intake Program.
From S2P Require Import Stages System Overlap.

(** The keys of the two outboxes. *)
Definition result_keys (d : Db) : list key := row_key <$> d.(pending_results).(rows).
Definition job_keys (d : Db) : list key := row_key <$> d.(pending_pcs).(rows).

(** No id changes hands. *)
Definition same_row {D} (r r' : Row D) : Prop :=
  r'.(row_id) = r.(row_id) /\ r'.(row_key) = r.(row_key).
Definition ids_kept {D} (t t' : Table D) : Prop :=
  t.(last_id) <= t'.(last_id)
  /\ forall r', r' ∈ t'.(rows) -> (exists r, r ∈ t.(rows) /\ same_row r r') \/ t.(last_id) < r'.(row_id).

(** Only results that satisfy [R] and jobs that satisfy [P] are gone. *)
Definition losing (R P : key -> Prop) (d d' : Db) : Prop :=
  (forall k, k ∈ result_keys d -> k ∈ result_keys d' \/ R k)
  /\ (forall k, k ∈ job_keys d -> k ∈ job_keys d' \/ P k)
  /\ ids_kept d.(pending_pcs) d'.(pending_pcs).

(** ** Lemmas *)

(** *** Tables *)

Lemma update_keys {D} (Q : Row D -> bool) f t :
  (forall r, (f r).(row_key) = r.(row_key)) ->
  row_key <$> (update_where Q f t).(rows) = row_key <$> t.(rows).
Proof.
  intros Hf. cbn. rewrite <- list_fmap_compose. apply list_fmap_ext. intros i r _. cbn.
  by destruct (Q r); rewrite ?Hf.
Qed.

Lemma upsert_keys {D} (t : Table D) k d now f k' :
  (forall r, (f r).(row_key) = r.(row_key)) ->
  k' ∈ row_key <$> t.(rows) -> k' ∈ row_key <$> (upsert_row t k d now f).(rows).
Proof.
  intros Hf Hk. unfold upsert_row, insert_row. destruct (select t k); [by rewrite update_keys|].
  cbn. rewrite fmap_app. apply elem_of_app. by left.
Qed.

Lemma delete_keys {D} (Q : Row D -> bool) (t : Table D) k :
  k ∈ row_key <$> t.(rows) ->
  k ∈ row_key <$> (delete_where Q t).(rows)
  \/ exists r, r ∈ t.(rows) /\ r.(row_key) = k /\ Q r = true.
Proof.
  intros (r & -> & Hr)%list_elem_of_fmap. destruct (Q r) eqn:HQ; [right; by exists r|left].
  apply list_elem_of_fmap_2. apply elem_delete_where. by split.
Qed.

Lemma ids_kept_refl {D} (t : Table D) : ids_kept t t.
Proof. split; [lia|]. intros r Hr. left. by exists r. Qed.

Lemma ids_kept_trans {D} (t t' t'' : Table D) : ids_kept t t' -> ids_kept t' t'' -> ids_kept t t''.
Proof.
  intros [L1 H1] [L2 H2]. split; [lia|]. intros r Hr.
  destruct (H2 r Hr) as [(r' & Hr' & E1 & E2)|]; [|right; lia].
  destruct (H1 r' Hr') as [(r0 & Hr0 & E3 & E4)|]; [left|right; lia].
  exists r0. split; [done|]. unfold same_row. split; congruence.
Qed.

Lemma update_ids {D} (Q : Row D -> bool) f t :
  (forall r, same_row r (f r)) -> ids_kept t (update_where Q f t).
Proof.
  intros Hf. split; [cbn; lia|]. intros r' (r & -> & Hr)%list_elem_of_fmap. left. exists r.
  split; [done|]. by destruct (Q r).
Qed.

Lemma upsert_ids {D} (t : Table D) k d now f :
  (forall r, same_row r (f r)) -> ids_kept t (upsert_row t k d now f).
Proof.
  intros Hf. unfold upsert_row, insert_row. destruct (select t k); [by apply update_ids|].
  split; cbn; [lia|]. intros r' [Hr| ->%list_elem_of_singleton]%elem_of_app; [left|right; cbn; lia].
  by exists r'.
Qed.

Lemma delete_ids {D} (Q : Row D -> bool) (t : Table D) : ids_kept t (delete_where Q t).
Proof.
  split; [cbn; lia|]. intros r [Hr _]%elem_delete_where. left. by exists r.
Qed.

Create HintDb losing.

Section losing.
Context (R P : key -> Prop).

#[export] Instance losing_preorder : PreOrder (losing R P).
Proof.
  split; [intros d; split_and!; [by left|by left|apply ids_kept_refl]|].
  intros d1 d2 d3 (R1 & P1 & I1) (R2 & P2 & I2). split_and!; [| |by eapply ids_kept_trans];
    intros k Hk; [destruct (R1 k Hk); [by apply R2|by right]|
    destruct (P1 k Hk); [by apply P2|by right]].
Qed.

Lemma losing_same d d' :
  d'.(pending_results) = d.(pending_results) -> d'.(pending_pcs) = d.(pending_pcs) -> losing R P d d'.
Proof.
  intros Hr Hp. unfold losing, result_keys, job_keys. rewrite Hr, Hp. split_and!; [by left|by left|apply ids_kept_refl].
Qed.

(** *** Statements *)

Definition stays {A} (m : St A) : Prop :=
  forall st r st', m st = (r, st') -> losing R P st.(db) st'.(db).

Lemma stmt_stays {A} (f : Db -> Z -> result StorageError (Db * A)) :
  (forall d now d' a, f d now = Ok (d', a) -> losing R P d d') -> stays (stmt f).
Proof.
  intros Hf st r st' H. destruct r as [a|e]; [apply stmt_Ok in H as [H _]; by eapply Hf|].
  apply stmt_Err in H as (-> & _). by apply losing_same.
Qed.

Lemma exec_stays f : (forall d now, losing R P d (f d now)) -> stays (exec f).
Proof. intros Hf. apply stmt_stays. by intros d now d' a [= <- _]. Qed.

Lemma query_stays {A} (f : Db -> Z -> A) : stays (query f).
Proof. apply stmt_stays. intros d now d' a [= <- _]. by apply losing_same. Qed.

Lemma decoding_stays {A B} (q : St A) (f : A -> result StorageError B) :
  stays q -> stays (decoding q f).
Proof.
  intros Hq st r st'. unfold decoding. destruct (q st) as [r1 st1] eqn:E.
  apply Hq in E. by destruct r1; intros [= _ <-].
Qed.

Lemma update_status_stays p i s : stays (update_status p i s).
Proof. apply exec_stays. intros d now. by apply losing_same. Qed.
Lemma prune_stays z : stays (prune_terminal_tasks z).
Proof. apply stmt_stays. intros d now d' a [= <- _]. by apply losing_same. Qed.
Lemma save_task_stays tj task : stays (save_task tj task).
Proof.
  unfold save_task. destruct (tj task); [|intros st r st' [= _ <-]; by apply losing_same].
  apply stmt_stays. intros d now d' a H. destruct (insert_row _ _ _ _); [|done].
  injection H as <- _. by apply losing_same.
Qed.
Lemma load_task_stays fj p i : stays (load_task fj p i).
Proof. apply decoding_stays, query_stays. Qed.
Lemma get_pcs_stays p i : stays (get_pending_pcs p i).
Proof. apply query_stays. Qed.
Lemma upsert_result_stays p i b : stays (upsert_pending_result p i b).
Proof.
  apply exec_stays. intros d now. split_and!; [|by left|apply ids_kept_refl]. intros k Hk. left.
  by apply upsert_keys.
Qed.
Lemma bump_result_stays i : stays (increment_pending_result_attempts i).
Proof.
  apply exec_stays. intros d now. split_and!; [|by left|apply ids_kept_refl]. intros k Hk. left.
  unfold result_keys. cbn [with_results pending_results]. by rewrite update_keys.
Qed.
Lemma upsert_pcs_stays tj p i j : stays (upsert_pending_pcs tj p i j).
Proof.
  unfold upsert_pending_pcs. destruct (tj j); [|intros st r st' [= _ <-]; by apply losing_same].
  apply exec_stays. intros d now. split_and!; [by left| |by apply upsert_ids]. intros k Hk. left.
  by apply upsert_keys.
Qed.
Lemma bump_pcs_stays i : stays (increment_pending_pcs_attempts i).
Proof.
  apply exec_stays. intros d now. split_and!; [by left| |by apply update_ids]. intros k Hk. left.
  unfold job_keys. cbn [with_pcs pending_pcs]. by rewrite update_keys.
Qed.

(** The statements that take rows out. *)
Lemma delete_result_stays p i : R (p, i) -> stays (delete_pending_result p i).
Proof.
  intros Hk. apply exec_stays. intros d now. split_and!; [|by left|apply ids_kept_refl]. intros k Hin.
  apply (delete_keys (has_key (p, i))) in Hin as [?|(r & _ & <- & Hr)]; [by left|right].
  by apply bool_decide_eq_true in Hr as ->.
Qed.
Lemma delete_pcs_stays p i : P (p, i) -> stays (delete_pending_pcs p i).
Proof.
  intros Hk. apply exec_stays. intros d now. split_and!; [by left| |apply delete_ids]. intros k Hin.
  apply (delete_keys (has_key (p, i))) in Hin as [?|(r & _ & <- & Hr)]; [by left|right].
  by apply bool_decide_eq_true in Hr as ->.
Qed.
End losing.

#[export] Hint Resolve update_status_stays prune_stays save_task_stays load_task_stays get_pcs_stays
  upsert_result_stays bump_result_stays upsert_pcs_stays bump_pcs_stays delete_result_stays
  delete_pcs_stays : losing.

(** *** Steps *)

Section steps.
Context (W : Outside) (R P : key -> Prop).

Definition loses (s s' : AppState) : Prop := losing R P s.(store).(db) s'.(store).(db).

#[export] Instance loses_preorder : PreOrder loses.
Proof.
  unfold loses. split; [intros s; reflexivity|]. intros s t u H K. by etransitivity.
Qed.

Lemma loses_db s s' : s'.(store).(db) = s.(store).(db) -> loses s s'.
Proof. unfold loses. by intros ->. Qed.

Lemma on_store_loses {A} (m : St A) s r s' : stays R P m -> on_store m s = (r, s') -> loses s s'.
Proof. intros Hm (st & H & ->)%on_store_eq. by apply Hm in H. Qed.

Lemma on_store_loses_2 {A} (m : St A) s : stays R P m -> loses s (on_store m s).2.
Proof. intros Hm. destruct (on_store m s) as [r s'] eqn:E. by eapply on_store_loses. Qed.

Lemma retain_loses tj fj s task proof s' es :
  retain_after_result tj fj s task proof = (s', es) -> loses s s'.
Proof.
  unfold retain_after_result. destruct (on_store _ s) as [r s1] eqn:E.
  apply on_store_loses in E; [|auto with losing].
  destruct (on_store _ s1) as [r2 s2] eqn:E2. apply on_store_loses in E2; [|auto with losing].
  destruct r2; intros [= <- _]; by etransitivity.
Qed.

Lemma retain_delivered_loses s entry s' es :
  retain_delivered (job_to_json W) (job_from_json W) (task_from_json W) (value_from_json W)
    proof_from_value s entry = (s', es) -> loses s s'.
Proof.
  unfold retain_delivered. destruct (on_store _ s) as [r s1] eqn:E.
  apply on_store_loses in E; [|auto with losing].
  destruct r as [[task|]|]; [|by intros [= <- _]..].
  destruct (extract_proof_from_result_wire _ _ _) as [[p|]|]; [|by intros [= <- _]..].
  intros H%retain_loses. by etransitivity.
Qed.

Lemma counted_loses row p s : loses s (counted row p s).
Proof.
  unfold counted. destruct p as [|[]]; [done..|]. destruct row as [[id pass]|]; [|done].
  apply on_store_loses_2. auto with losing.
Qed.

Lemma report_loses s s' : report W s = Some s' -> loses s s'.
Proof.
  unfold report, report_work. destruct (at_work s) as [[task o|]|]; [|done..]. intros [= <-].
  assert (Hst : forall p id st t, loses t (set_task_status p id st t))
    by (intros p id st t; apply on_store_loses_2; auto with losing).
  assert (Hend : forall t, loses t (end_work task t)) by (intros t; by apply loses_db).
  destruct (build_result_wire_body _ _ _ _ _ _); [|etransitivity; [apply Hst|apply Hend]].
  destruct (on_store _ _) as [[u|e] s2] eqn:E; apply on_store_loses in E; auto with losing;
    (etransitivity; [apply Hst|]); (etransitivity; [exact E|]); [|done]. apply Hst.
Qed.

Lemma conclude_loses s io s' es :
  (forall task p w, s.(at_work) = Some (Reporting task p w) ->
     ESend (Sent PROTOCOL_RESULT w) ∈ es -> R (task_key task)) ->
  conclude W io s = Some (s', es) -> loses s s'.
Proof.
  unfold conclude, conclude_work. destruct (at_work s) as [[|task p w]|]; [done| |done]. intros HR.
  destruct (try_deliver_pending _ _ _ _ _ _ _ _ _ _) as [[r s1] es1] eqn:E. intros [= <- <-].
  enough (H : loses s s1) by (etransitivity; [exact H|by apply loses_db]).
  unfold try_deliver_pending in E.
  destruct (send_result_wire _ s io w) as [[[]|e] sent] eqn:Es; [|by simplify_eq].
  apply send_result_Ok in Es as ->.
  assert (Hk : ESend (Sent PROTOCOL_RESULT w) ∈ es1 -> R (task_key task)) by (by apply (HR task p w)).
  assert (Hin : ESend (Sent PROTOCOL_RESULT w) ∈ es1).
  { destruct (on_store _ s) as [[u|e] s2]; [|simplify_eq; by left].
    destruct (bool_decide _), (pl_proof p); try (simplify_eq; by left).
    destruct (retain_after_result _ _ _ _ _). simplify_eq. by left. }
  apply Hk in Hin. clear Hk HR.
  destruct (on_store _ s) as [r2 s2] eqn:E2. apply on_store_loses in E2; [|by auto with losing].
  destruct r2; [|by simplify_eq]. destruct (bool_decide _), (pl_proof p); try by simplify_eq.
  destruct (retain_after_result _ _ s2 _ _) as [s3 es3] eqn:E3. simplify_eq.
  apply retain_loses in E3. by etransitivity.
Qed.

Lemma lookup_loses n s pubkey id o s' es :
  lookup_resumes W n s pubkey id = (o, s', es) -> loses s s'.
Proof.
  unfold lookup_resumes, resume_lookup. destruct n as [|n]; cbn [look]; [by intros [= _ <- _]|].
  destruct (on_store _ s) as [r s1] eqn:E. apply on_store_loses in E; [|auto with losing].
  destruct r as [[e|]|x]; [|by destruct n; intros [= _ <- _]|by intros [= _ <- _]].
  destruct (job_from_json W _) as [job|]; [|by intros [= _ <- _]]. unfold start_requested.
  destruct (job_requested job); [by intros [= _ <- _]|].
  destruct (on_store _ s1) as [r2 s2] eqn:E2. apply on_store_loses in E2; [|auto with losing].
  destruct r2; intros [= _ <- _]; by etransitivity.
Qed.

Lemma insert_loses task s r s' : insert W task s = (r, s') -> loses s s'.
Proof.
  unfold insert, save_new_task. destruct (on_store _ s) as [r1 s1] eqn:E.
  apply on_store_loses in E; [|auto with losing]. destruct r1 as [u|e].
  - intros (Hst & _)%count_hold_enqueue_spec. etransitivity; [exact E|]. apply loses_db. by rewrite Hst.
  - destruct (is_unique_violation e); [|by intros [= _ <-]].
    destruct (on_store _ s1) as [r2 s2] eqn:E2. apply on_store_loses in E2; [|auto with losing].
    assert (H : loses s s2) by (by etransitivity).
    destruct r2 as [[t|]|]; [destruct (dispatch_payload_matches _ _ _)|..]; by intros [= _ <-].
Qed.

Lemma build_begins_loses env s id job p s' es :
  build_begins W env s id job = (p, s', es) -> loses s s'.
Proof.
  unfold build_begins, begin_build. destruct (claim_inflight id s) as [b s1] eqn:E1.
  assert (H1 : loses s s1) by (injection E1 as _ <-; by apply loses_db).
  destruct b; [|by intros [= _ <- _]].
  destruct (ask_core _ _ _ _ _ _ _ _ _ _ _) as [[p2 s2] es2] eqn:E. intros H.
  assert (H2 : loses s1 s2).
  { unfold ask_core, put_bundle in E. destruct (job_leaf_pcs_b64 job).
    { by apply put_on_wire_state in E as ->. }
    destruct (is_in_backoff _ _); [by simplify_eq|].
    destruct (run_build _ _ _ _ _ _ _ _ _) as [[a s3] es3] eqn:E3.
    apply run_build_core in E3 as [h ->]. simplify_eq. by apply loses_db. }
  assert (H3 : loses s s2) by (by etransitivity).
  destruct p2; injection H as _ <- _; [done|]. etransitivity; [exact H3|by apply loses_db].
Qed.

Lemma build_resumes_loses env s pubkey id stage p s' es :
  (forall u c o, stage = Delivering (Ok u) c o -> P (pubkey, id)) ->
  build_resumes W env s pubkey id stage = (p, s', es) -> loses s s'.
Proof.
  intros HP. unfold build_resumes, resume_build.
  set (part := match stage with Proving _ _ => _ | _ => _ end).
  destruct part as [[p1 s1] es1] eqn:E; subst part. intros H.
  assert (H1 : loses s s1).
  { destruct stage as [job a|a c o].
    - unfold after_core, put_bundle in E. destruct a as [pcs|e].
      + destruct (on_store _ s) as [r s2] eqn:E2. apply on_store_loses in E2; [|auto with losing].
        destruct r; [|by simplify_eq]. by apply put_on_wire_state in E as ->.
      + destruct (is_core_down_error _); [by simplify_eq|].
        destruct (is_permanent _ _); [|by simplify_eq]. by apply put_on_wire_state in E as ->.
    - unfold after_send in E. destruct a as [u|e]; [|by simplify_eq]. specialize (HP _ _ _ eq_refl).
      destruct (on_store _ s) as [r s2] eqn:E2. apply on_store_loses in E2; [|auto with losing].
      destruct r; simplify_eq; [|done]. destruct c; [|done]. etransitivity; [exact E2|by apply loses_db]. }
  destruct p1; injection H as _ <- _; [done|]. etransitivity; [exact H1|by apply loses_db].
Qed.

Lemma resend_loses s entry answer s' es :
  (forall u, answer = Ok u -> R (result_key entry)) ->
  resend_resumes W s entry answer = (s', es) -> loses s s'.
Proof.
  intros HR. unfold resend_resumes, after_resend. destruct answer as [u|e].
  - specialize (HR u eq_refl). intros H%retain_delivered_loses. etransitivity; [|exact H].
    apply on_store_loses_2. by apply delete_result_stays.
  - intros [= <- _]. apply on_store_loses_2. auto with losing.
Qed.

Lemma delete_pcs_id_loses s id r s' :
  (forall row, row ∈ s.(store).(db).(pending_pcs).(rows) -> row.(row_id) = id -> P row.(row_key)) ->
  on_store (delete_pending_pcs_by_id id) s = (r, s') -> loses s s'.
Proof.
  intros HP (st & H & ->)%on_store_eq. unfold loses. cbn [with_store store].
  destruct r as [[]|e]; [apply exec_Ok in H|apply exec_Err in H]; rewrite H; [|by apply losing_same].
  split_and!; [by left| |apply delete_ids]. intros k Hk.
  apply (delete_keys (has_id id)) in Hk as [?|(row & Hrow & <- & Hid)]; [by left|right].
  apply HP; [done|]. unfold has_id in Hid. lia.
Qed.

Lemma open_request_loses s pubkey r s' es : open_request W s pubkey r = (s', es) -> loses s s'.
Proof.
  unfold open_request, handle_open_call_pcs_request. destruct (decide _); [by intros [= <- _]|].
  destruct (cached_open_call _ _ _); [|by intros [= <- _]].
  destruct (on_store _ s) as [r1 s1] eqn:E. apply on_store_loses in E; [|auto with losing].
  by destruct r1; intros [= <- _].
Qed.

Lemma atom_loses lossy s es s' :
  (forall task p w, s.(at_work) = Some (Reporting task p w) ->
     ESend (Sent PROTOCOL_RESULT w) ∈ es -> R (task_key task)) ->
  atom W lossy s es s' -> loses s s'.
Proof.
  intros HR. destruct 1 as [orch peer env payload s r s' w H|env payload s r s' w H
    |orch peer payload si now ios s r s' w H|s pubkey r s' es H|s r s' acts H|s fs now
    |s env s' es _ H|s s' _ H|s io s' es H|s now ret].
  - unfold on_announcement, on_announce_stream in H. case_decide; [|by simplify_eq].
    apply announcement_kept in H as (_ & ? & ? & _). by apply losing_same.
  - apply announcement_kept in H as (_ & ? & ? & _). by apply losing_same.
  - unfold on_open_call, on_pcs_open_stream, handle_pcs_open_stream in H.
    repeat case_match; simplify_eq; by apply loses_db.
  - by eapply open_request_loses.
  - unfold start_host in H. destruct (orchestrator_peer_id _); simplify_eq; by apply loses_db.
  - by apply loses_db.
  - apply begin_spec in H as (task & rest & o & _ & _ & _ & Hst & _). apply loses_db. by rewrite Hst.
  - by eapply report_loses.
  - by eapply conclude_loses.
  - apply on_store_loses_2. auto with losing.
Qed.

(** A row goes by its id only when the entry was listed unrequested and is too old. *)
Definition expired (pass : Pass) (entry : PendingPcs) : Prop :=
  exists job, job_from_json W entry.(pp_job_json) = Some job /\ job.(job_requested) = false
  /\ pass.(pass_ttl) <= pass.(pass_now) - entry.(pp_created_at).

Lemma pass_entry_loses env s pass entry out s' es :
  (forall row, row ∈ s.(store).(db).(pending_pcs).(rows) -> row.(row_id) = entry.(pp_id) ->
     expired pass entry -> P row.(row_key)) ->
  pass_entry W env s pass entry = (out, s', es) -> loses s s'.
Proof.
  intros HP. unfold pass_entry. destruct (job_from_json W _) as [job|] eqn:Hj; [|by intros [= _ <- _]].
  destruct (job_requested job) eqn:Hq; cbn [negb].
  - destruct (build_begins _ _ _ _ _) as [[p s1] es1] eqn:E. intros [= _ <- _].
    apply build_begins_loses in E. etransitivity; [exact E|apply counted_loses].
  - destruct (Z.leb_spec (pass_ttl pass) (pass_now pass - pp_created_at entry)); [|by intros [= _ <- _]].
    destruct (on_store _ s) as [r s1] eqn:E. intros [= _ <- _]. eapply delete_pcs_id_loses; [|exact E].
    intros row Hrow Hid. apply HP; [done..|]. by exists job.
Qed.
End steps.

(** *** What was listed *)

(** An entry that was listed still has its id to itself. *)
Definition entry_key (e : PendingPcs) : key := (e.(pp_orchestrator_pubkey), e.(pp_sub_task_id)).
Definition known (past : list event) (d : Db) : Prop :=
  forall e, ListedJob e ∈ past ->
  e.(pp_id) <= d.(pending_pcs).(last_id)
  /\ forall r, r ∈ d.(pending_pcs).(rows) -> r.(row_id) = e.(pp_id) -> r.(row_key) = entry_key e.

Lemma known_kept R P past d d' : losing R P d d' -> known past d -> known past d'.
Proof.
  intros (_ & _ & Hl & Hr) Hk e [He Hid]%Hk. split; [lia|]. intros r' Hin Hi.
  destruct (Hr r' Hin) as [(r & Hr' & E1 & E2)|]; [|lia]. rewrite E2. apply Hid; [done|congruence].
Qed.

Lemma listed_known past s entries s' :
  db_wf s.(store).(db) -> on_store list_pending_pcs s = (Ok entries, s') ->
  known past s'.(store).(db) -> known (past ++ map ListedJob entries) s'.(store).(db).
Proof.
  intros Hwf (st & H & ->)%on_store_eq Hk e [He|He]%elem_of_app; [by apply Hk|].
  pose proof H as Hdb%query_db. cbn [with_store store] in *. rewrite Hdb.
  apply stmt_Ok in H as [H _]. injection H as _ <-.
  apply list_elem_of_fmap in He as (e' & [= <-] & He). apply list_elem_of_fmap in He as (r & -> & Hr).
  apply (proj1 (elem_of_Permutation_proper r _ _ (ordered_perm _))) in Hr.
  destruct Hwf as [_ _ Hwf]. cbn. pose proof (tw_last _ Hwf) as Hl.
  rewrite Forall_forall in Hl. split; [by apply (Hl r Hr)|]. intros r' Hr' Hid.
  assert (r' = r) as -> by (by eapply nodup_id_inj). unfold entry_key. cbn. by destruct (row_key r).
Qed.

(** *** What leaves *)

Section leaves.
Context (W : Outside).

(** Why a result leaves: it was listed, sent by the retry loop and is being deleted,
    or the worker sends it in this very step. *)
Definition result_delivered (past evs : list event) (x : Runtime) (k : key) : Prop :=
  (exists entry u rest, AtResend entry (Ok u) rest ∈ x.2 /\ result_key entry = k
    /\ ListedResult entry ∈ past
    /\ Did (ESend (Sent PROTOCOL_RESULT entry.(prs_wire_body))) ∈ past)
  \/ exists task payload wire, x.1.(at_work) = Some (Reporting task payload wire)
    /\ task_key task = k /\ Did (ESend (Sent PROTOCOL_RESULT wire)) ∈ evs.

(** Why a job leaves: a build of its sub-task sent the bundle or the refusal and has
    the peer's acknowledgement, or a retry pass has come to it, which listed it
    unrequested and older than the time to live. *)
Definition job_settled (past : list event) (x : Runtime) (k : key) : Prop :=
  (exists next u clears outcome wire reply,
     AtBuild k.1 k.2 next (Delivering (Ok u) clears outcome) ∈ x.2
     /\ message_of W k.2 outcome wire /\ Did (ESend (Sent PROTOCOL_PCS wire)) ∈ past
     /\ acknowledges W reply /\ Replied k.2 reply ∈ past)
  \/ exists now ttl entry rest, AtPass (mkPass now ttl (entry :: rest)) ∈ x.2
     /\ entry_key entry = k /\ ListedJob entry ∈ past /\ expired W (mkPass now ttl rest) entry.

Lemma starts_loses R P s out evs s' : starts W s out evs s' -> loses R P s s'.
Proof.
  destruct 1 as [env pubkey id job s p s' es H|now ttl s entries s' H|pubkey id s o s' es H
    |s entries s' H|orch peer payload now s o s' Hnow H].
  - apply build_begins_loses with (R := R) (P := P) in H. etransitivity; [exact H|apply counted_loses].
  - eapply on_store_loses; [|exact H]. apply query_stays.
  - by eapply lookup_loses.
  - eapply on_store_loses; [|exact H]. apply query_stays.
  - apply begin_dispatch_spec in H as [Hs _]; [|done]. apply loses_db. by destruct_and! Hs.
Qed.

Lemma resumes_loses past evs w s out s' ws1 ws2 :
  waiting_ok W past w -> known past s.(store).(db) -> resumes W w s out evs s' ->
  loses (result_delivered past evs (s, ws1 ++ w :: ws2)) (job_settled past (s, ws1 ++ w :: ws2)) s s'.
Proof.
  intros Hw Hk H.
  assert (Hin : w ∈ ws1 ++ w :: ws2) by set_solver.
  destruct H as [env pubkey id next stage s p s' es H|env now ttl entry rest s out s' evs H|now ttl s
    |pubkey id n s o s' es H|io entry rest s answer es H|s|entry answer rest s s' es H|task s r s' H].
  - eapply build_resumes_loses in H; [etransitivity; [exact H|apply counted_loses]|].
    intros u c o ->. destruct Hw as [(wire & reply & Hm & Hs & Ha & Hr) _]. left.
    exists next, u, c, o, wire, reply. auto.
  - eapply pass_entry_loses; [|exact H]. intros row Hrow Hid Hex.
    assert (Hl : ListedJob entry ∈ past) by (apply Hw; cbn; by left).
    right. exists now, ttl, entry, rest. split_and!; try done.
    symmetry. by apply (Hk entry Hl).
  - done.
  - by eapply lookup_loses.
  - done.
  - done.
  - eapply resend_loses; [|exact H]. intros u ->. left. destruct Hw as [Hl Hs].
    exists entry, u, rest. split_and!; [done..| |by apply Hs]. apply Hl. cbn. by left.
  - by eapply insert_loses.
Qed.

Lemma step_loses lossy past x evs y :
  runtime_inv W lossy past x -> known past x.1.(store).(db) -> step W lossy x evs y ->
  loses (result_delivered past evs x) (job_settled past x) x.1 y.1.
Proof.
  intros Hx Hk H. destruct H as [s es s' ws H|s out evs s' ws H|w s out evs s' ws1 ws2 H]; cbn [fst].
  - eapply atom_loses; [|exact H]. intros task p w Hw Hin. right. exists task, p, w.
    split_and!; [done..|]. by apply list_elem_of_fmap_2.
  - by eapply starts_loses.
  - apply ri_waiting in Hx. cbn in Hx. apply Forall_app in Hx as [_ [Hw _]%Forall_cons].
    by eapply resumes_loses.
Qed.

Lemma step_known lossy past x evs y :
  runtime_inv W lossy past x -> known past x.1.(store).(db) -> step W lossy x evs y ->
  known (past ++ evs) y.1.(store).(db).
Proof.
  intros Hx Hk H. pose proof (step_loses _ _ _ _ _ Hx Hk H) as Hl. eapply known_kept in Hk; [|exact Hl].
  assert (Hno : (forall e, ListedJob e ∉ evs) -> known (past ++ evs) y.1.(store).(db)).
  { intros Hno e [He|He]%elem_of_app; [by apply Hk|by destruct (Hno e)]. }
  assert (Hdid : forall es e, ListedJob e ∉ map Did es) by (intros es e (? & ? & _)%list_elem_of_fmap; done).
  assert (Htold : forall env id p es e, ListedJob e ∉ told env id p es).
  { intros env id p es e [He|He]%elem_of_app; [|by eapply Hdid].
    destruct p as [[|[]]|]; try by apply elem_of_nil in He.
    destruct (reply (be_send env)); cbn in He; [by apply list_elem_of_singleton in He|].
    by apply elem_of_nil in He. }
  destruct H as [s es s' ws H|s out evs s' ws H|w s out evs s' ws1 ws2 H]; cbn [fst] in *.
  - by apply Hno.
  - destruct H as [env pubkey id job s p s' es H|now ttl s entries s' H|pubkey id s o s' es H
      |s entries s' H|orch peer payload now s o s' Hnow H]; try by apply Hno.
    + eapply listed_known; [|exact H|done]. apply Hx.
    + apply Hno. by intros e (? & ? & _)%list_elem_of_fmap.
    + apply Hno. by intros e ?%elem_of_nil.
  - apply Hno. destruct H as [| ? ? ? ? ? ? ? ? evs H| | | | | |]; try done;
      try (by intros e ?%elem_of_nil).
    apply pass_entry_cases in H as [(_ & -> & _)|(? & ? & ? & ? & _ & -> & _)];
      [by intros e ?%elem_of_nil|done].
Qed.

Lemma start_db_kept fj health st s : start_node fj health st = Running s -> s.(store).(db) = st.(db).
Proof. intros H. by apply start_db in H as [H _]. Qed.

Lemma runs_known lossy past x :
  outside_ok W -> runs W lossy past x -> known past x.1.(store).(db).
Proof.
  intros Hout. induction 1 as [lossy health s Hs|lossy past x evs y Hr IH H|lossy past x fs health s' _ IH Hs].
  - by intros e ?%elem_of_nil.
  - eapply step_known; [by apply runs_inv|done..].
  - cbn [fst]. apply start_db_kept in Hs. by rewrite Hs.
Qed.
End leaves.

(** ** Theorems *)


(** The cause may be out of date.  What was acknowledged is what was on the wire: a
    job stored under the key while the message was there goes with it, unsent. *)
Theorem acknowledgement_takes_newer_job W env s pubkey id u clears outcome p s' es :
  head s.(store).(faults) <> Some true ->
  build_resumes W env s pubkey id (Delivering (Ok u) clears outcome) = (p, s', es) ->
  ((pubkey, id) ∉ job_keys s'.(store).(db)) /\ es = [].
Proof.
  intros Hf. unfold build_resumes, resume_build, after_send.
  destruct (on_store _ s) as [r s1] eqn:E. pose proof E as [_ Hr]%exec_outcome.
  destruct r as [[]|e]; [|by specialize (Hr Hf)]. intros H.
  assert (Hdb : s'.(store).(db) = s1.(store).(db) /\ es = []) by (by destruct clears; injection H as _ <- <-).
  destruct Hdb as [-> ->]. split; [|done]. apply on_store_eq in E as (st & E & ->).
  apply exec_Ok in E. cbn [with_store store]. rewrite E. intros (r & Hk & Hin)%list_elem_of_fmap.
  apply elem_delete_where in Hin as [_ Hin]. unfold has_key in Hin.
  by rewrite bool_decide_eq_false in Hin.
Qed.

(** And the age is that of the listing: a row that was unrequested then is dropped
    even if it was requested, or given a bundle, while the pass waited for the builds
    of earlier entries. *)
Theorem stale_listing_drops_request W env s pass entry out s' evs :
  head s.(store).(faults) <> Some true -> expired W pass entry ->
  pass_entry W env s pass entry = (out, s', evs) ->
  (forall row, row ∈ s'.(store).(db).(pending_pcs).(rows) -> row.(row_id) <> entry.(pp_id))
  /\ evs = [].
Proof.
  intros Hf (job & Hj & Hq & Ht). unfold pass_entry. rewrite Hj, Hq. cbn [negb].
  replace (_ <=? _) with true by lia. destruct (on_store _ s) as [r s1] eqn:E. intros [= _ <- <-].
  pose proof E as [_ Hr]%exec_outcome. destruct r as [[]|e]; [|by specialize (Hr Hf)].
  split; [|done]. cbn [snd]. apply on_store_eq in E as (st & E & ->).
  apply exec_Ok in E. cbn [with_store store]. rewrite E. intros row [_ Hid]%elem_delete_where.
  unfold has_id in Hid. lia.
Qed.

(** *** Witnesses *)

(** A build from its start to the peer's yes. *)
Definition answered : BuildEnv :=
  mkBuildEnv 0 0 0 0 (Response 200 None "") built (CasSendError demo_http) (fun s => s)
    (mkStreamIo true true true (Some (sample_print (VObject [("ok", VBool true)])))) (fun s => s).
Definition online_node : AppState :=
  (start_host demo_outside.(o_config) demo_outside.(o_valid_multiaddr) fresh_node).1.2.
Definition proved : BuildStage :=
  Proving (SampleJson.sample_job true) (Ok (mkLeafPcsResponse "bundle" 6)).
Definition acked : BuildStage := Delivering (Ok tt) false Delivered.
Definition proving_node : AppState :=
  (build_begins demo_outside answered online_node "t1" (SampleJson.sample_job true)).1.2.
Definition sending_node : AppState :=
  (build_resumes demo_outside answered proving_node "orch" "t1" proved).1.2.
Definition done_node : AppState :=
  (build_resumes demo_outside answered sending_node "orch" "t1" acked).1.2.

Lemma sending_node_runs :
  exists past, runs demo_outside false past (sending_node, [AtBuild "orch" "t1" None acked]).
Proof.
  assert (H0 : atom demo_outside false fresh_node [] online_node)
    by exact (atom_host demo_outside false fresh_node _ online_node _ eq_refl).
  assert (H1 : (build_begins demo_outside answered online_node "t1" (SampleJson.sample_job true)).1.1
    = Waits proved) by (vm_compute; reflexivity).
  assert (H2 : (build_resumes demo_outside answered proving_node "orch" "t1" proved).1.1
    = Waits acked) by (vm_compute; reflexivity).
  unfold sending_node. revert H2. unfold proving_node. revert H0 H1. generalize online_node.
  intros s0 H0. destruct (build_begins _ _ s0 _ _) as [[p1 s1] es1] eqn:E1. cbn [fst snd].
  intros ->. destruct (build_resumes _ _ s1 _ _ _) as [[p2 s2] es2] eqn:E2. cbn [fst snd].
  intros ->. eexists.
  pose proof (runs_step _ _ _ _ _ _ fresh_runs (step_atom _ _ _ _ _ [] H0)) as R0.
  pose proof (runs_step _ _ _ _ _ _ R0 (step_start demo_outside false _ _ _ _ []
    (start_build demo_outside answered "orch" "t1" _ s0 _ s1 es1 E1))) as R1.
  exact (runs_step _ _ _ _ _ _ R1 (step_resume demo_outside false _ _ _ _ _ [] []
    (resume_at_build demo_outside answered "orch" "t1" None proved s1 _ s2 es2 E2))).
Qed.

Lemma done_node_step : exists evs, step demo_outside false
  (sending_node, [AtBuild "orch" "t1" None acked]) evs (done_node, []).
Proof.
  assert (H : (build_resumes demo_outside answered sending_node "orch" "t1" acked).1.1
    = Ended (Ok Delivered)) by (vm_compute; reflexivity).
  unfold done_node. revert H. generalize sending_node. intros s0.
  destruct (build_resumes _ _ s0 _ _ _) as [[p s1] es] eqn:E. cbn [fst snd]. intros ->. eexists.
  exact (step_resume demo_outside false _ _ _ _ _ [] []
    (resume_at_build demo_outside answered "orch" "t1" None acked s0 _ s1 es E)).
Qed.

