(* ===== verification/Main.v ===== *)
(** * Startup ([src/main.rs])

    The whole start of the process, in the order of [main]: the environment, the
    client of wqc-core and what it supports, the database, the orchestrator's
    bootstrap, the location, and the tasks left from the last run. *)

From S2P Require Import Prelude Bytes F64 FloatText Models MemoryBudget Wire WorkLedger Pcs Table.
From S2P Require Import Token Storage CoreClient Config Operator Geo State Env Frame Node Startup System.

(** What the process meets when it starts. *)
Record World := mkWorld {
  w_env : string -> option string;
  w_host_memory : Z;
  w_client_builds : Transport -> bool;             (* of [reqwest]'s builder *)
  w_started : Z;                                   (* the clock when the wait for wqc-core starts *)
  w_polls : list (HttpOutcome unit * Z);
  w_gates : HttpOutcome (list string);
  w_sysinfo : HttpOutcome CoreSystemInfo;
  w_open_db : option Store;                        (* [Storage::new] *)
  w_bootstrap : string -> option BootstrapResponse;
  w_providers : Providers
}.

Inductive BootError :=
| ConfigRejected (e : ConfigError)
| ClientPanicked             (* [expect] on the client's builder *)
| StillWaiting               (* the polls given do not decide the wait for wqc-core *)
| NoDatabase
| BootstrapUnresolved (e : BootstrapError)
| BootstrapRejected (e : BootstrapError).

Section main.
Context (b64_decode : string -> option bytes) (peer_id_of_key : bytes -> option string).
Context (bigint_from_str : bytes -> option Z).
Context (hmac : bytes -> bytes -> bytes) (sha256 : bytes -> bytes) (hex_encode : bytes -> string).
Context (verifying_key : bytes -> bytes).
Context (parse_peer_id : string -> option string) (parse_multiaddr : string -> option (list protocol)).
Context (task_from_json : string -> option ComputeTask).

(** Up to the spawning of the worker, the host and the loops. *)
Definition boot (w : World)
  : result BootError (NodeConfig * WqcCoreClient * list string * option GeoInfo * startup) :=
  config ← map_err ConfigRejected
    (from_env w.(w_env) b64_decode peer_id_of_key bigint_from_str hmac sha256 hex_encode
       verifying_key w.(w_host_memory));
  core_client ← ok_or ClientPanicked
    (WqcCoreClient_new w.(w_env) w.(w_client_builds) config.(core_url)
       (from_secs config.(compute_timeout_secs)) (from_secs config.(pcs_timeout_secs)));
  (* the answer is only logged *)
  _ ← ok_or StillWaiting (wait_until_up w.(w_started) (from_secs 120) w.(w_polls));
  let supported_gates := sync_core_capabilities w.(w_gates) in
  let config :=
    match get_json w.(w_sysinfo) with
    | Ok info => apply_core_sysinfo config info
    | Err _ => config
    end in
  storage ← ok_or NoDatabase w.(w_open_db);
  bootstrap ← map_err BootstrapUnresolved
    (resolve_bootstrap parse_peer_id parse_multiaddr w.(w_bootstrap) config.(bootstrap_urls));
  config ← map_err BootstrapRejected (apply_orchestrator_bootstrap config bootstrap);
  let '(node_geo, storage) := resolve_node_location w.(w_providers) storage in
  Ok (config, core_client, supported_gates, node_geo,
      start_node task_from_json core_client.(client_health) storage).
End main.

(** What [main] spawns once the tasks are restored, with the settings of the loops. *)
Inductive Spawned :=
| WorkerLoop
| P2pHost
| ResultRetryLoop (interval : Z)
| PcsRetryLoop (interval unrequested_ttl : Z)
| PruneLoop (retention interval : Z)
| MetricsCollector.

Definition spawned (env : string -> option string) : list Spawned :=
  let '(pcs_interval, ttl) := pcs_retry_settings env in
  [WorkerLoop; P2pHost; ResultRetryLoop (result_retry_interval env); PcsRetryLoop pcs_interval ttl]
  ++ match prune_settings env with
     | Some (retention, interval) => [PruneLoop retention interval]
     | None => []
     end
  ++ [MetricsCollector].

(** [format!("0.0.0.0:{}", config.http_port)] *)
Definition bind_addr (config : NodeConfig) : string :=
  of_chars (lit "0.0.0.0:" ++ dec_text config.(http_port)).

(** The rest of [main]: the tasks run only once every restored task is queued, and
    a port that cannot be bound ends the process with them. *)
Inductive Outcome :=
| Stopped (e : StorageError)       (* before anything is spawned *)
| Stuck                            (* a [send] to the queue waits for ever *)
| NoPort (tasks : list Spawned)
| Serving (addr : string) (tasks : list Spawned) (s : AppState).
Definition main_tail (env : string -> option string) (binds : string -> bool) (config : NodeConfig)
  (started : startup) : Outcome :=
  match started with
  | NotStarted e => Stopped e
  | Blocked => Stuck
  | Running s =>
    let addr := bind_addr config in
    if binds addr then Serving addr (spawned env) s else NoPort (spawned env)
  end.

(** ** Lemmas *)

Lemma resolved_valid parse_peer parse_addr http_get urls b :
  resolve_bootstrap parse_peer parse_addr http_get urls = Ok b ->
  exists url payload, url ∈ urls /\ http_get (trim (trim url)) = Some payload
    /\ bootstrap_valid parse_peer parse_addr payload b.
Proof.
  unfold resolve_bootstrap. case_decide; [done|]. intros (i & raw & Hi & _ & Hf & _)%try_urls_ok.
  apply fetch_ok in Hf as (payload & Hget & Hv). exists raw, payload.
  split_and!; [by eapply list_elem_of_lookup_2|done|done].
Qed.

(** The location does not touch what a restart reads. *)
Lemma resolve_location_db p st :
  db_wf st.(db) -> db_wf (resolve_node_location p st).2.(db)
  /\ a_tasks (abs (resolve_node_location p st).2.(db)) = a_tasks (abs st.(db))
  /\ pending_rows (resolve_node_location p st).2.(db) = pending_rows st.(db).
Proof.
  pose proof (resolve_location_tables p st) as (Ht & Hr & Hp). intros [Wt Wr Wp].
  unfold abs, pending_rows. cbn. rewrite Ht. split_and!; [|done|done].
  split; by rewrite ?Ht, ?Hr, ?Hp.
Qed.

Lemma map_err_Ok {E F A} (f : E -> F) (r : result E A) a : map_err f r = Ok a -> r = Ok a.
Proof. destruct r; [by intros [= ->]|done]. Qed.

(** ** Theorems *)

(** C10. A node that starts is sound: its configuration passed every check, the
    orchestrator it trusts is one a configured URL named consistently, and it
    begins in a state of the invariant, with every pending task of a readable
    database in its queue; or, with more of them than the queue holds, it does not
    begin at all. *)
Theorem booted_node_is_sound decode peer_of bigint hmac sha hex vk parse_peer parse_addr fj w st
  config core gates geo outcome :
  boot decode peer_of bigint hmac sha hex vk parse_peer parse_addr fj w
  = Ok (config, core, gates, geo, outcome) ->
  w.(w_open_db) = Some st -> db_wf st.(db) -> coherent fj (a_tasks (abs st.(db))) ->
  config_wf config
  /\ (exists url payload b, url ∈ config.(bootstrap_urls)
        /\ w.(w_bootstrap) (trim (trim url)) = Some payload
        /\ bootstrap_valid parse_peer parse_addr payload b
        /\ config.(orchestrator_peer_id) = Some b.(ob_peer_id)
        /\ config.(orchestrator_public_key) = Some b.(ob_public_key_b64)
        /\ config.(bootstrap_peers) = b.(multiaddrs))
  /\ match outcome with
     | Running s =>
       node_inv false fj s /\ (length (pending_rows st.(db)) <= QUEUE_CAPACITY)%nat
       /\ Forall2 (fun row t => fj row.(row_data).(payload) = Some t) (pending_rows st.(db)) s.(queue)
     | Blocked => (QUEUE_CAPACITY < length (pending_rows st.(db)))%nat
     | NotStarted e => True
     end.
Proof.
  intros H Hst Hwf Hc. unfold boot in H.
  apply result_bind_Ok in H as (c0 & Hc0%map_err_Ok & H). apply from_env_wf in Hc0.
  apply result_bind_Ok in H as (client & _ & H).
  apply result_bind_Ok in H as (up & _ & H).
  set (c1 := match get_json _ with Ok _ => _ | Err _ => c0 end) in H.
  assert (Hc1 : config_wf c1)
    by (unfold c1; destruct (get_json _); [by apply apply_core_sysinfo_wf|done]).
  rewrite Hst in H. cbn [ok_or mbind result_bind] in H.
  apply result_bind_Ok in H as (b & Hb%map_err_Ok & H).
  apply result_bind_Ok in H as (c2 & Hc2%map_err_Ok & H).
  assert (Hurls : c2.(bootstrap_urls) = c1.(bootstrap_urls))
    by (revert Hc2; unfold apply_orchestrator_bootstrap; case_decide; [done|by intros [= <-]]).
  apply apply_bootstrap_wf in Hc2 as (Hwf2 & Hpeer & Hkey & Haddrs); [|done].
  apply resolved_valid in Hb as (url & payload & Hurl & Hget & Hvalid).
  pose proof (resolve_location_db w.(w_providers) st Hwf) as (Hwf' & Htasks & Hrows).
  destruct (resolve_node_location _ st) as [g st'] eqn:Hloc. cbn [snd] in *.
  injection H as <- <- <- <- Hout. split; [done|]. split.
  { exists url, payload, b. rewrite Hurls. by split_and!. }
  rewrite <- Htasks in Hc. rewrite <- Hrows. clear Hloc. subst outcome.
  destruct (start_node fj (client_health client) st') as [e| |s] eqn:Hs; [done| |].
  - unfold start_node in Hs. destruct (get_pending_tasks fj st') as [[ts|e] st2] eqn:E; [|done].
    apply get_pending_spec in E as [_ Hts]. rewrite (Forall2_length _ _ _ (Hts ts eq_refl)).
    destruct (restore_spec ts (mkAppState (count_pending_results st2).2 empty_ledger
      (as_u64 (Z.of_nat (length ts))) [] true (client_health client) false ∅ ∅ None) eq_refl) as [Hr _].
    destruct (restore ts _); [done|]. exact Hr.
  - pose proof (start_inv false fj _ _ _ Hwf' Hc Hs) as Hinv. split; [done|].
    unfold start_node in Hs. destruct (get_pending_tasks fj st') as [[ts|e] st2] eqn:E; [|done].
    apply get_pending_spec in E as [_ Hts]. specialize (Hts ts eq_refl).
    destruct (restore_spec ts (mkAppState (count_pending_results st2).2 empty_ledger
      (as_u64 (Z.of_nat (length ts))) [] true (client_health client) false ∅ ∅ None) eq_refl) as [Hr _].
    destruct (restore ts _) as [s0|]; [|done]. injection Hs as <-.
    destruct Hr as (Hlen & Hq & _). cbn in Hlen, Hq. rewrite (Forall2_length _ _ _ Hts), Hq.
    split; [unfold QUEUE_CAPACITY in *; lia|done].
Qed.

(** *** Witnesses *)

Definition demo_world (n : nat) : World :=
  mkWorld minimal_env (8 * GIB_U64) (fun _ => true) 0 [(Response 200 (Some tt) "", 1)]
    (Response 200 (Some ["H"; "X"]) "") (Response 200 (Some sample_info) "") (Some (crowded n))
    (fun url => if decide (url = "http://b")
                then Some (mkBootstrapResponse "P" " key " ["/p2p/P"]) else None)
    no_providers.

Abbreviation demo_boot n := (boot toy_seed (fun _ => Some "peer") sample_bigint toy_hmac
  (fun b => b) of_bytes (fun b => b) Some (fun raw => Some [OtherProtocol; P2p "P"])
  numbered_from_json (demo_world n)).

Definition booted (n : nat) : option startup :=
  match demo_boot n with Ok (_, _, _, _, o) => Some o | Err _ => None end.

Lemma booted_node_is_sound_witness : exists s, booted 3 = Some (Running s) /\ length s.(queue) = 3%nat.
Proof.
  unfold booted.
  destruct (demo_boot 3) as [[[[[config core] gates] geo] outcome]|e] eqn:E; [|by vm_compute in E].
  pose proof (booted_node_is_sound _ _ _ _ _ _ _ _ _ _ _ (crowded 3) config core gates geo outcome E
    eq_refl (crowded_wf 3) (crowded_coherent 3)) as (_ & _ & H).
  destruct outcome as [e| |s].
  - vm_compute in E. discriminate E.
  - vm_compute in H. lia.
  - exists s. split; [done|]. destruct H as (_ & _ & H). by rewrite <- (Forall2_length _ _ _ H).
Defined.
