(* ===== verification/TestSupport.v ===== *)
(** * What the unit tests run on

    The repository's unit tests run on the real libraries.  To run them on the model,
    its parameters get concrete functions here: SHA-256 (FIPS 180-4), HMAC (RFC
    2104), base64, the public keys of Ed25519 (RFC 8032), the shortest decimals of
    [ryu], and the texts of JSON documents (RFC 8259).  A signature is a hash of the
    key and of what is signed. *)

From Stdlib Require Import Floats.SpecFloat.
From S2P Require Import Prelude Bytes F64 FloatText Models GoJson Wire Table Storage CoreClient Config.
From S2P Require Import State Stream Cas PcsOutbox Operator Env.

(** ** SHA-2 (FIPS 180-4) *)

(** What SHA-256 and SHA-512 differ in: the width of a word, the rotations (the last
    one of a small sigma is a shift), the round constants and the initial hash. *)
Record sha2 := mkSha2 {
  w : Z; sigma0 : Z * Z * Z; sigma1 : Z * Z * Z; Sigma0 : Z * Z * Z; Sigma1 : Z * Z * Z;
  K : list Z; H0 : list Z
}.

(** The integer cube root, bit by bit. *)
Fixpoint cbrt_bits (bits : nat) (n r : Z) : Z :=
  match bits with
  | O => r
  | S b =>
    let r' := r + 2 ^ Z.of_nat b in
    cbrt_bits b n (if r' * r' * r' <=? n then r' else r)
  end.

Definition is_prime (n : Z) : bool :=
  forallb (fun d => negb (n mod d =? 0)) (map Z.of_nat (List.seq 2 (Z.to_nat (Z.sqrt n) - 1))).
Definition primes (n : nat) : list Z :=
  take n (List.filter is_prime (map Z.of_nat (List.seq 2 410))).

(** The first [w] bits of the fractional parts of cube roots and square roots. *)
Definition cube_constants (w : Z) (n : nat) : list Z :=
  map (fun p => cbrt_bits (Z.to_nat w + 8) (p * 2 ^ (3 * w)) 0 mod 2 ^ w) (primes n).
Definition square_constants (w : Z) : list Z :=
  map (fun p => Z.sqrt (p * 2 ^ (2 * w)) mod 2 ^ w) (primes 8).

Definition sha256_parameters : sha2 := Eval vm_compute in
  mkSha2 32 (7, 18, 3) (17, 19, 10) (2, 13, 22) (6, 11, 25) (cube_constants 32 64) (square_constants 32).
Definition sha512_parameters : sha2 := Eval vm_compute in
  mkSha2 64 (1, 8, 7) (19, 61, 6) (28, 34, 39) (14, 18, 41) (cube_constants 64 80) (square_constants 64).

Section sha2.
Context (H : sha2).

Definition word (z : Z) : Z := z mod 2 ^ H.(w).
Definition rotr (n x : Z) : Z := Z.lor (Z.shiftr x n) (word (Z.shiftl x (H.(w) - n))).
Definition sum_words (l : list Z) : Z := word (foldr Z.add 0 l).
Definition small_sigma (r : Z * Z * Z) (x : Z) : Z :=
  Z.lxor (Z.lxor (rotr r.1.1 x) (rotr r.1.2 x)) (Z.shiftr x r.2).
Definition big_sigma (r : Z * Z * Z) (x : Z) : Z :=
  Z.lxor (Z.lxor (rotr r.1.1 x) (rotr r.1.2 x)) (rotr r.2 x).
Definition Ch (x y z : Z) : Z := Z.lxor (Z.land x y) (Z.land (Z.lxor x (2 ^ H.(w) - 1)) z).
Definition Maj (x y z : Z) : Z := Z.lxor (Z.lxor (Z.land x y) (Z.land x z)) (Z.land y z).

(** The schedule, the last word first. *)
Fixpoint expand (n : nat) (ws : list Z) : list Z :=
  match n with
  | O => ws
  | S n =>
    expand n (sum_words [small_sigma H.(sigma1) (nth 1 ws 0); nth 6 ws 0;
                         small_sigma H.(sigma0) (nth 14 ws 0); nth 15 ws 0] :: ws)
  end.

Definition round (st : list Z) (kw : Z * Z) : list Z :=
  match st with
  | [a; b; c; d; e; f; g; h] =>
    let t1 := sum_words [h; big_sigma H.(Sigma1) e; Ch e f g; kw.1; kw.2] in
    let t2 := sum_words [big_sigma H.(Sigma0) a; Maj a b c] in
    [sum_words [t1; t2]; a; b; c; sum_words [d; t1]; e; f; g]
  | _ => st
  end.

Definition compress (h : list Z) (block : list Z) : list Z :=
  let ws := rev (expand (length H.(K) - 16) (rev block)) in
  zip_with (fun x y => word (x + y)) h (fold_left round (zip H.(K) ws) h).

Definition word_bytes : nat := Z.to_nat (H.(w) / 8).
Fixpoint words (fuel : nat) (b : bytes) : list Z :=
  match fuel, b with
  | S fuel, _ :: _ => be_value (take word_bytes b) :: words fuel (drop word_bytes b)
  | _, _ => []
  end.
Fixpoint blocks (fuel : nat) (ws : list Z) : list (list Z) :=
  match fuel, ws with
  | S fuel, _ :: _ => take 16 ws :: blocks fuel (drop 16 ws)
  | _, _ => []
  end.

(** A block is sixteen words, the length at the end takes two. *)
Definition pad (b : bytes) : bytes :=
  let n := Z.of_nat (length b) in
  let block := Z.of_nat word_bytes * 16 in
  let last := Z.of_nat word_bytes * 2 in
  b ++ [Byte.x80] ++ replicate (Z.to_nat ((block - 1 - last - n) mod block)) Byte.x00
  ++ be_bytes (word_bytes * 2) (8 * n).

Definition hash (b : bytes) : bytes :=
  let p := pad b in
  flat_map (be_bytes word_bytes) (fold_left compress (blocks (length p) (words (length p) p)) H.(H0)).
End sha2.

Definition sha256 : bytes -> bytes := hash sha256_parameters.
Definition sha512 : bytes -> bytes := hash sha512_parameters.

(** ** HMAC, hexadecimal and base64 *)

Definition xor_bytes (k : bytes) (c : Z) : bytes :=
  map (fun b => byte_of_Z (Z.lxor (byte_to_Z b) c)) k.
Definition hmac_sha256 (key msg : bytes) : bytes :=
  let k := if (64 <? length key)%nat then sha256 key else key in
  let k := k ++ replicate (64 - length k) Byte.x00 in
  sha256 (xor_bytes k 92 ++ sha256 (xor_bytes k 54 ++ msg)).

Definition hex (b : bytes) : string :=
  of_chars (flat_map (fun x => [hex_digit (byte_to_Z x / 16); hex_digit (byte_to_Z x mod 16)]) b).
Definition hex_of_char (c : Z) : Z := if c <? 58 then c - 48 else c - 87.
Fixpoint unhex_chars (t : text) : bytes :=
  match t with
  | a :: b :: t => byte_of_Z (hex_of_char a * 16 + hex_of_char b) :: unhex_chars t
  | _ => []
  end.
Definition unhex (s : string) : bytes := unhex_chars (chars s).

(** RFC 4648 with padding. *)
Definition b64_char (n : Z) : Z :=
  if n <? 26 then 65 + n else if n <? 52 then 71 + n else if n <? 62 then n - 4
  else if n =? 62 then 43 else 47.
Definition b64_value (c : Z) : option Z :=
  if (65 <=? c) && (c <=? 90) then Some (c - 65)
  else if (97 <=? c) && (c <=? 122) then Some (c - 71)
  else if (48 <=? c) && (c <=? 57) then Some (c + 4)
  else if c =? 43 then Some 62 else if c =? 47 then Some 63 else None.
Fixpoint b64_text (b : bytes) : text :=
  match b with
  | x :: y :: z :: b =>
    let n := byte_to_Z x * 65536 + byte_to_Z y * 256 + byte_to_Z z in
    [b64_char (n / 262144); b64_char (n / 4096 mod 64); b64_char (n / 64 mod 64); b64_char (n mod 64)]
    ++ b64_text b
  | [x; y] =>
    let n := byte_to_Z x * 1024 + byte_to_Z y * 4 in
    [b64_char (n / 4096); b64_char (n / 64 mod 64); b64_char (n mod 64); 61]
  | [x] => let n := byte_to_Z x * 16 in [b64_char (n / 64); b64_char (n mod 64); 61; 61]
  | [] => []
  end.
Fixpoint unb64_text (t : text) : option bytes :=
  match t with
  | [] => Some []
  | [a; b; 61; 61] =>
    a ← b64_value a; b ← b64_value b;
    if b mod 16 =? 0 then Some [byte_of_Z (a * 4 + b / 16)] else None
  | [a; b; c; 61] =>
    a ← b64_value a; b ← b64_value b; c ← b64_value c;
    if c mod 4 =? 0 then Some [byte_of_Z (a * 4 + b / 16); byte_of_Z (b * 16 + c / 4)] else None
  | a :: b :: c :: d :: t =>
    a ← b64_value a; b ← b64_value b; c ← b64_value c; d ← b64_value d;
    rest ← unb64_text t;
    Some (byte_of_Z (a * 4 + b / 16) :: byte_of_Z (b * 16 + c / 4) :: byte_of_Z (c * 64 + d) :: rest)
  | _ => None
  end.
Definition b64 (b : bytes) : string := of_chars (b64_text b).
Definition unb64 (s : string) : option bytes := unb64_text (chars s).

(** The standard's example, RFC 4231's second test case, RFC 4648's texts. *)
Example sha256_abc : hex (sha256 (as_bytes "abc"))
  = "ba7816bf8f01cfea414140de5dae2223b00361a396177a9cb410ff61f20015ad".
Proof. vm_compute. reflexivity. Qed.
Example hmac_jefe : hex (hmac_sha256 (as_bytes "Jefe") (as_bytes "what do ya want for nothing?"))
  = "5bdcc146bf60754e6a042426089575c75a003f089d2739839dec58b964ec3843".
Proof. vm_compute. reflexivity. Qed.
Example b64_texts : map (fun s => b64 (as_bytes s)) ["f"; "fo"; "foo"; "foob"]
  = ["Zg=="; "Zm8="; "Zm9v"; "Zm9vYg=="]
  /\ unb64 "Zm9vYg==" = Some (as_bytes "foob") /\ unb64 "Zm9vYh==" = None.
Proof. by vm_compute. Qed.

(** ** The public keys of Ed25519 (RFC 8032) *)

Definition p25519 : Z := Eval vm_compute in 2 ^ 255 - 19.
Definition low255 : Z := Eval vm_compute in 2 ^ 255 - 1.
(** [z mod p25519] of a [z] below [2^512]: [2^255] is [19]. *)
Definition fold19 (z : Z) : Z := Z.land z low255 + 19 * Z.shiftr z 255.
Definition reduce (z : Z) : Z :=
  let r := fold19 (fold19 z) in if p25519 <=? r then r - p25519 else r.
Definition fmul (a b : Z) : Z := reduce (a * b).
Definition fadd (a b : Z) : Z := reduce (a + b).
Definition fsub (a b : Z) : Z := reduce (a + p25519 - b).
Fixpoint fpow_pos (a : Z) (e : BinNums.positive) : Z :=
  match e with
  | xH => a
  | xO e => let b := fpow_pos a e in fmul b b
  | xI e => let b := fpow_pos a e in fmul a (fmul b b)
  end.
Definition fpow (a e : Z) : Z := match e with Zpos e => fpow_pos a e | _ => 1 end.
Definition finv (a : Z) : Z := fpow a (p25519 - 2).
Definition d25519 : Z := Eval vm_compute in fmul (p25519 - 121665) (finv 121666).

Definition dd25519 : Z := Eval vm_compute in fadd d25519 d25519.

(** The [x] of a [y], of the given parity. *)
Definition recover_x (y : Z) (odd : bool) : option Z :=
  let y2 := fmul y y in
  let x2 := fmul (fsub y2 1) (finv (fadd (fmul d25519 y2) 1)) in
  let x := fpow x2 ((p25519 + 3) / 8) in
  let x := if fmul x x =? x2 then x else fmul x (fpow 2 ((p25519 - 1) / 4)) in
  if negb (fmul x x =? x2) then None
  else Some (if Bool.eqb (Z.odd x) odd then x else fsub 0 x).

(** Extended coordinates. *)
Record point := mkPoint { px : Z; py : Z; pz : Z; pt : Z }.
Definition affine (x y : Z) : point := mkPoint x y 1 (fmul x y).
Definition add_points (P Q : point) : point :=
  let a := fmul (fsub P.(py) P.(px)) (fsub Q.(py) Q.(px)) in
  let b := fmul (fadd P.(py) P.(px)) (fadd Q.(py) Q.(px)) in
  let c := fmul (fmul P.(pt) dd25519) Q.(pt) in
  let d := fmul (fadd P.(pz) P.(pz)) Q.(pz) in
  let e := fsub b a in
  let f := fsub d c in
  let g := fadd d c in
  let h := fadd b a in
  mkPoint (fmul e f) (fmul g h) (fmul f g) (fmul e h).
Definition base_point : point := Eval vm_compute in
  let y := fmul 4 (finv 5) in affine (default 0 (recover_x y false)) y.

(** [2^i] times the base point, for each bit of a scalar; a multiple of it is the sum
    of those whose bit is set. *)
Fixpoint doublings (n : nat) (P : point) : list point :=
  match n with O => [] | S n => P :: doublings n (add_points P P) end.
Definition base_powers : list point := Eval vm_compute in doublings 255 base_point.
Fixpoint sum_where_set (powers : list point) (n : BinNums.positive) : point :=
  match powers, n with
  | [], _ => mkPoint 0 1 1 0
  | P :: _, xH => P
  | P :: powers, xI n => add_points P (sum_where_set powers n)
  | _ :: powers, xO n => sum_where_set powers n
  end.
Definition mul_base (n : Z) : point :=
  match n with Zpos n => sum_where_set base_powers n | _ => mkPoint 0 1 1 0 end.

Definition le_bytes (n : nat) (z : Z) : bytes := rev (be_bytes n z).
Definition le_value (b : bytes) : Z := be_value (rev b).
Definition encode_point (P : point) : bytes :=
  let zi := finv P.(pz) in
  le_bytes 32 (fmul P.(py) zi + (if Z.odd (fmul P.(px) zi) then 2 ^ 255 else 0)).
Definition clamp (h : bytes) : Z := Z.lor (Z.land (le_value (take 32 h)) (2 ^ 254 - 8)) (2 ^ 254).
(** The public key of a seed. *)
Definition ed25519_public (seed : bytes) : bytes := encode_point (mul_base (clamp (sha512 seed))).

(** ** Floats as [ryu] writes them

    The shortest digits, ties to the even one, and [format_finite]'s layout. *)

Fixpoint even_from (fuel : nat) (m e p : Z) : option (text * Z) :=
  match fuel with
  | O => None
  | S fuel =>
    let d := dec_floor m e p in
    let down := (0 <? d) && rounds_to m e (q_dec d p) in
    let up := rounds_to m e (q_dec (d + 1) p) in
    let half := q_dec (2 * d + 1) p in
    let exact := q_bin (2 * m) e in
    if up && (negb down || q_lt half exact || (q_le half exact && Z.odd d)) then
      Some (decimal_of (d + 1) p)
    else if down then Some (decimal_of d p)
    else even_from fuel m e (p + 1)
  end.

Definition ryu_layout (digits : text) (exp : Z) : text :=
  let n := Z.of_nat (length digits) in
  if (n <=? exp + 1) && (exp <? 16) then
    digits ++ replicate (Z.to_nat (exp + 1 - n)) CH_0 ++ [CH_DOT; CH_0]
  else if (0 <=? exp) && (exp <? 16) then
    take (Z.to_nat (exp + 1)) digits ++ [CH_DOT] ++ drop (Z.to_nat (exp + 1)) digits
  else if (-6 <? exp) && (exp <? 0) then
    [CH_0; CH_DOT] ++ replicate (Z.to_nat (- exp - 1)) CH_0 ++ digits
  else
    (if n =? 1 then digits else take 1 digits ++ [CH_DOT] ++ drop 1 digits)
    ++ [101] ++ (if exp <? 0 then CH_MINUS :: dec_text (- exp) else dec_text exp).

Definition ryu (f : f64) : text :=
  match f with
  | S754_finite s m e =>
    match even_from 24 (Zpos m) e (- ((Z.log2 (Zpos m) + e) * 30103 / 100000) - 2) with
    | Some (digits, exp) => (if s then [CH_MINUS] else []) ++ ryu_layout digits exp
    | None => []
    end
  | S754_zero s => (if s then [CH_MINUS] else []) ++ lit "0.0"
  | _ => []
  end.

Definition float (s : string) : f64 := default f64_nan (f64_from_str s).
Example ryu_texts :
  map (fun s => of_chars (ryu (float s))) ["1.15"; "1e20"; "2.4e-6"; "0.00001"; "5e-324"; "3"; "-1.5e15"]
  = ["1.15"; "1e20"; "2.4e-6"; "0.00001"; "5e-324"; "3.0"; "-1500000000000000.0"].
Proof. vm_compute. reflexivity. Qed.

(** ** Writing JSON *)

Definition escaped (c : Z) : text :=
  if c =? 34 then [92; 34] else if c =? 92 then [92; 92]
  else if c =? 8 then lit "\b" else if c =? 12 then lit "\f" else if c =? 10 then lit "\n"
  else if c =? 13 then lit "\r" else if c =? 9 then lit "\t"
  else if c <? 32 then unicode_escape c else [c].
Definition json_string_text (s : string) : text := [34] ++ flat_map escaped (chars s) ++ [34].
Fixpoint commas (l : list text) : text :=
  match l with [] => [] | [t] => t | t :: l => t ++ [44] ++ commas l end.
Fixpoint json_text (v : value) : text :=
  match v with
  | VNull => lit "null"
  | VBool b => lit (if b then "true" else "false")
  | VNumber (PosInt n) => dec_text n
  | VNumber (NegInt n) => CH_MINUS :: dec_text (- n)
  | VNumber (Float f) => ryu f
  | VString s => json_string_text s
  | VArray items => [91] ++ commas (map json_text items) ++ [93]
  | VObject m =>
    [123] ++ commas (map (fun kv => json_string_text kv.1 ++ [58] ++ json_text kv.2) m) ++ [125]
  end.
Definition print_json (v : value) : bytes := utf8_encode (json_text v).

(** ** Reading JSON *)

Definition is_space (c : Z) : bool := (c =? 32) || (c =? 9) || (c =? 10) || (c =? 13).
Definition skip (t : text) : text := drop_while is_space t.

Fixpoint read_word (w t : text) : option text :=
  match w, t with
  | [], t => Some t
  | a :: w, b :: t => if a =? b then read_word w t else None
  | _ :: _, [] => None
  end.

Definition hex_digit_value (c : Z) : option Z :=
  if is_digit_char c then Some (c - 48)
  else if (97 <=? c) && (c <=? 102) then Some (c - 87)
  else if (65 <=? c) && (c <=? 70) then Some (c - 55) else None.
Definition read_hex4 (t : text) : option (Z * text) :=
  match t with
  | a :: b :: c :: d :: t =>
    a ← hex_digit_value a; b ← hex_digit_value b; c ← hex_digit_value c; d ← hex_digit_value d;
    Some (a * 4096 + b * 256 + c * 16 + d, t)
  | _ => None
  end.
Definition simple_escape (c : Z) : option Z :=
  if (c =? 34) || (c =? 92) || (c =? 47) then Some c
  else if c =? 98 then Some 8 else if c =? 102 then Some 12 else if c =? 110 then Some 10
  else if c =? 114 then Some 13 else if c =? 116 then Some 9 else None.

(** After the opening quote; a surrogate is read with its other half. *)
Fixpoint read_string (fuel : nat) (t : text) : option (text * text) :=
  match fuel, t with
  | S fuel, c :: t =>
    if c =? 34 then Some ([], t)
    else if c <? 32 then None
    else if c =? 92 then
      match t with
      | 117 :: t =>
        '(h, t) ← read_hex4 t;
        if (55296 <=? h) && (h <? 56320) then
          match t with
          | 92 :: 117 :: t =>
            '(l, t) ← read_hex4 t;
            if (56320 <=? l) && (l <? 57344) then
              '(s, t) ← read_string fuel t;
              Some (65536 + (h - 55296) * 1024 + (l - 56320) :: s, t)
            else None
          | _ => None
          end
        else if (56320 <=? h) && (h <? 57344) then None
        else '(s, t) ← read_string fuel t; Some (h :: s, t)
      | e :: t => c ← simple_escape e; '(s, t) ← read_string fuel t; Some (c :: s, t)
      | [] => None
      end
    else '(s, t) ← read_string fuel t; Some (c :: s, t)
  | _, _ => None
  end.

(** The number in front: no leading zeros, digits around the point. *)
Fixpoint take_number (t : text) : text * text :=
  match t with
  | c :: r =>
    if is_digit_char c || bool_decide (c ∈ [43; 45; 46; 69; 101]) then
      let '(a, b) := take_number r in (c :: a, b)
    else ([], t)
  | [] => ([], [])
  end.
Definition number_value (negative : bool) (t : text) : option number :=
  let '(whole, rest) := take_digits t in
  let starts_with_zero := match whole with 48 :: _ :: _ => true | [] => true | _ => false end in
  let bare_point :=
    match rest with
    | 46 :: c :: _ => negb (is_digit_char c) | [46] => true | _ => false
    end in
  if starts_with_zero || bare_point then None
  else
    match rest with
    | [] =>
      let n := digits_value whole in
      if negative then
        if n =? 0 then Some (Float f64_neg_zero)
        else if - n <? I64_MIN then Float <$> f64_number true t else Some (NegInt (- n))
      else if U64_MAX <? n then Float <$> f64_number false t else Some (PosInt n)
    | _ :: _ =>
      f ← f64_number negative t;
      if f64_is_finite f then Some (Float f) else None
    end.
Definition read_number (t : text) : option (value * text) :=
  let '(body, rest) := take_number t in
  let '(negative, body) := match body with 45 :: b => (true, b) | _ => (false, body) end in
  n ← number_value negative body; Some (VNumber n, rest).

(** [fuel] counts the characters and the values; [depth] the nesting. *)
Fixpoint read_value (fuel depth : nat) (t : text) : option (value * text) :=
  match fuel with
  | O => None
  | S fuel =>
    match skip t with
    | 110 :: t => t ← read_word (lit "ull") t; Some (VNull, t)
    | 116 :: t => t ← read_word (lit "rue") t; Some (VBool true, t)
    | 102 :: t => t ← read_word (lit "alse") t; Some (VBool false, t)
    | 34 :: t => '(s, t) ← read_string fuel t; Some (VString (of_chars s), t)
    | 91 :: t =>
      match depth with
      | O => None
      | S depth =>
        match skip t with
        | 93 :: t => Some (VArray [], t)
        | t =>
          '(items, t) ←
            (fix items (n : nat) (t : text) : option (list value * text) :=
               match n with
               | O => None
               | S n =>
                 '(v, t) ← read_value fuel depth t;
                 match skip t with
                 | 44 :: t => '(l, t) ← items n t; Some (v :: l, t)
                 | 93 :: t => Some ([v], t)
                 | _ => None
                 end
               end) fuel t;
          Some (VArray items, t)
        end
      end
    | 123 :: t =>
      match depth with
      | O => None
      | S depth =>
        match skip t with
        | 125 :: t => Some (VObject [], t)
        | t =>
          '(m, t) ←
            (fix entries (n : nat) (t : text) : option (list (string * value) * text) :=
               match n with
               | O => None
               | S n =>
                 match skip t with
                 | 34 :: t =>
                   '(k, t) ← read_string fuel t;
                   match skip t with
                   | 58 :: t =>
                     '(v, t) ← read_value fuel depth t;
                     match skip t with
                     | 44 :: t => '(l, t) ← entries n t; Some ((of_chars k, v) :: l, t)
                     | 125 :: t => Some ([(of_chars k, v)], t)
                     | _ => None
                     end
                   | _ => None
                   end
                 | _ => None
                 end
               end) fuel t;
          Some (VObject m, t)
        end
      end
    | t => read_number t
    end
  end.

Definition parse_json (b : bytes) : option value :=
  let t := utf8_decode b in
  '(v, t) ← read_value (S (length t)) 127 t;
  match skip t with [] => Some v | _ :: _ => None end.
Definition parse_text (s : string) : option value := parse_json (as_bytes s).

(** ** Assertions *)

(** A literal with its apostrophes as quotes. *)
Definition jq (s : string) : string :=
  of_bytes (map (fun b => if Byte.eqb b Byte.x27 then Byte.x22 else b) (as_bytes s)).

Abbreviation same a b := (bool_decide (a = b)).
Definition starts_with (p b : bytes) : bool := bool_decide (take (length p) b = p).
Definition ends_with (p b : bytes) : bool := bool_decide (drop (length b - length p) b = p).
Definition is_some {A} (o : option A) : bool := match o with Some _ => true | None => false end.
(** [.unwrap_err()], of which an assertion says something. *)
Definition fails_with {E A} (says : E -> bool) (r : result E A) : bool :=
  match r with Err e => says e | Ok _ => false end.
(** [.unwrap()] *)
Definition on_ok {E A} (r : result E A) (f : A -> bool) : bool :=
  match r with Ok a => f a | Err _ => false end.
Definition on_some {A} (o : option A) (f : A -> bool) : bool :=
  match o with Some a => f a | None => false end.

Example json_read_back :
  print_json <$> parse_text (jq " {'a' : [1, -2, 0.5, 1e2, true], 'b\n':null, 'c':'\u00e9\ud83d\ude00'} ")
  = Some (as_bytes (jq "{'a':[1,-2,0.5,100.0,true],'b\n':null,'c':'é😀'}")).
Proof. vm_compute. reflexivity. Qed.
Example json_refused :
  forallb (fun s => negb (is_some (parse_text (jq s))))
    [""; "{"; "[1,]"; "01"; "1."; ".5"; "-"; "'a"; "{'a'}"; "{'a':1,}"; "nul"; "1 2"; "1e999"; "'\ud800'"]
  = true.
Proof. vm_compute. reflexivity. Qed.

(** ** Signatures

    A key's public half is its hash, a signature the hash of the public half and of
    what is signed. *)
Definition public_of (secret : bytes) : bytes := sha256 secret.
Definition test_sign (secret payload : bytes) : bytes := sha256 (public_of secret ++ payload).
Definition test_verify (public payload sig : bytes) : bool := bool_decide (sig = sha256 (public ++ payload)).
Definition bytes32 (b : bytes) : option bytes := if decide (length b = 32%nat) then Some b else None.
