(* ===== verification/TestP2p.v ===== *)
(** * The unit tests of [src/domain/p2p.rs]

    Each [#[test]] is a boolean function of the same name, with the same inputs and
    the same assertions, run on the definitions of [Wire], [GoJson] and [Codec]; the
    expected bytes are those the Go orchestrator's own tests check. *)

From S2P Require Import Prelude Bytes F64 FloatText Models GoJson Serde Codec Features Wire WorkLedger.
From S2P Require Import Pcs Storage CoreClient Config Geo Bid Node Messages TestSupport.

Definition tree_bytes : ContractionTreeWire -> option bytes := to_vec print_json contraction_tree_codec.
Definition with_payload (t : SubTask) (f : bytes -> bool) : bool :=
  on_ok (serialize_dispatch_payload ryu tree_bytes t) f.
Definition verify_announcement (m : TaskAnnouncementMessage) (public : string) : result WireError unit :=
  verify_announcement_message unb64 bytes32 bytes32 test_verify m public.

(** [SubTask { task_id, .., slice_id, ..Default::default() }] *)
Definition small_sub_task (task parent circuit : string) (width original : Z) (slice : string) : SubTask :=
  mkSubTask task parent circuit width original slice [] [] 0 0 [] 0 None "" 0 0 0 [] None "".
Definition h_gate : Gate := mkGate "H" (VArray [VNumber (PosInt 0)]).

Definition serialize_announcement_payload_layout_matches_orchestrator : bool :=
  let announcement := mkTaskAnnouncement "task-parent-1" 30 3 2 2 42 None None in
  same (serialize_announcement_payload announcement)
    (as_bytes "task-parent-1" ++ u32_be 30 ++ u32_be 3 ++ u32_be 2 ++ u32_be 2 ++ u64_be 42).

Definition GOLDEN_V2 : string :=
  "74000000640000001b000000010000000200000000000000090000012c000001000000000000000008d8f9fc00".

Definition announcement_work_needs_the_v2_signature : bool :=
  let key := replicate 32 Byte.x07 in
  let public := b64 (public_of key) in
  let sign payload := b64 (test_sign key payload) in
  let announcement := mkTaskAnnouncement "t" 100 27 1 2 9 (Some 300)
    (Some (mkWork (Z.shiftl 1 40) 38000000000)) in
  let v1 := sign (serialize_announcement_payload announcement) in
  on_some (serialize_announcement_payload_v2 announcement) (fun v2_payload =>
    let v2 := sign v2_payload in
    let message a v2 := mkTaskAnnouncementMessage a v1 v2 in
    let lighter := mkTaskAnnouncement "t" 100 27 1 2 9 (Some 300) (Some (mkWork 1 1)) in
    let stripped := mkTaskAnnouncement "t" 100 27 1 2 9 None None in
    let plain := mkTaskAnnouncement "t" 100 (Z.land 27 (Z.lnot FEATURE_WORK_BUDGET)) 1 2 9 None None in
    let v1_plain := sign (serialize_announcement_payload plain) in
    same v2_payload (unhex GOLDEN_V2)
    && is_ok (verify_announcement (message announcement (Some v2)) public)
    (* v1 alone does not vouch for work *)
    && fails_with (fun e => match e with WorkNotSigned => true | _ => false end)
         (verify_announcement (message announcement None) public)
    (* a changed work count fails *)
    && negb (is_ok (verify_announcement (message lighter (Some v2)) public))
    (* bit 4 says work belongs there *)
    && fails_with (fun e => match e with WorkBudgetWithoutWork => true | _ => false end)
         (verify_announcement (message stripped None) public)
    (* without work or bit 4, v1 is checked as before *)
    && is_ok (verify_announcement (mkTaskAnnouncementMessage plain v1_plain None) public)).

Definition serialize_dispatch_payload_layout_matches_orchestrator : bool :=
  let circuit_json := as_bytes (jq "[{'type':'H','params':[0]}]") in
  let sub_task := mkSubTask "sub-task-1" "parent-uuid" "abc123" 2 3 "01" [mkSliceAssignment "e_0" 1]
    [h_gate] 2 128 [] 0 None "" 0 0 0 [] None "" in
  with_payload sub_task (fun payload =>
    same payload
      (as_bytes "sub-task-1" ++ as_bytes "parent-uuid" ++ as_bytes "abc123" ++ as_bytes "01"
       ++ u32_be 2 ++ u32_be 3 ++ u32_be 2 ++ u32_be 1 ++ as_bytes "e_0" ++ [byte_of_Z 1]
       ++ u32_be (Z.of_nat (length circuit_json)) ++ circuit_json ++ u32_be 128
       ++ u32_be 0 (* output_mode len *) ++ u64_be 0 (* shots *)
       ++ u32_be 0 (* classical_bit_count *) ++ u64_be 0 (* sample_seed *)
       ++ u32_be 2 ++ as_bytes "[]" (* observables_json *)
       ++ u32_be 0 (* mps_site_order_len *) ++ u32_be 0 (* security_level_len *))).

(** The halfway case is built from parts. *)
Definition half_case : f64 := f64_add (f64_of_Z 1533979136307259) (f64_dec 25 2).
Definition go_json_float_matches_go_encoding_json : bool :=
  forallb (fun '(value, expected) => same (of_chars (go_json_float ryu value)) expected)
    [(float "1.1500000000000001", "1.1500000000000001");
     (float "-0.41000000000000003", "-0.41000000000000003");
     (float "2.4082865570993347e-6", "0.0000024082865570993347");
     (float "1e-6", "0.000001"); (float "1e-7", "1e-7"); (float "5e-324", "5e-324");
     (float "1e20", "100000000000000000000"); (float "1e21", "1e+21");
     (float "1.5e300", "1.5e+300"); (float "-0.0", "-0");
     (float "0.39269908169872415480783042290993786", "0.39269908169872414");
     (float "3.0", "3");
     (half_case, "1533979136307259.2"); (f64_sub f64_zero half_case, "-1533979136307259.2");
     (float "123456789012345680000.0", "123456789012345680000");
     (float "1.5e-300", "1.5e-300")].

Definition circuit_signing_json_keeps_the_orchestrator_bytes : bool :=
  let signed := jq (String.concat ""
    ["[{'type':'RY','params':[17,1.1500000000000001]},";
     "{'type':'RZ','params':[0,0.0000024082865570993347]},";
     "{'type':'MEASURE','params':{'cbit':0,'qubit':1}},";
     "{'type':'IF','params':{'cbit':2,'gate':{'params':[0],'type':'X'},'value':1}},";
     "{'type':'H','params':[3]}]"]) in
  on_some (from_str parse_json (vec_codec gate_codec) signed) (fun circuit =>
    on_ok (circuit_signing_json ryu circuit) (fun b => same (of_bytes b) signed)).

(** Markup, control characters, a quote, a backslash, the two separators, kanji. *)
Definition go_json_string_matches_go_encoding_json : bool :=
  let input := of_chars (lit "a<b>&c" ++ [8; 12; 10; 13; 9; 1; 31; 34; 92; 32; 8232; 8233; 32] ++ lit "日本") in
  same (of_chars (write_go_json_string input))
    (jq "'a\u003cb\u003e\u0026c\b\f\n\r\t\u0001\u001f\'\\ \u2028\u2029 日本'").

Definition serialize_dispatch_payload_includes_observables : bool :=
  let sub_task := mkSubTask "sub-task-1" "parent-uuid" "abc123" 2 2 "0" [] [h_gate] 2 0 [] 0 None
    "expectation" 0 0 0
    [mkObservableSpec "ZZ" [mkPauliTerm "ZZ" (mkComplexCoeff (float "1.0") (float "0.0"))]] None "" in
  let obs_json := as_bytes (jq "[{'id':'ZZ','terms':[{'coeff':{'imag':0.0,'real':1.0},'label':'ZZ'}]}]") in
  with_payload sub_task
    (ends_with (u32_be (Z.of_nat (length obs_json)) ++ obs_json ++ u32_be 0 ++ u32_be 0)).

Definition serialize_dispatch_payload_includes_site_order : bool :=
  let sub_task := mkSubTask "s" "p" "c" 2 2 "0" [] [] 0 0 [1; 0] 0 None "" 0 0 0 [] None "" in
  with_payload sub_task
    (ends_with (u32_be 2 ++ as_bytes "[]" ++ u32_be 2 ++ u32_be 1 ++ u32_be 0 ++ u32_be 0)).

Definition serialize_dispatch_payload_includes_security_level : bool :=
  let sub_task := mkSubTask "s" "p" "c" 2 2 "0" [] [] 0 0 [] 0 None "" 0 0 0 [] None "low" in
  with_payload sub_task (ends_with (u32_be 3 ++ as_bytes "low")).

Definition time_split (n : Z) : SubTask :=
  mkSubTask "s" "p" "c" 2 2 "0" [] [] 0 0 [] n None "" 0 0 0 [] None "".

Definition serialize_dispatch_payload_includes_time_split_when_set : bool :=
  with_payload (time_split 196) (ends_with (u32_be 0 ++ u32_be 196)).

Definition into_compute_request_maps_time_split_zero_to_none : bool :=
  same (into_compute_request (time_split 0) "peer").(mps_time_split) None.

Definition into_compute_request_maps_time_split_to_some : bool :=
  same (into_compute_request (time_split 196) "peer").(mps_time_split) (Some 196).

Definition bare_json (rest : string) : string :=
  jq (String.concat ""
    ["{'task_id':'s','parent_task_id':'p','circuit_id':'c','qubit_count':2,";
     "'original_qubit_count':2,'slice_id':'0','required_votes':1"; rest; "}"]).
Definition sub_task_json_reads_with_and_without_time_split : bool :=
  on_some (from_str parse_json sub_task_codec (bare_json "")) (fun bare =>
    same bare.(st_mps_time_split) 0)
  && on_some (from_str parse_json sub_task_codec (bare_json ",'mps_time_split':196")) (fun split =>
    same split.(st_mps_time_split) 196).

Definition with_tree (t : SubTask) (tree : ContractionTreeWire) : SubTask :=
  mkSubTask t.(st_task_id) t.(st_parent_task_id) t.(st_circuit_id) t.(st_qubit_count)
    t.(st_original_qubit_count) t.(st_slice_id) t.(st_slice_assignments) t.(st_circuit)
    t.(st_required_votes) t.(st_mps_max_bond_dim) t.(st_mps_site_order) t.(st_mps_time_split)
    (Some tree) t.(st_output_mode) t.(st_classical_bit_count) t.(st_shots) t.(st_sample_seed)
    t.(st_observables) t.(st_noise_model) t.(st_security_level).

Definition serialize_dispatch_payload_appends_tree_and_leaves_mps_bytes_unchanged : bool :=
  let bare := small_sub_task "s" "p" "c" 1 1 "0" in
  let tree_json := jq
    "{'nodes':[{'op':'contract','left':{'ket0':0},'right':{'gate':0}}],'peak_bytes':32}" in
  let tree := mkContractionTreeWire None
    [mkContractNodeWire "contract" (mkTensorRefWire (Some 0) None None None None None)
       (mkTensorRefWire None (Some 0) None None None None)] 32 in
  with_payload bare (fun plain =>
    with_payload (with_tree bare tree) (fun signed =>
      starts_with plain signed && negb (same signed plain)
      && on_some (tree_bytes tree) (fun json =>
           same json (as_bytes tree_json)
           && ends_with (u32_be (Z.of_nat (length json)) ++ json) signed)
      && on_some (into_compute_request (with_tree bare tree) "peer").(contraction_tree) (fun t =>
           same (length t.(nodes)) 1%nat))).

(** The value at a path of keys and positions. *)
Inductive at_ := Key (k : string) | Pos (n : nat).
Definition value_at (path : list at_) (v : value) : option value :=
  fold_left (fun v a =>
    v ← v;
    match a, v with
    | Key k, VObject m => obj_get k m
    | Pos n, VArray items => items !! n
    | _, _ => None
    end) path (Some v).

(** A tree the orchestrator sent: read, written back, signed and forwarded. *)
Definition tree_round_trip (width : Z) (tree_json : string)
  (reads : ContractionTreeWire -> bool) (forwards : value -> bool) : bool :=
  on_some (from_str parse_json contraction_tree_codec tree_json) (fun tree =>
    reads tree
    && same (to_string print_json contraction_tree_codec tree) (Some tree_json)
    && let sub := with_tree (small_sub_task "s" "p" "c" width width "0") tree in
       with_payload sub (ends_with
         (u32_be (Z.of_nat (String.length tree_json)) ++ as_bytes tree_json))
       && forwards (compute_request_codec.(enc) (into_compute_request sub "peer"))).

Definition network_tree_round_trips_byte_for_byte : bool :=
  tree_round_trip 1
    (jq (String.concat ""
      ["{'kind':'network','nodes':[{'op':'contract','left':{'ket0':0},'right':{'gate':0}},";
       "{'op':'contract','left':{'bra0':0},'right':{'node':0}}],'peak_bytes':128}"]))
    (fun tree => same tree.(kind) (Some "network")
       && on_some (tree.(nodes) !! 1%nat) (fun n => same n.(node_left).(bra0) (Some 0)))
    (fun body =>
       same (value_at [Key "contraction_tree"; Key "kind"] body) (Some (VString "network"))
       && same (value_at [Key "contraction_tree"; Key "nodes"; Pos 1; Key "left"; Key "bra0"] body)
            (Some (VNumber (PosInt 0)))).

Definition gate_halves_round_trip_byte_for_byte : bool :=
  tree_round_trip 2
    (jq (String.concat ""
      ["{'kind':'network','nodes':[{'op':'contract','left':{'control':0},'right':{'target':0}},";
       "{'op':'contract','left':{'node':0},'right':{'node':0}}],'peak_bytes':384}"]))
    (fun tree => on_some (tree.(nodes) !! 0%nat) (fun n =>
       same n.(node_left).(control) (Some 0) && same n.(node_right).(target) (Some 0)))
    (fun body =>
       same (value_at [Key "contraction_tree"; Key "nodes"; Pos 0; Key "left"; Key "control"] body)
         (Some (VNumber (PosInt 0)))
       && same (value_at [Key "contraction_tree"; Key "nodes"; Pos 0; Key "right"; Key "target"] body)
            (Some (VNumber (PosInt 0)))).

(** All of them pass. *)
Example p2p_tests_pass :
  forallb (fun t => t)
    [serialize_announcement_payload_layout_matches_orchestrator;
     announcement_work_needs_the_v2_signature;
     serialize_dispatch_payload_layout_matches_orchestrator;
     go_json_float_matches_go_encoding_json;
     circuit_signing_json_keeps_the_orchestrator_bytes;
     go_json_string_matches_go_encoding_json;
     serialize_dispatch_payload_includes_observables;
     serialize_dispatch_payload_includes_site_order;
     serialize_dispatch_payload_includes_security_level;
     serialize_dispatch_payload_includes_time_split_when_set;
     into_compute_request_maps_time_split_zero_to_none;
     into_compute_request_maps_time_split_to_some;
     sub_task_json_reads_with_and_without_time_split;
     serialize_dispatch_payload_appends_tree_and_leaves_mps_bytes_unchanged;
     network_tree_round_trips_byte_for_byte;
     gate_halves_round_trip_byte_for_byte] = true.
Proof. vm_compute. reflexivity. Qed.
