(* ===== verification/TestStorage.v ===== *)
(** * The unit tests of [src/infra/storage.rs]

    Each [#[test]] is a sequence of the statements of [Storage] on an empty
    database, with [unwrap] and [assert!] as steps that stop it. *)

From S2P Require Import Prelude Bytes F64 Models Serde Codec Table Storage CoreClient Config State.
From S2P Require Import Env TestSupport.

(** ** Test programs *)

Definition Test (A : Type) : Type := Store -> option (A * Store).
(** A statement, unwrapped. *)
Definition unwrap {A} (m : St A) : Test A := fun st =>
  match m st with (Ok a, st) => Some (a, st) | (Err _, _) => None end.
Definition check (b : bool) : Test unit := fun st => if b then Some (tt, st) else None.
Definition then_ {A B} (m : Test A) (k : A -> Test B) : Test B := fun st =>
  match m st with Some (a, st) => k a st | None => None end.
Declare Scope test_scope.
Notation "x <~ m ; k" := (then_ (unwrap m) (fun x => k))
  (at level 100, m at next level, right associativity) : test_scope.
Notation "m ';;' k" := (then_ (unwrap m) (fun _ => k))
  (at level 100, right associativity) : test_scope.
Open Scope test_scope.
(** From an empty database, at some time. *)
Definition passes (t : Test unit) : bool := is_some (t (mkStore empty_db [] 1700000000)).

Definition save := save_task (to_string print_json compute_task_codec).
Definition load := load_task (from_str parse_json compute_task_codec).
Definition pending_tasks := get_pending_tasks (from_str parse_json compute_task_codec).

(** [#[cfg(test)] set_task_created_at] *)
Definition set_task_created_at (orchestrator_pubkey task_id : string) (created_at : Z) : St unit :=
  exec (fun d _ => with_tasks (update_where (has_key (orchestrator_pubkey, task_id))
    (fun r => mkRow r.(row_id) r.(row_key) r.(row_data) created_at)) d).

Definition sample_task (task_id : string) : ComputeTask :=
  mkComputeTask (mkComputeRequest task_id (Some "parent-1") "circuit-1" None 2 3 "0" [] [] (Some 2)
    None None None None "" None None None [] None "") "orch-pubkey" None 0.

Definition orch : string := "orch-pubkey".

(** ** Tests *)

Definition geo_cache_round_trip_within_ttl : bool :=
  let geo := mkGeoInfo (float "35.6762") (float "139.6503") "Japan" "Tokyo" in
  passes (save_geo_cache geo;;
    loaded <~ get_cached_geo;
    check (on_some loaded (fun g =>
      same g.(latitude) geo.(latitude) && same g.(longitude) geo.(longitude)
      && same g.(country) geo.(country) && same g.(city) geo.(city)))).

Definition load_task_returns_none_for_missing_row : bool :=
  passes (loaded <~ load orch "missing"; check (negb (is_some loaded))).

Definition load_task_round_trip : bool :=
  passes (save (sample_task "sub-1");;
    loaded <~ load orch "sub-1";
    check (on_some loaded (fun t => same t.(request).(task_id) "sub-1"))).

Definition pending_result_outbox_round_trip : bool :=
  let body := as_bytes (jq "{'sub_task_id':'sub-1'}") in
  passes (upsert_pending_result orch "sub-1" body;;
    n <~ count_pending_results;
    pending <~ list_pending_results;
    delete_pending_result orch "sub-1";;
    left <~ count_pending_results;
    check (same n 1 && same (length pending) 1%nat
      && on_some (head pending) (fun p =>
           same p.(prs_sub_task_id) "sub-1" && same p.(prs_wire_body) body)
      && same left 0)).

Definition upsert_pending_result_replaces_wire_body : bool :=
  passes (upsert_pending_result orch "sub-1" (as_bytes "v1");;
    upsert_pending_result orch "sub-1" (as_bytes "v2");;
    pending <~ list_pending_results;
    check (same (length pending) 1%nat
      && on_some (head pending) (fun p =>
           same p.(prs_wire_body) (as_bytes "v2") && same p.(prs_attempts) 0))).

Definition task_status_update_does_not_touch_outbox : bool :=
  passes (save (sample_task "sub-1");;
    upsert_pending_result orch "sub-1" (as_bytes "body");;
    update_status orch "sub-1" "completed";;
    n <~ count_pending_results;
    tasks <~ pending_tasks;
    check (same n 1 && same (length tasks) 0%nat)).

Definition prune_terminal_tasks_deletes_old_completed_keeps_pending : bool :=
  passes (save (sample_task "done-1");;
    save (sample_task "pending-1");;
    update_status orch "done-1" "completed";;
    set_task_created_at orch "done-1" 1000;;
    set_task_created_at orch "pending-1" 1000;;
    deleted <~ prune_terminal_tasks 2000;
    gone <~ load orch "done-1";
    kept <~ load orch "pending-1";
    check (same deleted 1 && negb (is_some gone) && is_some kept)).

Definition prune_terminal_tasks_skips_rows_with_outbox : bool :=
  passes (save (sample_task "sub-1");;
    update_status orch "sub-1" "completed";;
    set_task_created_at orch "sub-1" 1000;;
    upsert_pending_result orch "sub-1" (as_bytes "body");;
    deleted <~ prune_terminal_tasks 2000;
    kept <~ load orch "sub-1";
    check (same deleted 0 && is_some kept)).

Definition prune_terminal_tasks_keeps_recent_completed : bool :=
  passes (save (sample_task "sub-1");;
    update_status orch "sub-1" "completed";;
    set_task_created_at orch "sub-1" 5000;;
    deleted <~ prune_terminal_tasks 2000;
    kept <~ load orch "sub-1";
    check (same deleted 0 && is_some kept)).

Definition count_tasks_by_status_buckets : bool :=
  passes (save (sample_task "p1");;
    save (sample_task "c1");;
    save (sample_task "f1");;
    update_status orch "c1" "completed";;
    update_status orch "f1" "failed";;
    counts <~ count_tasks_by_status;
    check (same counts (1, 1, 1))).

(** All of them pass. *)
Example storage_tests_pass :
  forallb (fun t => t)
    [geo_cache_round_trip_within_ttl;
     load_task_returns_none_for_missing_row;
     load_task_round_trip;
     pending_result_outbox_round_trip;
     upsert_pending_result_replaces_wire_body;
     task_status_update_does_not_touch_outbox;
     prune_terminal_tasks_deletes_old_completed_keeps_pending;
     prune_terminal_tasks_skips_rows_with_outbox;
     prune_terminal_tasks_keeps_recent_completed;
     count_tasks_by_status_buckets] = true.
Proof. vm_compute. reflexivity. Qed.
