(* ===== verification/TestPcs.v ===== *)
(** * The unit tests of the PCS parts

    [src/domain/pcs.rs], [src/application/pcs_open_call.rs],
    [src/application/pcs_outbox.rs] and [src/infra/cas_client.rs]: each [#[test]] is
    a boolean function of the same name. *)

From S2P Require Import Prelude Bytes F64 Models MemoryBudget Serde Codec Wire WorkLedger Pcs Table.
From S2P Require Import Storage CoreClient Config State Stream Cas PcsOutbox PcsHandlers Geo Bid Node.
From S2P Require Import Messages Env TestSupport.

(** ** [src/domain/pcs.rs] *)

Definition parent_request (kind hash : string) : PcsRequest :=
  mkPcsRequest "parent_01-sub" "parent" "01" "12D3KooWnode" 1700000000 kind hash.
Definition parent_request_bytes : bytes :=
  as_bytes "parent_01-sub" ++ as_bytes "parent" ++ as_bytes "01" ++ as_bytes "12D3KooWnode"
  ++ i64_be 1700000000.

Definition serialize_pcs_request_payload_layout_matches_orchestrator : bool :=
  let request := parent_request "" "" in
  same (serialize_pcs_request_payload request) parent_request_bytes
  && negb (request_is_open_call request).

Definition serialize_pcs_request_payload_open_call_appends_kind_and_hash : bool :=
  let hash := "0123456789abcdef0123456789abcdef0123456789abcdef0123456789abcdef" in
  let request := parent_request PCS_REQUEST_KIND_OPEN_CALL hash in
  same (serialize_pcs_request_payload request)
    (parent_request_bytes ++ as_bytes PCS_REQUEST_KIND_OPEN_CALL ++ as_bytes hash)
  && request_is_open_call request.

(** A hash of one repeated digit. *)
Definition hash_of (c : Z) : string := of_chars (replicate 64 c).

Definition serialize_pcs_open_call_payload_matches_orchestrator : bool :=
  let call := mkPcsOpenCall "parent" "parent_01-sub" "01" (hash_of 97) 42 "https://s3.example/blob"
    "400000000000" 1700001800 1700000000 ["node-b"; "node-a"] in
  same (serialize_pcs_open_call_payload call)
    (as_bytes "parent" ++ as_bytes "parent_01-sub" ++ as_bytes "01" ++ as_bytes (hash_of 97)
     ++ u64_be 42 ++ as_bytes "https://s3.example/blob" ++ as_bytes "400000000000"
     ++ i64_be 1700001800 ++ i64_be 1700000000 ++ u32_be 2
     ++ flat_map (fun id => u32_be (Z.of_nat (length (as_bytes id))) ++ as_bytes id)
          ["node-a"; "node-b"]).

Definition serialize_pcs_bid_payload_matches_orchestrator : bool :=
  let bid := mkPcsBid "parent_01-sub" "12D3KooWbuilder" (hash_of 99) PCS_MEMORY_POLICY_SPILL 1700000100 in
  same (serialize_pcs_bid_payload bid)
    (as_bytes bid.(pb_sub_task_id) ++ as_bytes bid.(pb_node_id) ++ as_bytes bid.(pb_leaf_proof_hash)
     ++ as_bytes PCS_MEMORY_POLICY_SPILL ++ i64_be 1700000100)
  && is_spill_policy bid.

Definition pending_pcs_job_defaults_to_unrequested : bool :=
  on_some (from_str parse_json pending_pcs_job_codec (jq (String.concat ""
      ["{'sub_task_id':'s','proof':{'stark_proof_b64':'','public_inputs':{";
       "'circuit_id':'c','sub_task_id':'s','node_id':'n','slice_id':'0','output_result_hash':'h'";
       "}}}"])))
    (fun job => negb job.(job_requested)).

Definition pcs_refusal_message_serializes_refused_flag : bool :=
  let msg := mkPcsMessage "t_090100" "12D3KooWnode" "" true
    (Some "PCS memory: estimate=3.57 GiB exceeds budget=2.00 GiB (policy=refuse)") in
  on_some (to_string print_json pcs_message_codec msg) (fun json =>
    contains (jq "'refused':true") json && contains "policy=refuse" json
    && on_some (from_str parse_json pcs_message_codec json) (fun back =>
         back.(pm_refused) && is_empty back.(pm_leaf_pcs_b64))).

Definition pcs_request_legacy_json_defaults_open_call_fields : bool :=
  on_some (from_str parse_json pcs_request_codec (jq (String.concat ""
      ["{ 'sub_task_id':'s', 'parent_task_id':'p', 'slice_id':'0',";
       "  'node_id':'n', 'issued_at_unix':1 }"])))
    (fun req => is_empty req.(pr_request_kind) && is_empty req.(pr_leaf_proof_hash)
       && negb (request_is_open_call req)).

Definition pcs_memory_policy_from_env_str : bool :=
  same (policy_from_env_str (Some "spill")) Spill && same (policy_from_env_str (Some "SPILL")) Spill
  && same (policy_from_env_str (Some "refuse")) Refuse && same (policy_from_env_str None) Refuse.

Definition open_call_expiry_and_refused_builder : bool :=
  let call := mkPcsOpenCall "parent" "parent_01-sub" "01" "aa" 1 "https://x" "1" 100 0 ["node-a"] in
  negb (is_expired_at call 99) && is_expired_at call 100
  && refuses_builder call "node-a" && negb (refuses_builder call "node-b").

Definition build_signed_pcs_bid_is_spill_and_verifiable : bool :=
  let key := replicate 32 Byte.x07 in
  let open := mkPcsOpenCall "parent" "parent_01-sub" "01" (hash_of 98) 10 "https://s3.example/blob" "1"
    2000000000 1900000000 [] in
  let msg := build_signed_pcs_bid (test_sign key) b64 1950000000 open "12D3KooWbuilder" in
  is_spill_policy msg.(pbm_bid) && same msg.(pbm_bid).(pb_node_id) "12D3KooWbuilder"
  && same msg.(pbm_bid).(pb_leaf_proof_hash) open.(oc_leaf_proof_hash)
  && on_some (unb64 msg.(pbm_signature)) (fun sig =>
       on_some (bytes32 sig) (fun sig =>
         test_verify (public_of key) (serialize_pcs_bid_payload msg.(pbm_bid)) sig)).

(** ** [src/application/pcs_open_call.rs] *)

Definition open_call_config (peer : string) : NodeConfig :=
  mkNodeConfig peer "" 28 2048 (f64_of_Z 16) (Some (f64_of_Z 16)) (32 * GIB_U64) Ram None 300 None
    (float "0.5") (float "5.0") (float "30.0") 7200 (replicate 32 Byte.x01) [] None [] 0 60 0 "" 0
    None None None None.

Definition sample_open (deadline : Z) (refused : list string) : PcsOpenCall :=
  mkPcsOpenCall "parent" "parent_01-sub" "01" (hash_of 97) 42 "https://s3.example/blob" "100" deadline
    (deadline - 1800) refused.

Definition spill_bids_when_open_call_active : bool :=
  should_bid_open_call_at (open_call_config "node-a") Spill (sample_open 2000000000 []) 1900000000.

(** The reason is asked for at whatever the clock shows before the deadline. *)
Definition refuse_policy_skips_bid : bool :=
  let cfg := open_call_config "node-a" in
  let open := sample_open 2000000000 [] in
  negb (should_bid_open_call_at cfg Refuse open 1900000000)
  && same (skip_bid_reason cfg Refuse open 1900000000) "policy=refuse".

Definition expired_open_call_skips_bid : bool :=
  let cfg := open_call_config "node-a" in
  let open := sample_open 1700000000 [] in
  negb (should_bid_open_call_at cfg Spill open 1700000000)
  && negb (should_bid_open_call_at cfg Spill open 1700000001).

Definition refused_builder_skips_bid : bool :=
  negb (should_bid_open_call_at (open_call_config "node-a") Spill
          (sample_open 2000000000 ["node-a"]) 1900000000).

(** ** [src/infra/cas_client.rs] and [src/application/pcs_outbox.rs] *)

Definition hash_hex := sha256_hex sha256 hex.
Definition verify_blob := verify_cas_blob sha256 hex.
Definition cas_error_text (e : CasError) : string :=
  cas_text (fun _ => "") (fun _ => "") "" e.
Definition to_uppercase (s : string) : string :=
  of_chars (map (fun c => if (97 <=? c) && (c <=? 122) then c - 32 else c) (chars s)).

Definition verify_cas_blob_accepts_matching_hash : bool :=
  let data := as_bytes "leaf-stark-proof-bytes" in
  is_ok (verify_blob data (hash_hex data)) && is_ok (verify_blob data (to_uppercase (hash_hex data))).

Definition verify_cas_blob_rejects_mismatch : bool :=
  fails_with (fun e => contains "hash mismatch" (cas_error_text e))
    (verify_blob (as_bytes "proof-a") (hash_hex (as_bytes "proof-b"))).

Definition cas_hash_mismatch_is_permanent_refuse_reason : bool :=
  fails_with (fun e =>
      is_cas_hash_mismatch (cas_error_text e)
      && contains "hash mismatch" (pcs_refuse_reason (cas_error_text e)))
    (verify_blob (as_bytes "b") (hash_hex (as_bytes "a"))).

Definition open_call_job_round_trips_source : bool :=
  let job := mkPendingPcsJob "s" (placeholder_proof "s" "n" "01") true None None
    (Some (mkOpenCallPcsSource "aa" "https://x" 3 "01")) in
  on_some (to_vec print_json pending_pcs_job_codec job) (fun json =>
    on_some (from_slice parse_json pending_pcs_job_codec json) (fun back =>
      job_is_open_call back
      && on_some back.(job_open_call) (fun o => same o.(src_leaf_proof_bytes) 3))).

(** All of them pass. *)
Example pcs_tests_pass :
  forallb (fun t => t)
    [serialize_pcs_request_payload_layout_matches_orchestrator;
     serialize_pcs_request_payload_open_call_appends_kind_and_hash;
     serialize_pcs_open_call_payload_matches_orchestrator;
     serialize_pcs_bid_payload_matches_orchestrator;
     pending_pcs_job_defaults_to_unrequested;
     pcs_refusal_message_serializes_refused_flag;
     pcs_request_legacy_json_defaults_open_call_fields;
     pcs_memory_policy_from_env_str;
     open_call_expiry_and_refused_builder;
     build_signed_pcs_bid_is_spill_and_verifiable;
     spill_bids_when_open_call_active;
     refuse_policy_skips_bid;
     expired_open_call_skips_bid;
     refused_builder_skips_bid;
     verify_cas_blob_accepts_matching_hash;
     verify_cas_blob_rejects_mismatch;
     cas_hash_mismatch_is_permanent_refuse_reason;
     open_call_job_round_trips_source] = true.
Proof. vm_compute. reflexivity. Qed.
