(* ===== verification/TestDomain.v ===== *)
(** * The unit tests of the other domain modules

    [src/domain/bid.rs], [work.rs], [validation.rs], [features.rs], [token.rs],
    [result.rs], [operator.rs], [models.rs] and [src/memory_budget.rs]: each
    [#[test]] is a boolean function of the same name. *)

From S2P Require Import Prelude Bytes F64 FloatText Models Features MemoryBudget Token GoJson Serde Codec.
From S2P Require Import Validation Wire WorkLedger Pcs Table Storage CoreClient Config State Stream.
From S2P Require Import Geo Operator Bid Cas PcsOutbox ResultJson Env TestSupport.

(** [assert_eq!] on floats *)
Abbreviation feq a b := (f64_eqb a (float b)).

(** ** [src/domain/bid.rs] *)

Definition test_config (max_qubits : Z) : NodeConfig :=
  mkNodeConfig "test" "" max_qubits 0 (float "0.0") None 0 Ram None 300 None (float "0.5") (float "5.0")
    (float "30.0") 7200 (replicate 32 Byte.x00) [] None [] 0 60 0 "" 0 None None None None.
Definition task_30 (required_features : Z) : TaskAnnouncement :=
  mkTaskAnnouncement "task-30" 30 required_features 0 1 1 None None.

Definition should_bid_when_parent_qubits_exceed_node_cap : bool :=
  should_bid_on (task_30 FEATURE_STANDARD_GATES) (test_config 28) FEATURE_STANDARD_GATES.

Definition should_not_bid_when_features_unsupported : bool :=
  negb (should_bid_on
    (task_30 (Z.lor (Z.lor FEATURE_STANDARD_GATES FEATURE_CUSTOM_UNITARY) (Z.shiftl 1 5)))
    (test_config 28) FEATURE_STANDARD_GATES).

Definition should_not_bid_when_core_reports_no_features : bool :=
  negb (should_bid_on (task_30 FEATURE_STANDARD_GATES) (test_config 28) 0).

Definition serialize_bid_payload_layout_matches_orchestrator : bool :=
  let supported := Z.lor FEATURE_STANDARD_GATES FEATURE_CUSTOM_UNITARY in
  let bid := mkBid "task-a" "node-b" 25 2048 1 1717776000 7 [] [Byte.xaa; Byte.xbb] 50000 supported
    None None None None in
  same (serialize_bid_payload bid)
    (as_bytes "task-a" ++ as_bytes "node-b" ++ u32_be 25 ++ u32_be 1 ++ i64_be 1717776000 ++ u64_be 7
     ++ [Byte.xaa; Byte.xbb] ++ u32_be supported).

Definition lottery_hash_matches_go_golden_vector : bool :=
  same (lottery_hash sha256 "12D3KooWTest" 42 1717776000 0)
    (unhex "6e53a41124ed5ca6bc0c82b4d927124a7fb6d08fa423b3e505089c8a8fa665b2").

(** ** [src/domain/work.rs] *)

Definition policy : BudgetPolicy :=
  mkBudgetPolicy (mkTnRates (float "1e-9") (float "1e-9")) (float "5.0") (float "0.5") 300 (float "30.0").
Definition gigabytes (gb : Z) : Work := mkWork (gb * 1000000000) 0.
Definition judge := decide_work map_values.
Definition queued := queued_secs map_values.
Definition budget_eqb (b : Budget) (deadline : Z) (expected : string) : bool :=
  same b.(deadline_secs) deadline && feq b.(expected_secs) expected.
(** Some moment. *)
Definition now : Z := from_secs 1000.

Definition bids_only_within_half_the_shorter_limit : bool :=
  let '(ledger, r) := judge empty_ledger "a" (gigabytes 100) 330 policy now in
  let later := now + from_secs 1 in
  let '(ledger_b, rb) := judge ledger "b" (gigabytes 45) 330 policy later in
  let '(_, rc) := judge ledger_b "c" (gigabytes 40) 330 policy later in
  on_ok r (fun budget => budget_eqb budget 330 "105.0")
  && on_some (budget_of ledger "a") (fun b => budget_eqb b 330 "105.0")
  && fails_with (fun total => feq total "155.0") rb
  && is_ok rc
  && negb (is_ok (judge empty_ledger "d" (gigabytes 60) 120 policy now).2).

Definition a_reservation_lapses_without_a_dispatch : bool :=
  let ledger := (judge empty_ledger "a" (gigabytes 100) 330 policy now).1 in
  feq (queued ledger now (float "30.0")) "105.0"
  && feq (queued ledger (now + RESERVATION_TTL) (float "30.0")) "0.0".

Definition held_work_counts_until_it_is_done : bool :=
  let '(ledger, r) := judge empty_ledger "a" (gigabytes 100) 330 policy now in
  on_ok r (fun budget =>
    let ledger := hold ledger "a_1" (Some "a") (Some budget) in
    let started := start ledger "a_1" now in
    let released := release started "a_1" in
    (* the dispatch ends the reservation *)
    feq (queued ledger now (float "30.0")) "105.0"
    && feq (queued started (now + from_secs 60) (float "30.0")) "45.0"
    (* past its estimate it counts in full again *)
    && feq (queued started (now + from_secs 200) (float "30.0")) "105.0"
    && feq (queued released now (float "30.0")) "0.0").

Definition work_without_a_budget_counts_the_unknown_share : bool :=
  let ledger := hold (hold empty_ledger "mps_1" (Some "mps") None) "restored" None None in
  feq (queued ledger now (float "30.0")) "60.0"
  && is_ok (judge ledger "a" (gigabytes 85) 330 policy now).2.

Definition waits_for_core_until_what_is_left_of_the_deadline : bool :=
  let budget := mkBudget 120 (float "1.0") in
  same (compute_timeout 300 (Some budget) 0) (Some (from_secs 120))
  && same (compute_timeout 60 (Some budget) 0) (Some (from_secs 60))
  && same (compute_timeout 300 (Some budget) (from_secs 100)) (Some (from_secs 20))
  && same (compute_timeout 300 (Some budget) (from_secs 120)) None
  && same (compute_timeout 300 None (from_secs 1000)) (Some (from_secs 300)).

Definition rates_need_both_fields_within_bounds : bool :=
  let rates a b := from_sysinfo a b in
  negb (is_some (rates None (Some (float "1e-9"))))
  && negb (is_some (rates (Some (float "0.0")) (Some (float "1e-9"))))
  && negb (is_some (rates (Some (float "1e-10")) (Some (float "0.0"))))
  && negb (is_some (rates (Some (float "1e-10")) (Some f64_infinity)))
  && is_some (rates (Some (float "5.7e-11")) (Some (float "3.3e-10"))).

(** ** [src/domain/validation.rs] *)

(** The text of an error. *)
Definition at_index (idx : Z) : string := of_chars (dec_text idx).
Definition validation_text (e : ValidationError) : string :=
  match e with
  | GateNotSupported g idx => String.concat "" ["Gate '"; g; "' at index "; at_index idx; " not supported"]
  | IfNotObject idx => String.concat "" ["IF gate at index "; at_index idx; " requires object params"]
  | IfMissingGate idx => String.concat "" ["IF gate at index "; at_index idx; " missing nested gate"]
  | IfInvalidGate idx => String.concat "" ["IF gate at index "; at_index idx; " has invalid nested gate"]
  | RotationMissingQubit idx => String.concat "" ["Rotation gate at index "; at_index idx; " is missing a qubit"]
  | NegativeIndex q _ => String.concat "" ["negative qubit index -"; at_index (- q)]
  | IndexOutOfRange q idx =>
    String.concat "" ["Qubit index "; at_index q; " out of range at gate "; at_index idx]
  | NonIntegerIndex idx => String.concat "" ["gate "; at_index idx; " has a non-integer qubit index"]
  | FuelExhausted => ""
  end.

Definition json (s : string) : value := default VNull (parse_text (jq s)).
Definition gate (ty params : string) : Gate := mkGate ty (json params).
Definition supported : list string := ["H"; "X"; "CNOT"; "RY"; "MEASURE"; "IF"; "RESET"].
Definition rejected (g : Gate) (why : string) : bool :=
  fails_with (fun e => contains why (validation_text e)) (validate_circuit_logic [g] 2 supported).

Definition normalize_flattens_if_nested_gate_params : bool :=
  match normalize_gate_params [gate "IF" "{'cbit':0,'value':1,'gate':{'type':'X','params':[1]}}"] with
  | [g] =>
    match g.(params) with
    | VObject m =>
      match obj_get "gate" m with
      | Some (VObject nested) => same (obj_get "params" nested) (Some (json "1"))
      | _ => false
      end
    | _ => false
    end
  | _ => false
  end.

Definition rejects_scalar_qubit_index_out_of_range : bool := rejected (gate "X" "5") "out of range".

Definition rejects_negative_and_non_integer_qubit_index : bool :=
  rejected (gate "H" "-1") "negative" && rejected (gate "H" "1.5") "non-integer"
  && rejected (gate "CNOT" "[0, 5]") "out of range".

Definition rotation_angle_is_not_a_qubit_index : bool :=
  is_ok (validate_circuit_logic [gate "RY" "[0, 3]"] 2 supported)
  && rejected (gate "RY" "[5, 0.3]") "out of range".

Definition rejects_unsupported_gate_and_measure_qubit : bool :=
  rejected (gate "SWAP" "[0, 1]") "not supported"
  && rejected (gate "MEASURE" "{'qubit': 4, 'cbit': 0}") "out of range".

Definition if_checks_nested_qubit_and_requires_a_gate : bool :=
  rejected (gate "IF" "{'cbit': 0, 'value': 1, 'gate': {'type': 'X', 'params': 9}}") "out of range"
  && rejected (gate "IF" "{'cbit': 0, 'value': 1}") "missing nested gate".

(** ** [src/memory_budget.rs] *)

Definition gib_near (g : f64) (want : string) : bool :=
  f64_ltb (f64_abs (f64_sub g (float want))) (float "0.01").

Definition mps_width_saturates_at_bid_field : bool :=
  same (max_qubits_from_mps_memory_budget U64_MAX) U32_MAX.
Definition one_gib_yields_26_qubits : bool :=
  same (max_qubits_from_dense_memory_budget GIB_U64) 26
  && same (max_qubits_from_mps_memory_budget GIB_U64) 2048.
Definition sixteen_gib_yields_30_qubits : bool :=
  same (max_qubits_from_dense_memory_budget (16 * GIB_U64)) 30.
Definition caps_at_total_minus_one_gib_below_sixteen : bool :=
  same (effective_memory_bytes (Some (float "9.0")) (10 * GIB_U64)) (9 * GIB_U64).
Definition caps_at_total_minus_two_gib_at_sixteen : bool :=
  same (effective_memory_bytes (Some (float "16.0")) (16 * GIB_U64)) (14 * GIB_U64).
Definition unset_request_uses_host_minus_reserve : bool :=
  same (effective_memory_bytes None (32 * GIB_U64)) (30 * GIB_U64)
  && same (effective_memory_bytes None (8 * GIB_U64)) (7 * GIB_U64).
Definition resolve_applies_cap_before_qubit_conversion : bool :=
  let '(qubits, mps_qubits, effective_gib) :=
    resolve_max_qubits_from_memory_gb (Some (float "16.0")) (2 * GIB_U64) in
  gib_near effective_gib "1.0" && same qubits 26
  && same mps_qubits (max_qubits_from_mps_memory_budget GIB_U64).
Definition max_memory_examples : bool :=
  same (max_wqc_memory_gib_from_total 8) 7 && same (max_wqc_memory_gib_from_total 16) 14
  && same (max_wqc_memory_gib_from_total 32) 30.
Definition vram_smaller_than_ram_wins : bool :=
  let '(qubits, mps_qubits, gib, src) :=
    resolve_max_qubits_with_optional_vram (16 * GIB_U64) (Some (4 * GIB_U64)) in
  same src Vram && gib_near gib "3.0"
  && same qubits (max_qubits_from_dense_memory_budget (3 * GIB_U64))
  && same mps_qubits (max_qubits_from_mps_memory_budget (3 * GIB_U64)).
Definition ram_smaller_than_vram_wins : bool :=
  let '(_, _, gib, src) := resolve_max_qubits_with_optional_vram (2 * GIB_U64) (Some (24 * GIB_U64)) in
  same src Ram && gib_near gib "2.0".
Definition no_vram_keeps_ram : bool :=
  same (resolve_max_qubits_with_optional_vram (8 * GIB_U64) None).2 Ram.

(** ** [src/domain/features.rs] *)

Definition standard_gates_only : bool := same (features_from_gates ["H"; "CNOT"]) FEATURE_STANDARD_GATES.
Definition rotation_adds_custom_unitary_bit : bool :=
  same (features_from_gates ["H"; "RX"]) (Z.lor FEATURE_STANDARD_GATES FEATURE_CUSTOM_UNITARY).
Definition work_budget_bit_follows_core_rates : bool :=
  same (node_features ["H"] false) FEATURE_STANDARD_GATES
  && same (node_features ["H"] true) (Z.lor FEATURE_STANDARD_GATES FEATURE_WORK_BUDGET).
Definition empty_gate_list_yields_zero : bool := same (features_from_gates []) 0.
Definition core_split_capability_sets_its_bit : bool :=
  let split := Z.lor FEATURE_STANDARD_GATES FEATURE_NETWORK_GATE_SPLIT in
  let features := features_from_gates ["CNOT"; "NETWORK_GATE_SPLIT"] in
  same features split && negb (supports_required_features FEATURE_STANDARD_GATES split)
  && supports_required_features features split.

(** ** [src/domain/token.rs] *)

Definition planck (s : string) : result TokenError Z := parse_wqc_to_planck sample_bigint s.
Definition parse_wqc_to_planck_whole_and_fraction : bool :=
  on_ok (planck "100") (fun got => same got 100000000000000000000)
  && on_ok (planck "0.05") (fun got => same got 50000000000000000).
Definition parse_wqc_to_planck_rejects_too_many_digits : bool :=
  negb (is_ok (planck "0.0000000000000000001")).

(** ** [src/domain/result.rs] *)

Definition zero_one : ComplexResult := mkComplexResult (float "0.0") (float "1.0").
Definition complex_result_json_matches_go_integer_style : bool :=
  same (of_chars (format_go_complex_result_json zero_one)) (jq "{'real':0.0,'imag':1.0}").
Definition expectation_result_json_matches_orchestrator_canonical : bool :=
  same (of_chars (format_go_expectation_result_json
      (mkExpectationResult [("ZZ", mkComplexResult (float "1.0") (float "0.0"))])))
    (jq "{'values':{'ZZ':{'real':1.0,'imag':0.0}}}").
Definition failure_json_omits_proof_and_result : bool :=
  on_some (parse_json (failure_json_bytes json_string_text "sub-1" "node-1" "timeout")) (fun json =>
    match json with
    | VObject m =>
      same (obj_get "sub_task_id" m) (Some (VString "sub-1"))
      && same (obj_get "node_id" m) (Some (VString "node-1"))
      && same (obj_get "error" m) (Some (VString "timeout"))
      && negb (is_some (obj_get "proof" m)) && negb (is_some (obj_get "complex_result" m))
    | _ => false
    end).

(** ** [src/domain/operator.rs] *)

(** The key of the seed is computed once: the seed does not depend on it. *)
Definition derive_with (verifying_key : bytes -> bytes) (private_key : string) :=
  derive_operator_keypair hmac_sha256 sha256 hex verifying_key private_key.
Definition derive_operator_keypair_golden_vector : bool :=
  on_ok (derive_with public_of "nk_crosslang_test_vector") (fun '(_, seed) =>
    let public := ed25519_public seed in
    on_ok (derive_with (fun _ => public) "nk_crosslang_test_vector") (fun '(operator_id, key) =>
      same key seed
      && same operator_id "ffd5bedd67236d70d73de1ebb588fe1701068af1eb7f7754e3fcc850df70d01b"
      && same (b64 public) "1jdCe6/5SZ88Zx+JPWFSzZIzRxrA1yx3F01PREE+FMs=")).

(** With a cheap public key: the seed and what is hashed of it are the same. *)
Definition derive_cheaply := derive_with public_of.
Definition derive_operator_keypair_is_deterministic : bool :=
  on_ok (derive_cheaply "nk_test_key_alpha") (fun '(id1, key1) =>
    on_ok (derive_cheaply "nk_test_key_alpha") (fun '(id2, key2) => same id1 id2 && same key1 key2)).
Definition operator_bid_signature_round_trip : bool :=
  on_ok (derive_cheaply "nk_roundtrip_example") (fun '(operator_id, key) =>
    let payload := serialize_operator_bid_payload (fun n => of_chars (dec_text n)) operator_id
      "12D3KooWTest" "task-1" 50000000000000000 in
    test_verify (public_of key) payload (test_sign key payload)).

(** ** [src/domain/models.rs] *)

Definition sample_report (proof_scope : string) : WorkReport := mkWorkReport 4 1 1 1 1 "" 0 proof_scope.
Definition work_report_omits_empty_proof_scope : bool :=
  on_some (to_string print_json work_report_codec (sample_report "")) (fun json =>
    negb (contains "proof_scope" json)).
Definition work_report_emits_nonempty_proof_scope : bool :=
  on_some (to_string print_json work_report_codec (sample_report "mps_time_split")) (fun json =>
    contains (jq "'proof_scope':'mps_time_split'") json).

(** All of them pass. *)
Example domain_tests_pass :
  forallb (fun t => t)
    [should_bid_when_parent_qubits_exceed_node_cap;
     should_not_bid_when_features_unsupported;
     should_not_bid_when_core_reports_no_features;
     serialize_bid_payload_layout_matches_orchestrator;
     lottery_hash_matches_go_golden_vector;
     bids_only_within_half_the_shorter_limit;
     a_reservation_lapses_without_a_dispatch;
     held_work_counts_until_it_is_done;
     work_without_a_budget_counts_the_unknown_share;
     waits_for_core_until_what_is_left_of_the_deadline;
     rates_need_both_fields_within_bounds;
     normalize_flattens_if_nested_gate_params;
     rejects_scalar_qubit_index_out_of_range;
     rejects_negative_and_non_integer_qubit_index;
     rotation_angle_is_not_a_qubit_index;
     rejects_unsupported_gate_and_measure_qubit;
     if_checks_nested_qubit_and_requires_a_gate;
     mps_width_saturates_at_bid_field; one_gib_yields_26_qubits; sixteen_gib_yields_30_qubits;
     caps_at_total_minus_one_gib_below_sixteen; caps_at_total_minus_two_gib_at_sixteen;
     unset_request_uses_host_minus_reserve; resolve_applies_cap_before_qubit_conversion;
     max_memory_examples; vram_smaller_than_ram_wins; ram_smaller_than_vram_wins; no_vram_keeps_ram;
     standard_gates_only; rotation_adds_custom_unitary_bit; work_budget_bit_follows_core_rates;
     empty_gate_list_yields_zero; core_split_capability_sets_its_bit;
     parse_wqc_to_planck_whole_and_fraction; parse_wqc_to_planck_rejects_too_many_digits;
     complex_result_json_matches_go_integer_style;
     expectation_result_json_matches_orchestrator_canonical;
     failure_json_omits_proof_and_result;
     derive_operator_keypair_golden_vector;
     derive_operator_keypair_is_deterministic;
     operator_bid_signature_round_trip;
     work_report_omits_empty_proof_scope; work_report_emits_nonempty_proof_scope] = true.
Proof. vm_compute. reflexivity. Qed.
