(* ===== verification/TestApp.v ===== *)
(** * The unit tests of the application and the transport

    [src/application/accept_task.rs], [worker.rs], [src/infra/orchestrator.rs],
    [metrics.rs] and [src/transport/p2p/host.rs]: each [#[test]] is a boolean function
    of the same name. *)

From S2P Require Import Prelude Bytes F64 FloatText Models Serde Codec Wire WorkLedger Pcs Table Storage.
From S2P Require Import CoreClient Config State AcceptTask Stream Host Metrics Cas PcsOutbox.
From S2P Require Import ResultOutbox Ports Worker Env TestSupport.

(** ** [src/application/accept_task.rs] *)

Definition accepted_task (node circuit : string) : ComputeTask :=
  mkComputeTask (mkComputeRequest "sub-1" (Some "parent-1") circuit (Some node) 2 3 "0" []
    [mkGate "H" (VArray [VNumber (PosInt 0)])] (Some 2) None None None None "" None None None [] None "")
    "orch-pubkey" None 0.
Definition matches := dispatch_payload_matches (to_vec print_json compute_request_codec).

Definition scalar_limit_uses_mps_width_and_other_modes_stay_dense : bool :=
  same (compact_qubit_limit "statevector_scalar" 26 2048) 2048
  && same (compact_qubit_limit "" 26 2048) 2048
  && same (compact_qubit_limit "expectation" 26 2048) 26
  && same (compact_qubit_limit "sample_counts" 26 2048) 26
  && same (compact_qubit_limit "statevector_scalar" 26 0) 26.

Definition dispatch_payload_matches_ignores_node_id : bool :=
  matches (accepted_task "node-a" "circuit-1") (accepted_task "node-b" "circuit-1").

Definition dispatch_payload_rejects_different_circuit : bool :=
  negb (matches (accepted_task "node-a" "circuit-1") (accepted_task "node-a" "other-circuit")).

(** ** [src/application/worker.rs] *)

(** The chain of an [anyhow] error; here a connection that is refused. *)
Definition failure_reason_includes_the_cause : bool :=
  let err := ComputeFailed (SendFailed (mkHttpError false false false true false)) in
  let msg := failure_reason (fun _ => "connection refused") (fun _ => "") "" err in
  contains "Failed to send request to wqc-core" msg && contains "connection refused" msg.

(** ** [src/infra/orchestrator.rs] *)

(** A multiaddress: its parts between slashes, and the peer of a [/p2p]. *)
Fixpoint split_slashes (t : text) : list text :=
  match t with
  | [] => [[]]
  | c :: t =>
    match split_slashes t with
    | part :: parts => if c =? 47 then [] :: part :: parts else (c :: part) :: parts
    | [] => [[c]]
    end
  end.
Fixpoint protocols_of (parts : list text) : list protocol :=
  match parts with
  | name :: ((value :: _) as rest) =>
    (if decide (name = lit "p2p") then P2p (of_chars value) else OtherProtocol) :: protocols_of rest
  | _ => []
  end.
Definition parse_address (s : string) : option (list protocol) :=
  Some (protocols_of (split_slashes (chars s))).

Definition validate_bootstrap_checks_peer_id_consistency : bool :=
  let peer := "12D3KooWDmYmHPsTGDi9QNvEDURikkhWoj2wWEnSjwvQeDXmhak3" in
  let addr := String.append "/ip4/127.0.0.1/tcp/4001/p2p/" peer in
  let url := "http://orch:9000/api/v1/p2p/bootstrap" in
  on_ok (validate_bootstrap Some parse_address url (mkBootstrapResponse peer "abc" [addr]))
    (fun bootstrap =>
       same bootstrap.(ob_public_key_b64) "abc" && same (length bootstrap.(multiaddrs)) 1%nat
       && same bootstrap.(source_url) url).

(** ** [src/infra/metrics.rs] *)

(** The registry gathers a metric without labels always, one with labels once a
    combination of them was used. *)
Definition call_name (c : metric_call) : string :=
  match c with Inc n _ _ | SetGauge n _ _ | Observe n _ => n end.
Definition gathered (calls : list metric_call) : list string :=
  map m_name (List.filter (fun m =>
    same m.(m_labels) [] || bool_decide (m.(m_name) ∈ map call_name calls)) catalog).

Definition metrics_encode_includes_catalog : bool :=
  on_some (init (fun _ => true) 0 initial_statics) (fun '(m, c0) =>
    on_some (record_all [CoreError_ true; ResultDelivery "retry" "error"; OrchestratorConnected true;
                    ConnectedPeers 2] m)
      (fun '(_, calls) =>
         forallb (fun name => bool_decide (name ∈ gathered (c0 ++ calls)))
           ["wqc_node_info"; "wqc_node_core_timeouts_total"; "wqc_node_p2p_orchestrator_connected";
            "wqc_node_result_deliveries_total"])).

(** ** [src/transport/p2p/host.rs] *)

Definition bootstrap_redial_delay_is_exponential_and_capped : bool :=
  same (bootstrap_redial_delay 0) 1 && same (bootstrap_redial_delay 1) 2
  && same (bootstrap_redial_delay 2) 4 && same (bootstrap_redial_delay 10) 60
  && same (bootstrap_redial_delay 100) 60.

(** All of them pass. *)
Example app_tests_pass :
  forallb (fun t => t)
    [scalar_limit_uses_mps_width_and_other_modes_stay_dense;
     dispatch_payload_matches_ignores_node_id;
     dispatch_payload_rejects_different_circuit;
     failure_reason_includes_the_cause;
     validate_bootstrap_checks_peer_id_consistency;
     metrics_encode_includes_catalog;
     bootstrap_redial_delay_is_exponential_and_capped] = true.
Proof. vm_compute. reflexivity. Qed.
